(** * Physical inventory reconciliation (addons/stock/models/stock_inventory.py)

    A shallow embedding of the [stock.inventory] and [stock.inventory.line]
    models.  The records are Rocq records; the record store is an explicit
    state threaded through a small state-and-exception monad in which each
    method reads as in the Python; a nullable many2one is an [option] of an
    id (Python's [False] is [None]), and record ids are the positive
    integers the store hands out, so that [x.id or False] is [x.id].

    Quantities are exact rationals: neither the binary rounding of
    Python's floats nor the decimal precision of the Float fields is
    modelled.  A recordset is the list of its records in the order of the
    table; access rights and record rules are not modelled. *)

From Stdlib Require Import ZArith QArith Qround Qabs String List Bool Lia Lqa.
Import ListNotations.

Local Open Scope string_scope.
Local Open Scope list_scope.
Local Open Scope Z_scope.

(** ** Quantities and the rounding helpers *)

Module FloatUtils.

Local Open Scope Q_scope.

Definition Qltb (a b : Q) : bool := negb (Qle_bool b a).

(** Modelled from the spec: [odoo.tools.float_round], [float_is_zero] and
    [float_compare] are imported by the module but their code is not among
    the sources; the spec only speaks of a "rounding tolerance".  They are
    taken here over exact rationals: [float_round] rounds [value] to the
    nearest multiple of [precision_rounding], halves away from zero;
    [float_is_zero] holds when the rounded value is smaller than one
    rounding step; [float_compare] compares the two rounded values. *)
Definition float_round (value precision_rounding : Q) : Q :=
  if Qeq_bool precision_rounding 0 || Qeq_bool value 0 then 0
  else
    let normalized_value := value / precision_rounding in
    let rounded_value := inject_Z (Qfloor (Qabs normalized_value + (1 # 2))) in
    (if Qltb normalized_value 0 then - rounded_value else rounded_value)
    * precision_rounding.

Definition float_is_zero (value precision_rounding : Q) : bool :=
  Qltb (Qabs (float_round value precision_rounding)) precision_rounding.

Definition float_compare (value1 value2 precision_rounding : Q) : Z :=
  let value1 := float_round value1 precision_rounding in
  let value2 := float_round value2 precision_rounding in
  let delta := value1 - value2 in
  if float_is_zero delta precision_rounding then 0%Z
  else if Qltb delta 0 then (-1)%Z else 1%Z.

End FloatUtils.

Import FloatUtils.

(** ** Records

    Record ids are the positive integers handed out by the store.  A
    many2one that may be empty is an [option]: [None] is the empty record,
    on which every field reads as its falsy value. *)

Definition rec_id := Z.
Definition many2one := option rec_id.
Definition datetime := Z.

Definition many2one_eqb (a b : many2one) : bool :=
  match a, b with
  | Some x, Some y => x =? y
  | None, None => true
  | _, _ => false
  end.

(** [x in ids] *)
Definition mem (x : rec_id) (ids : list rec_id) : bool := existsb (Z.eqb x) ids.

(** A recordset keeps one occurrence of each record. *)
Fixpoint uniq (ids : list rec_id) : list rec_id :=
  match ids with
  | [] => []
  | x :: rest => x :: filter (fun y => negb (y =? x)) (uniq rest)
  end.

Module State.
Inductive t := draft | cancel | confirm | done.
Definition eqb (a b : t) : bool :=
  match a, b with
  | draft, draft | cancel, cancel | confirm, confirm | done, done => true
  | _, _ => false
  end.
End State.

Module Prefill.
Inductive t := counted | zero.
End Prefill.

Module Tracking.
Inductive t := serial | lot | none.
End Tracking.

Module ProductType.
Inductive t := consu | service | product.
End ProductType.

Module Usage.
Inductive t := supplier | view | internal | customer | inventory | production | transit.
Definition internal_or_transit (u : t) : bool :=
  match u with internal | transit => true | _ => false end.
End Usage.

Module MoveState.
Inductive t := draft | waiting | confirmed | partially_available | assigned | done | cancel.
Definition is_done (s : t) : bool := match s with done => true | _ => false end.
End MoveState.

(** The models whose records a company check is called on. *)
Module Model.
Inductive t := stock_inventory | stock_inventory_line.
End Model.

Module Uom.
Record t := mk { id : rec_id; category_id : rec_id; rounding : Q }.
End Uom.

Module Product.
Record t := mk {
  id : rec_id;
  display_name : string;
  uom_id : rec_id;
  tracking : Tracking.t;
  type : ProductType.t;
  active : bool;
  company_id : many2one }.
End Product.

Module Lot.
Record t := mk { id : rec_id; product_id : rec_id }.
End Lot.

Module Warehouse.
Record t := mk {
  id : rec_id;
  company_id : rec_id;
  lot_stock_id : rec_id;
  view_location_id : rec_id }.
End Warehouse.

(** [parent_path] is the slash-delimited id chain of the location, root
    first and the location itself last ("1/7/12/"); it is held as the list
    of its ids ([1; 7; 12]). *)
Module Location.
Record t := mk {
  id : rec_id;
  name : string;
  company_id : many2one;
  usage : Usage.t;
  active : bool;
  parent_path : list rec_id;
  next_inventory_date : option Z;
  last_inventory_date : option datetime }.

Definition set_last_inventory_date (d : datetime) (l : t) : t :=
  mk (id l) (name l) (company_id l) (usage l) (active l) (parent_path l)
     (next_inventory_date l) (Some d).
End Location.

Module Quant.
Record t := mk {
  id : rec_id;
  product_id : rec_id;
  location_id : rec_id;
  lot_id : many2one;
  package_id : many2one;
  owner_id : many2one;
  company_id : rec_id;
  quantity : Q }.
End Quant.

Module Inventory.
Record t := mk {
  id : rec_id;
  name : string;
  date : datetime;
  state : State.t;
  company_id : rec_id;
  location_ids : list rec_id;
  product_ids : list rec_id;
  start_empty : bool;
  prefill_counted_quantity : Prefill.t;
  exhausted : bool;
  is_conflict_inventory : bool;
  lot_ids : list rec_id;
  create_date : datetime }.

Definition set_state_date (s : State.t) (d : datetime) (i : t) : t :=
  mk (id i) (name i) d s (company_id i) (location_ids i) (product_ids i)
     (start_empty i) (prefill_counted_quantity i) (exhausted i)
     (is_conflict_inventory i) (lot_ids i) (create_date i).
End Inventory.

(** The dimension key of a line or of a group of quants:
    (product, location, lot, package, owner). *)
Definition dimension_key : Type :=
  (many2one * many2one * many2one * many2one * many2one)%type.

Definition key_eqb (a b : dimension_key) : bool :=
  let '(p, l, s, k, o) := a in
  let '(p', l', s', k', o') := b in
  many2one_eqb p p' && many2one_eqb l l' && many2one_eqb s s'
  && many2one_eqb k k' && many2one_eqb o o'.

Module Line.
Record t := mk {
  id : rec_id;
  is_editable : bool;
  inventory_id : many2one;
  partner_id : many2one;
  product_id : many2one;
  product_uom_id : many2one;
  product_qty : Q;
  location_id : many2one;
  package_id : many2one;
  prod_lot_id : many2one;
  theoretical_qty : Q;
  inventory_date : datetime }.

Definition key (l : t) : dimension_key :=
  (product_id l, location_id l, prod_lot_id l, package_id l, partner_id l).

Definition set_product_uom_id (v : many2one) (l : t) : t :=
  mk (id l) (is_editable l) (inventory_id l) (partner_id l) (product_id l) v
     (product_qty l) (location_id l) (package_id l) (prod_lot_id l)
     (theoretical_qty l) (inventory_date l).
Definition set_prod_lot_id (v : many2one) (l : t) : t :=
  mk (id l) (is_editable l) (inventory_id l) (partner_id l) (product_id l)
     (product_uom_id l) (product_qty l) (location_id l) (package_id l) v
     (theoretical_qty l) (inventory_date l).
Definition set_product_qty (v : Q) (l : t) : t :=
  mk (id l) (is_editable l) (inventory_id l) (partner_id l) (product_id l)
     (product_uom_id l) v (location_id l) (package_id l) (prod_lot_id l)
     (theoretical_qty l) (inventory_date l).
Definition set_theoretical_qty (v : Q) (l : t) : t :=
  mk (id l) (is_editable l) (inventory_id l) (partner_id l) (product_id l)
     (product_uom_id l) (product_qty l) (location_id l) (package_id l)
     (prod_lot_id l) v (inventory_date l).
End Line.

(** The value dict of a line given to [create].  A key that is absent and
    a many2one that is [False] are both [None]; the quantities tell absent
    from given. *)
Module LineVals.
Record t := mk {
  inventory_id : many2one;
  product_id : many2one;
  location_id : many2one;
  prod_lot_id : many2one;
  package_id : many2one;
  partner_id : many2one;
  product_uom_id : many2one;
  product_qty : option Q;
  theoretical_qty : option Q }.

Definition set_theoretical_qty (q : Q) (v : t) : t :=
  mk (inventory_id v) (product_id v) (location_id v) (prod_lot_id v)
     (package_id v) (partner_id v) (product_uom_id v) (product_qty v) (Some q).
Definition set_product_uom_id (u : many2one) (v : t) : t :=
  mk (inventory_id v) (product_id v) (location_id v) (prod_lot_id v)
     (package_id v) (partner_id v) u (product_qty v) (theoretical_qty v).

Definition key (v : t) : dimension_key :=
  (product_id v, location_id v, prod_lot_id v, package_id v, partner_id v).
End LineVals.

(** The value dict given to [write]: [None] is a key that is absent. *)
Module LineWrite.
Record t := mk {
  is_editable : option bool;
  inventory_id : option many2one;
  partner_id : option many2one;
  product_id : option many2one;
  product_uom_id : option many2one;
  product_qty : option Q;
  location_id : option many2one;
  package_id : option many2one;
  prod_lot_id : option many2one;
  theoretical_qty : option Q;
  inventory_date : option datetime }.

Definition or_else {A} (o : option A) (d : A) : A :=
  match o with Some x => x | None => d end.

Definition apply (w : t) (l : Line.t) : Line.t :=
  Line.mk (Line.id l)
          (or_else (is_editable w) (Line.is_editable l))
          (or_else (inventory_id w) (Line.inventory_id l))
          (or_else (partner_id w) (Line.partner_id l))
          (or_else (product_id w) (Line.product_id l))
          (or_else (product_uom_id w) (Line.product_uom_id l))
          (or_else (product_qty w) (Line.product_qty l))
          (or_else (location_id w) (Line.location_id l))
          (or_else (package_id w) (Line.package_id l))
          (or_else (prod_lot_id w) (Line.prod_lot_id l))
          (or_else (theoretical_qty w) (Line.theoretical_qty l))
          (or_else (inventory_date w) (Line.inventory_date l)).
End LineWrite.

(** The values of a [stock.move.line] and of a [stock.move], as
    [_get_move_values] builds them. *)
Module MoveLine.
Record t := mk {
  product_id : many2one;
  lot_id : many2one;
  product_uom_qty : Q;
  product_uom_id : many2one;
  qty_done : Q;
  package_id : many2one;
  result_package_id : many2one;
  location_id : many2one;
  location_dest_id : many2one;
  owner_id : many2one }.
End MoveLine.

Module MoveVals.
Record t := mk {
  name : string;
  product_id : many2one;
  product_uom : many2one;
  product_uom_qty : Q;
  date : option datetime;
  company_id : many2one;
  inventory_id : many2one;
  state : MoveState.t;
  restrict_partner_id : many2one;
  location_id : many2one;
  location_dest_id : many2one;
  move_line_ids : list MoveLine.t }.

Definition set_state (s : MoveState.t) (v : t) : t :=
  mk (name v) (product_id v) (product_uom v) (product_uom_qty v) (date v)
     (company_id v) (inventory_id v) s (restrict_partner_id v)
     (location_id v) (location_dest_id v) (move_line_ids v).
End MoveVals.

Module Move.
Record t := mk { id : rec_id; vals : MoveVals.t }.
End Move.

(** ** The environment and the record store *)

(** What the methods read from their collaborators and never write: the
    clock, the user's groups, the product catalogue, the warehouses and
    the stock ledger.  [property_stock_inventory] is the company-dependent
    virtual adjustment location of a product; [get_theoretical_quantity] is
    the ledger's single-key lookup (product, location, lot, package, owner,
    unit of measure). *)
Record environment := {
  now : datetime;
  today : Z;
  today_midnight : datetime;
  group_stock_manager : bool;
  group_stock_multi_locations : bool;
  products : list Product.t;
  uoms : list Uom.t;
  lots : list Lot.t;
  warehouses : list Warehouse.t;
  quants : list Quant.t;
  property_stock_inventory : rec_id -> many2one -> many2one;
  get_theoretical_quantity :
    rec_id -> rec_id -> many2one -> many2one -> many2one -> many2one -> Q }.

(** The tables the methods write, with the id sequences of the tables
    they insert into. *)
Record db := {
  inventories : list Inventory.t;
  lines : list Line.t;
  moves : list Move.t;
  locations : list Location.t;
  inventory_seq : rec_id;
  line_seq : rec_id;
  move_seq : rec_id }.

Definition set_inventories (x : list Inventory.t) (s : db) : db :=
  Build_db x (lines s) (moves s) (locations s)
           (inventory_seq s) (line_seq s) (move_seq s).
Definition set_lines (x : list Line.t) (s : db) : db :=
  Build_db (inventories s) x (moves s) (locations s)
           (inventory_seq s) (line_seq s) (move_seq s).
Definition set_moves (x : list Move.t) (s : db) : db :=
  Build_db (inventories s) (lines s) x (locations s)
           (inventory_seq s) (line_seq s) (move_seq s).
Definition set_locations (x : list Location.t) (s : db) : db :=
  Build_db (inventories s) (lines s) (moves s) x
           (inventory_seq s) (line_seq s) (move_seq s).

(** ** Exceptions and the state monad of a method call

    A method is a function of the store; a raised exception comes back with
    the store as it was when it was raised.  The surrounding transaction,
    [atomic], drops whatever a failed call had written. *)

Inductive exn :=
| UserError (msg : string)
| ValidationError (msg : string)
| IntegrityError (msg : string).

Definition M (A : Type) : Type := db -> (exn + A) * db.

Definition ret {A} (a : A) : M A := fun s => (inr a, s).

Definition bind {A B} (m : M A) (k : A -> M B) : M B :=
  fun s => match m s with
           | (inl e, s') => (inl e, s')
           | (inr a, s') => k a s'
           end.

Definition raise {A} (e : exn) : M A := fun s => (inl e, s).
Definition get : M db := fun s => (inr s, s).
Definition modify (f : db -> db) : M unit := fun s => (inr tt, f s).

Declare Scope orm_scope.
Delimit Scope orm_scope with orm.
Notation "x <- m ;; k" := (bind m (fun x => k))
  (at level 100, m at next level, right associativity) : orm_scope.
Notation "m ;; k" := (bind m (fun _ => k))
  (at level 100, right associativity) : orm_scope.
Local Open Scope orm_scope.

(** [for x in xs: body(x)] *)
Fixpoint for_each {A} (xs : list A) (body : A -> M unit) : M unit :=
  match xs with
  | [] => ret tt
  | x :: rest => body x ;; for_each rest body
  end.

Definition when_ (c : bool) (m : M unit) : M unit := if c then m else ret tt.

Definition atomic {A} (m : M A) : M A :=
  fun s => match m s with
           | (inl e, _) => (inl e, s)
           | ok => ok
           end.

Definition filter_map {A B} (f : A -> option B) (xs : list A) : list B :=
  flat_map (fun x => match f x with Some y => [y] | None => [] end) xs.

(** ** Reading records *)

Section Browse.
Variable E : environment.

Definition browse_product (p : many2one) : option Product.t :=
  match p with
  | Some i => find (fun r => Product.id r =? i) (products E)
  | None => None
  end.

Definition browse_uom (u : many2one) : option Uom.t :=
  match u with
  | Some i => find (fun r => Uom.id r =? i) (uoms E)
  | None => None
  end.

Definition browse_lot (l : many2one) : option Lot.t :=
  match l with
  | Some i => find (fun r => Lot.id r =? i) (lots E)
  | None => None
  end.

(** [product.uom_id], [product.tracking], [product.type] *)
Definition product_uom_id (p : many2one) : many2one :=
  option_map Product.uom_id (browse_product p).
Definition product_tracking (p : many2one) : option Tracking.t :=
  option_map Product.tracking (browse_product p).
Definition product_type (p : many2one) : option ProductType.t :=
  option_map Product.type (browse_product p).
Definition product_active (p : rec_id) : bool :=
  match browse_product (Some p) with
  | Some r => Product.active r
  | None => false
  end.

(** [uom.rounding] (0.0 on the empty record) and [uom.category_id] *)
Definition uom_rounding (u : many2one) : Q :=
  match browse_uom u with
  | Some r => Uom.rounding r
  | None => 0%Q
  end.
Definition uom_category_id (u : many2one) : many2one :=
  option_map Uom.category_id (browse_uom u).

(** [lot.product_id] *)
Definition lot_product_id (l : many2one) : many2one :=
  option_map Lot.product_id (browse_lot l).
End Browse.

Definition browse_inventory (s : db) (i : many2one) : option Inventory.t :=
  match i with
  | Some i => find (fun r => Inventory.id r =? i) (inventories s)
  | None => None
  end.

Definition browse_line (s : db) (i : rec_id) : option Line.t :=
  find (fun r => Line.id r =? i) (lines s).

(** The recordset [ids], read in the store. *)
Definition browse_lines (s : db) (ids : list rec_id) : list Line.t :=
  filter_map (browse_line s) ids.

(** [inventory.line_ids] and [inventory.move_ids], the one2many inverses of
    [inventory_id]. *)
Definition line_ids (s : db) (inv : rec_id) : list Line.t :=
  filter (fun l => many2one_eqb (Line.inventory_id l) (Some inv)) (lines s).

Definition move_ids (s : db) (inv : rec_id) : list Move.t :=
  filter (fun m => many2one_eqb (MoveVals.inventory_id (Move.vals m)) (Some inv))
         (moves s).

(** The related fields [line.state] and [line.company_id]. *)
Definition line_state (s : db) (l : Line.t) : option State.t :=
  option_map Inventory.state (browse_inventory s (Line.inventory_id l)).

Definition line_company_id (s : db) (l : Line.t) : many2one :=
  option_map Inventory.company_id (browse_inventory s (Line.inventory_id l)).

(** ** The stock ledger's moves *)

(** Modelled from the spec: [stock.move] is the external ledger entity;
    of its operations [createMove], deletion and [postMoves] the sources
    hold only the calls.  Creating gives each value dict a fresh id and
    stores it; deleting removes the rows; posting marks a move done. *)
Fixpoint number_moves (first : rec_id) (vals_list : list MoveVals.t) : list Move.t :=
  match vals_list with
  | [] => []
  | v :: rest => Move.mk first v :: number_moves (first + 1) rest
  end.

Definition stock_move_create (vals_list : list MoveVals.t) : M (list Move.t) :=
  fun s =>
    let created := number_moves (move_seq s) vals_list in
    (inr created,
     Build_db (inventories s) (lines s) (moves s ++ created) (locations s)
              (inventory_seq s) (line_seq s)
              (move_seq s + Z.of_nat (List.length vals_list))).

Definition stock_move_unlink (self : list Move.t) : M unit :=
  modify (fun s =>
    set_moves (filter (fun m => negb (mem (Move.id m) (map Move.id self)))
                      (moves s)) s).

Definition stock_move_action_done (self : list Move.t) : M unit :=
  modify (fun s =>
    set_moves (map (fun m =>
                 if mem (Move.id m) (map Move.id self)
                 then Move.mk (Move.id m) (MoveVals.set_state MoveState.done (Move.vals m))
                 else m) (moves s)) s).

(** ** Generating the correcting moves *)

Section Moves.
Variable E : environment.

Local Open Scope Q_scope.

(** [_compute_difference] *)
Definition difference_qty (line : Line.t) : Q :=
  Line.product_qty line - Line.theoretical_qty line.

Definition _get_move_values (s : db) (self : Line.t) (qty : Q)
           (location_id location_dest_id : many2one) (out : bool) : MoveVals.t :=
  let inventory := browse_inventory s (Line.inventory_id self) in
  MoveVals.mk
    (String.append "INV:"
       match inventory with Some i => Inventory.name i | None => EmptyString end)
    (Line.product_id self)
    (Line.product_uom_id self)
    qty
    (option_map Inventory.date inventory)
    (option_map Inventory.company_id inventory)
    (Line.inventory_id self)
    MoveState.confirmed
    (Line.partner_id self)
    location_id
    location_dest_id
    [MoveLine.mk
       (Line.product_id self)
       (Line.prod_lot_id self)
       0
       (Line.product_uom_id self)
       qty
       (if out then Line.package_id self else None)
       (if negb out then Line.package_id self else None)
       location_id
       location_dest_id
       (Line.partner_id self)].

Definition _get_virtual_location (s : db) (self : Line.t) : many2one :=
  match Line.product_id self with
  | Some p => property_stock_inventory E p (line_company_id s self)
  | None => None
  end.

(** One turn of the loop of [_generate_moves]: [None] is [continue]. *)
Definition line_move_values (s : db) (line : Line.t) : option MoveVals.t :=
  let virtual_location := _get_virtual_location s line in
  let rounding := uom_rounding E (product_uom_id E (Line.product_id line)) in
  if float_is_zero (difference_qty line) rounding then None
  else if Qltb 0 (difference_qty line) then
    Some (_get_move_values s line (difference_qty line)
                           virtual_location (Line.location_id line) false)
  else
    Some (_get_move_values s line (Qabs (difference_qty line))
                           (Line.location_id line) virtual_location true).

Definition _generate_moves (self : list Line.t) : M (list Move.t) :=
  s <- get ;;
  let vals_list := filter_map (line_move_values s) self in
  stock_move_create vals_list.
End Moves.

(** ** The inventory's transitions *)

Section Transitions.
Variable E : environment.

Definition browse_inventories (s : db) (self : list rec_id) : list Inventory.t :=
  filter_map (fun i => browse_inventory s (Some i)) self.

Definition not_done_or_cancel (x : Inventory.t) : bool :=
  match Inventory.state x with
  | State.done | State.cancel => false
  | _ => true
  end.

Definition action_check (self : list rec_id) : M unit :=
  s <- get ;;
  for_each (filter not_done_or_cancel (browse_inventories s self))
    (fun inventory =>
       s <- get ;;
       stock_move_unlink (move_ids s (Inventory.id inventory)) ;;
       s <- get ;;
       _generate_moves E (line_ids s (Inventory.id inventory)) ;;
       ret tt).

Definition post_inventory (self : list rec_id) : M bool :=
  s <- get ;;
  stock_move_action_done
    (filter (fun move => negb (MoveState.is_done (MoveVals.state (Move.vals move))))
            (flat_map (move_ids s) self)) ;;
  ret true.

(** [self.write({'state': ..., 'date': ...})] *)
Definition inventory_write_state_date (self : list rec_id)
           (state : State.t) (date : datetime) : M unit :=
  modify (fun s =>
    set_inventories
      (map (fun i => if mem (Inventory.id i) self
                     then Inventory.set_state_date state date i else i)
           (inventories s)) s).

(** [('id', 'child_of', ids)] on locations *)
Definition child_of (ids : list rec_id) (l : Location.t) : bool :=
  existsb (fun a => mem a ids) (Location.parent_path l).

Definition negative_line (line : Line.t) : bool :=
  Qltb (Line.product_qty line) 0
  && negb (Qeq_bool (Line.product_qty line) (Line.theoretical_qty line)).

Definition negative_quantity_message : string :=
  "You cannot set a negative product quantity in an inventory line".

Definition _action_done (self : list rec_id) : M bool :=
  s <- get ;;
  match find negative_line (flat_map (line_ids s) self) with
  | Some negative => raise (UserError negative_quantity_message)
  | None =>
      action_check self ;;
      inventory_write_state_date self State.done (now E) ;;
      post_inventory self ;;
      s <- get ;;
      let records := browse_inventories s self in
      let product_ids := flat_map Inventory.product_ids records in
      let location_ids := flat_map Inventory.location_ids records in
      when_ (group_stock_multi_locations E
             && match product_ids with [] => true | _ => false end
             && match location_ids with [] => false | _ => true end)
        (modify (fun s =>
           set_locations
             (map (fun l =>
                     if child_of location_ids l
                        && Usage.internal_or_transit (Location.usage l)
                     then Location.set_last_inventory_date (now E) l else l)
                  (locations s)) s)) ;;
      ret true
  end.

(** What [action_validate] hands back: nothing for a record that is gone,
    the confirmation wizard for the listed products, or [True]. *)
Inductive validate_result :=
| NoRecord
| TrackConfirmation (product_ids : list rec_id)
| Validated.

Definition untracked_difference (l : Line.t) : bool :=
  match product_tracking E (Line.product_id l) with
  | Some Tracking.lot | Some Tracking.serial =>
      match Line.prod_lot_id l with
      | None => negb (Qeq_bool (Line.theoretical_qty l) (Line.product_qty l))
      | Some _ => false
      end
  | _ => false
  end.

Definition serial_above_one (l : Line.t) : bool :=
  (0 <? float_compare (Line.product_qty l) 1
                      (uom_rounding E (Line.product_uom_id l)))
  && match product_tracking E (Line.product_id l) with
     | Some Tracking.serial => true
     | _ => false
     end
  && match Line.prod_lot_id l with Some _ => true | None => false end.

Definition manager_message : string :=
  "Only a stock manager can validate an inventory adjustment.".

Definition not_ready_message (name : string) : string :=
  String.append "You can't validate the inventory '"
    (String.append name
       "', maybe this inventory has been already validated or isn't ready.").

Section Validating.
(** [_check_company] is a method of the record framework, called on the
    lines and on the inventory once [_action_done] is through; it raises
    when a record refers, in a field declared with [check_company], to a
    record of another company.  [action_validate] is embedded over it: an
    error it raises comes after the writes of [_action_done]. *)
Variable _check_company : Model.t -> list rec_id -> M unit.

Definition action_validate (self : rec_id) : M validate_result :=
  s <- get ;;
  match browse_inventory s (Some self) with
  | None => ret NoRecord
  | Some inventory =>
      if negb (group_stock_manager E) then
        raise (UserError manager_message)
      else if negb (State.eqb (Inventory.state inventory) State.confirm) then
        raise (UserError (not_ready_message (Inventory.name inventory)))
      else
        let inventory_lines := filter untracked_difference (line_ids s self) in
        let lines := filter serial_above_one (line_ids s self) in
        match inventory_lines, lines with
        | _ :: _, [] =>
            ret (TrackConfirmation
                   (uniq (filter_map Line.product_id inventory_lines)))
        | _, _ =>
            _action_done [self] ;;
            s <- get ;;
            _check_company Model.stock_inventory_line
                           (map Line.id (line_ids s self)) ;;
            _check_company Model.stock_inventory [self] ;;
            ret Validated
        end
  end.
End Validating.
End Transitions.

(** ** Creating and writing lines *)

Fixpoint map_m {A B} (f : A -> M B) (xs : list A) : M (list B) :=
  match xs with
  | [] => ret []
  | x :: rest => y <- f x ;; ys <- map_m f rest ;; ret (y :: ys)
  end.

Definition is_set {A} (l : list A) : bool :=
  match l with [] => false | _ :: _ => true end.

Definition is_some {A} (o : option A) : bool :=
  match o with Some _ => true | None => false end.

Section Lines.
Variable E : environment.

Definition duplicate_line_message : string :=
  "There is already one inventory adjustment line for this product, you should rather modify this one instead of creating a new one.".

(** The search domain of [_check_no_duplicate_line]. *)
Definition duplicate_of (line other : Line.t) : bool :=
  negb (Line.id other =? Line.id line)
  && many2one_eqb (Line.product_id other) (Line.product_id line)
  && many2one_eqb (Line.location_id other) (Line.location_id line)
  && many2one_eqb (Line.partner_id other) (Line.partner_id line)
  && many2one_eqb (Line.package_id other) (Line.package_id line)
  && many2one_eqb (Line.prod_lot_id other) (Line.prod_lot_id line)
  && many2one_eqb (Line.inventory_id other) (Line.inventory_id line).

Definition _check_no_duplicate_line (self : list rec_id) : M unit :=
  for_each self (fun i =>
    s <- get ;;
    match browse_line s i with
    | None => ret tt
    | Some line =>
        let existings := List.length (filter (duplicate_of line) (lines s)) in
        if (0 <? Z.of_nat existings) then raise (UserError duplicate_line_message)
        else ret tt
    end).

Definition _check_product_id (self : list rec_id) : M unit :=
  for_each self (fun i =>
    s <- get ;;
    match browse_line s i with
    | None => ret tt
    | Some line =>
        match product_type E (Line.product_id line) with
        | Some ProductType.product => ret tt
        | _ => raise (ValidationError "You can only adjust storable products.")
        end
    end).

(** The row that the record framework makes of a value dict, the defaults
    filled in: [product_qty] 0, [inventory_date] now. *)
Definition line_of_values (i : rec_id) (v : LineVals.t) : Line.t :=
  Line.mk i false (LineVals.inventory_id v)
          (LineVals.partner_id v) (LineVals.product_id v)
          (LineVals.product_uom_id v)
          (LineWrite.or_else (LineVals.product_qty v) 0%Q)
          (LineVals.location_id v) (LineVals.package_id v)
          (LineVals.prod_lot_id v)
          (LineWrite.or_else (LineVals.theoretical_qty v) 0%Q)
          (now E).

Definition has_required (v : LineVals.t) : bool :=
  is_some (LineVals.product_id v) && is_some (LineVals.location_id v)
  && is_some (LineVals.product_uom_id v).

(** The record framework's [create]: a row per value dict, refused when a
    required column is empty, then the constraint on the product.  The
    model does not set [_check_company_auto]: the framework runs no
    company check of its own here. *)
Definition orm_insert_line (v : LineVals.t) : M rec_id :=
  if has_required v
  then
    fun s =>
      (inr (line_seq s),
       Build_db (inventories s) (lines s ++ [line_of_values (line_seq s) v])
                (moves s) (locations s)
                (inventory_seq s) (line_seq s + 1) (move_seq s))
  else raise (IntegrityError "null value in a required column").

Definition orm_create_lines (vals_list : list LineVals.t) : M (list rec_id) :=
  res <- map_m orm_insert_line vals_list ;;
  _check_product_id res ;;
  ret res.

(** The loop that opens [create]: the theoretical quantity and the unit
    of measure of a dict that lacks them. *)
Definition prepare_values (values : LineVals.t) : M LineVals.t :=
  values <-
    match LineVals.theoretical_qty values with
    | Some _ => ret values
    | None =>
        match LineVals.product_id values, LineVals.location_id values with
        | Some p, Some l =>
            ret (LineVals.set_theoretical_qty
                   (get_theoretical_quantity E p l
                      (LineVals.prod_lot_id values) (LineVals.package_id values)
                      (LineVals.partner_id values) (LineVals.product_uom_id values))
                   values)
        | _, _ => raise (IntegrityError "KeyError")
        end
    end ;;
  if is_some (LineVals.product_id values)
     && negb (is_some (LineVals.product_uom_id values))
  then ret (LineVals.set_product_uom_id
              (product_uom_id E (LineVals.product_id values)) values)
  else ret values.

Definition create (vals_list : list LineVals.t) : M (list rec_id) :=
  vals_list <- map_m prepare_values vals_list ;;
  res <- orm_create_lines vals_list ;;
  _check_no_duplicate_line res ;;
  ret res.

Definition writes_null (o : option many2one) : bool :=
  match o with Some None => true | _ => false end.

(** The record framework's [write]: refused when it would empty a
    required column, else the rows of [self] updated, then the constraint
    on the product when the product is written.  As for [create], the
    framework runs no company check of its own. *)
Definition orm_write_lines (self : list rec_id) (vals : LineWrite.t) : M unit :=
  s <- get ;;
  if is_set (browse_lines s self)
     && (writes_null (LineWrite.product_id vals)
         || writes_null (LineWrite.location_id vals)
         || writes_null (LineWrite.product_uom_id vals))
  then raise (IntegrityError "null value in a required column")
  else
    modify (fun s =>
      set_lines (map (fun l => if mem (Line.id l) self
                               then LineWrite.apply vals l else l)
                     (lines s)) s) ;;
    when_ (is_some (LineWrite.product_id vals)) (_check_product_id self).

Definition write (self : list rec_id) (vals : LineWrite.t) : M bool :=
  orm_write_lines self vals ;;
  _check_no_duplicate_line self ;;
  ret true.

Definition state_is_done (st : option State.t) : bool :=
  match st with Some State.done => true | _ => false end.

(** [{'product_qty': 0}] *)
Definition product_qty_zero : LineWrite.t :=
  LineWrite.mk None None None None None (Some 0%Q) None None None None None.

Definition action_reset_product_qty (self : list rec_id) : M unit :=
  s <- get ;;
  let impacted_lines :=
    filter (fun line => negb (state_is_done (line_state s line)))
           (browse_lines s self) in
  write (map Line.id impacted_lines) product_qty_zero ;;
  ret tt.

(** [_onchange_quantity_context], on the record of the form. *)
Definition _onchange_quantity_context (self : Line.t) : Line.t :=
  let self :=
    if is_some (Line.product_id self)
    then Line.set_product_uom_id (product_uom_id E (Line.product_id self)) self
    else self in
  let theoretical_qty :=
    match Line.product_id self, Line.location_id self with
    | Some p, Some l =>
        if many2one_eqb (uom_category_id E (product_uom_id E (Some p)))
                        (uom_category_id E (Line.product_uom_id self))
        then get_theoretical_quantity E p l (Line.prod_lot_id self)
               (Line.package_id self) (Line.partner_id self)
               (Line.product_uom_id self)
        else 0%Q
    | _, _ => 0%Q
    end in
  let self :=
    if is_some (Line.prod_lot_id self)
       && (match product_tracking E (Line.product_id self) with
           | Some Tracking.none => true
           | _ => false
           end
           || negb (many2one_eqb (Line.product_id self)
                                 (lot_product_id E (Line.prod_lot_id self))))
    then Line.set_prod_lot_id None self
    else self in
  let self :=
    if is_some (Line.prod_lot_id self)
       && match product_tracking E (Line.product_id self) with
          | Some Tracking.serial => true
          | _ => false
          end
    then Line.set_product_qty 1%Q self
    else if is_some (Line.product_id self)
            && (float_compare (Line.product_qty self) (Line.theoretical_qty self)
                              (uom_rounding E (Line.product_uom_id self)) =? 0)
    then Line.set_product_qty theoretical_qty self
    else self in
  Line.set_theoretical_qty theoretical_qty self.
End Lines.

(** ** The quantity snapshot and the lines of a starting inventory *)

Section Snapshot.
Variable E : environment.

Definition quant_key (q : Quant.t) : dimension_key :=
  (Some (Quant.product_id q), Some (Quant.location_id q),
   Quant.lot_id q, Quant.package_id q, Quant.owner_id q).

(** [read_group] by the five dimensions with [quantity:sum]: one entry
    per key, in the order the keys are met. *)
Fixpoint add_to_group (k : dimension_key) (q : Q)
         (groups : list (dimension_key * Q)) : list (dimension_key * Q) :=
  match groups with
  | [] => [(k, q)]
  | (k', q') :: rest =>
      if key_eqb k' k then (k', (q' + q)%Q) :: rest
      else (k', q') :: add_to_group k q rest
  end.

Definition read_group (rows : list Quant.t) : list (dimension_key * Q) :=
  fold_left (fun groups row => add_to_group (quant_key row) (Quant.quantity row) groups)
            rows [].

(** The locations the snapshot covers: [search_read] leaves archived
    locations out. *)
Definition snapshot_location_ids (s : db) (self : Inventory.t) : list rec_id :=
  let domain_loc (l : Location.t) :=
    if is_set (Inventory.location_ids self)
    then child_of (Inventory.location_ids self) l
    else many2one_eqb (Location.company_id l) (Some (Inventory.company_id self))
         && Usage.internal_or_transit (Location.usage l) in
  map Location.id
      (filter (fun l => Location.active l && domain_loc l) (locations s)).

Definition prefill_is_zero (p : Prefill.t) : bool :=
  match p with Prefill.zero => true | Prefill.counted => false end.

(** The domain of [_get_quantities] on one quant. *)
Definition quant_domain (s : db) (self : Inventory.t) (q : Quant.t) : bool :=
  (Quant.company_id q =? Inventory.company_id self)
  && mem (Quant.location_id q) (snapshot_location_ids s self)
  && (if prefill_is_zero (Inventory.prefill_counted_quantity self)
      then product_active E (Quant.product_id q) else true)
  && (if is_set (Inventory.lot_ids self)
      then match Quant.lot_id q with
           | Some l => mem l (Inventory.lot_ids self)
           | None => false
           end
      else true)
  && (if Inventory.is_conflict_inventory self && negb (is_set (Inventory.lot_ids self))
      then Qltb (Quant.quantity q) 0
      else negb (Qeq_bool (Quant.quantity q) 0))
  && (if is_set (Inventory.product_ids self)
      then mem (Quant.product_id q) (Inventory.product_ids self)
      else true).

Definition _get_quantities (s : db) (self : Inventory.t) : list (dimension_key * Q) :=
  read_group (filter (quant_domain s self) (quants E)).

Definition pair_mem (x : many2one * many2one) (set : list (many2one * many2one)) : bool :=
  existsb (fun y => many2one_eqb (fst y) (fst x) && many2one_eqb (snd y) (snd x)) set.

Definition _get_exhausted_inventory_lines_vals (self : Inventory.t)
           (non_exhausted_set : list (many2one * many2one)) : list LineVals.t :=
  let product_ids :=
    if is_set (Inventory.product_ids self) then Inventory.product_ids self
    else map Product.id
           (filter (fun p =>
                      (many2one_eqb (Product.company_id p) (Some (Inventory.company_id self))
                       || many2one_eqb (Product.company_id p) None)
                      && match Product.type p with
                         | ProductType.product => true
                         | _ => false
                         end
                      && Product.active p)
                   (products E)) in
  let location_ids :=
    if is_set (Inventory.location_ids self) then Inventory.location_ids self
    else uniq (map Warehouse.lot_stock_id
                   (filter (fun w => Warehouse.company_id w =? Inventory.company_id self)
                           (warehouses E))) in
  flat_map (fun product_id =>
    flat_map (fun location_id =>
      if negb (pair_mem (Some product_id, Some location_id) non_exhausted_set)
      then [LineVals.mk (Some (Inventory.id self)) (Some product_id) (Some location_id)
                        None None None None None (Some 0%Q)]
      else [])
      location_ids)
    product_ids.

Definition _get_inventory_lines_values (s : db) (self : Inventory.t) : list LineVals.t :=
  let quants_groups := _get_quantities s self in
  let vals :=
    map (fun '((product_id, location_id, lot_id, package_id, owner_id), quantity) =>
           LineVals.mk (Some (Inventory.id self)) product_id location_id lot_id
                       package_id owner_id
                       (product_uom_id E product_id)
                       (Some (if prefill_is_zero (Inventory.prefill_counted_quantity self)
                              then 0%Q else quantity))
                       (Some quantity))
        quants_groups in
  if Inventory.exhausted self
  then vals ++ _get_exhausted_inventory_lines_vals self
                 (map (fun l => (LineVals.product_id l, LineVals.location_id l)) vals)
  else vals.

Definition is_draft (st : State.t) : bool :=
  match st with State.draft => true | _ => false end.

Definition _action_start (self : list rec_id) : M unit :=
  for_each self (fun i =>
    s <- get ;;
    match browse_inventory s (Some i) with
    | None => ret tt
    | Some inventory =>
        if negb (is_draft (Inventory.state inventory)) then ret tt
        else
          when_ (negb (is_set (line_ids s (Inventory.id inventory)))
                 && negb (Inventory.start_empty inventory))
                (create E (_get_inventory_lines_values s inventory) ;; ret tt) ;;
          inventory_write_state_date [Inventory.id inventory] State.confirm (now E)
    end).
End Snapshot.

(** ** The cyclic-count scheduler *)

Section Scheduler.
Variable E : environment.

(** The conflict-inventory pass that closes [_run_inventory_tasks] is a
    method of its own; the scheduler is embedded over it. *)
Variable _run_conflict_inventory_tasks : many2one -> M unit.

(** [company_domain] on a record's company: any company for the cron,
    the given one for a manual run. *)
Definition company_domain (company_id c : many2one) : bool :=
  match company_id with
  | Some _ => many2one_eqb c company_id
  | None => is_some c
  end.

(** The locations whose [next_inventory_date] has arrived. *)
Definition due_locations (s : db) (company_id : many2one) : list Location.t :=
  filter (fun l =>
            Location.active l
            && match Location.next_inventory_date l with
               | Some d => d <=? today E
               | None => false
               end
            && company_domain company_id (Location.company_id l))
         (locations s).

(** [parent_path.split('/')[:-2]]: the split leaves an empty string after
    the last slash; dropping it and the location's own id leaves the ids
    of the proper ancestors. *)
Definition ancestor_ids (l : Location.t) : list rec_id :=
  removelast (Location.parent_path l).

Definition has_ancestor_in (ids : list rec_id) (l : Location.t) : bool :=
  existsb (fun location_id => mem location_id ids) (ancestor_ids l).

(** [locations.filtered(lambda l: not any(... in locations.ids ...))] *)
Definition without_descendants (locations : list Location.t) : list Location.t :=
  filter (fun l => negb (has_ancestor_in (map Location.id locations) l)) locations.

Definition existing_loc_invs (s : db) : list Inventory.t :=
  filter (fun i =>
            match Inventory.state i with
            | State.draft | State.confirm => true
            | _ => false
            end
            && negb (is_set (Inventory.product_ids i))
            && is_set (Inventory.location_ids i))
         (inventories s).

Definition browse_location (s : db) (i : rec_id) : option Location.t :=
  find (fun l => Location.id l =? i) (locations s).

(** The two branches of the loop over the existing location inventories. *)
Definition superseded (s : db) (locations : list Location.t) (inventory : Inventory.t) : bool :=
  match Inventory.location_ids inventory with
  | [location_id] =>
      match browse_location s location_id with
      | Some location =>
          is_draft (Inventory.state inventory)
          && (has_ancestor_in (map Location.id locations) location
              || (mem location_id (map Location.id locations)
                  && (Inventory.create_date inventory <? today_midnight E)))
      | None => false
      end
  | _ => false
  end.

Definition still_cyclic (s : db) (locations : list Location.t) (inventory : Inventory.t) : bool :=
  match Inventory.location_ids inventory with
  | [location_id] =>
      negb (superseded s locations inventory)
      && mem location_id (map Location.id locations)
  | _ => false
  end.

(** The locations left when the loop is over: those that get a fresh
    inventory in this run. *)
Definition locations_to_inventory (s : db) (company_id : many2one) : list Location.t :=
  let locations := without_descendants (due_locations s company_id) in
  let existing_cyclic_inv := filter (still_cyclic s locations) (existing_loc_invs s) in
  filter (fun l => negb (mem (Location.id l)
                             (flat_map Inventory.location_ids existing_cyclic_inv)))
         locations.

(** Deleting inventories takes their lines along (cascade). *)
Definition inventory_unlink (self : list Inventory.t) : M unit :=
  modify (fun s =>
    let ids := map Inventory.id self in
    set_lines
      (filter (fun l => match Line.inventory_id l with
                        | Some i => negb (mem i ids)
                        | None => true
                        end) (lines s))
      (set_inventories
         (filter (fun i => negb (mem (Inventory.id i) ids)) (inventories s)) s)).

(** [self.create] of one cyclic inventory, the other fields at their
    defaults. *)
Definition create_cyclic_inventory (location : Location.t) : M unit :=
  match Location.company_id location with
  | None => raise (IntegrityError "null value in a required column")
  | Some company =>
      modify (fun s =>
        Build_db
          (inventories s ++
             [Inventory.mk (inventory_seq s)
                (String.append "Reoccuring Inventory for: " (Location.name location))
                (now E) State.draft company [Location.id location] []
                false Prefill.counted false false [] (now E)])
          (lines s) (moves s) (locations s)
          (inventory_seq s + 1) (line_seq s) (move_seq s))
  end.

Definition _run_inventory_tasks (company_id : many2one) : M unit :=
  s <- get ;;
  let locations := due_locations s company_id in
  when_ (is_set locations)
    (let locations := without_descendants locations in
     let invs_to_unlink := filter (superseded s locations) (existing_loc_invs s) in
     let existing_cyclic_inv := filter (still_cyclic s locations) (existing_loc_invs s) in
     inventory_unlink invs_to_unlink ;;
     let locations :=
       filter (fun l => negb (mem (Location.id l)
                                  (flat_map Inventory.location_ids existing_cyclic_inv)))
              locations in
     for_each locations create_cyclic_inventory) ;;
  _run_conflict_inventory_tasks company_id.
End Scheduler.

(** * Specification predicates *)

(** ** One move per counted difference *)

Section MoveSpec.
Variable E : environment.
Variable s : db.

Local Open Scope Q_scope.

(** The rounding [_generate_moves] compares a difference with: that of
    the product's own unit of measure. *)
Definition line_rounding (line : Line.t) : Q :=
  uom_rounding E (product_uom_id E (Line.product_id line)).

(** [v] moves [qty] of the line's product from [src] to [dst], taking it
    out of [src_package] and putting it into [dst_package]. *)
Definition adjustment (line : Line.t) (qty : Q) (src dst : many2one)
           (src_package dst_package : many2one) (v : MoveVals.t) : Prop :=
  MoveVals.product_id v = Line.product_id line
  /\ MoveVals.inventory_id v = Line.inventory_id line
  /\ MoveVals.product_uom_qty v = qty
  /\ MoveVals.location_id v = src
  /\ MoveVals.location_dest_id v = dst
  /\ exists ml,
      MoveVals.move_line_ids v = [ml]
      /\ MoveLine.product_id ml = Line.product_id line
      /\ MoveLine.lot_id ml = Line.prod_lot_id line
      /\ MoveLine.owner_id ml = Line.partner_id line
      /\ MoveLine.qty_done ml = qty
      /\ MoveLine.location_id ml = src
      /\ MoveLine.location_dest_id ml = dst
      /\ MoveLine.package_id ml = src_package
      /\ MoveLine.result_package_id ml = dst_package.

(** What a line is expected to emit: nothing within the tolerance, one
    move into its location when more was counted, one move out of it
    when less was counted. *)
Inductive emitted (line : Line.t) : list MoveVals.t -> Prop :=
| emitted_nothing :
    float_is_zero (difference_qty line) (line_rounding line) = true ->
    emitted line []
| emitted_in v :
    float_is_zero (difference_qty line) (line_rounding line) = false ->
    Line.theoretical_qty line < Line.product_qty line ->
    adjustment line (Line.product_qty line - Line.theoretical_qty line)
               (_get_virtual_location E s line) (Line.location_id line)
               None (Line.package_id line) v ->
    emitted line [v]
| emitted_out v :
    float_is_zero (difference_qty line) (line_rounding line) = false ->
    Line.product_qty line < Line.theoretical_qty line ->
    adjustment line (Qabs (Line.product_qty line - Line.theoretical_qty line))
               (Line.location_id line) (_get_virtual_location E s line)
               (Line.package_id line) None v ->
    emitted line [v].
End MoveSpec.

(** ** A small warehouse *)

Module Demo.
Definition unit_uom : Uom.t := Uom.mk 1 1 (1 # 100).

Definition bolt : Product.t :=
  Product.mk 10 "Bolt" 1 Tracking.none ProductType.product true None.
Definition drill : Product.t :=
  Product.mk 11 "Drill" 1 Tracking.serial ProductType.product true None.

Definition stock : Location.t :=
  Location.mk 21 "Stock" (Some 1) Usage.internal true [20; 21] None None.
Definition shelf : Location.t :=
  Location.mk 22 "Shelf" (Some 1) Usage.internal true [20; 21; 22] None None.

Definition E : environment :=
  {| now := 1000;
     today := 10;
     today_midnight := 900;
     group_stock_manager := true;
     group_stock_multi_locations := true;
     products := [bolt; drill];
     uoms := [unit_uom];
     lots := [Lot.mk 100 11];
     warehouses := [Warehouse.mk 1 1 21 20];
     quants := [Quant.mk 1 10 21 None None None 1 10%Q];
     property_stock_inventory := fun _ _ => Some 5;
     get_theoretical_quantity := fun _ _ _ _ _ _ => 0%Q |}.

Definition adjustment_inventory : Inventory.t :=
  Inventory.mk 1 "Yearly count" 500 State.confirm 1 [21] [] false
               Prefill.counted false false [] 400.

(** Three counted lines: 7 bolts where 10 are expected, 12 bolts in a
    package on the shelf where 10 are expected, and a matching count. *)
Definition short_line : Line.t :=
  Line.mk 1 false (Some 1) None (Some 10) (Some 1) 7%Q
          (Some 21) None None 10%Q 500.
Definition surplus_line : Line.t :=
  Line.mk 2 false (Some 1) None (Some 10) (Some 1) 12%Q
          (Some 22) (Some 70) None 10%Q 500.
Definition matching_line : Line.t :=
  Line.mk 3 false (Some 1) (Some 40) (Some 10) (Some 1) 4%Q
          (Some 21) None None 4%Q 500.

Definition store : db :=
  {| inventories := [adjustment_inventory];
     lines := [short_line; surplus_line; matching_line];
     moves := [];
     locations := [stock; shelf];
     inventory_seq := 2;
     line_seq := 4;
     move_seq := 1 |}.
End Demo.

(** ** Lines of one inventory have distinct keys *)

(** The ids of the stored lines are distinct and below the sequence. *)
Definition lines_wf (s : db) : Prop :=
  NoDup (map Line.id (lines s))
  /\ Forall (fun l => Line.id l < line_seq s) (lines s).

(** No two lines of the same inventory share their dimension key. *)
Definition distinct_keys (s : db) : Prop :=
  forall l l', In l (lines s) -> In l' (lines s) ->
    Line.id l <> Line.id l' ->
    Line.inventory_id l = Line.inventory_id l' ->
    Line.key l <> Line.key l'.

(** The rows a successful insertion of [vals_list] adds. *)
Fixpoint new_lines (E : environment) (first : rec_id) (vals_list : list LineVals.t)
  : list Line.t :=
  match vals_list with
  | [] => []
  | v :: rest => line_of_values E first v :: new_lines E (first + 1) rest
  end.

(** What the loop that opens [create] may change in a value dict: the
    theoretical quantity and the unit of measure, when they were absent. *)
Definition prepared_from (E : environment) (v v' : LineVals.t) : Prop :=
  LineVals.inventory_id v' = LineVals.inventory_id v
  /\ LineVals.key v' = LineVals.key v
  /\ LineVals.product_qty v' = LineVals.product_qty v
  /\ (forall q, LineVals.theoretical_qty v = Some q -> LineVals.theoretical_qty v' = Some q)
  /\ (LineVals.product_uom_id v' = LineVals.product_uom_id v
      \/ LineVals.product_uom_id v' = product_uom_id E (LineVals.product_id v)).

(** The row [i] after [write(vals)] on [self]. *)
Definition written (self : list rec_id) (vals : LineWrite.t) (l : Line.t) : Line.t :=
  if mem (Line.id l) self then LineWrite.apply vals l else l.

Definition has_duplicate (s : db) (i : rec_id) : bool :=
  match browse_line s i with
  | Some line => existsb (duplicate_of line) (lines s)
  | None => false
  end.

Definition not_storable (E : environment) (s : db) (i : rec_id) : bool :=
  match browse_line s i with
  | Some line =>
      match product_type E (Line.product_id line) with
      | Some ProductType.product => false
      | _ => true
      end
  | None => false
  end.

Module DemoLines.
(** A second count of bolts in the stock, unpackaged and unowned: the
    key of [Demo.short_line]. *)
Definition duplicate_values : LineVals.t :=
  LineVals.mk (Some 1) (Some 10) (Some 21) None None None None (Some 8%Q) None.

(** A count of bolts on the shelf without package: a new key. *)
Definition fresh_values : LineVals.t :=
  LineVals.mk (Some 1) (Some 10) (Some 22) None None None None (Some 8%Q) None.

(** Moving the packaged bolts of the shelf to the stock and out of their
    package gives them the key of [Demo.short_line]. *)
Definition move_to_stock : LineWrite.t :=
  LineWrite.mk None None None None None None (Some (Some 21)) (Some None)
               None None None.
End DemoLines.

(** The store after the rows of [vals_list] are inserted, and after
    [write(vals)] on [self]. *)
Definition inserted (E : environment) (s : db) (vals_list : list LineVals.t) : db :=
  Build_db (inventories s) (lines s ++ new_lines E (line_seq s) vals_list)
           (moves s) (locations s) (inventory_seq s)
           (line_seq s + Z.of_nat (List.length vals_list)) (move_seq s).

Definition updated (self : list rec_id) (vals : LineWrite.t) (s : db) : db :=
  set_lines (map (written self vals) (lines s)) s.

Definition required_emptied (s : db) (self : list rec_id) (vals : LineWrite.t) : bool :=
  is_set (browse_lines s self)
  && (writes_null (LineWrite.product_id vals)
      || writes_null (LineWrite.location_id vals)
      || writes_null (LineWrite.product_uom_id vals)).

(** ** Resetting counted quantities *)

(** [l'] is [l] with at most its counted quantity changed. *)
Definition same_but_product_qty (l l' : Line.t) : Prop :=
  Line.id l' = Line.id l
  /\ Line.is_editable l' = Line.is_editable l
  /\ Line.inventory_id l' = Line.inventory_id l
  /\ Line.partner_id l' = Line.partner_id l
  /\ Line.product_id l' = Line.product_id l
  /\ Line.product_uom_id l' = Line.product_uom_id l
  /\ Line.location_id l' = Line.location_id l
  /\ Line.package_id l' = Line.package_id l
  /\ Line.prod_lot_id l' = Line.prod_lot_id l
  /\ Line.theoretical_qty l' = Line.theoretical_qty l
  /\ Line.inventory_date l' = Line.inventory_date l.

(** The row [l] of the store [s] and what the reset of [self] makes of it. *)
Definition reset_of (s : db) (self : list rec_id) (l l' : Line.t) : Prop :=
  (line_state s l = Some State.done -> l' = l)
  /\ (mem (Line.id l) self = false -> l' = l)
  /\ (mem (Line.id l) self = true -> line_state s l <> Some State.done ->
      Line.product_qty l' = 0%Q /\ same_but_product_qty l l').

Module DemoReset.
(** The demonstration store with a second, validated inventory that holds
    one line. *)
Definition validated_inventory : Inventory.t :=
  Inventory.mk 2 "Last year" 100 State.done 1 [21] [] false
               Prefill.counted false false [] 90.
Definition validated_line : Line.t :=
  Line.mk 4 false (Some 2) None (Some 10) (Some 1) 9%Q
          (Some 21) None None 10%Q 100.
Definition store : db :=
  {| inventories := [Demo.adjustment_inventory; validated_inventory];
     lines := lines Demo.store ++ [validated_line];
     moves := [];
     locations := locations Demo.store;
     inventory_seq := 3;
     line_seq := 5;
     move_seq := 1 |}.
End DemoReset.

Module DemoTypo.
(** The demonstration store after a typing error: -7 bolts counted where
    10 are expected. *)
Definition typo_line : Line.t :=
  Line.mk 1 false (Some 1) None (Some 10) (Some 1) (-7)%Q
          (Some 21) None None 10%Q 500.
Definition store : db :=
  {| inventories := [Demo.adjustment_inventory];
     lines := [typo_line; Demo.surplus_line; Demo.matching_line];
     moves := [];
     locations := [Demo.stock; Demo.shelf];
     inventory_seq := 2;
     line_seq := 4;
     move_seq := 1 |}.
End DemoTypo.

(** The prompt of [action_validate]: some line of a product tracked by
    lot or serial number has no lot and a counted quantity that is not
    the theoretical one, and no line of a serial-tracked product with a
    lot is counted above one. *)
Definition asks_confirmation (E : environment) (s : db) (i : rec_id) : bool :=
  is_set (filter (untracked_difference E) (line_ids s i))
  && negb (is_set (filter (serial_above_one E) (line_ids s i))).

(** The reading of the done transition that makes [action_validate], like
    [_action_done], fail on a negative count: an inventory with a line
    whose counted quantity is negative and is not the theoretical one
    makes the call raise, the store left as it was. *)
Definition validate_negative_fails : Prop :=
  forall E check s i inventory line,
    browse_inventory s (Some i) = Some inventory ->
    In line (line_ids s i) ->
    (Line.product_qty line < 0)%Q ->
    ~ (Line.product_qty line == Line.theoretical_qty line)%Q ->
    exists e, action_validate E check i s = (inl e, s).

(** A company check over the records that the store and the catalogue
    hold: the products and the locations that an inventory names, and the
    product and the location of a line, belong to the company of the
    inventory or to no company. *)
Module DemoCompany.
Section CompanyCheck.
Variable E : environment.

Definition same_company (company c : many2one) : bool :=
  match c with
  | Some _ => many2one_eqb c company
  | None => true
  end.

Definition product_ok (company p : many2one) : bool :=
  match browse_product E p with
  | Some r => same_company company (Product.company_id r)
  | None => true
  end.

Definition location_ok (s : db) (company l : many2one) : bool :=
  match l with
  | Some i =>
      match browse_location s i with
      | Some r => same_company company (Location.company_id r)
      | None => true
      end
  | None => true
  end.

Definition inventory_ok (s : db) (i : Inventory.t) : bool :=
  forallb (fun l => location_ok s (Some (Inventory.company_id i)) (Some l))
          (Inventory.location_ids i)
  && forallb (fun p => product_ok (Some (Inventory.company_id i)) (Some p))
             (Inventory.product_ids i).

Definition line_ok (s : db) (l : Line.t) : bool :=
  product_ok (line_company_id s l) (Line.product_id l)
  && location_ok s (line_company_id s l) (Line.location_id l).

Definition incompatible_message : string :=
  "Incompatible companies on records".

Definition _check_company (model : Model.t) (ids : list rec_id) : M unit :=
  s <- get ;;
  if match model with
     | Model.stock_inventory => forallb (inventory_ok s) (browse_inventories s ids)
     | Model.stock_inventory_line => forallb (line_ok s) (browse_lines s ids)
     end
  then ret tt
  else raise (UserError incompatible_message).
End CompanyCheck.
End DemoCompany.

Module DemoTrack.
(** The demonstration store where a drill, a product tracked by serial
    number, was counted -3 without a serial number where 1 is expected. *)
Definition unnumbered_line : Line.t :=
  Line.mk 1 false (Some 1) None (Some 11) (Some 1) (-3)%Q
          (Some 21) None None 1%Q 500.
Definition store : db :=
  {| inventories := [Demo.adjustment_inventory];
     lines := [unnumbered_line];
     moves := [];
     locations := [Demo.stock; Demo.shelf];
     inventory_seq := 2;
     line_seq := 2;
     move_seq := 1 |}.
End DemoTrack.

Module DemoForeign.
(** An inventory of company 1, ready to be validated, that names a
    location of company 2. *)
Definition yard : Location.t :=
  Location.mk 31 "Yard" (Some 2) Usage.internal true [30; 31] None None.
Definition inventory : Inventory.t :=
  Inventory.mk 1 "Yard count" 500 State.confirm 1 [31] [] false
               Prefill.counted false false [] 400.
Definition store : db :=
  {| inventories := [inventory];
     lines := [];
     moves := [];
     locations := [yard];
     inventory_seq := 2;
     line_seq := 1;
     move_seq := 1 |}.
End DemoForeign.

(** ** Regenerating the moves of an inventory *)

(** The move values that the lines of inventory [i] ask for. *)
Definition regenerated (E : environment) (s : db) (i : rec_id) : list MoveVals.t :=
  filter_map (line_move_values E s) (line_ids s i).

(** The store after [action_check] on the open inventory [i]: its moves
    are deleted and the regenerated ones stored under fresh ids. *)
Definition checked (E : environment) (s : db) (i : rec_id) : db :=
  Build_db (inventories s) (lines s)
           (filter (fun m => negb (mem (Move.id m) (map Move.id (move_ids s i))))
                   (moves s)
            ++ number_moves (move_seq s) (regenerated E s i))
           (locations s) (inventory_seq s) (line_seq s)
           (move_seq s + Z.of_nat (List.length (regenerated E s i))).

(** ** From the snapshot to the moves *)

(** Every unit of measure a product refers to has a positive rounding (the
    units of measure are stored under that constraint). *)
Definition positive_roundings (E : environment) : Prop :=
  forall p u, product_uom_id E p = Some u -> (0 < uom_rounding E (Some u))%Q.

(** A value dict whose counted quantity is its theoretical quantity, and
    whose unit of measure, when given, is that of its product. *)
Definition counted_as_expected (E : environment) (v : LineVals.t) : Prop :=
  exists q,
    LineVals.theoretical_qty v = Some q
    /\ LineWrite.or_else (LineVals.product_qty v) 0%Q = q
    /\ (LineVals.product_uom_id v = None
        \/ LineVals.product_uom_id v = product_uom_id E (LineVals.product_id v)).

(** The store after [write({'state': 'confirm', 'date': now})] on [i]. *)
Definition started (E : environment) (i : rec_id) (s : db) : db :=
  set_inventories
    (map (fun x => if mem (Inventory.id x) [i]
                   then Inventory.set_state_date State.confirm (now E) x else x)
         (inventories s)) s.

Module DemoStart.
(** A draft inventory of the stock and all that lies under it, over a
    ledger that holds 10 bolts in the stock and 2 on the shelf. *)
Definition E : environment :=
  {| now := 1000;
     today := 10;
     today_midnight := 900;
     group_stock_manager := true;
     group_stock_multi_locations := true;
     products := [Demo.bolt; Demo.drill];
     uoms := [Demo.unit_uom];
     lots := [Lot.mk 100 11];
     warehouses := [Warehouse.mk 1 1 21 20];
     quants := [Quant.mk 1 10 21 None None None 1 10%Q;
                Quant.mk 2 10 22 None (Some 70) None 1 2%Q];
     property_stock_inventory := fun _ _ => Some 5;
     get_theoretical_quantity := fun _ _ _ _ _ _ => 0%Q |}.

Definition draft_inventory : Inventory.t :=
  Inventory.mk 1 "Yearly count" 500 State.draft 1 [21] [] false
               Prefill.counted true false [] 400.

Definition store : db :=
  {| inventories := [draft_inventory];
     lines := [];
     moves := [];
     locations := [Demo.stock; Demo.shelf];
     inventory_seq := 2;
     line_seq := 1;
     move_seq := 1 |}.
End DemoStart.

(** ** What the quantity snapshot holds *)

(** The quants of [rows] under the key [k], and the sum of quantities. *)
Definition group_rows (k : dimension_key) (rows : list Quant.t) : list Quant.t :=
  filter (fun r => key_eqb (quant_key r) k) rows.

Definition quantity_sum (rows : list Quant.t) : Q :=
  fold_right (fun r acc => (Quant.quantity r + acc)%Q) 0%Q rows.

(** The filters of the snapshot on one quant of the ledger: its quantity
    is not zero, or negative for a conflict inventory without lots; its
    lot, its product are among those of the inventory when it names some;
    its product is active when the counted quantities start at zero. *)
Definition quant_selected (E : environment) (inventory : Inventory.t) (r : Quant.t) : Prop :=
  (if Inventory.is_conflict_inventory inventory && negb (is_set (Inventory.lot_ids inventory))
   then (Quant.quantity r < 0)%Q
   else ~ (Quant.quantity r == 0)%Q)
  /\ (Inventory.lot_ids inventory <> [] ->
      exists l, Quant.lot_id r = Some l /\ In l (Inventory.lot_ids inventory))
  /\ (Inventory.product_ids inventory <> [] ->
      In (Quant.product_id r) (Inventory.product_ids inventory))
  /\ (Inventory.prefill_counted_quantity inventory = Prefill.zero ->
      product_active E (Quant.product_id r) = true)
  /\ Quant.company_id r = Inventory.company_id inventory.

(** The same filters read on the entries of the snapshot. *)
Definition snapshot_entries_filtered : Prop :=
  forall E s inventory k q,
    In (k, q) (_get_quantities E s inventory) ->
    (if Inventory.is_conflict_inventory inventory && negb (is_set (Inventory.lot_ids inventory))
     then (q < 0)%Q
     else ~ (q == 0)%Q)
    /\ (Inventory.lot_ids inventory <> [] ->
        exists l, snd (fst (fst k)) = Some l /\ In l (Inventory.lot_ids inventory))
    /\ (Inventory.product_ids inventory <> [] ->
        exists p, fst (fst (fst (fst k))) = Some p /\ In p (Inventory.product_ids inventory))
    /\ (Inventory.prefill_counted_quantity inventory = Prefill.zero ->
        exists p, fst (fst (fst (fst k))) = Some p /\ product_active E p = true).

Module DemoCancel.
(** A ledger where the same bucket of bolts is held by two quants, 5 and
    -5, as happens until the ledger merges them. *)
Definition E : environment :=
  {| now := 1000;
     today := 10;
     today_midnight := 900;
     group_stock_manager := true;
     group_stock_multi_locations := true;
     products := [Demo.bolt; Demo.drill];
     uoms := [Demo.unit_uom];
     lots := [Lot.mk 100 11];
     warehouses := [Warehouse.mk 1 1 21 20];
     quants := [Quant.mk 1 10 21 None None None 1 5%Q;
                Quant.mk 2 10 21 None None None 1 (-5)%Q];
     property_stock_inventory := fun _ _ => Some 5;
     get_theoretical_quantity := fun _ _ _ _ _ _ => 0%Q |}.

Definition bolts_in_stock : dimension_key :=
  (Some 10, Some 21, None, None, None).
End DemoCancel.

(** ** The recompute on a serial-tracked line *)

(** The reading of the recompute that leaves a counted quantity of zero
    alone: on a line of a serial-tracked product, a lot and a counted
    quantity that is not zero force the counted quantity to 1; otherwise
    the counted quantity becomes the new theoretical quantity when it was
    equal to the previous one, and stays as it is when it was not. *)
Definition onchange_spares_zero : Prop :=
  forall E line,
    product_tracking E (Line.product_id line) = Some Tracking.serial ->
    let line' := _onchange_quantity_context E line in
    if is_some (Line.prod_lot_id line) && negb (Qeq_bool (Line.product_qty line) 0)
    then (Line.product_qty line' == 1)%Q
    else ((Line.product_qty line == Line.theoretical_qty line)%Q ->
          (Line.product_qty line' == Line.theoretical_qty line')%Q)
         /\ (~ (Line.product_qty line == Line.theoretical_qty line)%Q ->
             (Line.product_qty line' == Line.product_qty line)%Q).

Module DemoSerial.
(** Drill number 100 is expected in the stock and was counted absent. *)
Definition absent_drill : Line.t :=
  Line.mk 7 true (Some 1) None (Some 11) (Some 1) 0%Q
          (Some 21) None (Some 100) 1%Q 500.

(** The same count without a serial number. *)
Definition unnumbered_drill : Line.t :=
  Line.mk 8 true (Some 1) None (Some 11) (Some 1) 3%Q
          (Some 21) None None 1%Q 500.
End DemoSerial.

(** The parent paths of the stored locations fit together: the proper
    ancestors of an ancestor are proper ancestors too, and fewer. *)
Definition paths_wf (ls : list Location.t) : Prop :=
  forall l a, In l ls -> In a ls -> In (Location.id a) (ancestor_ids l) ->
    (forall x, In x (ancestor_ids a) -> In x (ancestor_ids l))
    /\ (List.length (ancestor_ids a) < List.length (ancestor_ids l))%nat.

Module DemoCyclic.
(** The stock and the shelf below it are both due for a count; the dock
    next to the stock is due too. *)
Definition stock : Location.t :=
  Location.mk 21 "Stock" (Some 1) Usage.internal true [20; 21] (Some 9) None.
Definition shelf : Location.t :=
  Location.mk 22 "Shelf" (Some 1) Usage.internal true [20; 21; 22] (Some 10) None.
Definition dock : Location.t :=
  Location.mk 23 "Dock" (Some 1) Usage.internal true [20; 23] (Some 8) None.

Definition store : db :=
  {| inventories := [];
     lines := [];
     moves := [];
     locations := [stock; shelf; dock];
     inventory_seq := 1;
     line_seq := 1;
     move_seq := 1 |}.
End DemoCyclic.

(** * Further methods and predicates *)

(** ** The done transition, step by step *)

(** The ids of the stored moves are distinct and below the sequence. *)
Definition moves_wf (s : db) : Prop :=
  NoDup (map Move.id (moves s))
  /\ Forall (fun m => Move.id m < move_seq s) (moves s).

(** The ids of the inventories of [self] that [action_check] works on. *)
Definition open_ids (s : db) (self : list rec_id) : list rec_id :=
  map Inventory.id (filter not_done_or_cancel (browse_inventories s self)).

(** The store after [self.write({'state': 'done', 'date': now})]. *)
Definition done_written (E : environment) (self : list rec_id) (s : db) : db :=
  set_inventories
    (map (fun i => if mem (Inventory.id i) self
                   then Inventory.set_state_date State.done (now E) i else i)
         (inventories s)) s.

(** A move once it is posted. *)
Definition post_move (m : Move.t) : Move.t :=
  Move.mk (Move.id m) (MoveVals.set_state MoveState.done (Move.vals m)).

(** The store after [post_inventory] on [self]. *)
Definition posted (self : list rec_id) (s : db) : db :=
  set_moves
    (map (fun m =>
            if mem (Move.id m)
                   (map Move.id
                        (filter (fun move =>
                                   negb (MoveState.is_done (MoveVals.state (Move.vals move))))
                                (flat_map (move_ids s) self)))
            then post_move m else m)
         (moves s)) s.

(** Whether [_action_done] stamps the locations: the user sees the
    locations, and the inventories name locations and no product. *)
Definition stamps_locations (E : environment) (s : db) (self : list rec_id) : bool :=
  group_stock_multi_locations E
  && negb (is_set (flat_map Inventory.product_ids (browse_inventories s self)))
  && is_set (flat_map Inventory.location_ids (browse_inventories s self)).

(** The store after the stamping that closes [_action_done]. *)
Definition stamped (E : environment) (self : list rec_id) (s : db) : db :=
  if stamps_locations E s self
  then set_locations
         (map (fun l =>
                 if child_of (flat_map Inventory.location_ids (browse_inventories s self)) l
                    && Usage.internal_or_transit (Location.usage l)
                 then Location.set_last_inventory_date (now E) l else l)
              (locations s)) s
  else s.

(** The store after [action_check] on the open inventories [todo], one
    after the other. *)
Definition checked_all (E : environment) (todo : list rec_id) (s : db) : db :=
  fold_left (fun st i => checked E st i) todo s.

Module DemoDone.
(** The demonstration store with a move left by an earlier check of
    another inventory. *)
Definition other_move : Move.t :=
  Move.mk 1
    (MoveVals.mk "INV:Other" (Some 10) (Some 1) 4%Q (Some 100) (Some 1) (Some 2)
                 MoveState.confirmed None (Some 5) (Some 21) []).
Definition store : db :=
  {| inventories := inventories Demo.store;
     lines := lines Demo.store;
     moves := [other_move];
     locations := locations Demo.store;
     inventory_seq := 2;
     line_seq := 4;
     move_seq := 2 |}.
End DemoDone.

(** What [_action_done] on [self], called on the store [s], makes of the
    location [l]: the date of its last inventory is now when the user sees
    the locations, the inventories name no product, and the location is an
    internal or transit one at or below a location they name; it is
    untouched otherwise. *)
Definition stamp_of (E : environment) (s : db) (self : list rec_id)
           (l l' : Location.t) : Prop :=
  if stamps_locations E s self
     && child_of (flat_map Inventory.location_ids (browse_inventories s self)) l
     && Usage.internal_or_transit (Location.usage l)
  then l' = Location.set_last_inventory_date (now E) l
  else l' = l.

(** ** Deleting an inventory *)

Definition draft_or_cancel (st : State.t) : bool :=
  match st with
  | State.draft | State.cancel => true
  | _ => false
  end.

Definition unlink_message : string :=
  "You can only delete a draft inventory adjustment. If the inventory adjustment is not done, you can cancel it.".

Definition _unlink_if_draft_or_cancel (self : list rec_id) : M unit :=
  s <- get ;;
  for_each (browse_inventories s self) (fun inventory =>
    if negb (draft_or_cancel (Inventory.state inventory))
    then raise (UserError unlink_message)
    else ret tt).

(** The record framework's [unlink] of inventories: the ondelete check
    first, then the rows go, and their lines with them.  What the ledger
    does of the moves that refer to a deleted inventory is not in the
    sources; they are left as they are. *)
Definition unlink (self : list rec_id) : M bool :=
  _unlink_if_draft_or_cancel self ;;
  s <- get ;;
  inventory_unlink (browse_inventories s self) ;;
  ret true.

(** ** Back to draft *)

Section Cancelling.
(** [stock.move._action_cancel] is the ledger's: [action_cancel_draft] is
    embedded over it. *)
Variable _action_cancel : list Move.t -> M unit.

(** The record framework's [unlink] of lines. *)
Definition line_unlink (self : list Line.t) : M unit :=
  modify (fun s =>
    set_lines (filter (fun l => negb (mem (Line.id l) (map Line.id self)))
                      (lines s)) s).

(** [self.write({'state': ...})] *)
Definition inventory_write_state (self : list rec_id) (state : State.t) : M unit :=
  modify (fun s =>
    set_inventories
      (map (fun i => if mem (Inventory.id i) self
                     then Inventory.set_state_date state (Inventory.date i) i else i)
           (inventories s)) s).

Definition action_cancel_draft (self : list rec_id) : M unit :=
  s <- get ;;
  _action_cancel (flat_map (move_ids s) self) ;;
  s <- get ;;
  line_unlink (flat_map (line_ids s) self) ;;
  inventory_write_state self State.draft.
End Cancelling.

Module DemoLedger.
(** A ledger that refuses to cancel a move that is done and marks the
    others cancelled. *)
Definition cancel_moves (self : list Move.t) : M unit :=
  if existsb (fun m => MoveState.is_done (MoveVals.state (Move.vals m))) self
  then raise (UserError "You cannot cancel a stock move that has been set to 'Done'.")
  else
    modify (fun s =>
      set_moves (map (fun m =>
                   if mem (Move.id m) (map Move.id self)
                   then Move.mk (Move.id m) (MoveVals.set_state MoveState.cancel (Move.vals m))
                   else m) (moves s)) s).

(** The demonstration store once the inventory in progress has been
    checked: the move of the other inventory, and the two moves that the
    lines of the inventory in progress ask for. *)
Definition checked_store : db := snd (action_check Demo.E [1] DemoDone.store).
End DemoLedger.

(** ** What a cyclic run deletes and what it leaves *)

(** The inventories that [_run_inventory_tasks] deletes. *)
Definition cyclic_deleted (E : environment) (s : db) (company_id : many2one)
  : list Inventory.t :=
  filter (superseded E s (without_descendants (due_locations E s company_id)))
         (existing_loc_invs s).

(** An inventory in progress that is specific to one location: draft or
    confirmed, without product filter, on that location only. *)
Definition in_progress_for (location_id : rec_id) (x : Inventory.t) : Prop :=
  Inventory.location_ids x = [location_id]
  /\ Inventory.product_ids x = []
  /\ (Inventory.state x = State.draft \/ Inventory.state x = State.confirm).

(** The ids of the stored inventories are distinct and below the
    sequence. *)
Definition inventories_wf (s : db) : Prop :=
  NoDup (map Inventory.id (inventories s))
  /\ Forall (fun x => Inventory.id x < inventory_seq s) (inventories s).

Module DemoStale.
(** The store of the cyclic counts with four inventories left by earlier
    days: a draft for the shelf, which lies below the stock; a draft for
    the stock, created before today; a count of the dock that is in
    progress; and a draft that names both the stock and the dock. *)
Definition shelf_draft : Inventory.t :=
  Inventory.mk 1 "Reoccuring Inventory for: Shelf" 950 State.draft 1 [22] [] false
               Prefill.counted false false [] 950.
Definition stock_draft : Inventory.t :=
  Inventory.mk 2 "Reoccuring Inventory for: Stock" 400 State.draft 1 [21] [] false
               Prefill.counted false false [] 400.
Definition dock_count : Inventory.t :=
  Inventory.mk 3 "Reoccuring Inventory for: Dock" 400 State.confirm 1 [23] [] false
               Prefill.counted false false [] 300.
Definition manual_draft : Inventory.t :=
  Inventory.mk 4 "Stock and dock" 400 State.draft 1 [21; 23] [] false
               Prefill.counted false false [] 300.

Definition shelf_line : Line.t :=
  Line.mk 1 false (Some 1) None (Some 10) (Some 1) 2%Q
          (Some 22) None None 2%Q 950.
Definition dock_line : Line.t :=
  Line.mk 2 false (Some 3) None (Some 10) (Some 1) 5%Q
          (Some 23) None None 6%Q 400.

Definition store : db :=
  {| inventories := [shelf_draft; stock_draft; dock_count; manual_draft];
     lines := [shelf_line; dock_line];
     moves := [];
     locations := locations DemoCyclic.store;
     inventory_seq := 5;
     line_seq := 3;
     move_seq := 1 |}.
End DemoStale.

(** ** Outdated lines and their refreshing *)

Section Outdated.
Variable E : environment.

(** [quants.get(key, 0)] on the snapshot, whose keys are distinct. *)
Definition dict_get (d : list (dimension_key * Q)) (k : dimension_key) (default : Q)
  : Q :=
  match find (fun e => key_eqb (fst e) k) d with
  | Some e => snd e
  | None => default
  end.

(** [_compute_outdated] on one line.  The dict of the snapshots has an
    entry for each inventory of the lines: looking up the inventory of a
    line that has none is a [KeyError].  A record that is not stored yet
    has no id. *)
Definition line_outdated (s : db) (line : Line.t) : exn + bool :=
  match browse_inventory s (Line.inventory_id line) with
  | None => inl (IntegrityError "KeyError")
  | Some inventory =>
      let quants := _get_quantities E s inventory in
      if state_is_done (line_state s line) || (Line.id line =? 0) then inr false
      else
        let qty := dict_get quants (Line.key line) 0%Q in
        if negb (float_compare qty (Line.theoretical_qty line)
                               (uom_rounding E (Line.product_uom_id line)) =? 0)
        then inr true
        else inr false
  end.

Fixpoint _compute_outdated (s : db) (self : list Line.t) : exn + list bool :=
  match self with
  | [] => inr []
  | line :: rest =>
      match line_outdated s line with
      | inl e => inl e
      | inr outdated =>
          match _compute_outdated s rest with
          | inl e => inl e
          | inr flags => inr (outdated :: flags)
          end
      end
  end.

(** [stock.quant._gather] with [strict=True] is the ledger's:
    [action_refresh_quantity] is embedded over it. *)
Variable _gather : many2one -> many2one -> many2one -> many2one -> many2one
                   -> list Quant.t.

(** [{'theoretical_qty': q}] and [{'inventory_date': d}]: assigning a
    field of a line goes through [write]. *)
Definition theoretical_qty_vals (q : Q) : LineWrite.t :=
  LineWrite.mk None None None None None None None None None (Some q) None.
Definition inventory_date_vals (d : datetime) : LineWrite.t :=
  LineWrite.mk None None None None None None None None None None (Some d).

(** [sum(quants.mapped('quantity'))] *)
Definition sum_quantities (quants : list Quant.t) : Q :=
  fold_left Qplus (map Quant.quantity quants) 0%Q.

(** The body of the loop of [action_refresh_quantity]. *)
Definition refresh_line (i : rec_id) : M unit :=
  s <- get ;;
  match browse_line s i with
  | None => ret tt
  | Some line =>
      match line_outdated s line with
      | inl e => raise e
      | inr false => ret tt
      | inr true =>
          let quants := _gather (Line.product_id line) (Line.location_id line)
                                (Line.prod_lot_id line) (Line.package_id line)
                                (Line.partner_id line) in
          (if is_set quants
           then
             let quantity := sum_quantities quants in
             when_ (negb (Qeq_bool (Line.theoretical_qty line) quantity))
                   (write E [i] (theoretical_qty_vals quantity) ;; ret tt)
           else write E [i] (theoretical_qty_vals 0%Q) ;; ret tt) ;;
          write E [i] (inventory_date_vals (now E)) ;;
          ret tt
      end
  end.

Definition action_refresh_quantity (self : list rec_id) : M unit :=
  s <- get ;;
  let filtered_lines :=
    filter (fun l => negb (state_is_done (line_state s l))) (browse_lines s self) in
  for_each (map Line.id filtered_lines) refresh_line.
End Outdated.

(** [l'] is [l] with at most its theoretical quantity and the date of its
    last refreshing changed. *)
Definition refreshed (l l' : Line.t) : Prop :=
  l' = Line.mk (Line.id l) (Line.is_editable l) (Line.inventory_id l)
               (Line.partner_id l) (Line.product_id l) (Line.product_uom_id l)
               (Line.product_qty l) (Line.location_id l) (Line.package_id l)
               (Line.prod_lot_id l) (Line.theoretical_qty l') (Line.inventory_date l').

(** A value dict of the snapshot: its theoretical quantity is the entry
    of its key in the snapshot, or 0 when the key has no entry. *)
Definition snapshot_value (E : environment) (quants : list (dimension_key * Q))
           (inventory : Inventory.t) (v : LineVals.t) : Prop :=
  LineVals.theoretical_qty v = Some (dict_get quants (LineVals.key v) 0%Q)
  /\ LineVals.inventory_id v = Some (Inventory.id inventory)
  /\ (LineVals.product_uom_id v = None
      \/ LineVals.product_uom_id v = product_uom_id E (LineVals.product_id v)).

Module DemoRefresh.
(** The ledger of the demonstration, gathered by product and location. *)
Definition gather (product_id location_id lot_id package_id owner_id : many2one)
  : list Quant.t :=
  filter (fun q => key_eqb (Some (Quant.product_id q), Some (Quant.location_id q),
                            Quant.lot_id q, Quant.package_id q, Quant.owner_id q)
                           (product_id, location_id, lot_id, package_id, owner_id))
         (quants DemoStart.E).
End DemoRefresh.

(** What a refreshing may have done to the store [s]: nothing outside the
    lines, and to a line nothing but its theoretical quantity and its
    date, and this only when its id is in [ids]. *)
Definition refreshing_of (ids : list rec_id) (s s' : db) : Prop :=
  inventories s' = inventories s /\ moves s' = moves s /\ locations s' = locations s
  /\ exists f,
      lines s' = map f (lines s)
      /\ forall l, refreshed l (f l) /\ (mem (Line.id l) ids = false -> f l = l).

(** ** Storable products and the defaults of [create] *)

(** Every stored line counts a storable product. *)
Definition all_storable (E : environment) (s : db) : Prop :=
  forall l, In l (lines s) ->
            product_type E (Line.product_id l) = Some ProductType.product.

(** The theoretical quantity and the unit of a value dict once [create]
    has filled them in: the theoretical quantity that is given, else the
    quantity of the ledger for the key of the dict, asked in the unit the
    dict gives, if any; the unit that is given, else that of the product. *)
Definition default_theoretical_qty (E : environment) (v : LineVals.t) : Q :=
  match LineVals.theoretical_qty v with
  | Some q => q
  | None =>
      match LineVals.product_id v, LineVals.location_id v with
      | Some p, Some l =>
          get_theoretical_quantity E p l (LineVals.prod_lot_id v)
                                   (LineVals.package_id v) (LineVals.partner_id v)
                                   (LineVals.product_uom_id v)
      | _, _ => 0%Q
      end
  end.

Definition default_product_uom_id (E : environment) (v : LineVals.t) : many2one :=
  match LineVals.product_uom_id v with
  | Some u => Some u
  | None => product_uom_id E (LineVals.product_id v)
  end.

Definition filled_from (E : environment) (v v' : LineVals.t) : Prop :=
  LineVals.inventory_id v' = LineVals.inventory_id v
  /\ LineVals.key v' = LineVals.key v
  /\ LineVals.product_qty v' = LineVals.product_qty v
  /\ LineVals.theoretical_qty v' = Some (default_theoretical_qty E v)
  /\ LineVals.product_uom_id v' = default_product_uom_id E v.

(** The row that a successful [create] makes of the value dict [v]. *)
Definition created_from (E : environment) (v : LineVals.t) (row : Line.t) : Prop :=
  Line.inventory_id row = LineVals.inventory_id v
  /\ Line.key row = LineVals.key v
  /\ Line.product_qty row = LineWrite.or_else (LineVals.product_qty v) 0%Q
  /\ Line.theoretical_qty row = default_theoretical_qty E v
  /\ Line.product_uom_id row = default_product_uom_id E v
  /\ Line.inventory_date row = now E
  /\ is_some (Line.product_id row) = true
  /\ is_some (Line.location_id row) = true
  /\ is_some (Line.product_uom_id row) = true
  /\ product_type E (Line.product_id row) = Some ProductType.product.

(** ** Starting always goes through on a sound catalogue *)

(** The unit of measure that [create] gives a value dict. *)
Definition fill_uom (E : environment) (v : LineVals.t) : LineVals.t :=
  if is_some (LineVals.product_id v) && negb (is_some (LineVals.product_uom_id v))
  then LineVals.set_product_uom_id (product_uom_id E (LineVals.product_id v)) v
  else v.

(** The products of the catalogue have distinct ids. *)
Definition catalogue_wf (E : environment) : Prop :=
  NoDup (map Product.id (products E)).

(** The ledger holds storable products of the catalogue only. *)
Definition ledger_storable (E : environment) : Prop :=
  forall q, In q (quants E) ->
            product_type E (Some (Quant.product_id q)) = Some ProductType.product.

(** A value dict that [create] accepts as it is: product, location and
    theoretical quantity are given, the product is storable, the unit is
    that of the product or left to [create]. *)
Definition startable (E : environment) (inventory : Inventory.t) (v : LineVals.t)
  : Prop :=
  exists p l q,
    LineVals.product_id v = Some p
    /\ LineVals.location_id v = Some l
    /\ LineVals.theoretical_qty v = Some q
    /\ LineVals.inventory_id v = Some (Inventory.id inventory)
    /\ product_type E (Some p) = Some ProductType.product
    /\ (LineVals.product_uom_id v = None
        \/ LineVals.product_uom_id v = product_uom_id E (Some p)).

(** ** The conflict inventories *)

(** The value dict of an inventory to create; a many2many that the dict
    leaves out is empty. *)
Module InventoryVals.
Record t := mk {
  name : string;
  company_id : rec_id;
  product_ids : list rec_id;
  lot_ids : list rec_id;
  is_conflict_inventory : bool;
  location_ids : list rec_id }.
End InventoryVals.

(** [for x in xs: acc = f(acc, x)], the loops that fill local variables. *)
Fixpoint fold_m {A B} (f : B -> A -> M B) (xs : list A) (acc : B) : M B :=
  match xs with
  | [] => ret acc
  | x :: rest => acc <- f acc x ;; fold_m f rest acc
  end.

Section Conflicts.
Variable E : environment.

(** [warehouse.name] is not among the columns that the environment holds
    of a warehouse. *)
Variable warehouse_name : Warehouse.t -> string.

(** [_order = "date desc, id desc"]: the order in which [search] hands the
    inventories. *)
Definition inventory_before (a b : Inventory.t) : bool :=
  (Inventory.date b <? Inventory.date a)
  || ((Inventory.date a =? Inventory.date b) && (Inventory.id b <? Inventory.id a)).

Fixpoint insert_ordered (x : Inventory.t) (l : list Inventory.t) : list Inventory.t :=
  match l with
  | [] => [x]
  | y :: rest => if inventory_before x y then x :: l else y :: insert_ordered x rest
  end.

Definition search_order (l : list Inventory.t) : list Inventory.t :=
  fold_right insert_ordered [] l.

(** The record framework's [write] of the many2many columns of
    inventories, and its [create]: the columns that the dict leaves out at
    their defaults. *)
Definition set_product_ids (product_ids : list rec_id) (i : Inventory.t) : Inventory.t :=
  Inventory.mk (Inventory.id i) (Inventory.name i) (Inventory.date i) (Inventory.state i)
               (Inventory.company_id i) (Inventory.location_ids i) product_ids
               (Inventory.start_empty i) (Inventory.prefill_counted_quantity i)
               (Inventory.exhausted i) (Inventory.is_conflict_inventory i)
               (Inventory.lot_ids i) (Inventory.create_date i).

Definition set_lot_ids (lot_ids : list rec_id) (i : Inventory.t) : Inventory.t :=
  Inventory.mk (Inventory.id i) (Inventory.name i) (Inventory.date i) (Inventory.state i)
               (Inventory.company_id i) (Inventory.location_ids i) (Inventory.product_ids i)
               (Inventory.start_empty i) (Inventory.prefill_counted_quantity i)
               (Inventory.exhausted i) (Inventory.is_conflict_inventory i)
               lot_ids (Inventory.create_date i).

Definition inventory_write (self : list rec_id) (f : Inventory.t -> Inventory.t) : M unit :=
  modify (fun s =>
    set_inventories (map (fun i => if mem (Inventory.id i) self then f i else i)
                         (inventories s)) s).

Definition inventory_of_values (i : rec_id) (v : InventoryVals.t) : Inventory.t :=
  Inventory.mk i (InventoryVals.name v) (now E) State.draft (InventoryVals.company_id v)
               (uniq (InventoryVals.location_ids v)) (uniq (InventoryVals.product_ids v))
               false Prefill.counted false (InventoryVals.is_conflict_inventory v)
               (uniq (InventoryVals.lot_ids v)) (now E).

Fixpoint new_inventories (first : rec_id) (vals_list : list InventoryVals.t)
  : list Inventory.t :=
  match vals_list with
  | [] => []
  | v :: rest => inventory_of_values first v :: new_inventories (first + 1) rest
  end.

Definition inventory_create (vals_list : list InventoryVals.t) : M unit :=
  modify (fun s =>
    Build_db (inventories s ++ new_inventories (inventory_seq s) vals_list)
             (lines s) (moves s) (locations s)
             (inventory_seq s + Z.of_nat (List.length vals_list))
             (line_seq s) (move_seq s)).

(** [('location_id.usage', 'in', ['internal', 'transit'])] on a quant *)
Definition quant_in_stock (s : db) (q : Quant.t) : bool :=
  match browse_location s (Quant.location_id q) with
  | Some l => Usage.internal_or_transit (Location.usage l)
  | None => false
  end.

Definition existing_conflict_invs (s : db) (company_id : many2one) : list rec_id :=
  map Inventory.id
      (search_order
         (filter (fun i =>
                    match Inventory.state i with
                    | State.draft | State.confirm => true
                    | _ => false
                    end
                    && Inventory.is_conflict_inventory i
                    && company_domain company_id (Some (Inventory.company_id i)))
                 (inventories s))).

Definition neg_quants (s : db) (company_id : many2one) : list Quant.t :=
  filter (fun q =>
            Qltb (Quant.quantity q) 0
            && quant_in_stock s q
            && company_domain company_id (Some (Quant.company_id q)))
         (quants E).

(** [warehouse_to_locations[warehouse]]: the stored locations that lie
    properly below the view location of the warehouse. *)
Definition warehouse_to_locations (s : db) (warehouse_ids : list Warehouse.t)
           (warehouse : Warehouse.t) : list rec_id :=
  let warehouse_locations :=
    filter (fun l => Location.active l
                     && child_of (map Warehouse.view_location_id warehouse_ids) l)
           (locations s) in
  map Location.id
      (filter (fun l => existsb (fun location_id =>
                                   location_id =? Warehouse.view_location_id warehouse)
                                (ancestor_ids l))
              warehouse_locations).

(** [warehouse.view_location_id.child_ids]: the locations whose parent is
    the view location. *)
Definition child_ids (s : db) (location_id : rec_id) : list rec_id :=
  map Location.id
      (filter (fun l => Location.active l
                        && match rev (ancestor_ids l) with
                           | parent :: _ => parent =? location_id
                           | [] => false
                           end)
              (locations s)).

(** [i.location_ids & locations] *)
Definition touches (locations : list rec_id) (i : Inventory.t) : bool :=
  existsb (fun l => mem l locations) (Inventory.location_ids i).

(** The body of the loop over the warehouses of the companies that have
    negative quantities; [acc] is [(inventory_vals_to_create,
    updated_invs)]. *)
Definition negative_quantity_step (existing_conflict_invs : list rec_id)
           (neg_quants : list Quant.t)
           (warehouse_to_locations : Warehouse.t -> list rec_id)
           (acc : list InventoryVals.t * list rec_id)
           (company_warehouse : rec_id * Warehouse.t)
  : M (list InventoryVals.t * list rec_id) :=
  let '(company_id, warehouse) := company_warehouse in
  s <- get ;;
  let locations := warehouse_to_locations warehouse in
  let existing := browse_inventories s existing_conflict_invs in
  if is_set (filter (fun i => State.eqb (Inventory.state i) State.confirm
                              && (Inventory.company_id i =? company_id)
                              && touches locations i) existing)
  then ret acc
  else
    let warehouse_quants :=
      filter (fun q => mem (Quant.location_id q) locations) neg_quants in
    if is_set warehouse_quants
    then
      let draft_inv :=
        filter (fun i => State.eqb (Inventory.state i) State.draft
                         && (Inventory.company_id i =? company_id)
                         && touches locations i) existing in
      match draft_inv with
      | first :: _ =>
          inventory_write [Inventory.id first]
            (set_product_ids (uniq (map Quant.product_id warehouse_quants))) ;;
          ret (fst acc, snd acc ++ [Inventory.id first])
      | [] =>
          ret (fst acc ++
                 [InventoryVals.mk
                    (String.append "Negative Quantity Inventory: "
                                   (warehouse_name warehouse))
                    company_id
                    (map Quant.product_id warehouse_quants)
                    []
                    true
                    (child_ids s (Warehouse.view_location_id warehouse))],
               snd acc)
      end
    else ret acc.

(** [read_group] by lot, company and product with [__count]. *)
Definition sn_key : Type := (rec_id * rec_id * rec_id)%type.

Definition sn_key_eqb (a b : sn_key) : bool :=
  let '(l, c, p) := a in
  let '(l', c', p') := b in
  (l =? l') && (c =? c') && (p =? p').

Fixpoint count_in_group (k : sn_key) (groups : list (sn_key * Z)) : list (sn_key * Z) :=
  match groups with
  | [] => [(k, 1)]
  | (k', n) :: rest =>
      if sn_key_eqb k' k then (k', n + 1) :: rest
      else (k', n) :: count_in_group k rest
  end.

Definition sn_quants (s : db) (company_id : many2one) : list Quant.t :=
  filter (fun q =>
            quant_in_stock s q
            && is_some (Quant.lot_id q)
            && match product_tracking E (Some (Quant.product_id q)) with
               | Some Tracking.serial => true
               | _ => false
               end
            && negb (Qeq_bool (Quant.quantity q) 0)
            && company_domain company_id (Some (Quant.company_id q)))
         (quants E).

Definition sn_groups (rows : list Quant.t) : list (sn_key * Z) :=
  fold_left (fun groups q =>
               match Quant.lot_id q with
               | Some lot =>
                   count_in_group (lot, Quant.company_id q, Quant.product_id q) groups
               | None => groups
               end)
            rows [].

(** [company_to_sn_conflicts[company][0].append(lot)] and
    [...[1].append(product)], the companies in the order they are met. *)
Fixpoint add_sn_conflict (company lot product : rec_id)
         (d : list (rec_id * (list rec_id * list rec_id)))
  : list (rec_id * (list rec_id * list rec_id)) :=
  match d with
  | [] => [(company, ([lot], [product]))]
  | (c, (lots, products)) :: rest =>
      if c =? company then (c, (lots ++ [lot], products ++ [product])) :: rest
      else (c, (lots, products)) :: add_sn_conflict company lot product rest
  end.

Definition company_to_sn_conflicts (groups : list (sn_key * Z))
  : list (rec_id * (list rec_id * list rec_id)) :=
  fold_left (fun d '((lot, company, product), count) =>
               if 1 <? count then add_sn_conflict company lot product d else d)
            groups [].

(** The body of the loop over the companies that have a serial number
    in two places. *)
Definition duplicate_sn_step (existing_conflict_invs : list rec_id)
           (acc : list InventoryVals.t * list rec_id)
           (conflicts : rec_id * (list rec_id * list rec_id))
  : M (list InventoryVals.t * list rec_id) :=
  let '(company_id, (lot_ids, product_ids)) := conflicts in
  s <- get ;;
  let existing := browse_inventories s existing_conflict_invs in
  if is_set (filter (fun i => State.eqb (Inventory.state i) State.confirm
                              && is_set (Inventory.lot_ids i)
                              && (Inventory.company_id i =? company_id)) existing)
  then ret acc
  else
    let draft_inv :=
      filter (fun i => State.eqb (Inventory.state i) State.draft
                       && is_set (Inventory.lot_ids i)
                       && (Inventory.company_id i =? company_id)) existing in
    if is_set draft_inv
    then
      inventory_write (map Inventory.id draft_inv)
        (fun i => set_product_ids (uniq product_ids) (set_lot_ids (uniq lot_ids) i)) ;;
      ret (fst acc, snd acc ++ map Inventory.id draft_inv)
    else
      ret (fst acc ++
             [InventoryVals.mk "Duplicate SN Inventory" company_id product_ids lot_ids
                               true []],
           snd acc).

Definition _run_conflict_inventory_tasks (company_id : many2one) : M unit :=
  s <- get ;;
  let existing_conflict_invs := existing_conflict_invs s company_id in
  let neg_quants := neg_quants s company_id in
  let company_ids := uniq (map Quant.company_id neg_quants) in
  let warehouse_ids :=
    filter (fun w => mem (Warehouse.company_id w) company_ids) (warehouses E) in
  let company_warehouses :=
    flat_map (fun company_id =>
                map (fun warehouse => (company_id, warehouse))
                    (filter (fun w => Warehouse.company_id w =? company_id)
                            warehouse_ids))
             company_ids in
  acc <- fold_m (negative_quantity_step existing_conflict_invs neg_quants
                                        (warehouse_to_locations s warehouse_ids))
                company_warehouses ([], []) ;;
  let quants := sn_groups (sn_quants s company_id) in
  acc <- fold_m (duplicate_sn_step existing_conflict_invs)
                (company_to_sn_conflicts quants) acc ;;
  let '(inventory_vals_to_create, updated_invs) := acc in
  inventory_create inventory_vals_to_create ;;
  s <- get ;;
  unlink (filter (fun i => negb (mem i updated_invs))
                 (map Inventory.id
                      (filter (fun i => State.eqb (Inventory.state i) State.draft)
                              (browse_inventories s existing_conflict_invs)))) ;;
  ret tt.

(** [action_open_inventory_view] runs the conflict pass for every company
    before it hands the window action of the inventories. *)
Definition action_open_inventory_view : M string :=
  _run_conflict_inventory_tasks None ;;
  ret "stock.action_inventory_form".
End Conflicts.

(** A draft conflict inventory of the companies that a run concerns. *)
Definition conflict_draft (company_id : many2one) (x : Inventory.t) : Prop :=
  Inventory.state x = State.draft
  /\ Inventory.is_conflict_inventory x = true
  /\ company_domain company_id (Some (Inventory.company_id x)) = true.

(** [x'] is [x] with at most its products and its lots changed. *)
Definition edited (x x' : Inventory.t) : Prop :=
  x' = set_product_ids (Inventory.product_ids x')
                       (set_lot_ids (Inventory.lot_ids x') x).

(** What the two loops of the conflict pass may have done to the store:
    nothing but changing the products and the lots of draft conflict
    inventories. *)
Definition conflict_edits (company_id : many2one) (s s' : db) : Prop :=
  lines s' = lines s /\ moves s' = moves s /\ locations s' = locations s
  /\ inventory_seq s' = inventory_seq s
  /\ Forall2 (fun x x' =>
                edited x x'
                /\ is_set (Inventory.lot_ids x') = is_set (Inventory.lot_ids x)
                /\ (x' = x \/ conflict_draft company_id x))
             (inventories s) (inventories s').

(** A conflict inventory in progress, of the companies that a run
    concerns: the records of the search that opens the pass. *)
Definition in_progress_conflict (company_id : many2one) (y : Inventory.t) : Prop :=
  (Inventory.state y = State.draft \/ Inventory.state y = State.confirm)
  /\ Inventory.is_conflict_inventory y = true
  /\ company_domain company_id (Some (Inventory.company_id y)) = true.

(** The active locations that lie properly below the view location of a
    warehouse. *)
Definition below_view (s : db) (warehouse : Warehouse.t) : list rec_id :=
  map Location.id
      (filter (fun l => Location.active l
                        && existsb (fun location_id =>
                                      location_id =? Warehouse.view_location_id warehouse)
                                   (ancestor_ids l))
              (locations s)).

(** A value dict that collides with no conflict inventory in progress in
    the store [s0]: it is for the locations of a warehouse that none of
    them touches, or for the serial numbers of a company of which none
    holds lots. *)
Definition collision_free (E : environment) (company_id : many2one) (s0 : db)
           (v : InventoryVals.t) : Prop :=
  (exists w,
      In w (warehouses E)
      /\ Warehouse.company_id w = InventoryVals.company_id v
      /\ InventoryVals.location_ids v = child_ids s0 (Warehouse.view_location_id w)
      /\ forall y, In y (inventories s0) -> in_progress_conflict company_id y ->
                   Inventory.company_id y = InventoryVals.company_id v ->
                   touches (below_view s0 w) y = false)
  \/ (InventoryVals.location_ids v = []
      /\ forall y, In y (inventories s0) -> in_progress_conflict company_id y ->
                   Inventory.company_id y = InventoryVals.company_id v ->
                   Inventory.lot_ids y = []).

(** What the loops of the conflict pass hold in their local variables:
    value dicts of conflict inventories that collide with none in
    progress, and ids of draft conflict inventories of the store [s0] they
    started on. *)
Definition conflict_acc (E : environment) (company_id : many2one) (s0 : db)
           (acc : list InventoryVals.t * list rec_id) : Prop :=
  Forall (fun v => InventoryVals.is_conflict_inventory v = true
                   /\ collision_free E company_id s0 v) (fst acc)
  /\ forall j, In j (snd acc) ->
               exists x, In x (inventories s0) /\ Inventory.id x = j
                         /\ conflict_draft company_id x.

(** The store that the conflict pass leaves when its loops have left the
    store [s1], the value dicts [vals] and the ids [updated]: the
    inventories of [vals] are created, and the draft records of the search
    that are not in [updated] are deleted. *)
Definition conflict_final (E : environment) (company_id : many2one) (s0 s1 : db)
           (vals : list InventoryVals.t) (updated : list rec_id) : db :=
  let s2 := snd (inventory_create E vals s1) in
  snd (inventory_unlink
         (browse_inventories s2
            (filter (fun i => negb (mem i updated))
                    (map Inventory.id
                         (filter (fun i => State.eqb (Inventory.state i) State.draft)
                                 (browse_inventories s2
                                    (existing_conflict_invs s0 company_id))))))
         s2).

Module DemoConflict.
(** The warehouse of the demonstration is called Main; its ledger holds
    a negative quant of bolts in the stock ([DemoCancel.E]). *)
Definition warehouse_name (w : Warehouse.t) : string := "Main".

(** A draft conflict inventory left by an earlier run, beside the
    inventory in progress. *)
Definition stale_inventory : Inventory.t :=
  Inventory.mk 2 "Negative Quantity Inventory: Main" 600 State.draft 1 [21] [11] false
               Prefill.counted false true [] 600.

Definition stale_line : Line.t :=
  Line.mk 4 false (Some 2) None (Some 11) (Some 1) 0%Q (Some 21) None None 0%Q 600.

Definition store : db :=
  {| inventories := [Demo.adjustment_inventory; stale_inventory];
     lines := lines Demo.store ++ [stale_line];
     moves := [];
     locations := locations Demo.store;
     inventory_seq := 3;
     line_seq := 5;
     move_seq := 1 |}.
End DemoConflict.

(** ** Searching on the outdated flag *)

(** The value that a search domain compares the flag with: a boolean, or
    something else (an integer, [None]). *)
Inductive py_value :=
| PyBool (b : bool)
| PyInt (n : Z)
| PyNone.

(** [flag == value] in Python: [True == 1] and [False == 0] hold. *)
Definition py_eq_bool (flag : bool) (value : py_value) : bool :=
  match value with
  | PyBool b => Bool.eqb flag b
  | PyInt n => n =? (if flag then 1 else 0)
  | PyNone => false
  end.

(** What [_search_outdated] comes to: [NotImplementedError], the error
    of the computation of the flags, or the domain [[('id', 'in', ids)]]. *)
Inductive search_result :=
| NotImplementedError
| Failed (e : exn)
| Domain (ids : list rec_id).

Section Searching.
Variable E : environment.

(** [default_inventory_id] is the entry of the context, [None] when the
    context has none. *)
Definition _search_outdated (s : db) (default_inventory_id : many2one)
           (operator : string) (value : py_value) : search_result :=
  let value :=
    if negb (String.eqb operator "=")
    then if String.eqb operator "!="
         then match value with
              | PyBool b => Some (PyBool (negb b))
              | _ => None
              end
         else None
    else Some value in
  match value with
  | None => NotImplementedError
  | Some value =>
      let lines :=
        filter (fun l => many2one_eqb (Line.inventory_id l) default_inventory_id)
               (lines s) in
      match _compute_outdated E s lines with
      | inl e => Failed e
      | inr flags =>
          Domain (map (fun lf => Line.id (fst lf))
                      (filter (fun lf => py_eq_bool (snd lf) value)
                              (combine lines flags)))
      end
  end.
End Searching.

(** The ids of the stored locations are distinct. *)
Definition locations_wf (s : db) : Prop :=
  NoDup (map Location.id (locations s)).

(** * Facts *)

(** ** The rounding helpers *)

Module FloatFacts.

Local Open Scope Q_scope.

Lemma Qltb_lt a b : Qltb a b = true <-> a < b.
Proof.
  unfold Qltb. rewrite negb_true_iff. split; intro H.
  - apply Qnot_le_lt. intro Hle. apply Qle_bool_iff in Hle. congruence.
  - destruct (Qle_bool b a) eqn:E; [|reflexivity].
    apply Qle_bool_iff in E. exfalso. apply (Qlt_not_le _ _ H E).
Qed.

Lemma Qltb_ge a b : Qltb a b = false <-> b <= a.
Proof.
  unfold Qltb. rewrite negb_false_iff. apply Qle_bool_iff.
Qed.

#[export] Instance Qltb_comp : Proper (Qeq ==> Qeq ==> eq) Qltb.
Proof. intros a a' Ha b b' Hb. unfold Qltb. now rewrite Ha, Hb. Qed.

#[export] Instance float_round_comp : Proper (Qeq ==> Qeq ==> Qeq) float_round.
Proof.
  intros v v' Hv r r' Hr. unfold float_round.
  assert (Er : Qeq_bool r' 0 = Qeq_bool r 0) by now rewrite Hr.
  assert (Ev : Qeq_bool v' 0 = Qeq_bool v 0) by now rewrite Hv.
  assert (Hn : v' / r' == v / r) by now rewrite Hv, Hr.
  assert (El : Qltb (v' / r') 0 = Qltb (v / r) 0) by now rewrite Hn.
  assert (Ef : Qfloor (Qabs (v' / r') + (1 # 2))
               = Qfloor (Qabs (v / r) + (1 # 2))) by now rewrite Hn.
  rewrite Er, Ev, El, Ef.
  destruct (Qeq_bool r 0 || Qeq_bool v 0); [reflexivity|].
  apply Qmult_comp; [reflexivity | exact Hr].
Qed.

#[export] Instance float_is_zero_comp : Proper (Qeq ==> Qeq ==> eq) float_is_zero.
Proof.
  intros v v' Hv r r' Hr. unfold float_is_zero. now rewrite Hv, Hr.
Qed.

Lemma float_round_0 v r : v == 0 -> float_round v r = 0.
Proof.
  intro H. unfold float_round. apply Qeq_bool_iff in H. rewrite H.
  now rewrite orb_true_r.
Qed.

(** A null difference is within every positive tolerance. *)
Lemma float_is_zero_0 v r : 0 < r -> v == 0 -> float_is_zero v r = true.
Proof.
  intros Hr Hv. unfold float_is_zero. rewrite (float_round_0 v r Hv).
  apply Qltb_lt. exact Hr.
Qed.

Lemma float_is_zero_diag q r : 0 < r -> float_is_zero (q - q) r = true.
Proof. intro Hr. apply float_is_zero_0; [exact Hr | ring]. Qed.

Lemma Qabs_float_round v r :
  0 < r -> ~ v == 0 ->
  Qabs (float_round v r) == inject_Z (Qfloor (Qabs (v / r) + (1 # 2))) * r.
Proof.
  intros Hr Hv. unfold float_round.
  destruct (Qeq_bool r 0) eqn:Er.
  { apply Qeq_bool_iff in Er. rewrite Er in Hr. discriminate. }
  destruct (Qeq_bool v 0) eqn:Ev.
  { apply Qeq_bool_iff in Ev. contradiction. }
  cbn [orb].
  set (n := Qfloor (Qabs (v / r) + (1 # 2))).
  assert (Hn : 0 <= inject_Z n).
  { change 0 with (inject_Z 0). rewrite <- Zle_Qle. subst n.
    rewrite <- (Qfloor_Z 0). apply Qfloor_resp_le.
    change (inject_Z 0) with 0.
    pose proof (Qabs_nonneg (v / r)). lra. }
  rewrite Qabs_Qmult, (Qabs_pos r) by lra.
  destruct (Qltb (v / r) 0).
  - rewrite Qabs_opp, Qabs_pos by exact Hn. reflexivity.
  - rewrite Qabs_pos by exact Hn. reflexivity.
Qed.

(** The tolerance of [float_is_zero]: strictly less than half a step. *)
Lemma float_is_zero_spec v r :
  0 < r -> (float_is_zero v r = true <-> Qabs v < r / 2).
Proof.
  intro Hr.
  destruct (Qeq_dec v 0) as [Hv|Hv].
  { rewrite (float_is_zero_0 v r Hr Hv). rewrite Hv. cbn [Qabs Z.abs Qnum Qden].
    split; [intros _|reflexivity]. apply Qlt_shift_div_l; lra. }
  unfold float_is_zero. rewrite Qltb_lt, (Qabs_float_round v r Hr Hv).
  set (x := Qabs (v / r) + (1 # 2)).
  assert (Hx : Qabs v == (x - (1 # 2)) * r).
  { subst x. unfold Qdiv. rewrite Qabs_Qmult, Qabs_Qinv, (Qabs_pos r) by lra.
    field. lra. }
  assert (Hx0 : 0 <= x) by (subst x; pose proof (Qabs_nonneg (v / r)); lra).
  pose proof (Qfloor_le x) as Hlo. pose proof (Qlt_floor x) as Hhi.
  rewrite inject_Z_plus in Hhi. change (inject_Z 1) with 1 in Hhi.
  split; intro H.
  - assert (Hf : inject_Z (Qfloor x) < 1).
    { apply Qnot_le_lt. intro Hge. apply (Qlt_not_le _ _ H).
      setoid_replace r with (1 * r) at 1 by ring.
      apply Qmult_le_compat_r; lra. }
    assert (Hz : (Qfloor x < 1)%Z) by (rewrite Zlt_Qlt; exact Hf).
    assert (H0 : (0 <= Qfloor x)%Z).
    { rewrite <- (Qfloor_Z 0). apply Qfloor_resp_le. exact Hx0. }
    assert (Hfx : Qfloor x = 0%Z) by lia.
    rewrite Hfx in Hhi. change (inject_Z 0) with 0 in Hhi.
    rewrite Hx. apply Qlt_shift_div_l; [lra|].
    setoid_replace ((x - (1 # 2)) * r * 2) with ((2 * x - 1) * r) by ring.
    setoid_replace r with (1 * r) at 2 by ring.
    apply Qmult_lt_compat_r; lra.
  - assert (Hx1 : x < 1).
    { apply Qnot_le_lt. intro Hge. apply (Qlt_not_le _ _ H).
      rewrite Hx. apply Qle_shift_div_r; [lra|].
      setoid_replace ((x - (1 # 2)) * r * 2) with ((2 * x - 1) * r) by ring.
      setoid_replace r with (1 * r) at 1 by ring.
      apply Qmult_le_compat_r; lra. }
    assert (Hfx : (Qfloor x < 1)%Z).
    { rewrite Zlt_Qlt. change (inject_Z 1) with 1. lra. }
    assert (H0 : (0 <= Qfloor x)%Z).
    { rewrite <- (Qfloor_Z 0). apply Qfloor_resp_le. exact Hx0. }
    replace (Qfloor x) with 0%Z by lia.
    change (inject_Z 0) with 0. lra.
Qed.

End FloatFacts.

Import FloatFacts.

(** ** Ids and keys *)

Lemma many2one_eqb_eq a b : many2one_eqb a b = true <-> a = b.
Proof.
  destruct a as [x|], b as [y|]; cbn; try (split; congruence).
  rewrite Z.eqb_eq. split; congruence.
Qed.

Lemma many2one_eqb_refl a : many2one_eqb a a = true.
Proof. now apply many2one_eqb_eq. Qed.

Lemma mem_In x ids : mem x ids = true <-> In x ids.
Proof.
  unfold mem. rewrite existsb_exists. split.
  - intros [y [Hy E]]. apply Z.eqb_eq in E. now subst.
  - intro H. exists x. split; [exact H | apply Z.eqb_refl].
Qed.

Lemma key_eqb_eq a b : key_eqb a b = true <-> a = b.
Proof.
  destruct a as [[[[p l] s] k] o], b as [[[[p' l'] s'] k'] o']. cbn.
  rewrite !andb_true_iff, !many2one_eqb_eq. split.
  - intros [[[[-> ->] ->] ->] ->]. reflexivity.
  - intro H. inversion H. auto.
Qed.

(** ** The monad *)

Lemma db_eta s :
  Build_db (inventories s) (lines s) (moves s) (locations s)
           (inventory_seq s) (line_seq s) (move_seq s) = s.
Proof. now destruct s. Qed.

Lemma filter_map_cons {A B} (f : A -> option B) x xs :
  filter_map f (x :: xs)
  = match f x with Some y => y :: filter_map f xs | None => filter_map f xs end.
Proof. unfold filter_map. cbn. now destruct (f x). Qed.

Lemma filter_map_nil {A B} (f : A -> option B) xs :
  (forall x, In x xs -> f x = None) -> filter_map f xs = [].
Proof.
  induction xs as [|x xs IH]; intro H; [reflexivity|].
  rewrite filter_map_cons, (H x (or_introl eq_refl)).
  apply IH. intros y Hy. apply H. now right.
Qed.

(** ** Move generation *)

Lemma number_moves_vals first vals_list :
  map Move.vals (number_moves first vals_list) = vals_list.
Proof.
  revert first. induction vals_list as [|v vs IH]; intro first; cbn; [reflexivity|].
  now rewrite IH.
Qed.

Lemma generate_moves_run E self s :
  _generate_moves E self s
  = (inr (number_moves (move_seq s) (filter_map (line_move_values E s) self)),
     Build_db (inventories s) (lines s)
              (moves s ++ number_moves (move_seq s) (filter_map (line_move_values E s) self))
              (locations s) (inventory_seq s) (line_seq s)
              (move_seq s + Z.of_nat (List.length (filter_map (line_move_values E s) self)))).
Proof. reflexivity. Qed.

Section MoveFacts.
Variable E : environment.
Variable s : db.

Local Open Scope Q_scope.

Lemma get_move_values_adjustment line qty src dst (out : bool) :
  adjustment line qty src dst
             (if out then Line.package_id line else None)
             (if out then None else Line.package_id line)
             (_get_move_values s line qty src dst out).
Proof.
  unfold adjustment, _get_move_values. cbn.
  repeat split; try reflexivity.
  eexists. repeat split; try reflexivity.
  now destruct out.
Qed.

Lemma line_move_values_emitted line :
  0 < line_rounding E line ->
  emitted E s line
          (match line_move_values E s line with Some v => [v] | None => [] end).
Proof.
  intro Hr. unfold line_move_values. fold (line_rounding E line).
  destruct (float_is_zero (difference_qty line) (line_rounding E line)) eqn:Hz.
  - now apply emitted_nothing.
  - destruct (Qltb 0 (difference_qty line)) eqn:Hpos.
    + apply emitted_in; [exact Hz| |].
      * apply Qltb_lt in Hpos. unfold difference_qty in Hpos. lra.
      * apply (get_move_values_adjustment line _ _ _ false).
    + apply emitted_out; [exact Hz| |].
      * apply Qltb_ge in Hpos.
        destruct (Qeq_dec (difference_qty line) 0) as [H0|H0].
        { rewrite (float_is_zero_0 _ _ Hr H0) in Hz. discriminate. }
        unfold difference_qty in *. lra.
      * apply (get_move_values_adjustment line _ _ _ true).
Qed.

Lemma line_move_values_equal line :
  0 < line_rounding E line ->
  Line.product_qty line == Line.theoretical_qty line ->
  line_move_values E s line = None.
Proof.
  intros Hr Heq. unfold line_move_values. fold (line_rounding E line).
  rewrite float_is_zero_0; [reflexivity | exact Hr |].
  unfold difference_qty. lra.
Qed.
End MoveFacts.

(** C1.  [_generate_moves] creates, line after line, what each line is
    expected to emit: no move for a line whose counted and theoretical
    quantities differ by less than the rounding tolerance, half a rounding
    step (in particular when they are equal), else exactly one move, of
    counted - theoretical from the virtual adjustment location into the
    line's location with the package as destination package when more was
    counted, of the absolute difference from the line's location into the
    virtual location with the package as source package when less was
    counted. *)
Theorem generate_moves_one_move_per_difference E s self :
  Forall (fun line => (0 < line_rounding E line)%Q) self ->
  exists groups created,
    Forall2 (fun line group =>
               emitted E s line group
               /\ ((Line.product_qty line == Line.theoretical_qty line)%Q -> group = [])
               /\ (group = []
                   <-> (Qabs (Line.product_qty line - Line.theoretical_qty line)
                        < line_rounding E line / 2)%Q))
            self groups
    /\ fst (_generate_moves E self s) = inr created
    /\ map Move.vals created = concat groups
    /\ moves (snd (_generate_moves E self s)) = moves s ++ created
    /\ lines (snd (_generate_moves E self s)) = lines s.
Proof.
  intro Hpos.
  exists (map (fun line => match line_move_values E s line with
                           | Some v => [v] | None => [] end) self).
  exists (number_moves (move_seq s) (filter_map (line_move_values E s) self)).
  rewrite generate_moves_run. cbn [fst snd moves lines].
  repeat split.
  - induction Hpos as [|line rest Hr _ IH]; cbn [map]; constructor; [|exact IH].
    split; [|split].
    + now apply line_move_values_emitted.
    + intro Heq. now rewrite (line_move_values_equal E s line Hr Heq).
    + rewrite <- (float_is_zero_spec _ _ Hr). fold (difference_qty line).
      unfold line_move_values. fold (line_rounding E line).
      destruct (float_is_zero (difference_qty line) (line_rounding E line));
        [tauto|].
      destruct (Qltb 0 (difference_qty line)); split; discriminate.
  - rewrite number_moves_vals. unfold filter_map. apply flat_map_concat_map.
Qed.

Lemma generate_moves_one_move_per_difference_witness :
  exists groups created,
    Forall2 (fun line group =>
               emitted Demo.E Demo.store line group
               /\ ((Line.product_qty line == Line.theoretical_qty line)%Q -> group = [])
               /\ (group = []
                   <-> (Qabs (Line.product_qty line - Line.theoretical_qty line)
                        < line_rounding Demo.E line / 2)%Q))
            (lines Demo.store) groups
    /\ fst (_generate_moves Demo.E (lines Demo.store) Demo.store) = inr created
    /\ map Move.vals created = concat groups
    /\ moves (snd (_generate_moves Demo.E (lines Demo.store) Demo.store))
       = moves Demo.store ++ created
    /\ lines (snd (_generate_moves Demo.E (lines Demo.store) Demo.store))
       = lines Demo.store.
Proof.
  apply (generate_moves_one_move_per_difference Demo.E Demo.store (lines Demo.store)).
  repeat constructor.
Defined.

(** The three lines of the demonstration give two moves: 3 bolts out of
    the stock, 2 bolts into the package on the shelf. *)
Example generate_moves_demo :
  map (fun m => (MoveVals.product_uom_qty (Move.vals m),
                 MoveVals.location_id (Move.vals m),
                 MoveVals.location_dest_id (Move.vals m),
                 map (fun ml => (MoveLine.package_id ml, MoveLine.result_package_id ml))
                     (MoveVals.move_line_ids (Move.vals m))))
      (moves (snd (_generate_moves Demo.E (lines Demo.store) Demo.store)))
  = [ (Qabs (7 - 10), Some 21, Some 5, [(None, None)]);
      ((12 - 10)%Q, Some 5, Some 22, [(None, Some 70)]) ].
Proof. reflexivity. Qed.

(** ** Checks that read the store *)

Lemma for_each_check {A} (body : A -> M unit) (bad : db -> A -> bool) (e : exn) :
  (forall x s, body x s = (if bad s x then inl e else inr tt, s)) ->
  forall xs s,
    for_each xs body s = (if existsb (bad s) xs then inl e else inr tt, s).
Proof.
  intros Hbody xs s. induction xs as [|x xs IH]; [reflexivity|].
  cbn [for_each existsb]. unfold bind. rewrite Hbody.
  destruct (bad s x); [reflexivity|]. exact IH.
Qed.

Lemma count_positive {A} (f : A -> bool) xs :
  (0 <? Z.of_nat (List.length (filter f xs))) = existsb f xs.
Proof.
  induction xs as [|x xs IH]; [reflexivity|].
  cbn [filter existsb]. destruct (f x); [|exact IH].
  cbn [List.length orb]. apply Z.ltb_lt. lia.
Qed.

Lemma check_no_duplicate_line_run self s :
  _check_no_duplicate_line self s
  = (if existsb (has_duplicate s) self
     then inl (UserError duplicate_line_message) else inr tt, s).
Proof.
  unfold _check_no_duplicate_line. apply for_each_check.
  intros i s0. unfold bind, get, has_duplicate.
  destruct (browse_line s0 i) as [line|]; [|reflexivity].
  rewrite count_positive. now destruct (existsb (duplicate_of line) (lines s0)).
Qed.

Lemma check_product_id_run E self s :
  _check_product_id E self s
  = (if existsb (not_storable E s) self
     then inl (ValidationError "You can only adjust storable products.")
     else inr tt, s).
Proof.
  unfold _check_product_id. apply for_each_check.
  intros i s0. unfold bind, get, not_storable.
  destruct (browse_line s0 i) as [line|]; [|reflexivity].
  destruct (product_type E (Line.product_id line)) as [[]|]; reflexivity.
Qed.

Lemma duplicate_of_spec line other :
  duplicate_of line other = true
  <-> Line.id other <> Line.id line
      /\ Line.key other = Line.key line
      /\ Line.inventory_id other = Line.inventory_id line.
Proof.
  unfold duplicate_of, Line.key.
  rewrite !andb_true_iff, !many2one_eqb_eq, negb_true_iff, Z.eqb_neq.
  split.
  - intros [[[[[[Hid Hp] Hl] Ho] Hk] Hs] Hi]. repeat split; congruence.
  - intros [Hid [Hk Hi]]. inversion Hk. repeat split; assumption.
Qed.

Lemma browse_line_In s i line :
  browse_line s i = Some line -> In line (lines s) /\ Line.id line = i.
Proof.
  unfold browse_line. intro H. apply find_some in H.
  destruct H as [Hin Hid]. apply Z.eqb_eq in Hid. now split.
Qed.

Lemma find_by_id_NoDup (ls : list Line.t) line :
  NoDup (map Line.id ls) -> In line ls ->
  find (fun r => Line.id r =? Line.id line) ls = Some line.
Proof.
  induction ls as [|x xs IH]; intros Hnd Hin; [destruct Hin|].
  cbn [map] in Hnd. inversion Hnd as [|? ? Hx Hxs]; subst.
  cbn [find]. destruct Hin as [->|Hin].
  - now rewrite Z.eqb_refl.
  - destruct (Line.id x =? Line.id line) eqn:Eid.
    + apply Z.eqb_eq in Eid. exfalso. apply Hx. rewrite Eid.
      now apply in_map.
    + now apply IH.
Qed.

Lemma browse_line_NoDup s line :
  NoDup (map Line.id (lines s)) -> In line (lines s) ->
  browse_line s (Line.id line) = Some line.
Proof. apply find_by_id_NoDup. Qed.

(** A line that passed the check has no double in the store. *)
Lemma no_duplicate_distinct s line other :
  NoDup (map Line.id (lines s)) ->
  In line (lines s) -> In other (lines s) ->
  has_duplicate s (Line.id line) = false ->
  Line.id other <> Line.id line ->
  Line.inventory_id other = Line.inventory_id line ->
  Line.key other <> Line.key line.
Proof.
  intros Hnd Hl Ho Hdup Hid Hinv Hkey.
  unfold has_duplicate in Hdup. rewrite (browse_line_NoDup s line Hnd Hl) in Hdup.
  assert (Hex : existsb (duplicate_of line) (lines s) = true).
  { apply existsb_exists. exists other. split; [exact Ho|].
    apply duplicate_of_spec. now repeat split. }
  congruence.
Qed.

(** ** Running [create] and [write] *)

Lemma map_m_readonly {A B} (f : A -> M B) (R : A -> B -> Prop) :
  (forall x s r s', f x s = (r, s') -> s' = s /\ forall y, r = inr y -> R x y) ->
  forall xs s r s',
    map_m f xs s = (r, s') -> s' = s /\ forall ys, r = inr ys -> Forall2 R xs ys.
Proof.
  intros Hf xs. induction xs as [|x xs IH]; intros s r s' H.
  - cbn in H. unfold ret in H. inversion H; subst. split; [reflexivity|].
    intros ys Hys. inversion Hys. constructor.
  - cbn [map_m] in H. unfold bind in H.
    destruct (f x s) as [[e|y] s1] eqn:Ex.
    + destruct (Hf _ _ _ _ Ex) as [-> _]. inversion H; subst.
      split; [reflexivity|]. intros ys Hys. discriminate.
    + destruct (Hf _ _ _ _ Ex) as [-> Hy].
      destruct (map_m f xs s) as [[e|ys] s2] eqn:Exs.
      * destruct (IH _ _ _ Exs) as [-> _]. inversion H; subst.
        split; [reflexivity|]. intros ys Hys. discriminate.
      * destruct (IH _ _ _ Exs) as [-> Hys]. unfold ret in H. inversion H; subst.
        split; [reflexivity|]. intros zs Hzs. inversion Hzs; subst.
        constructor; [now apply Hy | now apply Hys].
Qed.

Lemma prepare_values_inv E v s r s' :
  prepare_values E v s = (r, s') ->
  s' = s /\ forall v', r = inr v' -> prepared_from E v v'.
Proof.
  unfold prepare_values, bind, prepared_from. intro H.
  destruct (LineVals.theoretical_qty v) as [q|] eqn:Eq.
  - unfold ret in H.
    destruct (is_some (LineVals.product_id v)
              && negb (is_some (LineVals.product_uom_id v)));
      inversion H; subst; (split; [reflexivity|]);
      intros v' Hv'; inversion Hv'; subst; cbn;
      repeat split; auto; intros ? ?; congruence.
  - destruct (LineVals.product_id v) as [p|] eqn:Ep;
      [destruct (LineVals.location_id v) as [l|] eqn:El|];
      unfold ret, raise in H; cbn in H.
    + rewrite Ep in H. cbn in H.
      destruct (negb (is_some (LineVals.product_uom_id v)));
        inversion H; subst; (split; [reflexivity|]);
        intros v' Hv'; inversion Hv'; subst; cbn; rewrite ?Ep, ?Eq;
        repeat split; auto; intros ? ?; congruence.
    + inversion H; subst. split; [reflexivity|]. intros v' Hv'. discriminate.
    + inversion H; subst. split; [reflexivity|]. intros v' Hv'. discriminate.
Qed.

Lemma orm_insert_line_run E v s :
  orm_insert_line E v s
  = if has_required v
    then (inr (line_seq s),
          Build_db (inventories s) (lines s ++ [line_of_values E (line_seq s) v])
                   (moves s) (locations s)
                   (inventory_seq s) (line_seq s + 1) (move_seq s))
    else (inl (IntegrityError "null value in a required column"), s).
Proof. unfold orm_insert_line. now destruct (has_required v). Qed.

Lemma insert_lines_inv E pv : forall s res s',
  map_m (orm_insert_line E) pv s = (inr res, s') ->
  forallb has_required pv = true
  /\ res = map Line.id (new_lines E (line_seq s) pv)
  /\ s' = inserted E s pv.
Proof.
  induction pv as [|v pv IH]; intros s res s' H.
  - cbn in H. unfold ret in H. inversion H; subst. unfold inserted. cbn.
    rewrite app_nil_r, Z.add_0_r, db_eta. auto.
  - cbn [map_m] in H. unfold bind in H. rewrite orm_insert_line_run in H.
    destruct (has_required v) eqn:Hreq; [|discriminate H].
    match type of H with
    | context [map_m _ _ ?s1] =>
        destruct (map_m (orm_insert_line E) pv s1) as [[e|ids] s2] eqn:Erest;
        [discriminate H|]
    end.
    unfold ret in H. inversion H; subst.
    destruct (IH _ _ _ Erest) as [Hall [-> ->]].
    cbn [forallb new_lines map]. rewrite Hreq, Hall.
    repeat split. unfold inserted. cbn.
    rewrite <- app_assoc. cbn [app]. f_equal. lia.
Qed.

Lemma existsb_false {A} (f : A -> bool) xs :
  existsb f xs = false <-> forall x, In x xs -> f x = false.
Proof.
  split.
  - intros H x Hx. destruct (f x) eqn:Ef; [|reflexivity].
    assert (existsb f xs = true) by (apply existsb_exists; eauto). congruence.
  - intro H. destruct (existsb f xs) eqn:Ex; [|reflexivity].
    apply existsb_exists in Ex. destruct Ex as [x [Hx Hfx]].
    rewrite (H x Hx) in Hfx. discriminate.
Qed.

(** A successful [create] has inserted the rows of the prepared value
    dicts, found every product storable and no row doubled. *)
Lemma create_inv E vals_list s res s' :
  create E vals_list s = (inr res, s') ->
  exists pv,
    Forall2 (prepared_from E) vals_list pv
    /\ forallb has_required pv = true
    /\ res = map Line.id (new_lines E (line_seq s) pv)
    /\ s' = inserted E s pv
    /\ (forall i, In i res -> not_storable E s' i = false)
    /\ (forall i, In i res -> has_duplicate s' i = false).
Proof.
  unfold create, bind. intro H.
  destruct (map_m (prepare_values E) vals_list s) as [[e|pv] s0] eqn:Eprep;
    [discriminate H|].
  destruct (map_m_readonly _ _ (prepare_values_inv E) _ _ _ _ Eprep) as [-> Hpv].
  unfold orm_create_lines, bind in H.
  destruct (map_m (orm_insert_line E) pv s) as [[e|ids] s1] eqn:Eins;
    [discriminate H|].
  destruct (insert_lines_inv E pv _ _ _ Eins) as [Hreq [-> ->]].
  rewrite check_product_id_run in H.
  destruct (existsb (not_storable E (inserted E s pv))
                    (map Line.id (new_lines E (line_seq s) pv))) eqn:Estor;
    [discriminate H|].
  unfold ret in H. rewrite check_no_duplicate_line_run in H.
  destruct (existsb (has_duplicate (inserted E s pv))
                    (map Line.id (new_lines E (line_seq s) pv))) eqn:Edup;
    [discriminate H|].
  inversion H; subst.
  exists pv. repeat split; auto.
  - now apply existsb_false.
  - now apply existsb_false.
Qed.

Lemma write_run E self vals s :
  write E self vals s
  = if required_emptied s self vals
    then (inl (IntegrityError "null value in a required column"), s)
    else if is_some (LineWrite.product_id vals)
            && existsb (not_storable E (updated self vals s)) self
    then (inl (ValidationError "You can only adjust storable products."),
          updated self vals s)
    else if existsb (has_duplicate (updated self vals s)) self
    then (inl (UserError duplicate_line_message), updated self vals s)
    else (inr true, updated self vals s).
Proof.
  unfold write, orm_write_lines, bind, get, required_emptied, updated, written.
  destruct (is_set (browse_lines s self)
            && (writes_null (LineWrite.product_id vals)
                || writes_null (LineWrite.location_id vals)
                || writes_null (LineWrite.product_uom_id vals))); [reflexivity|].
  unfold modify, when_.
  destruct (is_some (LineWrite.product_id vals)); cbn [andb].
  - rewrite check_product_id_run.
    match goal with
    | |- context [existsb (not_storable E ?s1) self] =>
        destruct (existsb (not_storable E s1) self)
    end; [reflexivity|].
    rewrite check_no_duplicate_line_run.
    match goal with
    | |- context [existsb (has_duplicate ?s1) self] =>
        destruct (existsb (has_duplicate s1) self)
    end; reflexivity.
  - unfold ret. rewrite check_no_duplicate_line_run.
    match goal with
    | |- context [existsb (has_duplicate ?s1) self] =>
        destruct (existsb (has_duplicate s1) self)
    end; reflexivity.
Qed.

Lemma write_inv E self vals s b s' :
  write E self vals s = (inr b, s') ->
  s' = updated self vals s
  /\ forall i, In i self -> has_duplicate s' i = false.
Proof.
  rewrite write_run.
  destruct (required_emptied s self vals); [discriminate|].
  destruct (is_some (LineWrite.product_id vals)
            && existsb (not_storable E (updated self vals s)) self); [discriminate|].
  destruct (existsb (has_duplicate (updated self vals s)) self) eqn:Edup;
    [discriminate|].
  intro H. inversion H; subst. split; [reflexivity|]. now apply existsb_false.
Qed.

(** ** Fresh rows *)

Lemma new_lines_nth E pv : forall first n v,
  nth_error pv n = Some v ->
  nth_error (new_lines E first pv) n
  = Some (line_of_values E (first + Z.of_nat n) v).
Proof.
  induction pv as [|x pv IH]; intros first n v H; [now destruct n|].
  destruct n as [|n]; cbn in H |- *.
  - inversion H; subst. now rewrite Z.add_0_r.
  - rewrite (IH (first + 1) n v H). do 2 f_equal. lia.
Qed.

Lemma new_lines_bounds E pv : forall first l,
  In l (new_lines E first pv) ->
  first <= Line.id l < first + Z.of_nat (List.length pv).
Proof.
  induction pv as [|x pv IH]; intros first l H; [destruct H|].
  cbn [new_lines List.length] in *. destruct H as [<-|H].
  - cbn. lia.
  - specialize (IH _ _ H). lia.
Qed.

Lemma new_lines_NoDup E pv : forall first,
  NoDup (map Line.id (new_lines E first pv)).
Proof.
  induction pv as [|x pv IH]; intro first; cbn; constructor; [|apply IH].
  intro Hin. apply in_map_iff in Hin. destruct Hin as [l [Hid Hl]].
  apply new_lines_bounds in Hl. lia.
Qed.

Lemma inserted_wf E s pv : lines_wf s -> lines_wf (inserted E s pv).
Proof.
  intros [Hnd Hlt]. unfold lines_wf, inserted. cbn [lines line_seq]. split.
  - rewrite map_app. apply NoDup_app; [exact Hnd | apply new_lines_NoDup |].
    intros i Hi Hi'.
    apply in_map_iff in Hi. destruct Hi as [l [<- Hl]].
    apply in_map_iff in Hi'. destruct Hi' as [l' [Hid Hl']].
    apply new_lines_bounds in Hl'.
    rewrite Forall_forall in Hlt. specialize (Hlt l Hl). lia.
  - apply Forall_app. split.
    + eapply Forall_impl; [|exact Hlt]. cbn. intros l Hl. lia.
    + apply Forall_forall. intros l Hl. apply new_lines_bounds in Hl. lia.
Qed.

Lemma Forall2_nth_error {A B} (R : A -> B -> Prop) xs ys :
  Forall2 R xs ys ->
  forall n x, nth_error xs n = Some x ->
              exists y, nth_error ys n = Some y /\ R x y.
Proof.
  induction 1 as [|x0 y0 xs ys Hxy _ IH]; intros n x Hn; [now destruct n|].
  destruct n as [|n]; cbn in Hn |- *.
  - inversion Hn; subst. eauto.
  - now apply IH.
Qed.

Lemma line_of_values_prepared E i v v' :
  prepared_from E v v' ->
  Line.key (line_of_values E i v') = LineVals.key v
  /\ Line.inventory_id (line_of_values E i v') = LineVals.inventory_id v
  /\ Line.id (line_of_values E i v') = i.
Proof. intros [Hi [Hk _]]. repeat split; assumption. Qed.

(** The row that a successful [create] has made of the [n]-th value dict. *)
Lemma create_row E vals_list s res s' n v :
  lines_wf s ->
  create E vals_list s = (inr res, s') ->
  nth_error vals_list n = Some v ->
  exists line,
    In line (lines s')
    /\ Line.id line = line_seq s + Z.of_nat n
    /\ Line.key line = LineVals.key v
    /\ Line.inventory_id line = LineVals.inventory_id v
    /\ has_duplicate s' (Line.id line) = false.
Proof.
  intros Hwf Hc Hn.
  destruct (create_inv _ _ _ _ _ Hc) as [pv [Hpv [_ [-> [-> [_ Hdup]]]]]].
  destruct (Forall2_nth_error _ _ _ Hpv _ _ Hn) as [v' [Hn' Hprep]].
  pose proof (new_lines_nth E pv (line_seq s) n v' Hn') as Hrow.
  destruct (line_of_values_prepared E (line_seq s + Z.of_nat n) v v' Hprep)
    as [Hk [Hi Hid]].
  exists (line_of_values E (line_seq s + Z.of_nat n) v').
  apply nth_error_In in Hrow. repeat split; try assumption.
  - unfold inserted. cbn [lines]. apply in_or_app. now right.
  - apply Hdup. rewrite <- Hid at 1. now apply in_map.
Qed.

Lemma written_id self vals l : Line.id (written self vals l) = Line.id l.
Proof. unfold written. now destruct (mem (Line.id l) self). Qed.

Lemma updated_wf self vals s : lines_wf s -> lines_wf (updated self vals s).
Proof.
  intros [Hnd Hlt]. unfold lines_wf, updated. cbn [lines line_seq set_lines].
  rewrite map_map. split.
  - erewrite map_ext; [exact Hnd|]. intro l. apply written_id.
  - apply Forall_map. eapply Forall_impl; [|exact Hlt].
    intros l Hl. cbn. now rewrite written_id.
Qed.

Lemma create_duplicate_stored E vals_list s n v l :
  lines_wf s ->
  nth_error vals_list n = Some v -> In l (lines s) ->
  LineVals.inventory_id v = Line.inventory_id l ->
  LineVals.key v = Line.key l ->
  exists e, fst (create E vals_list s) = inl e.
Proof.
  intros Hwf Hn Hl Hinv Hkey.
  destruct (create E vals_list s) as [[e|res] s'] eqn:Hc; [now exists e|].
  exfalso.
  destruct (create_row _ _ _ _ _ _ _ Hwf Hc Hn) as [line [Hin [Hid [Hk [Hi Hdup]]]]].
  destruct (create_inv _ _ _ _ _ Hc) as [pv [_ [_ [_ [-> _]]]]].
  destruct (inserted_wf E s pv Hwf) as [Hnd _].
  assert (Hl' : In l (lines (inserted E s pv))).
  { unfold inserted. cbn [lines]. apply in_or_app. now left. }
  refine (no_duplicate_distinct _ line l Hnd Hin Hl' Hdup _ _ _).
  - destruct Hwf as [_ Hlt]. rewrite Forall_forall in Hlt.
    specialize (Hlt l Hl). lia.
  - congruence.
  - congruence.
Qed.

Lemma create_duplicate_batch E vals_list s n m v w :
  lines_wf s ->
  n <> m -> nth_error vals_list n = Some v -> nth_error vals_list m = Some w ->
  LineVals.inventory_id v = LineVals.inventory_id w ->
  LineVals.key v = LineVals.key w ->
  exists e, fst (create E vals_list s) = inl e.
Proof.
  intros Hwf Hnm Hn Hm Hinv Hkey.
  destruct (create E vals_list s) as [[e|res] s'] eqn:Hc; [now exists e|].
  exfalso.
  destruct (create_row _ _ _ _ _ _ _ Hwf Hc Hn) as [line [Hin [Hid [Hk [Hi Hdup]]]]].
  destruct (create_row _ _ _ _ _ _ _ Hwf Hc Hm) as [other [Hin' [Hid' [Hk' [Hi' _]]]]].
  destruct (create_inv _ _ _ _ _ Hc) as [pv [_ [_ [_ [-> _]]]]].
  destruct (inserted_wf E s pv Hwf) as [Hnd _].
  refine (no_duplicate_distinct _ line other Hnd Hin Hin' Hdup _ _ _).
  - lia.
  - congruence.
  - congruence.
Qed.

Lemma write_duplicate E self vals s l l' :
  lines_wf s ->
  In l (lines s) -> In l' (lines s) ->
  In (Line.id l) self -> Line.id l' <> Line.id l ->
  Line.inventory_id (written self vals l') = Line.inventory_id (written self vals l) ->
  Line.key (written self vals l') = Line.key (written self vals l) ->
  exists e, fst (write E self vals s) = inl e.
Proof.
  intros Hwf Hl Hl' Hself Hid Hinv Hkey.
  destruct (write E self vals s) as [[e|b] s'] eqn:Hw; [now exists e|].
  exfalso.
  destruct (write_inv _ _ _ _ _ _ Hw) as [-> Hdup].
  destruct (updated_wf self vals s Hwf) as [Hnd _].
  assert (Hin : forall x, In x (lines s) ->
                          In (written self vals x) (lines (updated self vals s))).
  { intros x Hx. unfold updated. cbn [lines set_lines]. now apply in_map. }
  refine (no_duplicate_distinct _ (written self vals l) (written self vals l')
                                Hnd (Hin _ Hl) (Hin _ Hl') _ _ Hinv Hkey).
  - rewrite written_id. now apply Hdup.
  - now rewrite !written_id.
Qed.

Lemma create_keeps_distinct E vals_list s res s' :
  lines_wf s -> distinct_keys s ->
  create E vals_list s = (inr res, s') ->
  lines_wf s' /\ distinct_keys s'.
Proof.
  intros Hwf Hdist Hc.
  destruct (create_inv _ _ _ _ _ Hc) as [pv [_ [_ [-> [-> [_ Hdup]]]]]].
  pose proof (inserted_wf E s pv Hwf) as Hwf'. split; [exact Hwf'|].
  destruct Hwf' as [Hnd _].
  intros l l' Hl Hl' Hid Hinv.
  assert (Hnew : forall x, In x (lines (inserted E s pv)) ->
                           In x (lines s) \/ has_duplicate (inserted E s pv) (Line.id x) = false).
  { intros x Hx. unfold inserted in Hx. cbn [lines] in Hx.
    apply in_app_or in Hx. destruct Hx as [Hx|Hx]; [now left|right].
    apply Hdup. now apply in_map. }
  destruct (Hnew l Hl) as [Hold|Hfresh].
  - destruct (Hnew l' Hl') as [Hold'|Hfresh'].
    + now apply Hdist.
    + apply (no_duplicate_distinct _ l' l Hnd Hl' Hl Hfresh'); congruence.
  - intro Hk. symmetry in Hk. revert Hk.
    apply (no_duplicate_distinct _ l l' Hnd Hl Hl' Hfresh); congruence.
Qed.

Lemma write_keeps_distinct E self vals s b s' :
  lines_wf s -> distinct_keys s ->
  write E self vals s = (inr b, s') ->
  lines_wf s' /\ distinct_keys s'.
Proof.
  intros Hwf Hdist Hw.
  destruct (write_inv _ _ _ _ _ _ Hw) as [-> Hdup].
  pose proof (updated_wf self vals s Hwf) as Hwf'. split; [exact Hwf'|].
  destruct Hwf' as [Hnd _].
  intros l l' Hl Hl' Hid Hinv.
  assert (Hnew : forall x, In x (lines (updated self vals s)) ->
                           In x (lines s)
                           \/ has_duplicate (updated self vals s) (Line.id x) = false).
  { intros x Hx. unfold updated in Hx. cbn [lines set_lines] in Hx.
    apply in_map_iff in Hx. destruct Hx as [x0 [<- Hx0]].
    unfold written at 1 2. destruct (mem (Line.id x0) self) eqn:Hmem.
    - right. apply Hdup. apply mem_In.
      change (Line.id (LineWrite.apply vals x0)) with (Line.id x0). exact Hmem.
    - now left. }
  destruct (Hnew l Hl) as [Hold|Hfresh].
  - destruct (Hnew l' Hl') as [Hold'|Hfresh'].
    + now apply Hdist.
    + apply (no_duplicate_distinct _ l' l Hnd Hl' Hl Hfresh'); congruence.
  - intro Hk. symmetry in Hk. revert Hk.
    apply (no_duplicate_distinct _ l l' Hnd Hl Hl' Hfresh); congruence.
Qed.

(** C3.  In a store whose line ids are sound, [create] fails when one of
    its value dicts has the inventory and the dimension key (product,
    location, lot, package, owner, an empty field equal only to an empty
    field) of a stored line or of another dict of the same call, and
    [write] fails when it leaves a written line with the inventory and the
    key of another line.  Hence, if the lines of each inventory have
    pairwise distinct keys, they still have after every [create] and every
    [write] that succeeds. *)
Theorem duplicate_line_key_refused E s :
  lines_wf s ->
  (forall vals_list n v l,
      nth_error vals_list n = Some v -> In l (lines s) ->
      LineVals.inventory_id v = Line.inventory_id l ->
      LineVals.key v = Line.key l ->
      exists e, fst (create E vals_list s) = inl e)
  /\ (forall vals_list n m v w,
         n <> m -> nth_error vals_list n = Some v -> nth_error vals_list m = Some w ->
         LineVals.inventory_id v = LineVals.inventory_id w ->
         LineVals.key v = LineVals.key w ->
         exists e, fst (create E vals_list s) = inl e)
  /\ (forall self vals l l',
         In l (lines s) -> In l' (lines s) ->
         In (Line.id l) self -> Line.id l' <> Line.id l ->
         Line.inventory_id (written self vals l') = Line.inventory_id (written self vals l) ->
         Line.key (written self vals l') = Line.key (written self vals l) ->
         exists e, fst (write E self vals s) = inl e)
  /\ (distinct_keys s ->
      (forall vals_list res s',
          create E vals_list s = (inr res, s') -> lines_wf s' /\ distinct_keys s')
      /\ (forall self vals b s',
             write E self vals s = (inr b, s') -> lines_wf s' /\ distinct_keys s')).
Proof.
  intro Hwf. split; [|split; [|split]].
  - intros vals_list n v l. now apply create_duplicate_stored.
  - intros vals_list n m v w. now apply create_duplicate_batch.
  - intros self vals l l'. now apply write_duplicate.
  - intro Hdist. split.
    + intros vals_list res s'. now apply create_keeps_distinct.
    + intros self vals b s'. now apply write_keeps_distinct.
Qed.

Lemma demo_lines_wf : lines_wf Demo.store.
Proof.
  split; cbn.
  - repeat constructor; cbn; intuition discriminate.
  - repeat constructor.
Defined.

Lemma duplicate_line_key_refused_witness :
  (forall vals_list n v l,
      nth_error vals_list n = Some v -> In l (lines Demo.store) ->
      LineVals.inventory_id v = Line.inventory_id l ->
      LineVals.key v = Line.key l ->
      exists e, fst (create Demo.E vals_list Demo.store) = inl e)
  /\ (forall vals_list n m v w,
         n <> m -> nth_error vals_list n = Some v -> nth_error vals_list m = Some w ->
         LineVals.inventory_id v = LineVals.inventory_id w ->
         LineVals.key v = LineVals.key w ->
         exists e, fst (create Demo.E vals_list Demo.store) = inl e)
  /\ (forall self vals l l',
         In l (lines Demo.store) -> In l' (lines Demo.store) ->
         In (Line.id l) self -> Line.id l' <> Line.id l ->
         Line.inventory_id (written self vals l') = Line.inventory_id (written self vals l) ->
         Line.key (written self vals l') = Line.key (written self vals l) ->
         exists e, fst (write Demo.E self vals Demo.store) = inl e)
  /\ (distinct_keys Demo.store ->
      (forall vals_list res s',
          create Demo.E vals_list Demo.store = (inr res, s') ->
          lines_wf s' /\ distinct_keys s')
      /\ (forall self vals b s',
             write Demo.E self vals Demo.store = (inr b, s') ->
             lines_wf s' /\ distinct_keys s')).
Proof.
  apply (duplicate_line_key_refused Demo.E Demo.store).
  exact demo_lines_wf.
Defined.

(** On the demonstration store: a second line for the bolts of the stock is
    refused, a line for the unpackaged bolts of the shelf is accepted, and
    moving the packaged bolts onto the key of the first line is refused. *)
Example create_duplicate_demo :
  create Demo.E [DemoLines.duplicate_values] Demo.store
  = (inl (UserError duplicate_line_message),
     inserted Demo.E Demo.store
       [LineVals.mk (Some 1) (Some 10) (Some 21) None None None (Some 1)
                    (Some 8%Q) (Some 0%Q)]).
Proof. reflexivity. Qed.

Example create_fresh_demo :
  fst (create Demo.E [DemoLines.fresh_values] Demo.store) = inr [4].
Proof. reflexivity. Qed.

Example write_duplicate_demo :
  fst (write Demo.E [2] DemoLines.move_to_stock Demo.store)
  = inl (UserError duplicate_line_message).
Proof. reflexivity. Qed.

Example atomic_create_duplicate_demo :
  atomic (create Demo.E [DemoLines.duplicate_values]) Demo.store
  = (inl (UserError duplicate_line_message), Demo.store).
Proof. reflexivity. Qed.

(** ** Resetting counted quantities *)

Lemma filter_map_In {A B} (f : A -> option B) xs y :
  In y (filter_map f xs) <-> exists x, In x xs /\ f x = Some y.
Proof.
  unfold filter_map. rewrite in_flat_map. split.
  - intros [x [Hx Hy]]. exists x. split; [exact Hx|].
    destruct (f x) as [z|]; [|destruct Hy].
    destruct Hy as [->|[]]. reflexivity.
  - intros [x [Hx Hy]]. exists x. split; [exact Hx|]. rewrite Hy. now left.
Qed.

Lemma Forall2_map_r {A B} (R : A -> B -> Prop) (f : A -> B) xs :
  (forall x, In x xs -> R x (f x)) -> Forall2 R xs (map f xs).
Proof.
  induction xs as [|x xs IH]; intro H; cbn; constructor.
  - apply H. now left.
  - apply IH. intros y Hy. apply H. now right.
Qed.

Lemma same_id_same_line (ls : list Line.t) a b :
  NoDup (map Line.id ls) -> In a ls -> In b ls -> Line.id a = Line.id b -> a = b.
Proof.
  intros Hnd Ha Hb Hid.
  pose proof (find_by_id_NoDup ls a Hnd Ha) as Fa.
  pose proof (find_by_id_NoDup ls b Hnd Hb) as Fb.
  rewrite Hid in Fa. congruence.
Qed.

Section Reset.
Variable E : environment.

Lemma written_reset_frame ids l :
  Line.id (written ids product_qty_zero l) = Line.id l
  /\ Line.key (written ids product_qty_zero l) = Line.key l
  /\ Line.inventory_id (written ids product_qty_zero l) = Line.inventory_id l.
Proof. unfold written. destruct (mem (Line.id l) ids); repeat split. Qed.

Lemma reset_write_run ids s :
  distinct_keys s ->
  write E ids product_qty_zero s = (inr true, updated ids product_qty_zero s).
Proof.
  intro Hdist. rewrite write_run.
  assert (Hreq : required_emptied s ids product_qty_zero = false).
  { unfold required_emptied. cbn. apply andb_false_r. }
  rewrite Hreq. cbn [product_qty_zero LineWrite.product_id is_some andb].
  assert (Hdup : existsb (has_duplicate (updated ids product_qty_zero s)) ids = false).
  { apply existsb_false. intros i _. unfold has_duplicate.
    destruct (browse_line (updated ids product_qty_zero s) i) as [line|] eqn:Hb;
      [|reflexivity].
    apply existsb_false. intros other Ho.
    destruct (duplicate_of line other) eqn:Hd; [exfalso|reflexivity].
    apply duplicate_of_spec in Hd. destruct Hd as [Hid [Hk Hi]].
    apply browse_line_In in Hb. destruct Hb as [Hl _].
    unfold updated in Hl, Ho. cbn [lines set_lines] in Hl, Ho.
    apply in_map_iff in Hl. destruct Hl as [l0 [<- Hl0]].
    apply in_map_iff in Ho. destruct Ho as [o0 [<- Ho0]].
    destruct (written_reset_frame ids l0) as [Il [Kl Vl]].
    destruct (written_reset_frame ids o0) as [Io [Ko Vo]].
    apply (Hdist o0 l0 Ho0 Hl0); congruence. }
  fold product_qty_zero. rewrite Hdup. reflexivity.
Qed.

Lemma impacted_ids s self l :
  NoDup (map Line.id (lines s)) -> In l (lines s) ->
  mem (Line.id l)
      (map Line.id (filter (fun line => negb (state_is_done (line_state s line)))
                           (browse_lines s self)))
  = mem (Line.id l) self && negb (state_is_done (line_state s l)).
Proof.
  intros Hnd Hl. apply eq_true_iff_eq.
  rewrite andb_true_iff, !mem_In, in_map_iff. split.
  - intros [l1 [Hid Hl1]]. apply filter_In in Hl1. destruct Hl1 as [Hb Hst].
    apply filter_map_In in Hb. destruct Hb as [i [Hi Hbr]].
    apply browse_line_In in Hbr. destruct Hbr as [Hin1 Hid1].
    assert (l1 = l) by (eapply same_id_same_line; eauto). subst l1.
    split; [now rewrite <- Hid1 in Hi | exact Hst].
  - intros [Hi Hst]. exists l. split; [reflexivity|].
    apply filter_In. split; [|exact Hst].
    apply filter_map_In. exists (Line.id l). split; [exact Hi|].
    now apply browse_line_NoDup.
Qed.
End Reset.

(** C10.  In a store whose line ids are sound and whose lines have distinct
    keys within each inventory, [action_reset_product_qty] succeeds and
    changes the lines row by row: a line of a done inventory, and a line
    that was not selected, is left as it is; every other selected line has
    its counted quantity set to 0 and all its other fields as before.
    Inventories, moves and locations are untouched. *)
Theorem action_reset_product_qty_frame E s self :
  lines_wf s -> distinct_keys s ->
  exists s',
    action_reset_product_qty E self s = (inr tt, s')
    /\ Forall2 (reset_of s self) (lines s) (lines s')
    /\ inventories s' = inventories s
    /\ moves s' = moves s
    /\ locations s' = locations s.
Proof.
  intros [Hnd _] Hdist.
  unfold action_reset_product_qty, bind, get.
  rewrite reset_write_run by exact Hdist. unfold ret.
  eexists. split; [reflexivity|].
  split; [|repeat split].
  unfold updated. cbn [lines set_lines].
  apply Forall2_map_r. intros l Hl.
  unfold written. rewrite (impacted_ids s self l Hnd Hl).
  unfold reset_of. split; [|split].
  - intro Hdone. rewrite Hdone. cbn [state_is_done negb]. now rewrite andb_false_r.
  - intro Hmem. now rewrite Hmem.
  - intros Hmem Hst. rewrite Hmem.
    assert (Hnd' : state_is_done (line_state s l) = false).
    { destruct (line_state s l) as [[]|]; try reflexivity. now contradiction Hst. }
    rewrite Hnd'. cbn [andb negb].
    split; [reflexivity | unfold same_but_product_qty; repeat split].
Qed.

Lemma demo_reset_wf : lines_wf DemoReset.store.
Proof.
  split; cbn.
  - repeat constructor; cbn; intuition discriminate.
  - repeat constructor.
Qed.

Lemma demo_reset_distinct : distinct_keys DemoReset.store.
Proof.
  intros l l' Hl Hl' Hid Hinv Hk. cbn in Hl, Hl'.
  repeat match goal with
         | H : _ \/ _ |- _ => destruct H as [H|H]
         | H : False |- _ => destruct H
         end; subst; try discriminate; now apply Hid.
Qed.

Lemma action_reset_product_qty_frame_witness :
  exists s',
    action_reset_product_qty Demo.E [1; 4] DemoReset.store = (inr tt, s')
    /\ Forall2 (reset_of DemoReset.store [1; 4]) (lines DemoReset.store) (lines s')
    /\ inventories s' = inventories DemoReset.store
    /\ moves s' = moves DemoReset.store
    /\ locations s' = locations DemoReset.store.
Proof.
  apply (action_reset_product_qty_frame Demo.E DemoReset.store [1; 4]).
  - exact demo_reset_wf.
  - exact demo_reset_distinct.
Defined.

(** Lines 1 and 4 are selected; line 4 belongs to a validated inventory. *)
Example action_reset_product_qty_demo :
  map Line.product_qty
      (lines (snd (action_reset_product_qty Demo.E [1; 4] DemoReset.store)))
  = [0%Q; 12%Q; 4%Q; 9%Q].
Proof. reflexivity. Qed.

(** ** The done transition *)

Lemma negative_line_spec line :
  negative_line line = true
  <-> (Line.product_qty line < 0)%Q
      /\ ~ (Line.product_qty line == Line.theoretical_qty line)%Q.
Proof.
  unfold negative_line. rewrite andb_true_iff, Qltb_lt, negb_true_iff.
  split; intros [Hneg Hne]; (split; [exact Hneg|]).
  - intro Heq. apply Qeq_bool_iff in Heq. congruence.
  - destruct (Qeq_bool (Line.product_qty line) (Line.theoretical_qty line)) eqn:Eb;
      [|reflexivity].
    apply Qeq_bool_iff in Eb. contradiction.
Qed.

Lemma action_done_negative_run E s self i line :
  In i self -> In line (line_ids s i) -> negative_line line = true ->
  _action_done E self s = (inl (UserError negative_quantity_message), s).
Proof.
  intros Hi Hline Hneg. unfold _action_done, bind, get.
  destruct (find negative_line (flat_map (line_ids s) self)) as [negative|] eqn:Hfind;
    [reflexivity|].
  pose proof (find_none _ _ Hfind line) as Hnone.
  rewrite Hneg in Hnone. discriminate Hnone.
  apply in_flat_map. now exists i.
Qed.

(** [action_validate] on such an inventory: the guards first, then the
    prompt for tracked products when it is due, and else the error of
    [_action_done]; the store is as before. *)
Lemma action_validate_negative_run E check s i inventory line :
  browse_inventory s (Some i) = Some inventory ->
  In line (line_ids s i) -> negative_line line = true ->
  action_validate E check i s
  = (if negb (group_stock_manager E) then inl (UserError manager_message)
     else if negb (State.eqb (Inventory.state inventory) State.confirm)
     then inl (UserError (not_ready_message (Inventory.name inventory)))
     else if asks_confirmation E s i
     then inr (TrackConfirmation
                 (uniq (filter_map Line.product_id
                          (filter (untracked_difference E) (line_ids s i)))))
     else inl (UserError negative_quantity_message), s).
Proof.
  intros Hb Hline Hneg. unfold action_validate, asks_confirmation, bind, get.
  assert (Hdone : _action_done E [i] s
                  = (inl (UserError negative_quantity_message), s)).
  { apply (action_done_negative_run E s [i] i line); auto. now left. }
  rewrite Hb.
  destruct (negb (group_stock_manager E)); [reflexivity|].
  destruct (negb (State.eqb (Inventory.state inventory) State.confirm));
    [reflexivity|].
  destruct (filter (untracked_difference E) (line_ids s i)) as [|x xs].
  - rewrite Hdone. reflexivity.
  - destruct (filter (serial_above_one E) (line_ids s i)) as [|y ys].
    + reflexivity.
    + rewrite Hdone. reflexivity.
Qed.

(** C2.  When an inventory has a line whose counted quantity is negative
    and differs from its theoretical quantity, [_action_done] raises the
    user error before it writes anything, and [action_validate] never
    closes the inventory: it raises (the user is no stock manager, the
    inventory is not in progress, or the error of [_action_done]), unless
    the prompt for tracked products is due, which it then returns instead
    of an error.  In every case the store (states, lines, moves) is the
    one the call was made on. *)
Theorem negative_quantity_blocks_done E check s self i inventory line :
  browse_inventory s (Some i) = Some inventory ->
  In line (line_ids s i) ->
  (Line.product_qty line < 0)%Q ->
  ~ (Line.product_qty line == Line.theoretical_qty line)%Q ->
  (In i self ->
   _action_done E self s = (inl (UserError negative_quantity_message), s))
  /\ action_validate E check i s
     = (if negb (group_stock_manager E) then inl (UserError manager_message)
        else if negb (State.eqb (Inventory.state inventory) State.confirm)
        then inl (UserError (not_ready_message (Inventory.name inventory)))
        else if asks_confirmation E s i
        then inr (TrackConfirmation
                    (uniq (filter_map Line.product_id
                             (filter (untracked_difference E) (line_ids s i)))))
        else inl (UserError negative_quantity_message), s).
Proof.
  intros Hb Hline Hneg Hne.
  assert (Hnegative : negative_line line = true)
    by (apply negative_line_spec; now split).
  split.
  - intro Hi. exact (action_done_negative_run E s self i line Hi Hline Hnegative).
  - exact (action_validate_negative_run E check s i inventory line Hb Hline Hnegative).
Qed.

Lemma negative_quantity_blocks_done_witness :
  _action_done Demo.E [1] DemoTypo.store
  = (inl (UserError negative_quantity_message), DemoTypo.store)
  /\ action_validate Demo.E (DemoCompany._check_company Demo.E) 1 DemoTypo.store
     = (inl (UserError negative_quantity_message), DemoTypo.store).
Proof.
  destruct (negative_quantity_blocks_done
              Demo.E (DemoCompany._check_company Demo.E) DemoTypo.store [1] 1
              Demo.adjustment_inventory DemoTypo.typo_line) as [Hdone Hvalidate].
  - reflexivity.
  - now left.
  - reflexivity.
  - intro H. discriminate H.
  - split; [apply Hdone; now left | exact Hvalidate].
Defined.

(** A drill counted -3 without its serial number: [action_validate] asks
    for confirmation of the tracked product and raises nothing. *)
Example action_validate_prompt_demo :
  action_validate Demo.E (DemoCompany._check_company Demo.E) 1 DemoTrack.store
  = (inr (TrackConfirmation [11]), DemoTrack.store).
Proof. reflexivity. Qed.

Lemma validate_negative_fails_counterexample : ~ validate_negative_fails.
Proof.
  intro H.
  destruct (H Demo.E (DemoCompany._check_company Demo.E) DemoTrack.store 1
              Demo.adjustment_inventory DemoTrack.unnumbered_line) as [e He].
  - reflexivity.
  - now left.
  - reflexivity.
  - intro Heq. discriminate Heq.
  - discriminate He.
Qed.

(** Without the typing error the same call validates the inventory and
    posts its two moves. *)
Example action_done_demo :
  let r := _action_done Demo.E [1] Demo.store in
  fst r = inr true
  /\ map Inventory.state (inventories (snd r)) = [State.done]
  /\ map (fun m => MoveVals.state (Move.vals m)) (moves (snd r))
     = [MoveState.done; MoveState.done].
Proof. repeat split. Qed.

(** ** Starting an inventory *)

(** C9.  [_action_start] on inventories none of which is in draft raises
    nothing and leaves the store, hence their state, date and lines, as it
    was: only a draft inventory is confirmed and populated. *)
Theorem action_start_not_draft_noop E s self :
  (forall i inventory,
      In i self -> browse_inventory s (Some i) = Some inventory ->
      Inventory.state inventory <> State.draft) ->
  _action_start E self s = (inr tt, s).
Proof.
  induction self as [|i self IH]; intro Hstate; [reflexivity|].
  cbn [_action_start for_each]. unfold bind at 1. unfold bind at 1. unfold get at 1.
  destruct (browse_inventory s (Some i)) as [inventory|] eqn:Hb.
  - assert (Hnd : is_draft (Inventory.state inventory) = false).
    { specialize (Hstate i inventory (or_introl eq_refl) Hb).
      destruct (Inventory.state inventory); try reflexivity. now contradiction Hstate. }
    rewrite Hnd. cbn [negb]. unfold ret at 1.
    apply IH. intros j inv Hj. apply Hstate. now right.
  - unfold ret at 1. apply IH. intros j inv Hj. apply Hstate. now right.
Qed.

Lemma action_start_not_draft_noop_witness :
  _action_start Demo.E [1] Demo.store = (inr tt, Demo.store).
Proof.
  apply (action_start_not_draft_noop Demo.E Demo.store [1]).
  intros i inventory [<-|[]] Hb. cbn in Hb. inversion Hb; subst. discriminate.
Defined.

(** ** Checking an inventory *)

Lemma browse_inventory_id s i inventory :
  browse_inventory s (Some i) = Some inventory -> Inventory.id inventory = i.
Proof.
  cbn. intro H. apply find_some in H. destruct H as [_ H]. now apply Z.eqb_eq.
Qed.

Lemma action_check_run E s i inventory :
  browse_inventory s (Some i) = Some inventory ->
  not_done_or_cancel inventory = true ->
  action_check E [i] s = (inr tt, checked E s i).
Proof.
  intros Hb Hopen. pose proof (browse_inventory_id _ _ _ Hb) as Hid.
  unfold action_check, bind, get, browse_inventories.
  rewrite filter_map_cons, Hb. cbn [filter_map flat_map filter].
  rewrite Hopen. cbn [for_each]. unfold bind, get. rewrite Hid.
  reflexivity.
Qed.

Lemma action_check_closed E s i inventory :
  browse_inventory s (Some i) = Some inventory ->
  not_done_or_cancel inventory = false ->
  action_check E [i] s = (inr tt, s).
Proof.
  intros Hb Hclosed.
  unfold action_check, bind, get, browse_inventories.
  rewrite filter_map_cons, Hb. cbn [filter_map flat_map filter].
  rewrite Hclosed. reflexivity.
Qed.

Lemma line_move_values_inventory E s line v :
  line_move_values E s line = Some v ->
  MoveVals.inventory_id v = Line.inventory_id line.
Proof.
  unfold line_move_values.
  destruct (float_is_zero _ _); [discriminate|].
  destruct (Qltb _ _); intro H; inversion H; reflexivity.
Qed.

Lemma number_moves_In first vals_list m :
  In m (number_moves first vals_list) ->
  In (Move.vals m) vals_list /\ first <= Move.id m.
Proof.
  revert first. induction vals_list as [|v vs IH]; intros first H; [destruct H|].
  cbn in H. destruct H as [<-|H].
  - cbn. split; [now left | lia].
  - destruct (IH _ H) as [Hin Hle]. split; [now right | lia].
Qed.

Lemma filter_all {A} (f : A -> bool) xs :
  (forall x, In x xs -> f x = true) -> filter f xs = xs.
Proof.
  induction xs as [|x xs IH]; intro H; [reflexivity|].
  cbn. rewrite (H x (or_introl eq_refl)). f_equal. apply IH.
  intros y Hy. apply H. now right.
Qed.

Lemma filter_none {A} (f : A -> bool) xs :
  (forall x, In x xs -> f x = false) -> filter f xs = [].
Proof.
  induction xs as [|x xs IH]; intro H; [reflexivity|].
  cbn. rewrite (H x (or_introl eq_refl)). apply IH.
  intros y Hy. apply H. now right.
Qed.

(** After the check the moves of the inventory are the regenerated ones
    and nothing else. *)
Lemma checked_move_ids E s i :
  move_ids (checked E s i) i = number_moves (move_seq s) (regenerated E s i).
Proof.
  unfold move_ids at 1, checked. cbn [moves]. rewrite filter_app.
  rewrite filter_none, filter_all; [reflexivity | |].
  - intros m Hm. apply number_moves_In in Hm. destruct Hm as [Hm _].
    unfold regenerated in Hm. apply filter_map_In in Hm.
    destruct Hm as [line [Hline Hv]].
    rewrite (line_move_values_inventory _ _ _ _ Hv).
    unfold line_ids in Hline. apply filter_In in Hline. tauto.
  - intros m Hm. apply filter_In in Hm. destruct Hm as [Hin Hkeep].
    destruct (many2one_eqb (MoveVals.inventory_id (Move.vals m)) (Some i)) eqn:Hinv;
      [exfalso|reflexivity].
    apply negb_true_iff in Hkeep.
    assert (Hmem : mem (Move.id m) (map Move.id (move_ids s i)) = true).
    { apply mem_In. apply in_map. unfold move_ids. apply filter_In. now split. }
    congruence.
Qed.

Lemma checked_regenerated E s i :
  regenerated E (checked E s i) i = regenerated E s i.
Proof. reflexivity. Qed.

(** C7.  On an inventory in state confirm [action_check] deletes the moves
    of the inventory and stores those that its lines ask for, under fresh
    ids; run a second time, with the lines as they were, it leaves the
    inventory with the same list of move values.  On an inventory that is
    done or cancelled it changes nothing. *)
Theorem action_check_idempotent E s i inventory :
  browse_inventory s (Some i) = Some inventory ->
  (Inventory.state inventory = State.confirm ->
   exists s1 s2,
     action_check E [i] s = (inr tt, s1)
     /\ action_check E [i] s1 = (inr tt, s2)
     /\ map Move.vals (move_ids s1 i) = regenerated E s i
     /\ Forall (fun m => move_seq s <= Move.id m) (move_ids s1 i)
     /\ lines s1 = lines s /\ inventories s1 = inventories s
     /\ lines s2 = lines s /\ inventories s2 = inventories s
     /\ map Move.vals (move_ids s2 i) = map Move.vals (move_ids s1 i))
  /\ (Inventory.state inventory = State.done \/ Inventory.state inventory = State.cancel ->
      action_check E [i] s = (inr tt, s)).
Proof.
  intro Hb. split.
  - intro Hst.
    assert (Hopen : not_done_or_cancel inventory = true).
    { unfold not_done_or_cancel. now rewrite Hst. }
    exists (checked E s i), (checked E (checked E s i) i).
    split; [now apply (action_check_run E s i inventory)|].
    split; [now apply (action_check_run E (checked E s i) i inventory)|].
    split; [now rewrite checked_move_ids, number_moves_vals|].
    split.
    { rewrite checked_move_ids. apply Forall_forall. intros m Hm.
      now apply number_moves_In in Hm. }
    repeat (split; [reflexivity|]).
    now rewrite !checked_move_ids, !number_moves_vals, checked_regenerated.
  - intro Hst. apply (action_check_closed E s i inventory Hb).
    unfold not_done_or_cancel. now destruct Hst as [-> | ->].
Qed.

Lemma action_check_idempotent_witness :
  (Inventory.state Demo.adjustment_inventory = State.confirm ->
   exists s1 s2,
     action_check Demo.E [1] Demo.store = (inr tt, s1)
     /\ action_check Demo.E [1] s1 = (inr tt, s2)
     /\ map Move.vals (move_ids s1 1) = regenerated Demo.E Demo.store 1
     /\ Forall (fun m => move_seq Demo.store <= Move.id m) (move_ids s1 1)
     /\ lines s1 = lines Demo.store /\ inventories s1 = inventories Demo.store
     /\ lines s2 = lines Demo.store /\ inventories s2 = inventories Demo.store
     /\ map Move.vals (move_ids s2 1) = map Move.vals (move_ids s1 1))
  /\ (Inventory.state Demo.adjustment_inventory = State.done
      \/ Inventory.state Demo.adjustment_inventory = State.cancel ->
      action_check Demo.E [1] Demo.store = (inr tt, Demo.store)).
Proof.
  apply (action_check_idempotent Demo.E Demo.store 1 Demo.adjustment_inventory).
  reflexivity.
Defined.

(** Two checks in a row on the demonstration store: the second replaces
    moves 1 and 2 by moves 3 and 4 with the same quantities. *)
Example action_check_twice_demo :
  let s1 := snd (action_check Demo.E [1] Demo.store) in
  let s2 := snd (action_check Demo.E [1] s1) in
  map (fun m => (Move.id m, MoveVals.product_uom_qty (Move.vals m))) (moves s1)
  = [(1, Qabs (7 - 10)); (2, (12 - 10)%Q)]
  /\ map (fun m => (Move.id m, MoveVals.product_uom_qty (Move.vals m))) (moves s2)
     = [(3, Qabs (7 - 10)); (4, (12 - 10)%Q)].
Proof. split; reflexivity. Qed.

(** ** Starting an inventory, then checking it *)

Lemma action_start_draft_run E s i inventory :
  browse_inventory s (Some i) = Some inventory ->
  Inventory.state inventory = State.draft ->
  _action_start E [i] s
  = if negb (is_set (line_ids s i)) && negb (Inventory.start_empty inventory)
    then match create E (_get_inventory_lines_values E s inventory) s with
         | (inl e, s0) => (inl e, s0)
         | (inr _, s0) => (inr tt, started E i s0)
         end
    else (inr tt, started E i s).
Proof.
  intros Hb Hst. pose proof (browse_inventory_id _ _ _ Hb) as Hid.
  cbn [_action_start for_each]. unfold bind at 1. unfold bind at 1. unfold get at 1.
  rewrite Hb, Hst. cbn [is_draft negb]. rewrite Hid.
  destruct (negb (is_set (line_ids s i)) && negb (Inventory.start_empty inventory)).
  - unfold when_, bind.
    destruct (create E (_get_inventory_lines_values E s inventory) s) as [[e|res] s0];
      reflexivity.
  - reflexivity.
Qed.

Lemma started_browse E i s inventory :
  browse_inventory s (Some i) = Some inventory ->
  browse_inventory (started E i s) (Some i)
  = Some (Inventory.set_state_date State.confirm (now E) inventory).
Proof.
  unfold started. cbn [browse_inventory inventories set_inventories].
  induction (inventories s) as [|x xs IH]; [discriminate|].
  cbn [find map mem existsb]. rewrite orb_false_r.
  destruct (Inventory.id x =? i) eqn:Ex.
  - intro H. inversion H; subst. cbn. now rewrite Ex.
  - rewrite Ex. exact IH.
Qed.

Lemma get_inventory_lines_values_counted E s inventory :
  Inventory.prefill_counted_quantity inventory = Prefill.counted ->
  Forall (counted_as_expected E) (_get_inventory_lines_values E s inventory).
Proof.
  intro Hpre. unfold _get_inventory_lines_values. rewrite Hpre. cbn [prefill_is_zero].
  assert (Hsnap : forall groups,
             Forall (counted_as_expected E)
               (map (fun '(product_id, location_id, lot_id, package_id, owner_id, quantity) =>
                       LineVals.mk (Some (Inventory.id inventory)) product_id location_id
                                   lot_id package_id owner_id (product_uom_id E product_id)
                                   (Some quantity) (Some quantity))
                    groups)).
  { intro groups. apply Forall_map. apply Forall_forall.
    intros [[[[[p l] lot] k] o] q] _. exists q. cbn. auto. }
  destruct (Inventory.exhausted inventory); [|apply Hsnap].
  apply Forall_app. split; [apply Hsnap|].
  unfold _get_exhausted_inventory_lines_vals.
  apply Forall_forall. intros v Hv.
  apply in_flat_map in Hv. destruct Hv as [p [_ Hv]].
  apply in_flat_map in Hv. destruct Hv as [l [_ Hv]].
  destruct (negb (pair_mem _ _)); [|destruct Hv].
  destruct Hv as [<-|[]]. exists 0%Q. cbn. auto.
Qed.

Lemma line_of_counted_values E s k v v' :
  positive_roundings E ->
  counted_as_expected E v -> prepared_from E v v' -> has_required v' = true ->
  line_move_values E s (line_of_values E k v') = None.
Proof.
  intros Hpos [q [Hth [Hqty Huom]]] [_ [Hkey [Hpq [Hth' Hu']]]] Hreq.
  assert (Hprod : LineVals.product_id v' = LineVals.product_id v).
  { unfold LineVals.key in Hkey. now inversion Hkey. }
  apply line_move_values_equal.
  - unfold line_rounding. cbn [line_of_values Line.product_id].
    unfold has_required in Hreq. rewrite !andb_true_iff in Hreq.
    destruct Hreq as [_ Hsome].
    assert (Hu : LineVals.product_uom_id v' = product_uom_id E (LineVals.product_id v)).
    { destruct Hu' as [Hu'|Hu']; [|exact Hu'].
      destruct Huom as [Huom|Huom]; [|congruence].
      rewrite Hu', Huom in Hsome. discriminate. }
    rewrite Hprod.
    destruct (product_uom_id E (LineVals.product_id v)) as [u|] eqn:Eu.
    + now apply (Hpos (LineVals.product_id v)).
    + rewrite Hu in Hsome. discriminate.
  - cbn [line_of_values Line.product_qty Line.theoretical_qty].
    rewrite Hpq, Hqty, (Hth' q Hth). reflexivity.
Qed.

Lemma new_lines_In E pv : forall first l,
  In l (new_lines E first pv) ->
  exists k v', In v' pv /\ l = line_of_values E k v'.
Proof.
  induction pv as [|x pv IH]; intros first l H; [destruct H|].
  cbn in H. destruct H as [<-|H].
  - exists first, x. split; [now left | reflexivity].
  - destruct (IH _ _ H) as [k [v' [Hv' ->]]]. exists k, v'. split; [now right | reflexivity].
Qed.

Lemma Forall2_In_r {A B} (R : A -> B -> Prop) xs ys y :
  Forall2 R xs ys -> In y ys -> exists x, In x xs /\ R x y.
Proof.
  induction 1 as [|x0 y0 xs ys Hxy _ IH]; intro Hy; [destruct Hy|].
  destruct Hy as [<-|Hy].
  - exists x0. split; [now left | exact Hxy].
  - destruct (IH Hy) as [x [Hx HR]]. exists x. split; [now right | exact HR].
Qed.

Lemma line_ids_empty s i l :
  line_ids s i = [] -> In l (lines s) ->
  many2one_eqb (Line.inventory_id l) (Some i) = false.
Proof.
  intros Hempty Hl.
  destruct (many2one_eqb (Line.inventory_id l) (Some i)) eqn:Hi; [|reflexivity].
  assert (Hin : In l (line_ids s i)) by (apply filter_In; now split).
  rewrite Hempty in Hin. destruct Hin.
Qed.

(** A draft inventory that [_action_start] gets through is confirmed and
    dated; its lines are those that [create] made of the snapshot when it
    had none and does not start empty, else they are untouched. *)
Lemma action_start_draft_confirms E s i inventory s1 :
  browse_inventory s (Some i) = Some inventory ->
  Inventory.state inventory = State.draft ->
  _action_start E [i] s = (inr tt, s1) ->
  (exists confirmed,
      browse_inventory s1 (Some i) = Some confirmed
      /\ Inventory.state confirmed = State.confirm
      /\ Inventory.date confirmed = now E)
  /\ if negb (is_set (line_ids s i)) && negb (Inventory.start_empty inventory)
     then exists res s0,
         create E (_get_inventory_lines_values E s inventory) s = (inr res, s0)
         /\ lines s1 = lines s0
     else lines s1 = lines s.
Proof.
  intros Hb Hst Hrun. rewrite (action_start_draft_run E s i inventory Hb Hst) in Hrun.
  destruct (negb (is_set (line_ids s i)) && negb (Inventory.start_empty inventory)).
  - destruct (create E (_get_inventory_lines_values E s inventory) s)
      as [[e|res] s0] eqn:Hc; [discriminate Hrun|].
    inversion Hrun; subst s1.
    destruct (create_inv _ _ _ _ _ Hc) as [pv [_ [_ [_ [Hs0 _]]]]].
    split.
    + exists (Inventory.set_state_date State.confirm (now E) inventory).
      split; [|split; reflexivity].
      apply started_browse. rewrite Hs0. exact Hb.
    + exists res, s0. split; reflexivity.
  - inversion Hrun; subst s1. split; [|reflexivity].
    exists (Inventory.set_state_date State.confirm (now E) inventory).
    split; [|split; reflexivity]. now apply started_browse.
Qed.

(** C4.  A draft inventory without lines, with the default prefill, is
    started: its lines are created from the quantity snapshot with the
    counted quantity equal to the theoretical one.  Then its lines ask for
    no move, and the check that follows leaves it without any move. *)
Theorem start_then_check_makes_no_move E s i inventory s1 :
  positive_roundings E ->
  browse_inventory s (Some i) = Some inventory ->
  Inventory.state inventory = State.draft ->
  Inventory.prefill_counted_quantity inventory = Prefill.counted ->
  line_ids s i = [] ->
  Inventory.start_empty inventory = false ->
  _action_start E [i] s = (inr tt, s1) ->
  Forall (counted_as_expected E) (_get_inventory_lines_values E s inventory)
  /\ (exists res s0,
         create E (_get_inventory_lines_values E s inventory) s = (inr res, s0)
         /\ lines s1 = lines s0)
  /\ regenerated E s1 i = []
  /\ exists s2, action_check E [i] s1 = (inr tt, s2) /\ move_ids s2 i = [].
Proof.
  intros Hpos Hb Hst Hpre Hnone Hfill Hstart.
  pose proof (get_inventory_lines_values_counted E s inventory Hpre) as Hvals.
  rewrite (action_start_draft_run E s i inventory Hb Hst) in Hstart.
  rewrite Hnone, Hfill in Hstart. cbn [is_set negb andb] in Hstart.
  destruct (create E (_get_inventory_lines_values E s inventory) s)
    as [[e|res] s0] eqn:Hc; [discriminate Hstart|].
  inversion Hstart; subst s1. clear Hstart.
  destruct (create_inv _ _ _ _ _ Hc) as [pv [Hpv [Hreq [-> [-> _]]]]].
  assert (Hregen : regenerated E (started E i (inserted E s pv)) i = []).
  { unfold regenerated. apply filter_map_nil. intros l Hl.
    unfold line_ids in Hl. apply filter_In in Hl. destruct Hl as [Hl Hinv].
    cbn [started lines set_inventories inserted] in Hl.
    apply in_app_or in Hl. destruct Hl as [Hold|Hnew].
    - rewrite (line_ids_empty s i l Hnone Hold) in Hinv. discriminate.
    - apply new_lines_In in Hnew. destruct Hnew as [k [v' [Hv' ->]]].
      destruct (Forall2_In_r _ _ _ _ Hpv Hv') as [v [Hv Hprep]].
      rewrite Forall_forall in Hvals. rewrite forallb_forall in Hreq.
      now apply (line_of_counted_values E _ k v v'); auto. }
  split; [exact Hvals|].
  split; [exists (map Line.id (new_lines E (line_seq s) pv)), (inserted E s pv);
          split; reflexivity|].
  split; [exact Hregen|].
  exists (checked E (started E i (inserted E s pv)) i). split.
  - apply (action_check_run E _ i
             (Inventory.set_state_date State.confirm (now E) inventory)).
    + now apply started_browse.
    + reflexivity.
  - now rewrite checked_move_ids, Hregen.
Qed.

Lemma demo_start_positive_roundings : positive_roundings DemoStart.E.
Proof.
  intros p u H. unfold product_uom_id, browse_product in H.
  destruct p as [p|]; [|discriminate H]. cbn in H.
  repeat match type of H with
         | context [if ?c then _ else _] => destruct c
         end; inversion H; subst; reflexivity.
Qed.

Lemma start_then_check_makes_no_move_witness :
  Forall (counted_as_expected DemoStart.E)
         (_get_inventory_lines_values DemoStart.E DemoStart.store DemoStart.draft_inventory)
  /\ (exists res s0,
         create DemoStart.E
                (_get_inventory_lines_values DemoStart.E DemoStart.store
                                             DemoStart.draft_inventory)
                DemoStart.store = (inr res, s0)
         /\ lines (snd (_action_start DemoStart.E [1] DemoStart.store)) = lines s0)
  /\ regenerated DemoStart.E (snd (_action_start DemoStart.E [1] DemoStart.store)) 1 = []
  /\ exists s2,
      action_check DemoStart.E [1] (snd (_action_start DemoStart.E [1] DemoStart.store))
      = (inr tt, s2)
      /\ move_ids s2 1 = [].
Proof.
  apply (start_then_check_makes_no_move
           DemoStart.E DemoStart.store 1 DemoStart.draft_inventory
           (snd (_action_start DemoStart.E [1] DemoStart.store))).
  - exact demo_start_positive_roundings.
  - reflexivity.
  - reflexivity.
  - reflexivity.
  - reflexivity.
  - reflexivity.
  - reflexivity.
Defined.

(** The lines of the started demonstration inventory: the bolts of the
    stock, the packaged bolts of the shelf below it, and the exhausted
    drills. *)
Example action_start_demo :
  map (fun l => (Line.product_id l, Line.location_id l, Line.package_id l,
                 Line.product_qty l, Line.theoretical_qty l))
      (lines (snd (_action_start DemoStart.E [1] DemoStart.store)))
  = [ (Some 10, Some 21, None, 10%Q, 10%Q);
      (Some 10, Some 22, Some 70, 2%Q, 2%Q);
      (Some 11, Some 21, None, 0%Q, 0%Q) ].
Proof. reflexivity. Qed.

(** ** The quantity snapshot *)

Lemma add_to_group_keys k0 q0 g :
  map fst (add_to_group k0 q0 g)
  = if existsb (fun e => key_eqb (fst e) k0) g
    then map fst g else map fst g ++ [k0].
Proof.
  induction g as [|[k' q'] g IH]; [reflexivity|].
  cbn [add_to_group existsb fst]. destruct (key_eqb k' k0); cbn [orb map fst].
  - reflexivity.
  - rewrite IH. now destruct (existsb _ g).
Qed.

Lemma existsb_key g k0 :
  existsb (fun e : dimension_key * Q => key_eqb (fst e) k0) g = true
  <-> In k0 (map fst g).
Proof.
  rewrite existsb_exists, in_map_iff. split.
  - intros [e [He Hk]]. apply key_eqb_eq in Hk. now exists e.
  - intros [e [Hk He]]. exists e. split; [exact He | now apply key_eqb_eq].
Qed.

Lemma add_to_group_NoDup k0 q0 g :
  NoDup (map fst g) -> NoDup (map fst (add_to_group k0 q0 g)).
Proof.
  intro Hnd. rewrite add_to_group_keys.
  destruct (existsb _ g) eqn:Ex; [exact Hnd|].
  apply NoDup_app; [exact Hnd | repeat constructor; intros [] |].
  intros k Hk [<-|[]]. apply existsb_key in Hk. congruence.
Qed.

Lemma add_to_group_In k0 q0 g k q :
  NoDup (map fst g) ->
  In (k, q) (add_to_group k0 q0 g) ->
  (k <> k0 /\ In (k, q) g)
  \/ (k = k0
      /\ ((exists q1, In (k0, q1) g /\ q = (q1 + q0)%Q)
          \/ (~ In k0 (map fst g) /\ q = q0))).
Proof.
  induction g as [|[k' q'] g IH]; intros Hnd Hin.
  - destruct Hin as [Hin|[]]. inversion Hin; subst. right. split; [reflexivity|].
    right. split; [intros []|reflexivity].
  - cbn [map fst] in Hnd. inversion Hnd as [|? ? Hk' Hnd']; subst.
    cbn [add_to_group] in Hin. destruct (key_eqb k' k0) eqn:Ek.
    + apply key_eqb_eq in Ek. subst k'. destruct Hin as [Hin|Hin].
      * inversion Hin; subst. right. split; [reflexivity|]. left.
        exists q'. split; [now left | reflexivity].
      * left. split; [|now right]. intros ->. apply Hk'.
        change k0 with (fst (k0, q)). now apply in_map.
    + assert (Hne : k' <> k0).
      { intro Heq. apply key_eqb_eq in Heq. congruence. }
      destruct Hin as [Hin|Hin].
      * inversion Hin; subst. left. split; [exact Hne | now left].
      * destruct (IH Hnd' Hin) as [[Hk Hg]|[-> [[q1 [Hq1 ->]]|[Hnot ->]]]].
        -- left. split; [exact Hk | now right].
        -- right. split; [reflexivity|]. left. exists q1. split; [now right | reflexivity].
        -- right. split; [reflexivity|]. right. split; [|reflexivity].
           intros [Heq|Hin']; [now apply Hne | now apply Hnot].
Qed.

Lemma read_group_snoc rows r :
  read_group (rows ++ [r])
  = add_to_group (quant_key r) (Quant.quantity r) (read_group rows).
Proof. unfold read_group. now rewrite fold_left_app. Qed.

Lemma group_rows_snoc k rows r :
  group_rows k (rows ++ [r])
  = group_rows k rows ++ (if key_eqb (quant_key r) k then [r] else []).
Proof. unfold group_rows. now rewrite filter_app. Qed.

Lemma quantity_sum_snoc rows r :
  (quantity_sum (rows ++ [r]) == quantity_sum rows + Quant.quantity r)%Q.
Proof.
  unfold quantity_sum. induction rows as [|x rows IH]; cbn [app fold_right].
  - ring.
  - rewrite IH. ring.
Qed.

(** An entry of [read_group] stands for the quants of its key, which are
    not none, and holds their sum. *)
Lemma read_group_spec rows :
  NoDup (map fst (read_group rows))
  /\ (forall r, In r rows -> In (quant_key r) (map fst (read_group rows)))
  /\ (forall k q, In (k, q) (read_group rows) ->
                  group_rows k rows <> []
                  /\ (q == quantity_sum (group_rows k rows))%Q).
Proof.
  induction rows as [|r rows [Hnd [Hall Hsum]]] using rev_ind.
  - split; [constructor|]. split; intros; contradiction.
  - rewrite read_group_snoc. split; [now apply add_to_group_NoDup|]. split.
    + intros r' Hr'. rewrite add_to_group_keys.
      apply in_app_or in Hr'.
      destruct (existsb _ (read_group rows)) eqn:Ex.
      * destruct Hr' as [Hr'|[<-|[]]]; [now apply Hall | now apply existsb_key].
      * apply in_or_app. destruct Hr' as [Hr'|[<-|[]]]; [left; now apply Hall|].
        right. now left.
    + intros k q Hin. rewrite group_rows_snoc.
      destruct (add_to_group_In _ _ _ _ _ Hnd Hin)
        as [[Hk Hg]|[-> [[q1 [Hq1 ->]]|[Hnot ->]]]].
      * assert (Ek : key_eqb (quant_key r) k = false).
        { destruct (key_eqb (quant_key r) k) eqn:Ek; [|reflexivity].
          apply key_eqb_eq in Ek. congruence. }
        rewrite Ek, app_nil_r. now apply Hsum.
      * rewrite (proj2 (key_eqb_eq _ _) eq_refl).
        destruct (Hsum _ _ Hq1) as [Hne Hq]. split.
        -- intro Happ. apply app_eq_nil in Happ. destruct Happ as [_ Happ]. discriminate.
        -- rewrite quantity_sum_snoc, Hq. reflexivity.
      * rewrite (proj2 (key_eqb_eq _ _) eq_refl).
        assert (Hempty : group_rows (quant_key r) rows = []).
        { apply filter_none. intros r' Hr'.
          destruct (key_eqb (quant_key r') (quant_key r)) eqn:Ek; [|reflexivity].
          apply key_eqb_eq in Ek. exfalso. apply Hnot. rewrite <- Ek. now apply Hall. }
        rewrite Hempty. cbn. split; [discriminate | ring].
Qed.

Lemma quant_domain_selected E s inventory r :
  quant_domain E s inventory r = true -> quant_selected E inventory r.
Proof.
  unfold quant_domain, quant_selected. rewrite !andb_true_iff.
  intros [[[[[Hc _] Hact] Hlot] Hqty] Hprod].
  split; [|split; [|split; [|split]]].
  - destruct (Inventory.is_conflict_inventory inventory
              && negb (is_set (Inventory.lot_ids inventory))).
    + now apply Qltb_lt.
    + intro Hz. apply Qeq_bool_iff in Hz. rewrite Hz in Hqty. discriminate.
  - intro Hset. destruct (Inventory.lot_ids inventory) as [|x xs]; [now contradiction Hset|].
    cbn [is_set] in Hlot. destruct (Quant.lot_id r) as [l|]; [|discriminate].
    exists l. split; [reflexivity | now apply mem_In].
  - intro Hset. destruct (Inventory.product_ids inventory) as [|x xs];
      [now contradiction Hset|].
    cbn [is_set] in Hprod. now apply mem_In.
  - intro Hz. rewrite Hz in Hact. exact Hact.
  - now apply Z.eqb_eq.
Qed.

Lemma quantity_sum_negative rows :
  rows <> [] -> (forall r, In r rows -> (Quant.quantity r < 0)%Q) ->
  (quantity_sum rows < 0)%Q.
Proof.
  induction rows as [|r rows IH]; intros Hne Hneg; [now contradiction Hne|].
  cbn [quantity_sum fold_right]. fold (quantity_sum rows).
  pose proof (Hneg r (or_introl eq_refl)) as Hr.
  destruct rows as [|r' rows'].
  - cbn. lra.
  - assert (quantity_sum (r' :: rows') < 0)%Q.
    { apply IH; [discriminate|]. intros x Hx. apply Hneg. now right. }
    lra.
Qed.

(** C5, amended.  An entry of the snapshot is the sum of one or more
    quants of the ledger that all have its key and all pass the filters:
    quantity not zero (negative for a conflict inventory without lots),
    lot among the inventory's lots and product among its products when it
    names some, product active when the prefill is zero.  So the key of
    every entry obeys the lot, product and active-product restrictions,
    and for a conflict inventory without lots every entry is negative;
    the sum of quants that are each not zero is not promised to be not
    zero. *)
Theorem get_quantities_sums_selected_quants E s inventory k q :
  In (k, q) (_get_quantities E s inventory) ->
  (exists rows,
      rows <> []
      /\ (forall r, In r rows ->
                    In r (quants E) /\ quant_key r = k /\ quant_selected E inventory r)
      /\ (q == quantity_sum rows)%Q)
  /\ (Inventory.is_conflict_inventory inventory = true ->
      Inventory.lot_ids inventory = [] -> (q < 0)%Q)
  /\ (Inventory.lot_ids inventory <> [] ->
      exists l, snd (fst (fst k)) = Some l /\ In l (Inventory.lot_ids inventory))
  /\ (Inventory.product_ids inventory <> [] ->
      exists p, fst (fst (fst (fst k))) = Some p /\ In p (Inventory.product_ids inventory))
  /\ (Inventory.prefill_counted_quantity inventory = Prefill.zero ->
      exists p, fst (fst (fst (fst k))) = Some p /\ product_active E p = true).
Proof.
  intro Hin. unfold _get_quantities in Hin.
  destruct (read_group_spec (filter (quant_domain E s inventory) (quants E)))
    as [_ [_ Hsum]].
  destruct (Hsum k q Hin) as [Hne Hq].
  set (rows := group_rows k (filter (quant_domain E s inventory) (quants E))) in *.
  assert (Hrows : forall r, In r rows ->
                            In r (quants E) /\ quant_key r = k
                            /\ quant_selected E inventory r).
  { intros r Hr. unfold rows, group_rows in Hr.
    apply filter_In in Hr. destruct Hr as [Hr Hk].
    apply filter_In in Hr. destruct Hr as [Hr Hdom].
    split; [exact Hr|]. split; [now apply key_eqb_eq|].
    now apply (quant_domain_selected E s). }
  destruct rows as [|r0 rest] eqn:Erows; [now contradiction Hne|].
  destruct (Hrows r0 (or_introl eq_refl)) as [_ [Hk0 [_ [Hlot [Hprod [Hact _]]]]]].
  split; [|split; [|split; [|split]]].
  - exists (r0 :: rest). split; [discriminate|]. split; [exact Hrows | exact Hq].
  - intros Hconf Hnolot. rewrite Hq. apply quantity_sum_negative; [discriminate|].
    intros r Hr. destruct (Hrows r Hr) as [_ [_ [Hqty _]]].
    rewrite Hconf, Hnolot in Hqty. exact Hqty.
  - intro Hset. destruct (Hlot Hset) as [l [Hl Hmem]]. exists l.
    split; [|exact Hmem]. rewrite <- Hk0. exact Hl.
  - intro Hset. exists (Quant.product_id r0). split; [now rewrite <- Hk0 | now apply Hprod].
  - intro Hzero. exists (Quant.product_id r0). split; [now rewrite <- Hk0 | now apply Hact].
Qed.

Lemma get_quantities_sums_selected_quants_witness :
  (exists rows,
      rows <> []
      /\ (forall r, In r rows ->
                    In r (quants Demo.E)
                    /\ quant_key r = DemoCancel.bolts_in_stock
                    /\ quant_selected Demo.E Demo.adjustment_inventory r)
      /\ (10 == quantity_sum rows)%Q)
  /\ (Inventory.is_conflict_inventory Demo.adjustment_inventory = true ->
      Inventory.lot_ids Demo.adjustment_inventory = [] -> (10 < 0)%Q)
  /\ (Inventory.lot_ids Demo.adjustment_inventory <> [] ->
      exists l, snd (fst (fst DemoCancel.bolts_in_stock)) = Some l
                /\ In l (Inventory.lot_ids Demo.adjustment_inventory))
  /\ (Inventory.product_ids Demo.adjustment_inventory <> [] ->
      exists p, fst (fst (fst (fst DemoCancel.bolts_in_stock))) = Some p
                /\ In p (Inventory.product_ids Demo.adjustment_inventory))
  /\ (Inventory.prefill_counted_quantity Demo.adjustment_inventory = Prefill.zero ->
      exists p, fst (fst (fst (fst DemoCancel.bolts_in_stock))) = Some p
                /\ product_active Demo.E p = true).
Proof.
  apply (get_quantities_sums_selected_quants
           Demo.E Demo.store Demo.adjustment_inventory
           DemoCancel.bolts_in_stock 10%Q).
  now left.
Defined.

(** Two quants of 5 and -5 bolts in the same bucket both pass the filter
    "quantity not zero"; the snapshot, which sums them, has an entry for
    the bucket whose quantity is zero. *)
Example get_quantities_cancelling_demo :
  _get_quantities DemoCancel.E Demo.store Demo.adjustment_inventory
  = [(DemoCancel.bolts_in_stock, (5 + -5)%Q)].
Proof. reflexivity. Qed.

Lemma snapshot_entries_filtered_counterexample : ~ snapshot_entries_filtered.
Proof.
  intro H.
  destruct (H DemoCancel.E Demo.store Demo.adjustment_inventory
              DemoCancel.bolts_in_stock (5 + -5)%Q) as [Hnz _].
  - now left.
  - cbn in Hnz. apply Hnz. reflexivity.
Qed.

(** ** The recompute on a serial-tracked line *)

Ltac onchange_step :=
  cbn [Line.id Line.is_editable Line.inventory_id Line.partner_id
       Line.product_id Line.product_uom_id Line.product_qty Line.location_id
       Line.package_id Line.prod_lot_id Line.theoretical_qty Line.inventory_date
       Line.set_product_uom_id Line.set_prod_lot_id Line.set_product_qty
       Line.set_theoretical_qty is_some andb orb negb].

(** C6, amended.  On a line of a serial-tracked product the recompute sets
    the counted quantity to 1 whenever the line carries a serial number of
    that product, whatever the counted quantity was, zero included.  When
    the line carries no serial number, or one of another product (which
    the recompute removes), the counted quantity becomes the new
    theoretical quantity if it was equal, within the rounding of the
    product's unit of measure, to the previous one, and is left as it is
    otherwise. *)
Theorem onchange_serial_forces_one E line :
  product_tracking E (Line.product_id line) = Some Tracking.serial ->
  (forall lot,
      Line.prod_lot_id line = Some lot ->
      lot_product_id E (Some lot) = Line.product_id line ->
      Line.prod_lot_id (_onchange_quantity_context E line) = Some lot
      /\ Line.product_qty (_onchange_quantity_context E line) = 1%Q)
  /\ (Line.prod_lot_id line = None
      \/ lot_product_id E (Line.prod_lot_id line) <> Line.product_id line ->
      Line.prod_lot_id (_onchange_quantity_context E line) = None
      /\ Line.product_qty (_onchange_quantity_context E line)
         = if float_compare (Line.product_qty line) (Line.theoretical_qty line)
                            (uom_rounding E (product_uom_id E (Line.product_id line)))
              =? 0
           then Line.theoretical_qty (_onchange_quantity_context E line)
           else Line.product_qty line).
Proof.
  destruct line as [i ed inv partner prod uom qty loc pkg lot0 th dt].
  cbn [Line.product_id Line.prod_lot_id Line.product_qty Line.theoretical_qty].
  intro Htrack.
  destruct prod as [p|]; [|discriminate Htrack].
  unfold _onchange_quantity_context.
  split.
  - intros lot -> Hprod. onchange_step. rewrite Htrack, Hprod, many2one_eqb_refl.
    onchange_step. rewrite Htrack. onchange_step. split; reflexivity.
  - intros Hlot. onchange_step. rewrite Htrack.
    destruct lot0 as [lot|].
    + assert (Hneq : many2one_eqb (Some p) (lot_product_id E (Some lot)) = false).
      { destruct (many2one_eqb (Some p) (lot_product_id E (Some lot))) eqn:Heq;
          [|reflexivity].
        apply many2one_eqb_eq in Heq. destruct Hlot as [Hlot|Hlot];
          [discriminate Hlot | now contradiction Hlot]. }
      onchange_step. rewrite Hneq. onchange_step.
      destruct (float_compare qty th (uom_rounding E (product_uom_id E (Some p))) =? 0);
        split; reflexivity.
    + onchange_step.
      destruct (float_compare qty th (uom_rounding E (product_uom_id E (Some p))) =? 0);
        split; reflexivity.
Qed.

Lemma onchange_serial_forces_one_witness :
  (forall lot,
      Line.prod_lot_id DemoSerial.absent_drill = Some lot ->
      lot_product_id Demo.E (Some lot) = Line.product_id DemoSerial.absent_drill ->
      Line.prod_lot_id (_onchange_quantity_context Demo.E DemoSerial.absent_drill)
      = Some lot
      /\ Line.product_qty (_onchange_quantity_context Demo.E DemoSerial.absent_drill)
         = 1%Q)
  /\ (Line.prod_lot_id DemoSerial.absent_drill = None
      \/ lot_product_id Demo.E (Line.prod_lot_id DemoSerial.absent_drill)
         <> Line.product_id DemoSerial.absent_drill ->
      Line.prod_lot_id (_onchange_quantity_context Demo.E DemoSerial.absent_drill) = None
      /\ Line.product_qty (_onchange_quantity_context Demo.E DemoSerial.absent_drill)
         = if float_compare (Line.product_qty DemoSerial.absent_drill)
                            (Line.theoretical_qty DemoSerial.absent_drill)
                            (uom_rounding Demo.E
                               (product_uom_id Demo.E
                                  (Line.product_id DemoSerial.absent_drill)))
              =? 0
           then Line.theoretical_qty
                  (_onchange_quantity_context Demo.E DemoSerial.absent_drill)
           else Line.product_qty DemoSerial.absent_drill).
Proof.
  apply (onchange_serial_forces_one Demo.E DemoSerial.absent_drill).
  reflexivity.
Defined.

(** The drill counted absent is counted present again by the recompute;
    without a serial number a count of 3 against 1 expected is kept. *)
Example onchange_absent_drill_demo :
  Line.product_qty (_onchange_quantity_context Demo.E DemoSerial.absent_drill) = 1%Q
  /\ Line.prod_lot_id (_onchange_quantity_context Demo.E DemoSerial.absent_drill)
     = Some 100.
Proof. split; reflexivity. Qed.

Example onchange_unnumbered_drill_demo :
  Line.product_qty (_onchange_quantity_context Demo.E DemoSerial.unnumbered_drill) = 3%Q
  /\ Line.theoretical_qty (_onchange_quantity_context Demo.E DemoSerial.unnumbered_drill)
     = 0%Q.
Proof. split; reflexivity. Qed.

Lemma onchange_spares_zero_counterexample : ~ onchange_spares_zero.
Proof.
  intro H. specialize (H Demo.E DemoSerial.absent_drill eq_refl).
  cbn in H. destruct H as [_ H].
  assert (Hone : (1 == 0)%Q) by (apply H; intro Heq; discriminate Heq).
  discriminate Hone.
Qed.

(** ** The cyclic-count scheduler *)

Lemma has_ancestor_in_spec ids l :
  has_ancestor_in ids l = true <-> exists a, In a (ancestor_ids l) /\ In a ids.
Proof.
  unfold has_ancestor_in. rewrite existsb_exists. split.
  - intros [a [Ha Hm]]. exists a. split; [exact Ha | now apply mem_In].
  - intros [a [Ha Hm]]. exists a. split; [exact Ha | now apply mem_In].
Qed.

Lemma locations_to_inventory_top E s company_id l :
  In l (locations_to_inventory E s company_id) ->
  In l (due_locations E s company_id)
  /\ has_ancestor_in (map Location.id (due_locations E s company_id)) l = false.
Proof.
  unfold locations_to_inventory, without_descendants. intro H.
  apply filter_In in H. destruct H as [H _].
  apply filter_In in H. destruct H as [Hdue Htop].
  split; [exact Hdue | now apply negb_true_iff].
Qed.

Lemma due_locations_company E s company_id l :
  In l (due_locations E s company_id) -> is_some (Location.company_id l) = true.
Proof.
  unfold due_locations, company_domain. intro H.
  apply filter_In in H. destruct H as [_ H].
  rewrite !andb_true_iff in H. destruct H as [_ H].
  destruct company_id as [c|]; [|exact H].
  apply many2one_eqb_eq in H. now rewrite H.
Qed.

Lemma create_cyclic_inventory_run E l company s0 :
  Location.company_id l = Some company ->
  create_cyclic_inventory E l s0
  = (inr tt,
     Build_db
       (inventories s0 ++
          [Inventory.mk (inventory_seq s0)
             (String.append "Reoccuring Inventory for: " (Location.name l))
             (now E) State.draft company [Location.id l] []
             false Prefill.counted false false [] (now E)])
       (lines s0) (moves s0) (locations s0)
       (inventory_seq s0 + 1) (line_seq s0) (move_seq s0)).
Proof. intro H. unfold create_cyclic_inventory. now rewrite H. Qed.

Lemma create_cyclic_inventories_run E ls : forall s0,
  Forall (fun l => is_some (Location.company_id l) = true) ls ->
  exists s1 news,
    for_each ls (create_cyclic_inventory E) s0 = (inr tt, s1)
    /\ inventories s1 = inventories s0 ++ news
    /\ map Inventory.location_ids news = map (fun l => [Location.id l]) ls
    /\ Forall (fun x => Inventory.state x = State.draft) news.
Proof.
  induction ls as [|l ls IH]; intros s0 Hall.
  - exists s0, []. cbn. rewrite app_nil_r. repeat split. constructor.
  - inversion Hall as [|? ? Hl Hls]; subst.
    destruct (Location.company_id l) as [company|] eqn:Hc; [|discriminate Hl].
    cbn [for_each]. unfold bind.
    rewrite (create_cyclic_inventory_run E l company s0 Hc).
    match goal with
    | |- context [for_each ls _ ?s'] =>
        destruct (IH s' Hls) as [s1 [news [Hrun [Hinv [Hloc Hdraft]]]]]
    end.
    rewrite Hrun. eexists s1, (_ :: news). split; [reflexivity|].
    cbn [inventories] in Hinv. rewrite Hinv, <- app_assoc. cbn [app].
    split; [reflexivity|]. split.
    + cbn [map Inventory.location_ids]. now rewrite Hloc.
    + constructor; [reflexivity | exact Hdraft].
Qed.

(** The filter keeps exactly the due locations none of whose proper
    ancestors is due. *)
Lemma without_descendants_spec (ls : list Location.t) l :
  In l (without_descendants ls)
  <-> In l ls /\ forall a, In a ls -> ~ In (Location.id a) (ancestor_ids l).
Proof.
  unfold without_descendants. rewrite filter_In, negb_true_iff. split.
  - intros [Hl Htop]. split; [exact Hl|]. intros a Ha Hanc.
    assert (Hup : has_ancestor_in (map Location.id ls) l = true).
    { apply has_ancestor_in_spec. exists (Location.id a).
      split; [exact Hanc | now apply in_map]. }
    congruence.
  - intros [Hl Htop]. split; [exact Hl|].
    destruct (has_ancestor_in (map Location.id ls) l) eqn:Hup; [|reflexivity].
    apply has_ancestor_in_spec in Hup. destruct Hup as [a_id [Hanc Hdue]].
    apply in_map_iff in Hdue. destruct Hdue as [a [<- Ha]].
    now destruct (Htop a Ha).
Qed.

(** The ancestor wins: every due location is kept by the filter or lies
    below a due location that is kept. *)
Lemma due_location_covered E s company_id :
  paths_wf (locations s) ->
  forall l, In l (due_locations E s company_id) ->
    exists top,
      In top (without_descendants (due_locations E s company_id))
      /\ (top = l \/ In (Location.id top) (ancestor_ids l)).
Proof.
  intros Hwf l.
  remember (List.length (ancestor_ids l)) as n eqn:Hn.
  revert l Hn. induction n as [n IH] using lt_wf_ind. intros l Hn Hl.
  destruct (has_ancestor_in (map Location.id (due_locations E s company_id)) l)
    eqn:Hup.
  - apply has_ancestor_in_spec in Hup. destruct Hup as [a_id [Hanc Hdue]].
    apply in_map_iff in Hdue. destruct Hdue as [a [<- Ha]].
    assert (Hstored : forall x, In x (due_locations E s company_id) ->
                                In x (locations s)).
    { intros x Hx. unfold due_locations in Hx. apply filter_In in Hx. tauto. }
    destruct (Hwf l a (Hstored l Hl) (Hstored a Ha) Hanc) as [Hsub Hlt].
    destruct (IH (List.length (ancestor_ids a)) ltac:(lia) a eq_refl Ha)
      as [top [Htop Hrel]].
    exists top. split; [exact Htop|]. right.
    destruct Hrel as [->|Hrel]; [exact Hanc | now apply Hsub].
  - exists l. split; [|now left].
    unfold without_descendants. apply filter_In. split; [exact Hl|].
    now rewrite Hup.
Qed.

(** A location that the filter keeps and that gets no fresh inventory
    has an inventory in progress that is specific to it. *)
Lemma kept_location_inventoried E s company_id l :
  In l (without_descendants (due_locations E s company_id)) ->
  In l (locations_to_inventory E s company_id)
  \/ exists x,
      In x (inventories s)
      /\ Inventory.location_ids x = [Location.id l]
      /\ Inventory.product_ids x = []
      /\ (Inventory.state x = State.draft \/ Inventory.state x = State.confirm).
Proof.
  intro Hl. unfold locations_to_inventory.
  match goal with
  | |- In l (filter (fun l0 => negb (mem (Location.id l0) ?ids)) _) \/ _ =>
      destruct (mem (Location.id l) ids) eqn:Hm
  end.
  - right. apply mem_In in Hm. apply in_flat_map in Hm.
    destruct Hm as [x [Hx Hin]]. apply filter_In in Hx. destruct Hx as [Hx Hcyc].
    unfold existing_loc_invs in Hx. apply filter_In in Hx. destruct Hx as [Hx Hdom].
    rewrite !andb_true_iff in Hdom. destruct Hdom as [[Hstate Hprod] _].
    exists x. split; [exact Hx|]. split; [|split].
    + unfold still_cyclic in Hcyc.
      destruct (Inventory.location_ids x) as [|location_id [|? ?]];
        try discriminate Hcyc.
      destruct Hin as [->|[]]. reflexivity.
    + destruct (Inventory.product_ids x); [reflexivity | discriminate Hprod].
    + destruct (Inventory.state x); try discriminate Hstate; auto.
  - left. apply filter_In. split; [exact Hl|]. now rewrite Hm.
Qed.

(** C8.  The locations that get a cyclic inventory in a run are all due;
    a due location below another due location is not among them; no one
    of them is an ancestor of another; and the run creates one draft
    inventory for each of them, whatever the conflict pass does after.
    The ancestor wins: the filter of the run keeps exactly the due
    locations without a due ancestor, so that, the paths of the locations
    fitting together, every due location is kept or lies below one that
    is; and a location that is kept gets its inventory in this run unless
    an inventory in progress is already specific to it. *)
Theorem cyclic_locations_unrelated E conflict_tasks s company_id :
  (forall l, In l (locations_to_inventory E s company_id) ->
             In l (due_locations E s company_id))
  /\ (forall l a,
         In l (due_locations E s company_id) -> In a (due_locations E s company_id) ->
         In (Location.id a) (ancestor_ids l) ->
         ~ In l (locations_to_inventory E s company_id))
  /\ (forall a b,
         In a (locations_to_inventory E s company_id) ->
         In b (locations_to_inventory E s company_id) ->
         ~ In (Location.id a) (ancestor_ids b))
  /\ (exists s1 kept news,
         _run_inventory_tasks E conflict_tasks company_id s = conflict_tasks company_id s1
         /\ inventories s1 = kept ++ news
         /\ (forall x, In x kept -> In x (inventories s))
         /\ map Inventory.location_ids news
            = map (fun l => [Location.id l]) (locations_to_inventory E s company_id)
         /\ Forall (fun x => Inventory.state x = State.draft) news)
  /\ (forall l,
         In l (without_descendants (due_locations E s company_id))
         <-> In l (due_locations E s company_id)
             /\ forall a, In a (due_locations E s company_id) ->
                          ~ In (Location.id a) (ancestor_ids l))
  /\ (paths_wf (locations s) ->
      forall l, In l (due_locations E s company_id) ->
        exists top,
          In top (without_descendants (due_locations E s company_id))
          /\ (top = l \/ In (Location.id top) (ancestor_ids l)))
  /\ (forall l,
         In l (without_descendants (due_locations E s company_id)) ->
         In l (locations_to_inventory E s company_id)
         \/ exists x,
             In x (inventories s)
             /\ Inventory.location_ids x = [Location.id l]
             /\ Inventory.product_ids x = []
             /\ (Inventory.state x = State.draft
                 \/ Inventory.state x = State.confirm)).
Proof.
  split; [|split; [|split; [|split; [|split; [|split]]]]];
    [| | | |apply without_descendants_spec
     |apply due_location_covered
     |apply kept_location_inventoried].
  - intros l Hl. now apply locations_to_inventory_top in Hl.
  - intros l a Hl Ha Hanc Hsel.
    apply locations_to_inventory_top in Hsel. destruct Hsel as [_ Htop].
    assert (Hup : has_ancestor_in (map Location.id (due_locations E s company_id)) l = true).
    { apply has_ancestor_in_spec. exists (Location.id a).
      split; [exact Hanc | now apply in_map]. }
    congruence.
  - intros a b Ha Hb Hanc.
    apply locations_to_inventory_top in Ha. destruct Ha as [Ha _].
    apply locations_to_inventory_top in Hb. destruct Hb as [_ Htop].
    assert (Hup : has_ancestor_in (map Location.id (due_locations E s company_id)) b = true).
    { apply has_ancestor_in_spec. exists (Location.id a).
      split; [exact Hanc | now apply in_map]. }
    congruence.
  - unfold _run_inventory_tasks, bind, get.
    destruct (is_set (due_locations E s company_id)) eqn:Hset; cbn [when_].
    + unfold bind, inventory_unlink, modify.
      match goal with
      | |- context [for_each ?ls _ ?s0] =>
          destruct (create_cyclic_inventories_run E ls s0)
            as [s1 [news [Hrun [Hinv [Hloc Hdraft]]]]]
      end.
      { apply Forall_forall. intros l Hl.
        apply filter_In in Hl. destruct Hl as [Hl _].
        unfold without_descendants in Hl. apply filter_In in Hl. destruct Hl as [Hl _].
        now apply (due_locations_company E s company_id). }
      rewrite Hrun. eexists s1, _, news. split; [reflexivity|].
      split; [exact Hinv|]. split.
      * intros x Hx. cbn [inventories set_lines set_inventories] in Hx.
        apply filter_In in Hx. tauto.
      * split; [exact Hloc | exact Hdraft].
    + exists s, (inventories s), []. unfold ret.
      rewrite app_nil_r. unfold locations_to_inventory.
      destruct (due_locations E s company_id); [|discriminate Hset].
      repeat split; auto.
Qed.

Lemma demo_cyclic_paths_wf : paths_wf (locations DemoCyclic.store).
Proof.
  intros l a Hl Ha Hanc.
  destruct Hl as [<-|[<-|[<-|[]]]]; destruct Ha as [<-|[<-|[<-|[]]]];
    cbn in Hanc; repeat (destruct Hanc as [Hanc|Hanc]; try discriminate Hanc);
    try contradiction.
  split; [|cbn; lia].
  intros x Hx. cbn in Hx |- *. tauto.
Qed.

(** The shelf, due like the stock above it, is covered by the stock,
    which the filter keeps. *)
Lemma cyclic_locations_unrelated_witness :
  exists top,
    In top (without_descendants (due_locations Demo.E DemoCyclic.store None))
    /\ (top = DemoCyclic.shelf
        \/ In (Location.id top) (ancestor_ids DemoCyclic.shelf)).
Proof.
  destruct (cyclic_locations_unrelated Demo.E (fun _ => ret tt) DemoCyclic.store None)
    as [_ [_ [_ [_ [_ [Hwins _]]]]]].
  apply Hwins.
  - exact demo_cyclic_paths_wf.
  - cbn. tauto.
Defined.

(** Stock, shelf and dock are due; the shelf lies below the stock: the
    run creates an inventory for the stock and one for the dock. *)
Example run_inventory_tasks_demo :
  map Location.id (due_locations Demo.E DemoCyclic.store None) = [21; 22; 23]
  /\ map Location.id (locations_to_inventory Demo.E DemoCyclic.store None) = [21; 23]
  /\ map Inventory.location_ids
         (inventories (snd (_run_inventory_tasks Demo.E (fun _ => ret tt) None
                                                 DemoCyclic.store)))
     = [[21]; [23]].
Proof. repeat split. Qed.

(** * Further facts *)

(** ** [action_check] on a recordset *)

Lemma action_check_body_run E (inventory : Inventory.t) s :
  bind get (fun s0 =>
    bind (stock_move_unlink (move_ids s0 (Inventory.id inventory))) (fun _ =>
    bind get (fun s1 =>
    bind (_generate_moves E (line_ids s1 (Inventory.id inventory))) (fun _ =>
    ret tt)))) s
  = (inr tt, checked E s (Inventory.id inventory)).
Proof. reflexivity. Qed.

Lemma for_each_checked E (records : list Inventory.t) : forall s,
  for_each records
    (fun inventory =>
       bind get (fun s0 =>
       bind (stock_move_unlink (move_ids s0 (Inventory.id inventory))) (fun _ =>
       bind get (fun s1 =>
       bind (_generate_moves E (line_ids s1 (Inventory.id inventory))) (fun _ =>
       ret tt))))) s
  = (inr tt, checked_all E (map Inventory.id records) s).
Proof.
  induction records as [|r records IH]; intro s; [reflexivity|].
  cbn [for_each map]. unfold bind at 1. rewrite action_check_body_run.
  rewrite IH. reflexivity.
Qed.

Lemma action_check_all E self s :
  action_check E self s = (inr tt, checked_all E (open_ids s self) s).
Proof.
  unfold action_check. unfold bind at 1. unfold get at 1.
  apply for_each_checked.
Qed.

Lemma number_moves_ids first vals_list :
  NoDup (map Move.id (number_moves first vals_list))
  /\ Forall (fun m => first <= Move.id m < first + Z.of_nat (List.length vals_list))
            (number_moves first vals_list).
Proof.
  revert first. induction vals_list as [|v vs IH]; intro first; cbn.
  - split; constructor.
  - destruct (IH (first + 1)) as [Hnd Hb]. split.
    + constructor; [|exact Hnd]. intro Hin. apply in_map_iff in Hin.
      destruct Hin as [m [Hid Hm]]. rewrite Forall_forall in Hb.
      specialize (Hb m Hm). cbn in Hid. lia.
    + constructor; [cbn; lia|]. eapply Forall_impl; [|exact Hb].
      cbn. intros m Hm. lia.
Qed.

Lemma checked_wf E s i : moves_wf s -> moves_wf (checked E s i).
Proof.
  intros [Hnd Hlt]. unfold moves_wf, checked. cbn [moves move_seq].
  destruct (number_moves_ids (move_seq s) (regenerated E s i)) as [Hnew Hb].
  rewrite Forall_forall in Hlt, Hb. split.
  - rewrite map_app. apply NoDup_app.
    + clear Hlt. induction (moves s) as [|m ms IH]; [constructor|].
      cbn [map] in Hnd. inversion Hnd as [|? ? Hm Hms]; subst. cbn [filter].
      destruct (negb (mem (Move.id m) (map Move.id (move_ids s i)))); [|now apply IH].
      cbn [map]. constructor; [|now apply IH].
      intro Hin. apply Hm. apply in_map_iff in Hin. destruct Hin as [x [Hx Hin]].
      apply filter_In in Hin. rewrite <- Hx. apply in_map. tauto.
    + exact Hnew.
    + intros k Hk Hk'. apply in_map_iff in Hk. destruct Hk as [m [<- Hm]].
      apply in_map_iff in Hk'. destruct Hk' as [m' [Hid Hm']].
      apply filter_In in Hm. destruct Hm as [Hm _].
      specialize (Hlt m Hm). specialize (Hb m' Hm'). lia.
  - apply Forall_forall. intros m Hm. apply in_app_or in Hm.
    destruct Hm as [Hm|Hm].
    + apply filter_In in Hm. destruct Hm as [Hm _]. specialize (Hlt m Hm). lia.
    + specialize (Hb m Hm). lia.
Qed.

Lemma same_id_same_move (ms : list Move.t) a b :
  NoDup (map Move.id ms) -> In a ms -> In b ms -> Move.id a = Move.id b -> a = b.
Proof.
  induction ms as [|m ms IH]; intros Hnd Ha Hb Hid; [destruct Ha|].
  cbn [map] in Hnd. inversion Hnd as [|? ? Hm Hms]; subst.
  destruct Ha as [<-|Ha], Hb as [<-|Hb]; auto.
  - exfalso. apply Hm. rewrite Hid. now apply in_map.
  - exfalso. apply Hm. rewrite <- Hid. now apply in_map.
Qed.

Lemma filter_filter_keep {A} (P Q : A -> bool) xs :
  (forall x, In x xs -> P x = true -> Q x = true) ->
  filter P (filter Q xs) = filter P xs.
Proof.
  induction xs as [|x xs IH]; intro H; [reflexivity|].
  cbn [filter]. destruct (Q x) eqn:Hq.
  - cbn [filter]. destruct (P x); [f_equal|]; apply IH; intros y Hy; apply H; now right.
  - destruct (P x) eqn:Hp.
    + rewrite (H x (or_introl eq_refl) Hp) in Hq. discriminate.
    + apply IH. intros y Hy. apply H. now right.
Qed.

(** Checking inventory [i] leaves the moves of another inventory alone. *)
Lemma checked_other E s i j :
  moves_wf s -> j <> i -> move_ids (checked E s i) j = move_ids s j.
Proof.
  intros [Hnd _] Hji. unfold move_ids at 1, checked. cbn [moves].
  rewrite filter_app. rewrite (filter_none _ (number_moves _ _)).
  - rewrite app_nil_r. unfold move_ids at 2. apply filter_filter_keep.
    intros m Hm Hj.
    destruct (mem (Move.id m) (map Move.id (move_ids s i))) eqn:Hmem; [|reflexivity].
    exfalso. apply mem_In in Hmem. apply in_map_iff in Hmem.
    destruct Hmem as [x [Hid Hx]].
    unfold move_ids in Hx. apply filter_In in Hx. destruct Hx as [Hx Hi].
    assert (x = m) by (eapply same_id_same_move; eauto). subst x.
    apply many2one_eqb_eq in Hi. apply many2one_eqb_eq in Hj. congruence.
  - intros m Hm. apply number_moves_In in Hm. destruct Hm as [Hm _].
    unfold regenerated in Hm. apply filter_map_In in Hm.
    destruct Hm as [line [Hline Hv]].
    rewrite (line_move_values_inventory _ _ _ _ Hv).
    unfold line_ids in Hline. apply filter_In in Hline. destruct Hline as [_ Hi].
    apply many2one_eqb_eq in Hi. rewrite Hi.
    destruct (many2one_eqb (Some i) (Some j)) eqn:Hij; [|reflexivity].
    apply many2one_eqb_eq in Hij. congruence.
Qed.

Lemma checked_all_spec E todo : forall s,
  moves_wf s ->
  moves_wf (checked_all E todo s)
  /\ lines (checked_all E todo s) = lines s
  /\ inventories (checked_all E todo s) = inventories s
  /\ locations (checked_all E todo s) = locations s
  /\ forall j,
      (In j todo ->
       map Move.vals (move_ids (checked_all E todo s) j) = regenerated E s j)
      /\ (~ In j todo -> move_ids (checked_all E todo s) j = move_ids s j).
Proof.
  induction todo as [|i todo IH]; intros s Hwf.
  - cbn. split; [exact Hwf|]. do 3 (split; [reflexivity|]).
    intro j. split; [intros []|reflexivity].
  - cbn [checked_all fold_left]. fold (checked_all E todo (checked E s i)).
    destruct (IH (checked E s i) (checked_wf E s i Hwf))
      as [Hwf' [Hl [Hi [Hloc Hmoves]]]].
    split; [exact Hwf'|]. split; [exact Hl|]. split; [exact Hi|]. split; [exact Hloc|].
    intro j. destruct (Hmoves j) as [Hin Hout].
    destruct (in_dec Z.eq_dec j todo) as [Hj|Hj].
    + split; [intros _; now apply Hin|]. intros Hnot. exfalso. apply Hnot. now right.
    + split.
      * intros [<-|Hj']; [|contradiction].
        rewrite (Hout Hj), checked_move_ids. apply number_moves_vals.
      * intro Hnot. rewrite (Hout Hj). apply checked_other; [exact Hwf|].
        intros ->. apply Hnot. now left.
Qed.

Lemma checked_all_frame E todo : forall s,
  lines (checked_all E todo s) = lines s
  /\ inventories (checked_all E todo s) = inventories s
  /\ locations (checked_all E todo s) = locations s.
Proof.
  induction todo as [|i todo IH]; intro s; [now repeat split|].
  cbn [checked_all fold_left]. fold (checked_all E todo (checked E s i)).
  destruct (IH (checked E s i)) as [Hl [Hi Hloc]]. now repeat split.
Qed.

Lemma demo_done_moves_wf : moves_wf DemoDone.store.
Proof.
  split; cbn.
  - repeat constructor. intros [].
  - repeat constructor.
Qed.

(** X1.  On any recordset, in a store whose move ids are sound,
    [action_check] raises nothing and writes moves only: each open
    inventory of the recordset ends with the moves its lines ask for, and
    every other inventory keeps its moves as they were. *)
Theorem action_check_recordset E s self :
  moves_wf s ->
  exists s',
    action_check E self s = (inr tt, s')
    /\ lines s' = lines s
    /\ inventories s' = inventories s
    /\ locations s' = locations s
    /\ forall j,
        (In j (open_ids s self) ->
         map Move.vals (move_ids s' j) = regenerated E s j)
        /\ (~ In j (open_ids s self) -> move_ids s' j = move_ids s j).
Proof.
  intro Hwf. exists (checked_all E (open_ids s self) s).
  split; [apply action_check_all|].
  destruct (checked_all_spec E (open_ids s self) s Hwf) as [_ [Hl [Hi [Hloc Hm]]]].
  split; [exact Hl|]. split; [exact Hi|]. split; [exact Hloc | exact Hm].
Qed.

Lemma action_check_recordset_witness :
  exists s',
    action_check Demo.E [1] DemoDone.store = (inr tt, s')
    /\ lines s' = lines DemoDone.store
    /\ inventories s' = inventories DemoDone.store
    /\ locations s' = locations DemoDone.store
    /\ forall j,
        (In j (open_ids DemoDone.store [1]) ->
         map Move.vals (move_ids s' j) = regenerated Demo.E DemoDone.store j)
        /\ (~ In j (open_ids DemoDone.store [1]) ->
            move_ids s' j = move_ids DemoDone.store j).
Proof.
  apply (action_check_recordset Demo.E DemoDone.store [1]).
  exact demo_done_moves_wf.
Defined.

(** ** [_action_done] when no quantity is negative *)

Lemma action_done_run E self s :
  find negative_line (flat_map (line_ids s) self) = None ->
  _action_done E self s
  = (inr true,
     stamped E self (posted self (done_written E self
                                    (checked_all E (open_ids s self) s)))).
Proof.
  intro Hfind. unfold _action_done. unfold bind at 1. unfold get at 1.
  rewrite Hfind. unfold bind at 1. rewrite action_check_all.
  unfold bind at 1. unfold inventory_write_state_date at 1. unfold modify at 1.
  fold (done_written E self (checked_all E (open_ids s self) s)).
  set (s2 := done_written E self (checked_all E (open_ids s self) s)).
  unfold bind at 1. unfold post_inventory. unfold bind at 1. unfold get at 1.
  unfold bind at 1. unfold stock_move_action_done, modify.
  fold (post_move). unfold ret at 1.
  change (set_moves _ s2) with (posted self s2).
  set (s3 := posted self s2).
  unfold bind at 1. unfold get at 1. unfold bind at 1.
  unfold stamped, stamps_locations.
  destruct (group_stock_multi_locations E); cbn [andb when_]; [|reflexivity].
  destruct (flat_map Inventory.product_ids (browse_inventories s3 self));
    cbn [is_set negb andb when_]; [|reflexivity].
  destruct (flat_map Inventory.location_ids (browse_inventories s3 self));
    cbn [is_set negb andb when_]; reflexivity.
Qed.

Lemma find_negative_none s self :
  (forall i line, In i self -> In line (line_ids s i) ->
                  (Line.product_qty line < 0)%Q ->
                  (Line.product_qty line == Line.theoretical_qty line)%Q) ->
  find negative_line (flat_map (line_ids s) self) = None.
Proof.
  intro H.
  destruct (find negative_line (flat_map (line_ids s) self)) as [line|] eqn:Hf;
    [exfalso|reflexivity].
  apply find_some in Hf. destruct Hf as [Hin Hneg].
  apply in_flat_map in Hin. destruct Hin as [i [Hi Hline]].
  apply negative_line_spec in Hneg. destruct Hneg as [Hlt Hne].
  apply Hne. now apply (H i line).
Qed.

Lemma browse_inventory_map (f : Inventory.t -> Inventory.t) s j :
  (forall x, Inventory.id (f x) = Inventory.id x) ->
  browse_inventory (set_inventories (map f (inventories s)) s) (Some j)
  = option_map f (browse_inventory s (Some j)).
Proof.
  intro Hid. cbn [browse_inventory inventories set_inventories].
  induction (inventories s) as [|x xs IH]; [reflexivity|].
  cbn [map find]. rewrite Hid. destruct (Inventory.id x =? j); [reflexivity|exact IH].
Qed.

Lemma done_written_browse E self s j :
  browse_inventory (done_written E self s) (Some j)
  = option_map (fun x => if mem j self
                         then Inventory.set_state_date State.done (now E) x else x)
               (browse_inventory s (Some j)).
Proof.
  unfold done_written. rewrite browse_inventory_map.
  - destruct (browse_inventory s (Some j)) as [x|] eqn:Hb; [|reflexivity].
    cbn [option_map]. now rewrite (browse_inventory_id _ _ _ Hb).
  - intro x. now destruct (mem (Inventory.id x) self).
Qed.

Lemma open_ids_In s self j : In j (open_ids s self) -> In j self.
Proof.
  unfold open_ids, browse_inventories. intro H.
  apply in_map_iff in H. destruct H as [r [<- Hr]].
  apply filter_In in Hr. destruct Hr as [Hr _].
  apply filter_map_In in Hr. destruct Hr as [i [Hi Hb]].
  now rewrite (browse_inventory_id _ _ _ Hb).
Qed.

Lemma filter_map_commute {A} (P : A -> bool) (f : A -> A) xs :
  (forall x, P (f x) = P x) -> filter P (map f xs) = map f (filter P xs).
Proof.
  intro H. induction xs as [|x xs IH]; [reflexivity|].
  cbn [map filter]. rewrite H. destruct (P x); cbn [map]; now rewrite IH.
Qed.

Lemma set_state_done_id v :
  MoveVals.state v = MoveState.done -> MoveVals.set_state MoveState.done v = v.
Proof. destruct v. cbn. now intros ->. Qed.

(** Posting leaves every move of an inventory of [self] done, its other
    values as they were. *)
Lemma posted_move_ids self s j :
  In j self ->
  map Move.vals (move_ids (posted self s) j)
  = map (MoveVals.set_state MoveState.done) (map Move.vals (move_ids s j)).
Proof.
  intro Hj. unfold move_ids at 1, posted. cbn [moves set_moves].
  rewrite filter_map_commute.
  - fold (move_ids s j). rewrite !map_map. apply map_ext_in.
    intros m Hm.
    match goal with |- context [mem (Move.id m) ?l] => destruct (mem (Move.id m) l) eqn:Hmem end;
      [reflexivity|].
    symmetry. apply set_state_done_id.
    destruct (MoveVals.state (Move.vals m)) eqn:Hst; try reflexivity; exfalso;
      assert (Hin : mem (Move.id m)
                        (map Move.id
                             (filter (fun move =>
                                        negb (MoveState.is_done
                                                (MoveVals.state (Move.vals move))))
                                     (flat_map (move_ids s) self))) = true)
        by (apply mem_In, in_map, filter_In; split;
            [apply in_flat_map; now exists j | now rewrite Hst]);
      congruence.
  - intro m. now destruct (mem (Move.id m) _).
Qed.

(** X2.  When no line of the inventories of [self] has a negative counted
    quantity that differs from its theoretical quantity, [_action_done]
    succeeds: every inventory of [self] is done and dated now, the other
    inventories and all lines are as before, and each open inventory of
    [self] holds the moves its lines ask for, all of them posted. *)
Theorem action_done_validates E s self :
  moves_wf s ->
  (forall i line, In i self -> In line (line_ids s i) ->
                  (Line.product_qty line < 0)%Q ->
                  (Line.product_qty line == Line.theoretical_qty line)%Q) ->
  exists s',
    _action_done E self s = (inr true, s')
    /\ lines s' = lines s
    /\ (forall j inventory,
           browse_inventory s (Some j) = Some inventory ->
           browse_inventory s' (Some j)
           = Some (if mem j self
                   then Inventory.set_state_date State.done (now E) inventory
                   else inventory))
    /\ (forall j, In j (open_ids s self) ->
                  map Move.vals (move_ids s' j)
                  = map (MoveVals.set_state MoveState.done) (regenerated E s j)).
Proof.
  intros Hwf Hneg.
  rewrite (action_done_run E self s (find_negative_none s self Hneg)).
  eexists. split; [reflexivity|].
  destruct (checked_all_spec E (open_ids s self) s Hwf) as [_ [Hl [Hi [_ Hm]]]].
  set (s1 := checked_all E (open_ids s self) s) in *.
  assert (Hst : forall x, lines (stamped E self x) = lines x
                          /\ moves (stamped E self x) = moves x
                          /\ inventories (stamped E self x) = inventories x).
  { intro x. unfold stamped. now destruct (stamps_locations E x self). }
  split; [|split].
  - destruct (Hst (posted self (done_written E self s1))) as [-> _]. exact Hl.
  - intros j inventory Hb.
    destruct (Hst (posted self (done_written E self s1))) as [_ [_ Hinv]].
    unfold browse_inventory at 1. rewrite Hinv.
    change (browse_inventory (done_written E self s1) (Some j) = 
            Some (if mem j self
                  then Inventory.set_state_date State.done (now E) inventory
                  else inventory)).
    rewrite done_written_browse.
    unfold browse_inventory. rewrite Hi. fold (browse_inventory s (Some j)).
    now rewrite Hb.
  - intros j Hj.
    destruct (Hst (posted self (done_written E self s1))) as [_ [Hmv _]].
    unfold move_ids at 1. rewrite Hmv.
    fold (move_ids (posted self (done_written E self s1)) j).
    rewrite (posted_move_ids self _ j (open_ids_In s self j Hj)).
    change (move_ids (done_written E self s1) j) with (move_ids s1 j).
    destruct (Hm j) as [Hin _]. now rewrite (Hin Hj).
Qed.

Lemma action_done_validates_witness :
  exists s',
    _action_done Demo.E [1] DemoDone.store = (inr true, s')
    /\ lines s' = lines DemoDone.store
    /\ (forall j inventory,
           browse_inventory DemoDone.store (Some j) = Some inventory ->
           browse_inventory s' (Some j)
           = Some (if mem j [1]
                   then Inventory.set_state_date State.done (now Demo.E) inventory
                   else inventory))
    /\ (forall j, In j (open_ids DemoDone.store [1]) ->
                  map Move.vals (move_ids s' j)
                  = map (MoveVals.set_state MoveState.done)
                        (regenerated Demo.E DemoDone.store j)).
Proof.
  apply (action_done_validates Demo.E DemoDone.store [1]).
  - exact demo_done_moves_wf.
  - intros i line [<-|[]] Hline Hlt. cbn in Hline.
    repeat match goal with
           | H : _ \/ _ |- _ => destruct H as [H|H]
           | H : False |- _ => destruct H
           end; subst; discriminate Hlt.
Defined.

Lemma browse_inventories_fields (f : Inventory.t -> Inventory.t) s s' self :
  (forall j, browse_inventory s' (Some j) = option_map f (browse_inventory s (Some j))) ->
  browse_inventories s' self = map f (browse_inventories s self).
Proof.
  intro H. unfold browse_inventories.
  induction self as [|i self IH]; [reflexivity|].
  rewrite !filter_map_cons, H.
  destruct (browse_inventory s (Some i)); cbn [option_map map]; now rewrite IH.
Qed.

Lemma flat_map_map {A B C} (f : A -> B) (g : B -> list C) xs :
  flat_map g (map f xs) = flat_map (fun x => g (f x)) xs.
Proof. induction xs as [|x xs IH]; [reflexivity|]. cbn. now rewrite IH. Qed.

(** The inventories read when the locations are stamped name the locations
    and products they named at the call. *)
Lemma closing_fields E self s s1 :
  inventories s1 = inventories s ->
  flat_map Inventory.location_ids
           (browse_inventories (posted self (done_written E self s1)) self)
  = flat_map Inventory.location_ids (browse_inventories s self)
  /\ flat_map Inventory.product_ids
              (browse_inventories (posted self (done_written E self s1)) self)
     = flat_map Inventory.product_ids (browse_inventories s self).
Proof.
  intro Hi.
  assert (Hb : forall j,
             browse_inventory (posted self (done_written E self s1)) (Some j)
             = option_map
                 (fun x => if mem (Inventory.id x) self
                           then Inventory.set_state_date State.done (now E) x else x)
                 (browse_inventory s (Some j))).
  { intro j.
    change (browse_inventory (posted self (done_written E self s1)) (Some j))
      with (browse_inventory (done_written E self s1) (Some j)).
    unfold done_written. rewrite browse_inventory_map.
    - unfold browse_inventory. now rewrite Hi.
    - intro x. now destruct (mem (Inventory.id x) self). }
  rewrite (browse_inventories_fields _ s _ self Hb), !flat_map_map.
  split; apply flat_map_ext; intro x; now destruct (mem (Inventory.id x) self).
Qed.

(** X3.  A successful [_action_done] on [self] stamps now as the date of
    the last inventory on the internal and transit locations at or below
    the locations that the inventories name, provided the user sees the
    locations and the inventories name no product; it leaves every other
    location, and in the other cases all locations, as they were. *)
Theorem action_done_stamps_locations E s self :
  (forall i line, In i self -> In line (line_ids s i) ->
                  (Line.product_qty line < 0)%Q ->
                  (Line.product_qty line == Line.theoretical_qty line)%Q) ->
  exists s',
    _action_done E self s = (inr true, s')
    /\ Forall2 (stamp_of E s self) (locations s) (locations s').
Proof.
  intro Hneg.
  rewrite (action_done_run E self s (find_negative_none s self Hneg)).
  eexists. split; [reflexivity|].
  destruct (checked_all_frame E (open_ids s self) s) as [_ [Hi Hloc]].
  set (s1 := checked_all E (open_ids s self) s) in *.
  destruct (closing_fields E self s s1 Hi) as [Hlocs Hprods].
  assert (Hstamps : stamps_locations E (posted self (done_written E self s1)) self
                    = stamps_locations E s self).
  { unfold stamps_locations. now rewrite Hlocs, Hprods. }
  unfold stamped. rewrite Hstamps, Hlocs.
  change (locations (posted self (done_written E self s1))) with (locations s1).
  rewrite Hloc. unfold stamp_of.
  destruct (stamps_locations E s self); cbn [andb locations set_locations].
  - apply Forall2_map_r. intros l _.
    now destruct (child_of _ l && Usage.internal_or_transit (Location.usage l)).
  - replace (locations (posted self (done_written E self s1))) with (locations s)
      by (symmetry; exact Hloc).
    rewrite <- (map_id (locations s)) at 2. apply Forall2_map_r. now intros l _.
Qed.

Lemma action_done_stamps_locations_witness :
  exists s',
    _action_done Demo.E [1] DemoDone.store = (inr true, s')
    /\ Forall2 (stamp_of Demo.E DemoDone.store [1])
               (locations DemoDone.store) (locations s').
Proof.
  apply (action_done_stamps_locations Demo.E DemoDone.store [1]).
  intros i line [<-|[]] Hline Hlt. cbn in Hline.
  repeat match goal with
         | H : _ \/ _ |- _ => destruct H as [H|H]
         | H : False |- _ => destruct H
         end; subst; discriminate Hlt.
Defined.

(** The inventory of the stock, validated, stamps the stock and the shelf
    below it. *)
Example action_done_stamps_demo :
  map Location.last_inventory_date
      (locations (snd (_action_done Demo.E [1] DemoDone.store)))
  = [Some 1000; Some 1000].
Proof. reflexivity. Qed.

(** ** [action_validate] *)

(** [_action_done] on one inventory: it closes the inventory, or a
    negative count makes it raise before anything is written. *)
Lemma action_done_single E s i :
  (exists s',
      _action_done E [i] s = (inr true, s')
      /\ (forall line, In line (line_ids s i) -> negative_line line = false)
      /\ forall inventory,
          browse_inventory s (Some i) = Some inventory ->
          browse_inventory s' (Some i)
          = Some (Inventory.set_state_date State.done (now E) inventory))
  \/ _action_done E [i] s = (inl (UserError negative_quantity_message), s).
Proof.
  destruct (find negative_line (flat_map (line_ids s) [i])) as [line|] eqn:Hfind.
  - right. apply find_some in Hfind. destruct Hfind as [Hin Hneg].
    cbn [flat_map] in Hin. rewrite app_nil_r in Hin.
    exact (action_done_negative_run E s [i] i line (or_introl eq_refl) Hin Hneg).
  - left. rewrite (action_done_run E [i] s Hfind). eexists.
    split; [reflexivity|]. split.
    + intros line Hline. apply (find_none _ _ Hfind).
      cbn [flat_map]. rewrite app_nil_r. exact Hline.
    + intros inventory Hb.
      destruct (checked_all_frame E (open_ids s [i]) s) as [_ [Hi _]].
      set (s1 := checked_all E (open_ids s [i]) s) in *.
      assert (Hinv : inventories (stamped E [i] (posted [i] (done_written E [i] s1)))
                     = inventories (done_written E [i] s1)).
      { unfold stamped. now destruct (stamps_locations E _ [i]). }
      unfold browse_inventory at 1. rewrite Hinv.
      change (browse_inventory (done_written E [i] s1) (Some i)
              = Some (Inventory.set_state_date State.done (now E) inventory)).
      rewrite done_written_browse. unfold browse_inventory. rewrite Hi.
      fold (browse_inventory s (Some i)). rewrite Hb. cbn [option_map mem existsb].
      now rewrite Z.eqb_refl.
Qed.

(** What [action_validate] does once the guards and the prompt are
    passed, over a company check that writes nothing. *)
Lemma validate_closing E check s i inventory :
  (forall model ids s0, snd (check model ids s0) = s0) ->
  group_stock_manager E = true ->
  browse_inventory s (Some i) = Some inventory ->
  Inventory.state inventory = State.confirm ->
  asks_confirmation E s i = false ->
  let closed := snd (_action_done E [i] s) in
  (action_validate E check i s = (inr Validated, closed)
   /\ (forall line, In line (line_ids s i) -> negative_line line = false)
   /\ check Model.stock_inventory_line (map Line.id (line_ids closed i)) closed
      = (inr tt, closed)
   /\ check Model.stock_inventory [i] closed = (inr tt, closed)
   /\ browse_inventory closed (Some i)
      = Some (Inventory.set_state_date State.done (now E) inventory))
  \/ (exists e,
        action_validate E check i s = (inl e, closed)
        /\ (check Model.stock_inventory_line (map Line.id (line_ids closed i)) closed
            = (inl e, closed)
            \/ check Model.stock_inventory [i] closed = (inl e, closed))
        /\ browse_inventory closed (Some i)
           = Some (Inventory.set_state_date State.done (now E) inventory))
  \/ (fst (action_validate E check i s) <> inr Validated
      /\ snd (action_validate E check i s) = s).
Proof.
  intros Hread Hmanager Hb Hconfirm Hask. cbv zeta.
  assert (Hrun : forall k : M validate_result,
            action_validate E check i s
            = bind (_action_done E [i])
                (fun _ =>
                   bind get
                     (fun s0 =>
                        bind (check Model.stock_inventory_line
                                    (map Line.id (line_ids s0 i)))
                          (fun _ =>
                             bind (check Model.stock_inventory [i])
                               (fun _ => ret Validated)))) s).
  { intros _. unfold action_validate. unfold bind at 1. unfold get at 1.
    rewrite Hb, Hmanager, Hconfirm. cbn [negb State.eqb].
    unfold asks_confirmation in Hask.
    destruct (filter (untracked_difference E) (line_ids s i)) as [|x xs];
      [reflexivity|].
    destruct (filter (serial_above_one E) (line_ids s i)) as [|y ys];
      [discriminate Hask | reflexivity]. }
  rewrite (Hrun (ret Validated)). clear Hrun. unfold bind, get.
  destruct (action_done_single E s i) as [[s' [Hrun [Hneg Hstate]]]|Hrun];
    rewrite Hrun; cbn [snd].
  - pose proof (Hread Model.stock_inventory_line (map Line.id (line_ids s' i)) s')
      as H1.
    destruct (check Model.stock_inventory_line (map Line.id (line_ids s' i)) s')
      as [[e|[]] s2]; cbn [snd] in H1; subst s2.
    + right; left. exists e. split; [reflexivity|]. split; [now left|].
      exact (Hstate inventory Hb).
    + pose proof (Hread Model.stock_inventory [i] s') as H2.
      destruct (check Model.stock_inventory [i] s') as [[e|[]] s3];
        cbn [snd] in H2; subst s3.
      * right; left. exists e. split; [reflexivity|]. split; [now right|].
        exact (Hstate inventory Hb).
      * left. split; [reflexivity|]. split; [exact Hneg|].
        split; [reflexivity|]. split; [reflexivity|].
        exact (Hstate inventory Hb).
  - right; right. split; [cbn [fst]; discriminate | reflexivity].
Qed.

(** Stopped by a guard or by the prompt, [action_validate] writes
    nothing. *)
Lemma validate_stopped E check s i :
  match browse_inventory s (Some i) with
  | None => True
  | Some inventory =>
      group_stock_manager E = false
      \/ State.eqb (Inventory.state inventory) State.confirm = false
      \/ asks_confirmation E s i = true
  end ->
  fst (action_validate E check i s) <> inr Validated
  /\ snd (action_validate E check i s) = s.
Proof.
  unfold action_validate, bind, get.
  destruct (browse_inventory s (Some i)) as [inventory|];
    [|intros _; split; [cbn [fst ret]; discriminate | reflexivity]].
  destruct (group_stock_manager E); cbn [negb];
    [|intros _; split; [cbn [fst raise]; discriminate | reflexivity]].
  destruct (State.eqb (Inventory.state inventory) State.confirm); cbn [negb];
    [|intros _; split; [cbn [fst raise]; discriminate | reflexivity]].
  unfold asks_confirmation.
  intros [H|[H|H]]; try discriminate H.
  destruct (filter (untracked_difference E) (line_ids s i)) as [|x xs];
    [discriminate H|].
  destruct (filter (serial_above_one E) (line_ids s i)) as [|y ys];
    [|discriminate H].
  split; [cbn [fst ret]; discriminate | reflexivity].
Qed.

(** X4.  [action_validate] writes all or nothing, the closing company
    checks apart, over any company check that itself writes nothing.
    Either it returns [True]: then the user is a stock manager, the
    inventory was in state confirm, none of its lines had a negative
    counted quantity that differs from the theoretical one, both company
    checks passed, and the inventory is now done and dated.  Or a company
    check raised: the error is handed on with the store that
    [_action_done] left, in which the inventory is already done.  Or it
    returns something else (another error, the confirmation wizard,
    nothing) and the store is the one it was called on. *)
Theorem action_validate_outcomes E check s i :
  (forall model ids s0, snd (check model ids s0) = s0) ->
  let closed := snd (_action_done E [i] s) in
  (action_validate E check i s = (inr Validated, closed)
   /\ group_stock_manager E = true
   /\ (forall line, In line (line_ids s i) -> negative_line line = false)
   /\ check Model.stock_inventory_line (map Line.id (line_ids closed i)) closed
      = (inr tt, closed)
   /\ check Model.stock_inventory [i] closed = (inr tt, closed)
   /\ exists inventory,
       browse_inventory s (Some i) = Some inventory
       /\ Inventory.state inventory = State.confirm
       /\ browse_inventory closed (Some i)
          = Some (Inventory.set_state_date State.done (now E) inventory))
  \/ (exists e inventory,
        action_validate E check i s = (inl e, closed)
        /\ (check Model.stock_inventory_line (map Line.id (line_ids closed i)) closed
            = (inl e, closed)
            \/ check Model.stock_inventory [i] closed = (inl e, closed))
        /\ browse_inventory s (Some i) = Some inventory
        /\ Inventory.state inventory = State.confirm
        /\ browse_inventory closed (Some i)
           = Some (Inventory.set_state_date State.done (now E) inventory))
  \/ (fst (action_validate E check i s) <> inr Validated
      /\ snd (action_validate E check i s) = s).
Proof.
  intros Hread. cbv zeta.
  pose proof (validate_stopped E check s i) as Hstop.
  pose proof (validate_closing E check s i) as Hclose.
  destruct (browse_inventory s (Some i)) as [inventory|];
    [|right; right; now apply Hstop].
  destruct (group_stock_manager E) eqn:Hgroup;
    [|right; right; apply Hstop; now left].
  destruct (State.eqb (Inventory.state inventory) State.confirm) eqn:Hst;
    [|right; right; apply Hstop; right; now left].
  destruct (asks_confirmation E s i) eqn:Hask;
    [right; right; apply Hstop; right; now right|].
  assert (Hconfirm : Inventory.state inventory = State.confirm).
  { destruct (Inventory.state inventory); try discriminate Hst. reflexivity. }
  destruct (Hclose inventory Hread eq_refl eq_refl Hconfirm eq_refl)
    as [[Hr [Hneg [Hc1 [Hc2 Hdone]]]]|[[e [Hr [Hc Hdone]]]|Hsame]].
  - left. split; [exact Hr|]. split; [reflexivity|]. split; [exact Hneg|].
    split; [exact Hc1|]. split; [exact Hc2|].
    exists inventory. now split.
  - right; left. exists e, inventory. split; [exact Hr|]. split; [exact Hc|].
    now split.
  - right; right. exact Hsame.
Qed.

Lemma demo_company_check_reads E model ids s0 :
  snd (DemoCompany._check_company E model ids s0) = s0.
Proof.
  unfold DemoCompany._check_company, bind, get.
  now destruct model;
    match goal with |- context [if ?c then _ else _] => destruct c end.
Qed.

Lemma action_validate_outcomes_witness :
  let check := DemoCompany._check_company Demo.E in
  let closed := snd (_action_done Demo.E [1] Demo.store) in
  (action_validate Demo.E check 1 Demo.store = (inr Validated, closed)
   /\ group_stock_manager Demo.E = true
   /\ (forall line, In line (line_ids Demo.store 1) -> negative_line line = false)
   /\ check Model.stock_inventory_line (map Line.id (line_ids closed 1)) closed
      = (inr tt, closed)
   /\ check Model.stock_inventory [1] closed = (inr tt, closed)
   /\ exists inventory,
       browse_inventory Demo.store (Some 1) = Some inventory
       /\ Inventory.state inventory = State.confirm
       /\ browse_inventory closed (Some 1)
          = Some (Inventory.set_state_date State.done (now Demo.E) inventory))
  \/ (exists e inventory,
        action_validate Demo.E check 1 Demo.store = (inl e, closed)
        /\ (check Model.stock_inventory_line (map Line.id (line_ids closed 1)) closed
            = (inl e, closed)
            \/ check Model.stock_inventory [1] closed = (inl e, closed))
        /\ browse_inventory Demo.store (Some 1) = Some inventory
        /\ Inventory.state inventory = State.confirm
        /\ browse_inventory closed (Some 1)
           = Some (Inventory.set_state_date State.done (now Demo.E) inventory))
  \/ (fst (action_validate Demo.E check 1 Demo.store) <> inr Validated
      /\ snd (action_validate Demo.E check 1 Demo.store) = Demo.store).
Proof.
  intro check.
  apply (action_validate_outcomes Demo.E check Demo.store 1).
  intros model ids s0. apply demo_company_check_reads.
Defined.

(** The three outcomes on the demonstration stores: the yearly count is
    validated; the count of the yard of another company is refused by
    the company check once it is done; the count with the typing error
    is refused untouched. *)
Example action_validate_demo :
  let check := DemoCompany._check_company Demo.E in
  fst (action_validate Demo.E check 1 Demo.store) = inr Validated
  /\ map Inventory.state (inventories (snd (action_validate Demo.E check 1 Demo.store)))
     = [State.done]
  /\ fst (action_validate Demo.E check 1 DemoForeign.store)
     = inl (UserError DemoCompany.incompatible_message)
  /\ map Inventory.state
         (inventories (snd (action_validate Demo.E check 1 DemoForeign.store)))
     = [State.done]
  /\ action_validate Demo.E check 1 DemoTypo.store
     = (inl (UserError negative_quantity_message), DemoTypo.store).
Proof. repeat split. Qed.


(** ** Deleting an inventory *)

Lemma unlink_if_draft_or_cancel_run self s :
  _unlink_if_draft_or_cancel self s
  = (if existsb (fun inventory => negb (draft_or_cancel (Inventory.state inventory)))
                (browse_inventories s self)
     then inl (UserError unlink_message) else inr tt, s).
Proof.
  unfold _unlink_if_draft_or_cancel. unfold bind at 1. unfold get at 1.
  apply (for_each_check _ (fun _ inventory =>
                             negb (draft_or_cancel (Inventory.state inventory)))).
  intros inventory s0. now destruct (negb (draft_or_cancel (Inventory.state inventory))).
Qed.

Lemma find_filter_keep {A} (p q : A -> bool) xs :
  (forall x, p x = true -> q x = true) -> find p (filter q xs) = find p xs.
Proof.
  intro H. induction xs as [|x xs IH]; [reflexivity|].
  cbn [filter find]. destruct (q x) eqn:Hq.
  - cbn [find]. destruct (p x); [reflexivity|exact IH].
  - destruct (p x) eqn:Hp; [|exact IH]. rewrite (H x Hp) in Hq. discriminate.
Qed.

Lemma find_filter_drop {A} (p q : A -> bool) xs :
  (forall x, p x = true -> q x = false) -> find p (filter q xs) = None.
Proof.
  intro H. induction xs as [|x xs IH]; [reflexivity|].
  cbn [filter]. destruct (q x) eqn:Hq; [|exact IH].
  cbn [find]. destruct (p x) eqn:Hp; [|exact IH]. rewrite (H x Hp) in Hq. discriminate.
Qed.

Lemma filter_filter_drop {A} (P Q : A -> bool) xs :
  (forall x, In x xs -> P x = true -> Q x = false) -> filter P (filter Q xs) = [].
Proof.
  intro H. apply filter_none. intros x Hx. apply filter_In in Hx.
  destruct Hx as [Hin Hq]. destruct (P x) eqn:Hp; [|reflexivity].
  rewrite (H x Hin Hp) in Hq. discriminate.
Qed.

(** The ids of the records of [self] that exist. *)
Lemma browse_inventories_mem s self j :
  mem j (map Inventory.id (browse_inventories s self))
  = mem j self && is_some (browse_inventory s (Some j)).
Proof.
  apply eq_true_iff_eq. rewrite andb_true_iff, !mem_In, in_map_iff. split.
  - intros [x [<- Hx]]. apply filter_map_In in Hx. destruct Hx as [i [Hi Hb]].
    rewrite (browse_inventory_id _ _ _ Hb). split; [exact Hi|]. now rewrite Hb.
  - intros [Hj Hb]. destruct (browse_inventory s (Some j)) as [x|] eqn:Hx; [|discriminate].
    exists x. split; [now apply (browse_inventory_id s)|].
    apply filter_map_In. now exists j.
Qed.

(** X5.  Deleting inventories is all or nothing.  Either one of them is
    neither draft nor cancelled, and [unlink] raises the user error with
    the store as it was; or all are draft or cancelled, and [unlink]
    returns [True], the records of [self] are gone with all their lines,
    and every other inventory and every other line is as it was. *)
Theorem unlink_all_or_nothing self s :
  (fst (unlink self s) = inl (UserError unlink_message)
   /\ snd (unlink self s) = s
   /\ exists inventory,
       In inventory (browse_inventories s self)
       /\ draft_or_cancel (Inventory.state inventory) = false)
  \/ (fst (unlink self s) = inr true
      /\ (forall inventory, In inventory (browse_inventories s self) ->
                            draft_or_cancel (Inventory.state inventory) = true)
      /\ (forall j, browse_inventory (snd (unlink self s)) (Some j)
                    = if mem j self then None else browse_inventory s (Some j))
      /\ (forall j, line_ids (snd (unlink self s)) j
                    = if mem j self && is_some (browse_inventory s (Some j))
                      then [] else line_ids s j)
      /\ (forall l, In l (lines s) -> Line.inventory_id l = None ->
                    In l (lines (snd (unlink self s))))).
Proof.
  unfold unlink, bind. rewrite unlink_if_draft_or_cancel_run.
  destruct (existsb _ (browse_inventories s self)) eqn:Hbad.
  - left. split; [reflexivity|]. split; [reflexivity|].
    apply existsb_exists in Hbad. destruct Hbad as [x [Hx Hst]].
    exists x. split; [exact Hx|]. now destruct (draft_or_cancel (Inventory.state x)).
  - right. cbn [get fst snd inventory_unlink modify ret].
    split; [reflexivity|]. split.
    { intros x Hx. rewrite existsb_false in Hbad. specialize (Hbad x Hx).
      now destruct (draft_or_cancel (Inventory.state x)). }
    split; [|split].
    + intro j. cbn [browse_inventory inventories set_inventories set_lines].
      pose proof (browse_inventories_mem s self j) as Hmem.
      destruct (mem j (map Inventory.id (browse_inventories s self))) eqn:Hj.
      * symmetry in Hmem. apply andb_true_iff in Hmem. destruct Hmem as [-> _].
        apply find_filter_drop. intros x Hx. apply Z.eqb_eq in Hx. now rewrite Hx, Hj.
      * rewrite find_filter_keep
          by (intros x Hx; apply Z.eqb_eq in Hx; now rewrite Hx, Hj).
        destruct (mem j self); [|reflexivity].
        cbn [andb] in Hmem. unfold browse_inventory in Hmem.
        now destruct (find _ (inventories s)).
    + intro j. unfold line_ids at 1. cbn [lines set_lines set_inventories].
      rewrite <- browse_inventories_mem.
      destruct (mem j (map Inventory.id (browse_inventories s self))) eqn:Hj.
      * apply filter_filter_drop. intros l _ Hl. apply many2one_eqb_eq in Hl.
        now rewrite Hl, Hj.
      * apply filter_filter_keep. intros l _ Hl. apply many2one_eqb_eq in Hl.
        now rewrite Hl, Hj.
    + intros l Hl Hnone. cbn [lines set_lines set_inventories].
      apply filter_In. split; [exact Hl|]. now rewrite Hnone.
Qed.

(** The validated demonstration inventory cannot be deleted; the one in
    progress cannot either. *)
Example unlink_demo :
  unlink [1] DemoReset.store = (inl (UserError unlink_message), DemoReset.store)
  /\ unlink [1] Demo.store = (inl (UserError unlink_message), Demo.store)
  /\ fst (unlink [1] DemoStart.store) = inr true
  /\ inventories (snd (unlink [1] DemoStart.store)) = [].
Proof. repeat split; reflexivity. Qed.

(** ** Back to draft *)

Lemma line_unlink_ids s self j :
  NoDup (map Line.id (lines s)) ->
  line_ids (snd (line_unlink (flat_map (line_ids s) self) s)) j
  = if mem j self then [] else line_ids s j.
Proof.
  intro Hnd. unfold line_ids at 1. cbn [line_unlink modify snd lines set_lines].
  destruct (mem j self) eqn:Hj.
  - apply filter_filter_drop. intros l Hin Hl.
    apply negb_false_iff, mem_In, in_map, in_flat_map.
    exists j. split; [now apply mem_In|]. apply filter_In. now split.
  - apply filter_filter_keep. intros l Hin Hl.
    apply negb_true_iff. destruct (mem (Line.id l) _) eqn:Hdel; [|reflexivity].
    exfalso. apply mem_In, in_map_iff in Hdel. destruct Hdel as [l' [Hid Hl']].
    apply in_flat_map in Hl'. destruct Hl' as [j' [Hj' Hl']].
    apply filter_In in Hl'. destruct Hl' as [Hin' Hinv'].
    assert (l' = l) by (now apply (same_id_same_line (lines s))). subst l'.
    apply many2one_eqb_eq in Hl, Hinv'. rewrite Hl in Hinv'. inversion Hinv'; subst j'.
    apply mem_In in Hj'. congruence.
Qed.

Lemma inventory_write_state_browse self st s j :
  browse_inventory (snd (inventory_write_state self st s)) (Some j)
  = option_map (fun x => if mem j self
                         then Inventory.set_state_date st (Inventory.date x) x else x)
               (browse_inventory s (Some j)).
Proof.
  cbn [inventory_write_state modify snd]. rewrite browse_inventory_map.
  - destruct (browse_inventory s (Some j)) as [x|] eqn:Hb; [|reflexivity].
    cbn [option_map]. now rewrite (browse_inventory_id _ _ _ Hb).
  - intro x. now destruct (mem (Inventory.id x) self).
Qed.

(** X6.  [action_cancel_draft] over any ledger.  When the ledger refuses
    to cancel the moves of the inventories, the error is handed on and
    nothing more is written: no line is deleted, no state reset.  When it
    cancels them, every inventory of [self] is in state draft, its other
    fields untouched, and has no line left; the other inventories keep
    their state and their lines, and the moves are as the ledger left
    them. *)
Theorem action_cancel_draft_resets (cancel : list Move.t -> M unit) self s :
  NoDup (map Line.id (lines (snd (cancel (flat_map (move_ids s) self) s)))) ->
  match fst (cancel (flat_map (move_ids s) self) s) with
  | inl e =>
      action_cancel_draft cancel self s
      = (inl e, snd (cancel (flat_map (move_ids s) self) s))
  | inr _ =>
      exists s',
        action_cancel_draft cancel self s = (inr tt, s')
        /\ moves s' = moves (snd (cancel (flat_map (move_ids s) self) s))
        /\ locations s' = locations (snd (cancel (flat_map (move_ids s) self) s))
        /\ (forall j,
               browse_inventory s' (Some j)
               = option_map
                   (fun x => if mem j self
                             then Inventory.set_state_date State.draft (Inventory.date x) x
                             else x)
                   (browse_inventory (snd (cancel (flat_map (move_ids s) self) s)) (Some j)))
        /\ (forall j,
               line_ids s' j
               = if mem j self then []
                 else line_ids (snd (cancel (flat_map (move_ids s) self) s)) j)
  end.
Proof.
  intro Hnd. unfold action_cancel_draft, bind, get.
  destruct (cancel (flat_map (move_ids s) self) s) as [[e|[]] s1]; cbn [fst snd] in *;
    [reflexivity|].
  cbn [line_unlink modify].
  eexists. split; [reflexivity|].
  split; [reflexivity|]. split; [reflexivity|]. split.
  - intro j.
    match goal with
    | |- browse_inventory ?st _ = _ =>
        change st with (snd (inventory_write_state self State.draft
                               (snd (line_unlink (flat_map (line_ids s1) self) s1))))
    end.
    now rewrite inventory_write_state_browse.
  - intro j.
    match goal with
    | |- line_ids ?st _ = _ =>
        change (line_ids st j)
          with (line_ids (snd (line_unlink (flat_map (line_ids s1) self) s1)) j)
    end.
    now apply line_unlink_ids.
Qed.

Lemma action_cancel_draft_resets_witness :
  match fst (DemoLedger.cancel_moves (flat_map (move_ids DemoLedger.checked_store) [1]) DemoLedger.checked_store) with
  | inl e =>
      action_cancel_draft DemoLedger.cancel_moves [1] DemoLedger.checked_store
      = (inl e, snd (DemoLedger.cancel_moves (flat_map (move_ids DemoLedger.checked_store) [1])
                                             DemoLedger.checked_store))
  | inr _ =>
      exists s',
        action_cancel_draft DemoLedger.cancel_moves [1] DemoLedger.checked_store = (inr tt, s')
        /\ moves s' = moves (snd (DemoLedger.cancel_moves
                                    (flat_map (move_ids DemoLedger.checked_store) [1]) DemoLedger.checked_store))
        /\ locations s' = locations (snd (DemoLedger.cancel_moves
                                            (flat_map (move_ids DemoLedger.checked_store) [1])
                                            DemoLedger.checked_store))
        /\ (forall j,
               browse_inventory s' (Some j)
               = option_map
                   (fun x => if mem j [1]
                             then Inventory.set_state_date State.draft (Inventory.date x) x
                             else x)
                   (browse_inventory
                      (snd (DemoLedger.cancel_moves (flat_map (move_ids DemoLedger.checked_store) [1])
                                                    DemoLedger.checked_store)) (Some j)))
        /\ (forall j,
               line_ids s' j
               = if mem j [1] then []
                 else line_ids (snd (DemoLedger.cancel_moves
                                       (flat_map (move_ids DemoLedger.checked_store) [1])
                                       DemoLedger.checked_store)) j)
  end.
Proof.
  apply (action_cancel_draft_resets DemoLedger.cancel_moves [1] DemoLedger.checked_store).
  vm_compute. repeat constructor; cbn; intuition lia.
Defined.

(** On the checked store the ledger cancels the two moves of the
    inventory in progress and leaves the move of the other inventory;
    the three lines are deleted and the inventory is a draft again. *)
Example action_cancel_draft_checked_demo :
  let s' := snd (action_cancel_draft DemoLedger.cancel_moves [1]
                                     DemoLedger.checked_store) in
  fst (action_cancel_draft DemoLedger.cancel_moves [1] DemoLedger.checked_store)
  = inr tt
  /\ map (fun m => MoveVals.state (Move.vals m)) (moves s')
     = [MoveState.confirmed; MoveState.cancel; MoveState.cancel]
  /\ lines s' = []
  /\ map Inventory.state (inventories s') = [State.draft].
Proof. repeat split; reflexivity. Qed.

(** The inventory in progress is sent back to draft: its three lines
    are gone; with a ledger that refuses, they all stay. *)
Example action_cancel_draft_demo :
  let s' := snd (action_cancel_draft DemoLedger.cancel_moves [1] Demo.store) in
  lines s' = [] /\ map Inventory.state (inventories s') = [State.draft]
  /\ action_cancel_draft (fun _ => raise (UserError "refused")) [1] Demo.store
     = (inl (UserError "refused"), Demo.store).
Proof. repeat split; reflexivity. Qed.


(** ** What a cyclic run deletes and what it leaves *)

Lemma superseded_draft E s locations x :
  superseded E s locations x = true ->
  Inventory.state x = State.draft /\ exists loc, Inventory.location_ids x = [loc].
Proof.
  unfold superseded. intro H.
  destruct (Inventory.location_ids x) as [|loc [|loc' rest]]; try discriminate H.
  destruct (browse_location s loc); [|discriminate H].
  apply andb_true_iff in H. destruct H as [H _].
  split; [|now exists loc].
  destruct (Inventory.state x); try discriminate H. reflexivity.
Qed.

Lemma existing_loc_invs_spec s x :
  In x (existing_loc_invs s)
  <-> In x (inventories s)
      /\ (Inventory.state x = State.draft \/ Inventory.state x = State.confirm)
      /\ Inventory.product_ids x = []
      /\ Inventory.location_ids x <> [].
Proof.
  unfold existing_loc_invs. rewrite filter_In, !andb_true_iff. split.
  - intros [Hin [[Hst Hprod] Hloc]]. split; [exact Hin|]. split; [|split].
    + destruct (Inventory.state x); try discriminate Hst; auto.
    + now destruct (Inventory.product_ids x).
    + intro Hnil. rewrite Hnil in Hloc. discriminate Hloc.
  - intros [Hin [Hst [Hprod Hloc]]]. split; [exact Hin|]. split; [split|].
    + destruct Hst as [-> | ->]; reflexivity.
    + now rewrite Hprod.
    + destruct (Inventory.location_ids x); [now destruct Hloc | reflexivity].
Qed.

Lemma cyclic_deleted_spec E s company_id x :
  In x (cyclic_deleted E s company_id) ->
  In x (inventories s)
  /\ Inventory.state x = State.draft
  /\ Inventory.product_ids x = []
  /\ exists loc, Inventory.location_ids x = [loc].
Proof.
  unfold cyclic_deleted. intro H. apply filter_In in H. destruct H as [Hex Hsup].
  apply existing_loc_invs_spec in Hex. destruct Hex as [Hin [_ [Hprod _]]].
  destruct (superseded_draft _ _ _ _ Hsup) as [Hst Hloc]. auto.
Qed.

Lemma same_id_same_inventory (xs : list Inventory.t) a b :
  NoDup (map Inventory.id xs) -> In a xs -> In b xs ->
  Inventory.id a = Inventory.id b -> a = b.
Proof.
  induction xs as [|x xs IH]; intros Hnd Ha Hb Hid; [destruct Ha|].
  cbn [map] in Hnd. inversion Hnd as [|? ? Hx Hxs]; subst.
  destruct Ha as [<-|Ha], Hb as [<-|Hb]; auto.
  - exfalso. apply Hx. rewrite Hid. now apply in_map.
  - exfalso. apply Hx. rewrite <- Hid. now apply in_map.
Qed.

Lemma browse_inventory_NoDup s x :
  NoDup (map Inventory.id (inventories s)) -> In x (inventories s) ->
  browse_inventory s (Some (Inventory.id x)) = Some x.
Proof.
  intros Hnd Hx. cbn [browse_inventory].
  destruct (find (fun r => Inventory.id r =? Inventory.id x) (inventories s))
    as [y|] eqn:Hf.
  - apply find_some in Hf. destruct Hf as [Hy Hid]. apply Z.eqb_eq in Hid.
    f_equal. now apply (same_id_same_inventory (inventories s)).
  - pose proof (find_none _ _ Hf x Hx) as Hno. cbn in Hno.
    rewrite Z.eqb_refl in Hno. discriminate.
Qed.

Lemma browse_inventories_self s xs :
  NoDup (map Inventory.id (inventories s)) ->
  (forall x, In x xs -> In x (inventories s)) ->
  browse_inventories s (map Inventory.id xs) = xs.
Proof.
  intros Hnd. unfold browse_inventories.
  induction xs as [|x xs IH]; intro Hall; [reflexivity|].
  cbn [map]. rewrite filter_map_cons.
  rewrite (browse_inventory_NoDup s x Hnd (Hall x (or_introl eq_refl))).
  f_equal. apply IH. intros y Hy. apply Hall. now right.
Qed.

Lemma NoDup_map_filter {A B} (f : A -> B) (g : A -> bool) xs :
  NoDup (map f xs) -> NoDup (map f (filter g xs)).
Proof.
  induction xs as [|x xs IH]; intro H; [constructor|].
  cbn [map] in H. inversion H as [|? ? Hx Hxs]; subst.
  cbn [filter]. destruct (g x); [|now apply IH].
  cbn [map]. constructor; [|now apply IH].
  intro Hin. apply Hx. apply in_map_iff in Hin. destruct Hin as [y [Hy Hin]].
  apply filter_In in Hin. destruct Hin as [Hin _].
  rewrite <- Hy. now apply in_map.
Qed.

(** The inventories a run creates, location by location. *)
Lemma create_cyclic_inventories_fresh E ls : forall s0,
  Forall (fun l => is_some (Location.company_id l) = true) ls ->
  exists s1 news,
    for_each ls (create_cyclic_inventory E) s0 = (inr tt, s1)
    /\ inventories s1 = inventories s0 ++ news
    /\ lines s1 = lines s0 /\ moves s1 = moves s0 /\ locations s1 = locations s0
    /\ Forall (fun x => inventory_seq s0 <= Inventory.id x) news
    /\ Forall2 (fun l x => in_progress_for (Location.id l) x
                           /\ Inventory.state x = State.draft
                           /\ Some (Inventory.company_id x) = Location.company_id l
                           /\ Inventory.create_date x = now E)
               ls news
    /\ (inventories_wf s0 -> inventories_wf s1).
Proof.
  induction ls as [|l ls IH]; intros s0 Hall.
  - exists s0, []. cbn [for_each]. rewrite app_nil_r.
    split; [reflexivity|]. split; [reflexivity|]. split; [reflexivity|].
    split; [reflexivity|]. split; [reflexivity|]. split; [constructor|].
    split; [constructor | auto].
  - inversion Hall as [|? ? Hl Hls]; subst.
    destruct (Location.company_id l) as [company|] eqn:Hc; [|discriminate Hl].
    cbn [for_each]. unfold bind.
    rewrite (create_cyclic_inventory_run E l company s0 Hc).
    match goal with
    | |- context [for_each ls _ ?s'] =>
        destruct (IH s' Hls)
          as [s1 [news [Hrun [Hinv [Hlines [Hmoves [Hlocs [Hseq [Hnew Hwf]]]]]]]]]
    end.
    rewrite Hrun. eexists s1, (_ :: news). split; [reflexivity|].
    cbn [inventories lines moves locations inventory_seq] in Hinv, Hlines, Hmoves, Hlocs, Hseq.
    rewrite Hinv, <- app_assoc. cbn [app].
    split; [reflexivity|]. split; [exact Hlines|]. split; [exact Hmoves|].
    split; [exact Hlocs|]. split.
    { constructor; [cbn; lia|].
      eapply Forall_impl; [|exact Hseq]. cbn beta. intros; lia. }
    split.
    { constructor; [|exact Hnew].
      unfold in_progress_for. cbn. rewrite Hc. auto. }
    intros [Hnd Hbelow]. apply Hwf. split; cbn [inventories inventory_seq].
    + rewrite map_app. apply NoDup_app; [exact Hnd | repeat constructor; intros [] |].
      intros j Hj [<-|[]]. apply in_map_iff in Hj. destruct Hj as [x [Hid Hx]].
      rewrite Forall_forall in Hbelow. specialize (Hbelow x Hx). cbn in Hid. lia.
    + apply Forall_app. split.
      * eapply Forall_impl; [|exact Hbelow]. cbn beta. intros; lia.
      * repeat constructor. cbn. lia.
Qed.

Lemma superseded_none E s x : superseded E s [] x = false.
Proof.
  unfold superseded.
  destruct (Inventory.location_ids x) as [|loc [|loc' rest]]; try reflexivity.
  destruct (browse_location s loc) as [l|]; [|reflexivity].
  cbn [map mem existsb andb orb]. unfold has_ancestor_in.
  assert (H : existsb (fun location_id => mem location_id []) (ancestor_ids l) = false).
  { apply existsb_false. intros; reflexivity. }
  rewrite H. apply andb_false_r.
Qed.

(** The store that [_run_inventory_tasks] hands to the conflict pass. *)
Lemma cyclic_run E conflict_tasks s company_id :
  exists s1 news,
    _run_inventory_tasks E conflict_tasks company_id s = conflict_tasks company_id s1
    /\ inventories s1
       = filter (fun i => negb (mem (Inventory.id i)
                                    (map Inventory.id (cyclic_deleted E s company_id))))
                (inventories s) ++ news
    /\ lines s1
       = filter (fun l => match Line.inventory_id l with
                          | Some i => negb (mem i (map Inventory.id
                                                       (cyclic_deleted E s company_id)))
                          | None => true
                          end) (lines s)
    /\ moves s1 = moves s /\ locations s1 = locations s
    /\ Forall (fun x => inventory_seq s <= Inventory.id x) news
    /\ Forall2 (fun l x => in_progress_for (Location.id l) x
                           /\ Inventory.state x = State.draft
                           /\ Some (Inventory.company_id x) = Location.company_id l
                           /\ Inventory.create_date x = now E)
               (locations_to_inventory E s company_id) news
    /\ (inventories_wf s -> inventories_wf s1).
Proof.
  unfold _run_inventory_tasks, bind, get.
  destruct (is_set (due_locations E s company_id)) eqn:Hset; cbn [when_].
  - unfold bind, inventory_unlink, modify.
    match goal with
    | |- context [for_each ?ls _ ?s0] =>
        destruct (create_cyclic_inventories_fresh E ls s0)
          as [s1 [news [Hrun [Hinv [Hlines [Hmoves [Hlocs [Hseq [Hnew Hwf]]]]]]]]]
    end.
    { apply Forall_forall. intros l Hl.
      apply filter_In in Hl. destruct Hl as [Hl _].
      unfold without_descendants in Hl. apply filter_In in Hl. destruct Hl as [Hl _].
      now apply (due_locations_company E s company_id). }
    rewrite Hrun. exists s1, news. split; [reflexivity|].
    split; [exact Hinv|]. split; [exact Hlines|]. split; [exact Hmoves|].
    split; [exact Hlocs|]. split; [exact Hseq|]. split; [exact Hnew|].
    intros [Hnd Hbelow]. apply Hwf. split; cbn [inventories inventory_seq set_lines
                                                set_inventories].
    + now apply NoDup_map_filter.
    + apply Forall_forall. intros x Hx. apply filter_In in Hx. destruct Hx as [Hx _].
      rewrite Forall_forall in Hbelow. now apply Hbelow.
  - exists s, []. unfold ret.
    assert (Hdue : due_locations E s company_id = [])
      by (destruct (due_locations E s company_id); [reflexivity | discriminate Hset]).
    assert (Hdel : cyclic_deleted E s company_id = []).
    { unfold cyclic_deleted. rewrite Hdue. apply filter_none.
      intros x _. apply superseded_none. }
    rewrite Hdel. cbn [map mem existsb negb].
    split; [reflexivity|]. split.
    { rewrite app_nil_r. symmetry. now apply filter_all. }
    split.
    { symmetry. apply filter_all. intros l _. now destruct (Line.inventory_id l). }
    split; [reflexivity|]. split; [reflexivity|]. split; [constructor|].
    split; [|auto].
    unfold locations_to_inventory. rewrite Hdue. constructor.
Qed.

Lemma Forall2_In_l {A B} (R : A -> B -> Prop) xs ys x :
  Forall2 R xs ys -> In x xs -> exists y, In y ys /\ R x y.
Proof.
  induction 1 as [|x0 y0 xs ys Hxy _ IH]; intro Hx; [destruct Hx|].
  destruct Hx as [<-|Hx].
  - exists y0. split; [now left | exact Hxy].
  - destruct (IH Hx) as [y [Hy HR]]. exists y. split; [now right | exact HR].
Qed.

Lemma cyclic_deleted_mem E s company_id x :
  NoDup (map Inventory.id (inventories s)) -> In x (inventories s) ->
  mem (Inventory.id x) (map Inventory.id (cyclic_deleted E s company_id)) = true
  <-> In x (cyclic_deleted E s company_id).
Proof.
  intros Hnd Hx. rewrite mem_In, in_map_iff. split.
  - intros [d [Hid Hd]].
    destruct (cyclic_deleted_spec _ _ _ _ Hd) as [Hin _].
    assert (d = x) by (now apply (same_id_same_inventory (inventories s))).
    now subst d.
  - intro Hd. now exists x.
Qed.

Lemma cyclic_run_kept E conflict_tasks s company_id :
  inventories_wf s ->
  exists s1,
    _run_inventory_tasks E conflict_tasks company_id s = conflict_tasks company_id s1
    /\ (forall x, In x (inventories s) -> ~ In x (inventories s1) ->
                  Inventory.state x = State.draft
                  /\ Inventory.product_ids x = []
                  /\ exists loc, Inventory.location_ids x = [loc])
    /\ (forall x, In x (inventories s) -> In x (inventories s1) ->
                  line_ids s1 (Inventory.id x) = line_ids s (Inventory.id x))
    /\ moves s1 = moves s
    /\ locations s1 = locations s.
Proof.
  intros [Hnd Hbelow].
  destruct (cyclic_run E conflict_tasks s company_id)
    as [s1 [news [Hrun [Hinv [Hlines [Hmoves [Hlocs [Hseq [Hnew _]]]]]]]]].
  exists s1. split; [exact Hrun|]. split; [|split; [|split; assumption]].
  - intros x Hx Hgone.
    destruct (mem (Inventory.id x) (map Inventory.id (cyclic_deleted E s company_id)))
      eqn:Hdel.
    + apply (cyclic_deleted_mem E s company_id x Hnd Hx) in Hdel.
      now destruct (cyclic_deleted_spec _ _ _ _ Hdel) as [_ Hrest].
    + exfalso. apply Hgone. rewrite Hinv. apply in_or_app. left.
      apply filter_In. split; [exact Hx|]. now rewrite Hdel.
  - intros x Hx Hkept.
    assert (Hdel : mem (Inventory.id x)
                       (map Inventory.id (cyclic_deleted E s company_id)) = false).
    { rewrite Hinv in Hkept. apply in_app_or in Hkept. destruct Hkept as [Hkept|Hfresh].
      - apply filter_In in Hkept. destruct Hkept as [_ Hkept].
        now apply negb_true_iff in Hkept.
      - exfalso. rewrite Forall_forall in Hseq, Hbelow.
        specialize (Hseq x Hfresh). specialize (Hbelow x Hx). lia. }
    unfold line_ids. rewrite Hlines. apply filter_filter_keep.
    intros l _ Hl. apply many2one_eqb_eq in Hl. now rewrite Hl, Hdel.
Qed.

(** X7.  A cyclic run deletes nothing but draft inventories that name one
    location and no product: with [s1] the store that the run hands to
    the conflict pass, an inventory of [s] that is missing in [s1] is such
    a draft, every inventory that is left is as it was and keeps its
    lines, and the moves and the locations are untouched. *)
Theorem cyclic_run_deletes_drafts_only E conflict_tasks s company_id :
  inventories_wf s ->
  exists s1,
    _run_inventory_tasks E conflict_tasks company_id s = conflict_tasks company_id s1
    /\ (forall x, In x (inventories s) -> ~ In x (inventories s1) ->
                  Inventory.state x = State.draft
                  /\ Inventory.product_ids x = []
                  /\ exists loc, Inventory.location_ids x = [loc])
    /\ (forall x, In x (inventories s) -> In x (inventories s1) ->
                  line_ids s1 (Inventory.id x) = line_ids s (Inventory.id x))
    /\ moves s1 = moves s
    /\ locations s1 = locations s.
Proof. apply cyclic_run_kept. Qed.

Lemma demo_cyclic_inventories_wf : inventories_wf DemoCyclic.store.
Proof. split; cbn; repeat constructor; cbn; intuition lia. Qed.

Lemma demo_stale_inventories_wf : inventories_wf DemoStale.store.
Proof. split; cbn; repeat constructor; cbn; intuition lia. Qed.

(** On the store with the four older inventories the run deletes the
    draft of the shelf, with its line, and the draft of the stock; it
    leaves the count of the dock with its line and the draft that names
    two locations, and creates a fresh inventory for the stock only. *)
Example cyclic_run_stale_demo :
  let s1 := snd (_run_inventory_tasks Demo.E (fun _ => ret tt) None DemoStale.store) in
  map Inventory.id (cyclic_deleted Demo.E DemoStale.store None) = [1; 2]
  /\ map Inventory.id (inventories s1) = [3; 4; 5]
  /\ map Inventory.location_ids (inventories s1) = [[23]; [21; 23]; [21]]
  /\ lines s1 = [DemoStale.dock_line].
Proof. repeat split; reflexivity. Qed.

Lemma cyclic_run_deletes_drafts_only_witness :
  exists s1,
    _run_inventory_tasks Demo.E (fun _ => ret tt) None DemoStale.store
    = (fun _ : many2one => ret tt) None s1
    /\ (forall x, In x (inventories DemoStale.store) -> ~ In x (inventories s1) ->
                  Inventory.state x = State.draft
                  /\ Inventory.product_ids x = []
                  /\ exists loc, Inventory.location_ids x = [loc])
    /\ (forall x, In x (inventories DemoStale.store) -> In x (inventories s1) ->
                  line_ids s1 (Inventory.id x) = line_ids DemoStale.store (Inventory.id x))
    /\ moves s1 = moves DemoStale.store
    /\ locations s1 = locations DemoStale.store.
Proof.
  apply (cyclic_run_deletes_drafts_only Demo.E (fun _ => ret tt) DemoStale.store None).
  exact demo_stale_inventories_wf.
Defined.

(** X8.  The deletion of a cyclic run never trips the ondelete guard:
    [unlink] on the superseded inventories returns [True] and leaves the
    store that the run goes on with. *)
Theorem cyclic_run_unlink_allowed E s company_id :
  inventories_wf s ->
  unlink (map Inventory.id (cyclic_deleted E s company_id)) s
  = (inr true, snd (inventory_unlink (cyclic_deleted E s company_id) s)).
Proof.
  intros [Hnd _].
  assert (Hself : browse_inventories s (map Inventory.id (cyclic_deleted E s company_id))
                  = cyclic_deleted E s company_id).
  { apply browse_inventories_self; [exact Hnd|].
    intros x Hx. now destruct (cyclic_deleted_spec _ _ _ _ Hx). }
  unfold unlink, bind. rewrite unlink_if_draft_or_cancel_run, Hself.
  assert (Hok : existsb (fun inventory => negb (draft_or_cancel (Inventory.state inventory)))
                        (cyclic_deleted E s company_id) = false).
  { apply existsb_false. intros x Hx.
    destruct (cyclic_deleted_spec _ _ _ _ Hx) as [_ [Hst _]]. now rewrite Hst. }
  rewrite Hok. cbn [get]. rewrite Hself. reflexivity.
Qed.

Lemma cyclic_run_unlink_allowed_witness :
  unlink (map Inventory.id (cyclic_deleted Demo.E DemoStale.store None)) DemoStale.store
  = (inr true,
     snd (inventory_unlink (cyclic_deleted Demo.E DemoStale.store None) DemoStale.store)).
Proof.
  apply (cyclic_run_unlink_allowed Demo.E DemoStale.store None).
  exact demo_stale_inventories_wf.
Defined.

Lemma still_cyclic_or_superseded E s locs x l :
  Inventory.location_ids x = [Location.id l] ->
  mem (Location.id l) (map Location.id locs) = true ->
  superseded E s locs x = true \/ still_cyclic E s locs x = true.
Proof.
  intros Hloc Hmem. unfold still_cyclic. rewrite Hloc, Hmem.
  destruct (superseded E s locs x); [now left | now right].
Qed.

(** X9.  No duplicate coverage: a location that gets a fresh inventory in
    a cyclic run has, among the inventories that the run leaves, none in
    progress (draft or confirmed, without product filter) that is
    specific to it. *)
Theorem cyclic_run_no_duplicate_coverage E conflict_tasks s company_id :
  exists s1 kept news,
    _run_inventory_tasks E conflict_tasks company_id s = conflict_tasks company_id s1
    /\ inventories s1 = kept ++ news
    /\ (forall x, In x kept -> In x (inventories s))
    /\ Forall2 (fun l x => in_progress_for (Location.id l) x)
               (locations_to_inventory E s company_id) news
    /\ (forall l x, In l (locations_to_inventory E s company_id) -> In x kept ->
                    ~ in_progress_for (Location.id l) x).
Proof.
  destruct (cyclic_run E conflict_tasks s company_id)
    as [s1 [news [Hrun [Hinv [_ [_ [_ [_ [Hnew _]]]]]]]]].
  exists s1. eexists. exists news. split; [exact Hrun|]. split; [exact Hinv|].
  split; [|split].
  - intros x Hx. apply filter_In in Hx. tauto.
  - eapply Forall2_impl; [|exact Hnew]. cbn beta. tauto.
  - intros l x Hl Hx [Hloc [Hprod Hst]].
    apply filter_In in Hx. destruct Hx as [Hx Hkept].
    apply negb_true_iff in Hkept.
    assert (Hex : In x (existing_loc_invs s)).
    { apply existing_loc_invs_spec. split; [exact Hx|]. split; [exact Hst|].
      split; [exact Hprod|]. rewrite Hloc. discriminate. }
    unfold locations_to_inventory in Hl. apply filter_In in Hl.
    destruct Hl as [Htop Hfree]. apply negb_true_iff in Hfree.
    assert (Hmem : mem (Location.id l)
                       (map Location.id (without_descendants (due_locations E s company_id)))
                   = true) by (apply mem_In; now apply in_map).
    destruct (still_cyclic_or_superseded E s _ x l Hloc Hmem) as [Hsup|Hcyc].
    + assert (Hdel : mem (Inventory.id x)
                         (map Inventory.id (cyclic_deleted E s company_id)) = true).
      { apply mem_In, in_map. unfold cyclic_deleted. apply filter_In. now split. }
      congruence.
    + assert (Hin : mem (Location.id l)
                        (flat_map Inventory.location_ids
                           (filter (still_cyclic E s
                                      (without_descendants (due_locations E s company_id)))
                                   (existing_loc_invs s))) = true).
      { apply mem_In, in_flat_map. exists x. split.
        - apply filter_In. now split.
        - rewrite Hloc. now left. }
      congruence.
Qed.

(** X10.  Coverage: after a cyclic run every due location that has no due
    ancestor has an inventory in progress that is specific to it, one
    that was there and is left, or a fresh one. *)
Theorem cyclic_run_covers_top_locations E conflict_tasks s company_id :
  inventories_wf s ->
  exists s1,
    _run_inventory_tasks E conflict_tasks company_id s = conflict_tasks company_id s1
    /\ forall l, In l (without_descendants (due_locations E s company_id)) ->
                 exists x, In x (inventories s1) /\ in_progress_for (Location.id l) x.
Proof.
  intros [Hnd _].
  destruct (cyclic_run E conflict_tasks s company_id)
    as [s1 [news [Hrun [Hinv [_ [_ [_ [_ [Hnew _]]]]]]]]].
  exists s1. split; [exact Hrun|]. intros l Hl.
  destruct (mem (Location.id l)
                (flat_map Inventory.location_ids
                   (filter (still_cyclic E s
                              (without_descendants (due_locations E s company_id)))
                           (existing_loc_invs s)))) eqn:Hcov.
  - apply mem_In, in_flat_map in Hcov. destruct Hcov as [x [Hx Hloc]].
    apply filter_In in Hx. destruct Hx as [Hex Hcyc].
    apply existing_loc_invs_spec in Hex. destruct Hex as [Hin [Hst [Hprod _]]].
    unfold still_cyclic in Hcyc.
    destruct (Inventory.location_ids x) as [|loc [|loc' rest]] eqn:Hlocs;
      try discriminate Hcyc.
    destruct Hloc as [->|[]].
    apply andb_true_iff in Hcyc. destruct Hcyc as [Hnot _].
    apply negb_true_iff in Hnot.
    exists x. split.
    + rewrite Hinv. apply in_or_app. left. apply filter_In. split; [exact Hin|].
      apply negb_true_iff.
      destruct (mem (Inventory.id x) (map Inventory.id (cyclic_deleted E s company_id)))
        eqn:Hdel; [|reflexivity].
      apply (cyclic_deleted_mem E s company_id x Hnd Hin) in Hdel.
      unfold cyclic_deleted in Hdel. apply filter_In in Hdel. destruct Hdel as [_ Hsup].
      congruence.
    + unfold in_progress_for. auto.
  - assert (Hsel : In l (locations_to_inventory E s company_id)).
    { unfold locations_to_inventory. apply filter_In. split; [exact Hl|].
      now rewrite Hcov. }
    destruct (Forall2_In_l _ _ _ _ Hnew Hsel) as [x [Hx [Hprog _]]].
    exists x. split; [|exact Hprog].
    rewrite Hinv. apply in_or_app. now right.
Qed.

Lemma cyclic_run_covers_top_locations_witness :
  exists s1,
    _run_inventory_tasks Demo.E (fun _ => ret tt) None DemoCyclic.store
    = (fun _ : many2one => ret tt) None s1
    /\ forall l, In l (without_descendants (due_locations Demo.E DemoCyclic.store None)) ->
                 exists x, In x (inventories s1) /\ in_progress_for (Location.id l) x.
Proof.
  apply (cyclic_run_covers_top_locations Demo.E (fun _ => ret tt) DemoCyclic.store None).
  exact demo_cyclic_inventories_wf.
Defined.


(** ** Outdated lines *)

Lemma dict_get_In d k q default :
  NoDup (map fst d) -> In (k, q) d -> dict_get d k default = q.
Proof.
  unfold dict_get. induction d as [|[k' q'] d IH]; intros Hnd Hin; [destruct Hin|].
  cbn [map fst] in Hnd. inversion Hnd as [|? ? Hk Hd]; subst.
  cbn [find fst]. destruct (key_eqb k' k) eqn:Ek.
  - apply key_eqb_eq in Ek. subst k'. destruct Hin as [Heq|Hin].
    + now inversion Heq.
    + exfalso. apply Hk. apply in_map_iff. now exists (k, q).
  - destruct Hin as [Heq|Hin].
    + inversion Heq; subst. rewrite (proj2 (key_eqb_eq k k) eq_refl) in Ek. discriminate.
    + now apply IH.
Qed.

Lemma dict_get_absent d k default :
  ~ In k (map fst d) -> dict_get d k default = default.
Proof.
  unfold dict_get. intro Hk.
  destruct (find (fun e => key_eqb (fst e) k) d) as [e|] eqn:Hf; [|reflexivity].
  exfalso. apply find_some in Hf. destruct Hf as [He Hkey].
  apply key_eqb_eq in Hkey. apply Hk. rewrite <- Hkey. now apply in_map.
Qed.

Lemma float_compare_diag q r : (0 < r)%Q -> float_compare q q r = 0.
Proof.
  intro Hr. unfold float_compare.
  now rewrite (FloatFacts.float_is_zero_diag (float_round q r) r Hr).
Qed.

Lemma get_quantities_NoDup E s inventory :
  NoDup (map fst (_get_quantities E s inventory)).
Proof. unfold _get_quantities. apply read_group_spec. Qed.

(** The value dicts of a starting inventory follow the snapshot. *)
Lemma get_inventory_lines_values_snapshot E s inventory :
  Forall (snapshot_value E (_get_quantities E s inventory) inventory)
         (_get_inventory_lines_values E s inventory).
Proof.
  unfold _get_inventory_lines_values.
  pose proof (get_quantities_NoDup E s inventory) as Hnd.
  cbv zeta. set (quants := _get_quantities E s inventory) in *.
  match goal with
  | |- context [if _ then ?l ++ _ else _] => set (vals := l)
  end.
  assert (Hsnap : Forall (snapshot_value E quants inventory) vals).
  { apply Forall_forall. intros v Hv. apply in_map_iff in Hv.
    destruct Hv as [[[[[[p l] lot] k] o] q] [<- Hin]].
    unfold snapshot_value, LineVals.key.
    cbn [LineVals.theoretical_qty LineVals.inventory_id LineVals.product_uom_id LineVals.product_id LineVals.location_id LineVals.prod_lot_id LineVals.package_id LineVals.partner_id].
    rewrite (dict_get_In quants (p, l, lot, k, o) q 0%Q Hnd Hin). auto. }
  destruct (Inventory.exhausted inventory); [|exact Hsnap].
  apply Forall_app. split; [exact Hsnap|].
  unfold _get_exhausted_inventory_lines_vals.
  apply Forall_forall. intros v Hv.
  apply in_flat_map in Hv. destruct Hv as [p [_ Hv]].
  apply in_flat_map in Hv. destruct Hv as [l [_ Hv]].
  destruct (pair_mem _ _) eqn:Hpair; [destruct Hv|]. cbn [negb] in Hv.
  destruct Hv as [<-|[]]. unfold snapshot_value, LineVals.key.
  cbn [LineVals.theoretical_qty LineVals.inventory_id LineVals.product_uom_id LineVals.product_id LineVals.location_id LineVals.prod_lot_id LineVals.package_id LineVals.partner_id].
  split; [|auto]. rewrite dict_get_absent; [reflexivity|].
  intro Hk. apply in_map_iff in Hk. destruct Hk as [[k q] [Hkey Hin]].
  cbn [fst] in Hkey. subst k.
  assert (Hmem : pair_mem (Some p, Some l)
                          (map (fun x => (LineVals.product_id x, LineVals.location_id x)) vals)
                 = true).
  { unfold pair_mem. apply existsb_exists. exists (Some p, Some l). split.
    - apply in_map_iff.
      eexists. split; [|apply in_map_iff; exists (Some p, Some l, None, None, None, q);
                        split; [reflexivity | exact Hin]].
      reflexivity.
    - cbn. now rewrite !Z.eqb_refl. }
  congruence.
Qed.

Lemma get_quantities_frame E s s' inventory inventory' :
  locations s' = locations s ->
  Inventory.company_id inventory' = Inventory.company_id inventory ->
  Inventory.location_ids inventory' = Inventory.location_ids inventory ->
  Inventory.product_ids inventory' = Inventory.product_ids inventory ->
  Inventory.lot_ids inventory' = Inventory.lot_ids inventory ->
  Inventory.prefill_counted_quantity inventory'
  = Inventory.prefill_counted_quantity inventory ->
  Inventory.is_conflict_inventory inventory' = Inventory.is_conflict_inventory inventory ->
  _get_quantities E s' inventory' = _get_quantities E s inventory.
Proof.
  intros Hloc Hc Hl Hp Hlot Hpre Hconf.
  unfold _get_quantities. f_equal. apply filter_ext. intro q.
  unfold quant_domain, snapshot_location_ids.
  now rewrite Hloc, Hc, Hl, Hp, Hlot, Hpre, Hconf.
Qed.

Lemma prepared_rounding E v v' :
  positive_roundings E ->
  (LineVals.product_uom_id v = None
   \/ LineVals.product_uom_id v = product_uom_id E (LineVals.product_id v)) ->
  prepared_from E v v' -> has_required v' = true ->
  (0 < uom_rounding E (LineVals.product_uom_id v'))%Q.
Proof.
  intros Hpos Huom [_ [Hkey [_ [_ Hu']]]] Hreq.
  unfold has_required in Hreq. rewrite !andb_true_iff in Hreq.
  destruct Hreq as [_ Hsome].
  assert (Hu : LineVals.product_uom_id v' = product_uom_id E (LineVals.product_id v)).
  { destruct Hu' as [Hu'|Hu']; [|exact Hu'].
    destruct Huom as [Huom|Huom]; [|congruence].
    rewrite Hu', Huom in Hsome. discriminate. }
  rewrite Hu in Hsome |- *.
  destruct (product_uom_id E (LineVals.product_id v)) as [u|] eqn:Eu; [|discriminate].
  now apply (Hpos (LineVals.product_id v)).
Qed.

Lemma compute_outdated_all_false E s ls :
  (forall line, In line ls -> line_outdated E s line = inr false) ->
  _compute_outdated E s ls = inr (map (fun _ => false) ls).
Proof.
  induction ls as [|l ls IH]; intro H; [reflexivity|].
  cbn [_compute_outdated map]. rewrite (H l (or_introl eq_refl)), IH; [reflexivity|].
  intros line Hline. apply H. now right.
Qed.

(** X11.  The lines that [_action_start] creates for a draft inventory
    are not outdated: right after the start, [_compute_outdated] on the
    lines of the inventory raises nothing and flags none of them, with
    either prefill mode and with or without the exhausted products. *)
Theorem started_lines_not_outdated E s i inventory s1 :
  positive_roundings E ->
  browse_inventory s (Some i) = Some inventory ->
  Inventory.state inventory = State.draft ->
  line_ids s i = [] ->
  Inventory.start_empty inventory = false ->
  _action_start E [i] s = (inr tt, s1) ->
  _compute_outdated E s1 (line_ids s1 i) = inr (map (fun _ => false) (line_ids s1 i)).
Proof.
  intros Hpos Hb Hst Hnone Hfill Hstart.
  pose proof (get_inventory_lines_values_snapshot E s inventory) as Hvals.
  rewrite (action_start_draft_run E s i inventory Hb Hst) in Hstart.
  rewrite Hnone, Hfill in Hstart. cbn [is_set negb andb] in Hstart.
  destruct (create E (_get_inventory_lines_values E s inventory) s)
    as [[e|res] s0] eqn:Hc; [discriminate Hstart|].
  inversion Hstart; subst s1. clear Hstart.
  destruct (create_inv _ _ _ _ _ Hc) as [pv [Hpv [Hreq [-> [-> _]]]]].
  pose proof (browse_inventory_id _ _ _ Hb) as Hid.
  apply compute_outdated_all_false. intros line Hl.
  unfold line_ids in Hl. apply filter_In in Hl. destruct Hl as [Hl Hinv].
  cbn [started lines set_inventories inserted] in Hl.
  apply in_app_or in Hl. destruct Hl as [Hold|Hnew].
  { rewrite (line_ids_empty s i line Hnone Hold) in Hinv. discriminate. }
  apply new_lines_In in Hnew. destruct Hnew as [k [v' [Hv' ->]]].
  destruct (Forall2_In_r _ _ _ _ Hpv Hv') as [v [Hv Hprep]].
  rewrite Forall_forall in Hvals. destruct (Hvals v Hv) as [Hth [Hvinv Huom]].
  rewrite forallb_forall in Hreq. specialize (Hreq v' Hv').
  pose proof (prepared_rounding E v v' Hpos Huom Hprep Hreq) as Hround.
  destruct Hprep as [Hpinv [Hkey [_ [Hpth _]]]].
  assert (Hbrowse : browse_inventory (started E i (inserted E s pv)) (Some i)
                    = Some (Inventory.set_state_date State.confirm (now E) inventory))
    by (now apply started_browse).
  unfold line_outdated, line_state.
  cbn [line_of_values Line.inventory_id Line.id Line.theoretical_qty Line.product_uom_id].
  rewrite Hpinv, Hvinv, Hid, Hbrowse.
  cbn [option_map Inventory.state Inventory.set_state_date state_is_done orb].
  destruct (k =? 0); [reflexivity|].
  rewrite (get_quantities_frame
             E s (started E i (inserted E s pv)) inventory
             (Inventory.set_state_date State.confirm (now E) inventory)
             eq_refl eq_refl eq_refl eq_refl eq_refl eq_refl eq_refl).
  change (Line.key (line_of_values E k v')) with (LineVals.key v').
  rewrite Hkey, (Hpth _ Hth). cbn [LineWrite.or_else].
  now rewrite (float_compare_diag _ _ Hround).
Qed.

Lemma started_lines_not_outdated_witness :
  _compute_outdated DemoStart.E (snd (_action_start DemoStart.E [1] DemoStart.store))
                    (line_ids (snd (_action_start DemoStart.E [1] DemoStart.store)) 1)
  = inr (map (fun _ => false)
             (line_ids (snd (_action_start DemoStart.E [1] DemoStart.store)) 1)).
Proof.
  apply (started_lines_not_outdated
           DemoStart.E DemoStart.store 1 DemoStart.draft_inventory
           (snd (_action_start DemoStart.E [1] DemoStart.store))).
  - exact demo_start_positive_roundings.
  - reflexivity.
  - reflexivity.
  - reflexivity.
  - reflexivity.
  - reflexivity.
Defined.

(** A line without inventory makes [_compute_outdated] fail, wherever it
    stands in the recordset and whatever the other lines are. *)
Lemma compute_outdated_key_error E s ls line :
  In line ls -> Line.inventory_id line = None ->
  exists e, _compute_outdated E s ls = inl e.
Proof.
  intros Hin Hnone. induction ls as [|l ls IH]; [destruct Hin|].
  cbn [_compute_outdated].
  destruct (line_outdated E s l) as [e|b] eqn:Hl; [now exists e|].
  destruct Hin as [->|Hin].
  - unfold line_outdated in Hl. rewrite Hnone in Hl. discriminate Hl.
  - destruct (IH Hin) as [e He]. rewrite He. now exists e.
Qed.


(** ** Refreshing the theoretical quantities *)

(** What a refreshing may have done to the store: nothing outside the
    lines, and in the lines nothing but the theoretical quantity and the
    date of the lines whose id is in [ids]. *)
Lemma refreshed_refl l : refreshed l l.
Proof. unfold refreshed. now destruct l. Qed.

Lemma refreshed_id l l' : refreshed l l' -> Line.id l' = Line.id l.
Proof. unfold refreshed. intros ->. reflexivity. Qed.

Lemma refreshed_trans l l' l'' : refreshed l l' -> refreshed l' l'' -> refreshed l l''.
Proof. unfold refreshed. intros -> ->. reflexivity. Qed.

Lemma refresh_write E i vals s :
  LineWrite.is_editable vals = None -> LineWrite.inventory_id vals = None ->
  LineWrite.partner_id vals = None -> LineWrite.product_id vals = None ->
  LineWrite.product_uom_id vals = None -> LineWrite.product_qty vals = None ->
  LineWrite.location_id vals = None -> LineWrite.package_id vals = None ->
  LineWrite.prod_lot_id vals = None ->
  (exists r, write E [i] vals s = (r, updated [i] vals s))
  /\ forall l, refreshed l (written [i] vals l)
               /\ (mem (Line.id l) [i] = false -> written [i] vals l = l).
Proof.
  intros He Hi Hpa Hp Hu Hq Hl Hk Hlot. split.
  - rewrite write_run. unfold required_emptied. rewrite Hp, Hu, Hl.
    cbn [writes_null orb is_some andb]. rewrite andb_false_r.
    destruct (existsb (has_duplicate (updated [i] vals s)) [i]); eexists; reflexivity.
  - intro l. unfold written.
    destruct (mem (Line.id l) [i]); [|split; [apply refreshed_refl | reflexivity]].
    split; [|discriminate]. unfold refreshed, LineWrite.apply.
    rewrite He, Hi, Hpa, Hp, Hu, Hq, Hl, Hk, Hlot. reflexivity.
Qed.

Lemma refreshing_refl ids s : refreshing_of ids s s.
Proof.
  repeat split. exists (fun l => l). split; [now rewrite map_id|].
  intro l. split; [apply refreshed_refl | reflexivity].
Qed.

Lemma mem_app x a b : mem x (a ++ b) = mem x a || mem x b.
Proof. unfold mem. apply existsb_app. Qed.

Lemma refreshing_trans ids1 ids2 s s1 s2 :
  refreshing_of ids1 s s1 -> refreshing_of ids2 s1 s2 ->
  refreshing_of (ids1 ++ ids2) s s2.
Proof.
  intros [Hi1 [Hm1 [Hl1 [f [Hf Hf']]]]] [Hi2 [Hm2 [Hl2 [g [Hg Hg']]]]].
  split; [congruence|]. split; [congruence|]. split; [congruence|].
  exists (fun l => g (f l)). split.
  - now rewrite Hg, Hf, map_map.
  - intro l. destruct (Hf' l) as [Hr1 Hk1]. destruct (Hg' (f l)) as [Hr2 Hk2]. split.
    + now apply (refreshed_trans l (f l)).
    + rewrite mem_app. intro Hmem. apply orb_false_iff in Hmem.
      destruct Hmem as [H1 H2]. rewrite (Hk1 H1) in Hk2 |- *. now apply Hk2.
Qed.

Lemma refreshing_updated E i vals s :
  LineWrite.is_editable vals = None -> LineWrite.inventory_id vals = None ->
  LineWrite.partner_id vals = None -> LineWrite.product_id vals = None ->
  LineWrite.product_uom_id vals = None -> LineWrite.product_qty vals = None ->
  LineWrite.location_id vals = None -> LineWrite.package_id vals = None ->
  LineWrite.prod_lot_id vals = None ->
  exists r, write E [i] vals s = (r, updated [i] vals s)
            /\ refreshing_of [i] s (updated [i] vals s).
Proof.
  intros He Hi Hpa Hp Hu Hq Hl Hk Hlot.
  destruct (refresh_write E i vals s He Hi Hpa Hp Hu Hq Hl Hk Hlot) as [[r Hr] Hw].
  exists r. split; [exact Hr|]. repeat split.
  exists (written [i] vals). split; [reflexivity | exact Hw].
Qed.

Lemma refreshing_twice i s s1 s2 :
  refreshing_of [i] s s1 -> refreshing_of [i] s1 s2 -> refreshing_of [i] s s2.
Proof.
  intros H1 H2. pose proof (refreshing_trans _ _ _ _ _ H1 H2) as [Hi [Hm [Hl [f [Hf Hf']]]]].
  split; [exact Hi|]. split; [exact Hm|]. split; [exact Hl|].
  exists f. split; [exact Hf|]. intro l. destruct (Hf' l) as [Hr Hk].
  split; [exact Hr|]. intro Hmem. apply Hk. rewrite mem_app, Hmem. reflexivity.
Qed.

Lemma refresh_line_frame E gather i s :
  refreshing_of [i] s (snd (refresh_line E gather i s)).
Proof.
  unfold refresh_line, bind, get.
  destruct (browse_line s i) as [line|]; [|apply refreshing_refl].
  destruct (line_outdated E s line) as [e|[|]];
    [apply refreshing_refl| |apply refreshing_refl].
  set (quants := gather _ _ _ _ _).
  destruct (refreshing_updated E i (theoretical_qty_vals (sum_quantities quants)) s)
    as [r1 [Hw1 Hf1]]; try reflexivity.
  destruct (refreshing_updated E i (theoretical_qty_vals 0%Q) s)
    as [r0 [Hw0 Hf0]]; try reflexivity.
  destruct (is_set quants).
  - unfold when_.
    destruct (negb (Qeq_bool (Line.theoretical_qty line) (sum_quantities quants))).
    + unfold bind. rewrite Hw1. destruct r1 as [e|b]; [exact Hf1|]. cbn [ret].
      destruct (refreshing_updated E i (inventory_date_vals (now E))
                  (updated [i] (theoretical_qty_vals (sum_quantities quants)) s))
        as [r2 [Hw2 Hf2]]; try reflexivity.
      rewrite Hw2. destruct r2 as [e|b2]; now apply (refreshing_twice i s _ _ Hf1).
    + cbn [ret].
      destruct (refreshing_updated E i (inventory_date_vals (now E)) s)
        as [r2 [Hw2 Hf2]]; try reflexivity.
      rewrite Hw2. now destruct r2.
  - unfold bind. rewrite Hw0. destruct r0 as [e|b]; [exact Hf0|]. cbn [ret].
    destruct (refreshing_updated E i (inventory_date_vals (now E))
                (updated [i] (theoretical_qty_vals 0%Q) s))
      as [r2 [Hw2 Hf2]]; try reflexivity.
    rewrite Hw2. destruct r2 as [e|b2]; now apply (refreshing_twice i s _ _ Hf0).
Qed.

Lemma refreshing_more ids ids' s s' :
  (forall x, mem x ids' = false -> mem x ids = false) ->
  refreshing_of ids s s' -> refreshing_of ids' s s'.
Proof.
  intros Hsub [Hi [Hm [Hl [f [Hf Hf']]]]].
  split; [exact Hi|]. split; [exact Hm|]. split; [exact Hl|].
  exists f. split; [exact Hf|]. intro l. destruct (Hf' l) as [Hr Hk].
  split; [exact Hr|]. intro Hmem. apply Hk. now apply Hsub.
Qed.

Lemma refresh_loop_frame E gather todo : forall s,
  refreshing_of todo s (snd (for_each todo (refresh_line E gather) s)).
Proof.
  induction todo as [|i todo IH]; intro s; [apply refreshing_refl|].
  cbn [for_each]. unfold bind.
  pose proof (refresh_line_frame E gather i s) as Hstep.
  destruct (refresh_line E gather i s) as [[e|[]] s1]; cbn [snd] in *.
  - apply (refreshing_more [i]); [|exact Hstep].
    intros x Hx. cbn [mem existsb] in Hx |- *. apply orb_false_iff in Hx.
    destruct Hx as [Hx _]. now rewrite Hx.
  - exact (refreshing_trans [i] todo s s1 _ Hstep (IH s1)).
Qed.

(** X12.  [action_refresh_quantity] never overwrites a count.  Whatever
    the ledger gathers and whether the call succeeds or raises on the way,
    the store it leaves differs from the one it was called on at most in
    the theoretical quantity and the date of lines: inventories, moves and
    locations are untouched, every line keeps its id, its counted
    quantity, its key, its inventory and its unit, and a line that is not
    in the recordset or whose inventory is done is as it was. *)
Theorem action_refresh_quantity_frame E gather self s :
  lines_wf s ->
  inventories (snd (action_refresh_quantity E gather self s)) = inventories s
  /\ moves (snd (action_refresh_quantity E gather self s)) = moves s
  /\ locations (snd (action_refresh_quantity E gather self s)) = locations s
  /\ Forall2 (fun l l' =>
                refreshed l l'
                /\ (mem (Line.id l) self = false
                    \/ state_is_done (line_state s l) = true -> l' = l))
             (lines s) (lines (snd (action_refresh_quantity E gather self s))).
Proof.
  intros [Hnd _].
  set (todo := map Line.id
                   (filter (fun l => negb (state_is_done (line_state s l)))
                           (browse_lines s self))).
  change (action_refresh_quantity E gather self s)
    with (for_each todo (refresh_line E gather) s).
  destruct (refresh_loop_frame E gather todo s) as [Hi [Hm [Hl [f [Hf Hf']]]]].
  split; [exact Hi|]. split; [exact Hm|]. split; [exact Hl|].
  rewrite Hf. apply Forall2_map_r. intros l Hin.
  destruct (Hf' l) as [Hr Hk]. split; [exact Hr|].
  intro Hout. apply Hk. unfold todo. rewrite (impacted_ids s self l Hnd Hin).
  destruct Hout as [-> | ->]; [reflexivity | apply andb_false_r].
Qed.

Lemma action_refresh_quantity_frame_witness :
  inventories (snd (action_refresh_quantity DemoStart.E DemoRefresh.gather [1; 2; 3] Demo.store))
  = inventories Demo.store
  /\ moves (snd (action_refresh_quantity DemoStart.E DemoRefresh.gather [1; 2; 3] Demo.store))
     = moves Demo.store
  /\ locations (snd (action_refresh_quantity DemoStart.E DemoRefresh.gather [1; 2; 3] Demo.store))
     = locations Demo.store
  /\ Forall2 (fun l l' =>
                refreshed l l'
                /\ (mem (Line.id l) [1; 2; 3] = false
                    \/ state_is_done (line_state Demo.store l) = true -> l' = l))
             (lines Demo.store)
             (lines (snd (action_refresh_quantity DemoStart.E DemoRefresh.gather [1; 2; 3]
                                                  Demo.store))).
Proof.
  apply (action_refresh_quantity_frame DemoStart.E DemoRefresh.gather [1; 2; 3] Demo.store).
  exact demo_lines_wf.
Defined.

(** The short line is up to date; the packaged bolts of the shelf are 2
    in the ledger, and the ledger knows no bolts of owner 40: the two
    lines are refreshed and dated, the counts stay. *)
Example action_refresh_quantity_demo :
  map (fun l => (Line.id l, Line.product_qty l, Line.theoretical_qty l,
                 Line.inventory_date l))
      (lines (snd (action_refresh_quantity DemoStart.E DemoRefresh.gather [1; 2; 3]
                                           Demo.store)))
  = [(1, 7%Q, 10%Q, 500); (2, 12%Q, (0 + 2)%Q, 1000); (3, 4%Q, 0%Q, 1000)].
Proof. reflexivity. Qed.


(** ** Storable products and the defaults of [create] *)

Lemma prepare_values_filled E v s r s' :
  prepare_values E v s = (r, s') ->
  s' = s /\ forall v', r = inr v' -> filled_from E v v'.
Proof.
  unfold prepare_values, bind, filled_from, default_theoretical_qty,
    default_product_uom_id.
  intro H.
  destruct (LineVals.theoretical_qty v) as [q|] eqn:Eq.
  - unfold ret in H.
    destruct (LineVals.product_id v) as [p|] eqn:Ep;
      destruct (LineVals.product_uom_id v) as [u|] eqn:Eu;
      cbn [is_some negb andb] in H;
      inversion H; subst; (split; [reflexivity|]);
      intros v' Hv'; inversion Hv'; subst; unfold LineVals.key; cbn;
      rewrite ?Ep, ?Eq, ?Eu; repeat split; reflexivity.
  - destruct (LineVals.product_id v) as [p|] eqn:Ep;
      [destruct (LineVals.location_id v) as [l|] eqn:El|];
      unfold ret, raise in H; cbn in H.
    + rewrite Ep in H. cbn in H.
      destruct (LineVals.product_uom_id v) as [u|] eqn:Eu;
        cbn [is_some negb] in H;
        inversion H; subst; (split; [reflexivity|]);
        intros v' Hv'; inversion Hv'; subst; unfold LineVals.key; cbn;
        rewrite ?Ep, ?Eq, ?Eu, ?El; repeat split; reflexivity.
    + inversion H; subst. split; [reflexivity|]. intros v' Hv'. discriminate.
    + inversion H; subst. split; [reflexivity|]. intros v' Hv'. discriminate.
Qed.

(** A successful [create], with the value dicts as they are inserted. *)
Lemma create_inv_filled E vals_list s res s' :
  create E vals_list s = (inr res, s') ->
  exists pv,
    Forall2 (filled_from E) vals_list pv
    /\ forallb has_required pv = true
    /\ res = map Line.id (new_lines E (line_seq s) pv)
    /\ s' = inserted E s pv
    /\ (forall i, In i res -> not_storable E s' i = false).
Proof.
  unfold create, bind. intro H.
  destruct (map_m (prepare_values E) vals_list s) as [[e|pv] s0] eqn:Eprep;
    [discriminate H|].
  destruct (map_m_readonly _ _ (prepare_values_filled E) _ _ _ _ Eprep) as [-> Hpv].
  unfold orm_create_lines, bind in H.
  destruct (map_m (orm_insert_line E) pv s) as [[e|ids] s1] eqn:Eins;
    [discriminate H|].
  destruct (insert_lines_inv E pv _ _ _ Eins) as [Hreq [-> ->]].
  rewrite check_product_id_run in H.
  destruct (existsb (not_storable E (inserted E s pv))
                    (map Line.id (new_lines E (line_seq s) pv))) eqn:Estor;
    [discriminate H|].
  unfold ret in H. rewrite check_no_duplicate_line_run in H.
  destruct (existsb (has_duplicate (inserted E s pv))
                    (map Line.id (new_lines E (line_seq s) pv))) eqn:Edup;
    [discriminate H|].
  inversion H; subst.
  exists pv. split; [now apply Hpv|]. split; [exact Hreq|].
  split; [reflexivity|]. split; [reflexivity|]. now apply existsb_false.
Qed.

Lemma not_storable_line E s l :
  NoDup (map Line.id (lines s)) -> In l (lines s) ->
  not_storable E s (Line.id l) = false ->
  product_type E (Line.product_id l) = Some ProductType.product.
Proof.
  intros Hnd Hl. unfold not_storable. rewrite (browse_line_NoDup s l Hnd Hl).
  destruct (product_type E (Line.product_id l)) as [[ | | ]|]; try discriminate.
  reflexivity.
Qed.

Lemma Forall2_new_lines E (R : LineVals.t -> Line.t -> Prop) pv : forall first,
  (forall k v, In v pv -> In (line_of_values E k v) (new_lines E first pv) ->
               R v (line_of_values E k v)) ->
  Forall2 R pv (new_lines E first pv).
Proof.
  induction pv as [|v pv IH]; intros first H; cbn [new_lines]; constructor.
  - apply H; now left.
  - apply IH. intros k w Hw Hin. apply H; now right.
Qed.

Lemma Forall2_compose {A B C} (R : A -> B -> Prop) (S : B -> C -> Prop)
      (T : A -> C -> Prop) xs ys zs :
  (forall x y z, In y ys -> In z zs -> R x y -> S y z -> T x z) ->
  Forall2 R xs ys -> Forall2 S ys zs -> Forall2 T xs zs.
Proof.
  intros H HR. revert zs H.
  induction HR as [|x y xs ys Hxy _ IH]; intros zs H HS;
    inversion HS as [|? z ? zs' Hyz Hrest]; subst; constructor.
  - apply (H x y); auto; now left.
  - apply IH; [|assumption]. intros a b c Hb Hc. apply H; now right.
Qed.

(** X13.  A successful [create] inserts one row per value dict, in
    order, after the rows that were there, and touches nothing else.  The
    row has the key, the inventory and the counted quantity of its dict (0
    when none is given); its theoretical quantity is the given one, else
    the quantity of the ledger for its key, asked in the unit that the
    dict gives even when there is none; its unit is the given one, else
    that of its product; its product, its location and its unit are set
    and its product is storable. *)
Theorem create_fills_defaults E vals_list s res s' :
  lines_wf s ->
  create E vals_list s = (inr res, s') ->
  exists rows,
    lines s' = lines s ++ rows
    /\ map Line.id rows = res
    /\ Forall2 (created_from E) vals_list rows
    /\ inventories s' = inventories s
    /\ moves s' = moves s
    /\ locations s' = locations s.
Proof.
  intros Hwf Hc.
  destruct (create_inv_filled _ _ _ _ _ Hc) as [pv [Hpv [Hreq [-> [-> Hstor]]]]].
  exists (new_lines E (line_seq s) pv).
  split; [reflexivity|]. split; [reflexivity|].
  split; [|split; [|split]; reflexivity].
  destruct (inserted_wf E s pv Hwf) as [Hnd _].
  apply (Forall2_compose (filled_from E)
                         (fun v' row => exists k, row = line_of_values E k v'
                                                  /\ In row (new_lines E (line_seq s) pv))
                         _ _ pv _); [|exact Hpv|].
  - intros v v' row Hv' Hrow [Hinv [Hkey [Hqty [Hth Huom]]]] [k [-> Hin]].
    rewrite forallb_forall in Hreq. specialize (Hreq v' Hv').
    unfold has_required in Hreq. rewrite !andb_true_iff in Hreq.
    destruct Hreq as [[Hp Hl] Hu].
    unfold created_from.
    change (Line.key (line_of_values E k v')) with (LineVals.key v').
    cbn [line_of_values Line.inventory_id Line.product_qty Line.theoretical_qty
         Line.product_uom_id Line.inventory_date Line.product_id Line.location_id].
    rewrite Hinv, Hkey, Hqty, Hth, Huom. cbn [LineWrite.or_else].
    rewrite <- Huom.
    repeat (split; [first [reflexivity | assumption]|]).
    apply (not_storable_line E (inserted E s pv) (line_of_values E k v') Hnd).
    + cbn [inserted lines]. apply in_or_app. now right.
    + apply Hstor. now apply (in_map Line.id) in Hin.
  - apply Forall2_new_lines. intros k v' _ Hin. now exists k.
Qed.

Lemma create_fills_defaults_witness :
  exists rows,
    lines (snd (create Demo.E [DemoLines.fresh_values] Demo.store))
    = lines Demo.store ++ rows
    /\ map Line.id rows = [4]
    /\ Forall2 (created_from Demo.E) [DemoLines.fresh_values] rows
    /\ inventories (snd (create Demo.E [DemoLines.fresh_values] Demo.store))
       = inventories Demo.store
    /\ moves (snd (create Demo.E [DemoLines.fresh_values] Demo.store)) = moves Demo.store
    /\ locations (snd (create Demo.E [DemoLines.fresh_values] Demo.store))
       = locations Demo.store.
Proof.
  apply (create_fills_defaults Demo.E [DemoLines.fresh_values] Demo.store [4]
                               (snd (create Demo.E [DemoLines.fresh_values] Demo.store))).
  - exact demo_lines_wf.
  - reflexivity.
Defined.

Lemma write_inv_storable E self vals s b s' :
  write E self vals s = (inr b, s') ->
  s' = updated self vals s
  /\ (is_some (LineWrite.product_id vals) = true ->
      forall i, In i self -> not_storable E s' i = false).
Proof.
  rewrite write_run.
  destruct (required_emptied s self vals); [discriminate|].
  destruct (is_some (LineWrite.product_id vals)); cbn [andb].
  - destruct (existsb (not_storable E (updated self vals s)) self) eqn:Estor;
      [discriminate|].
    destruct (existsb (has_duplicate (updated self vals s)) self); [discriminate|].
    intro H. inversion H; subst. split; [reflexivity|].
    intros _. now apply existsb_false.
  - destruct (existsb (has_duplicate (updated self vals s)) self); [discriminate|].
    intro H. inversion H; subst. split; [reflexivity|]. discriminate.
Qed.

(** X14.  The constraint on the product is an invariant of the lines:
    in a store where every line counts a storable product, every line
    still does after a [create] or a [write] that went through. *)
Theorem storable_lines_preserved E s :
  lines_wf s -> all_storable E s ->
  (forall vals_list res s',
      create E vals_list s = (inr res, s') -> all_storable E s')
  /\ (forall self vals b s',
         write E self vals s = (inr b, s') -> all_storable E s').
Proof.
  intros Hwf Hall. split.
  - intros vals_list res s' Hc l Hl.
    destruct (create_inv_filled _ _ _ _ _ Hc) as [pv [_ [_ [-> [-> Hstor]]]]].
    destruct (inserted_wf E s pv Hwf) as [Hnd _].
    pose proof Hl as Hin. cbn [inserted lines] in Hin.
    apply in_app_or in Hin. destruct Hin as [Hold|Hnew]; [now apply Hall|].
    apply (not_storable_line E (inserted E s pv) l Hnd Hl).
    apply Hstor. now apply in_map.
  - intros self vals b s' Hw l' Hl'.
    destruct (write_inv_storable _ _ _ _ _ _ Hw) as [-> Hstor].
    destruct (updated_wf self vals s Hwf) as [Hnd _].
    pose proof Hl' as Hin. cbn [updated lines set_lines] in Hin.
    apply in_map_iff in Hin. destruct Hin as [l [Hw' Hl]].
    unfold written in Hw'.
    destruct (mem (Line.id l) self) eqn:Hmem; [|subst l'; now apply Hall].
    destruct (LineWrite.product_id vals) as [p|] eqn:Hp.
    + apply (not_storable_line E (updated self vals s) l' Hnd Hl').
      apply Hstor; [reflexivity|]. subst l'. cbn [LineWrite.apply Line.id].
      now apply mem_In.
    + subst l'. cbn [LineWrite.apply Line.product_id]. rewrite Hp.
      cbn [LineWrite.or_else]. now apply Hall.
Qed.

Lemma demo_all_storable : all_storable Demo.E Demo.store.
Proof.
  intros l Hl. cbn in Hl.
  repeat match goal with
         | H : _ \/ _ |- _ => destruct H as [H|H]
         | H : False |- _ => destruct H
         end; subst; reflexivity.
Qed.

Lemma storable_lines_preserved_witness :
  (forall vals_list res s',
      create Demo.E vals_list Demo.store = (inr res, s') -> all_storable Demo.E s')
  /\ (forall self vals b s',
         write Demo.E self vals Demo.store = (inr b, s') -> all_storable Demo.E s').
Proof.
  apply (storable_lines_preserved Demo.E Demo.store).
  - exact demo_lines_wf.
  - exact demo_all_storable.
Defined.


(** ** The value dicts of a starting inventory *)

Lemma uniq_NoDup ids : NoDup (uniq ids).
Proof.
  induction ids as [|x ids IH]; cbn [uniq]; constructor.
  - intro H. apply filter_In in H. destruct H as [_ H].
    rewrite Z.eqb_refl in H. discriminate.
  - now apply NoDup_filter.
Qed.

Lemma exhausted_vals_In E self set v :
  In v (_get_exhausted_inventory_lines_vals E self set) ->
  exists p l,
    v = LineVals.mk (Some (Inventory.id self)) (Some p) (Some l)
                    None None None None None (Some 0%Q)
    /\ pair_mem (Some p, Some l) set = false
    /\ (if is_set (Inventory.product_ids self)
        then In p (Inventory.product_ids self)
        else exists x, In x (products E) /\ Product.id x = p
                       /\ Product.type x = ProductType.product).
Proof.
  unfold _get_exhausted_inventory_lines_vals. intro Hv.
  apply in_flat_map in Hv. destruct Hv as [p [Hp Hv]].
  apply in_flat_map in Hv. destruct Hv as [l [_ Hv]].
  destruct (pair_mem (Some p, Some l) set) eqn:Hpair; [destruct Hv|].
  destruct Hv as [<-|[]]. exists p, l. split; [reflexivity|]. split; [exact Hpair|].
  destruct (is_set (Inventory.product_ids self)); [exact Hp|].
  apply in_map_iff in Hp. destruct Hp as [x [Hid Hx]].
  apply filter_In in Hx. destruct Hx as [Hx Hf].
  exists x. split; [exact Hx|]. split; [exact Hid|].
  rewrite !andb_true_iff in Hf. destruct Hf as [[_ Hf] _].
  now destruct (Product.type x).
Qed.

Lemma grid_keys_NoDup (P L : list rec_id) (keep : rec_id -> rec_id -> bool)
      (cell : rec_id -> rec_id -> LineVals.t) :
  NoDup P -> NoDup L ->
  (forall p l, LineVals.key (cell p l) = (Some p, Some l, None, None, None)) ->
  NoDup (map LineVals.key
             (flat_map (fun p => flat_map (fun l => if keep p l then [cell p l] else [])
                                          L) P)).
Proof.
  intros HP HL Hkey.
  assert (Hin : forall p L' k,
             In k (map LineVals.key
                       (flat_map (fun l => if keep p l then [cell p l] else []) L')) ->
             exists l, In l L' /\ k = (Some p, Some l, None, None, None)).
  { intros p L' k Hk. apply in_map_iff in Hk. destruct Hk as [v [<- Hv]].
    apply in_flat_map in Hv. destruct Hv as [l [Hl Hv]].
    destruct (keep p l); [|destruct Hv]. destruct Hv as [<-|[]].
    exists l. split; [exact Hl | apply Hkey]. }
  assert (Hrow : forall p,
             NoDup (map LineVals.key
                        (flat_map (fun l => if keep p l then [cell p l] else []) L))).
  { intro p. induction HL as [|l L' Hl HL' IH]; [constructor|].
    cbn [flat_map]. destruct (keep p l); [|exact IH].
    cbn [app map]. constructor; [|exact IH].
    intro Hk. destruct (Hin p L' _ Hk) as [l' [Hl' Heq]].
    rewrite Hkey in Heq. inversion Heq; subst. contradiction. }
  induction HP as [|p P' Hp HP' IH]; [constructor|].
  cbn [flat_map]. rewrite map_app. apply NoDup_app; [apply Hrow | exact IH |].
  intros k Hk Hk'. destruct (Hin p L k Hk) as [l [_ ->]].
  apply in_map_iff in Hk'. destruct Hk' as [v [Hv Hv']].
  apply in_flat_map in Hv'. destruct Hv' as [p' [Hp' Hv']].
  assert (Hk2 : In (LineVals.key v)
                   (map LineVals.key
                        (flat_map (fun l => if keep p' l then [cell p' l] else []) L)))
    by (now apply in_map).
  destruct (Hin p' L _ Hk2) as [l' [_ Heq]].
  rewrite Hv in Heq. inversion Heq; subst. contradiction.
Qed.

Lemma snapshot_keys E (inventory : Inventory.t) (quants : list (dimension_key * Q)) :
  map LineVals.key
      (map (fun '((product_id, location_id, lot_id, package_id, owner_id), quantity) =>
              LineVals.mk (Some (Inventory.id inventory)) product_id location_id lot_id
                          package_id owner_id
                          (product_uom_id E product_id)
                          (Some (if prefill_is_zero (Inventory.prefill_counted_quantity inventory)
                                 then 0%Q else quantity))
                          (Some quantity))
           quants)
  = map fst quants.
Proof.
  rewrite map_map. apply map_ext. now intros [[[[[p l] lot] k] o] q].
Qed.

Lemma inventory_lines_values_keys E s inventory :
  catalogue_wf E ->
  NoDup (Inventory.product_ids inventory) ->
  NoDup (Inventory.location_ids inventory) ->
  NoDup (map LineVals.key (_get_inventory_lines_values E s inventory)).
Proof.
  intros Hcat Hprod Hloc. unfold _get_inventory_lines_values. cbv zeta.
  pose proof (get_quantities_NoDup E s inventory) as Hnd.
  set (quants := _get_quantities E s inventory) in *.
  match goal with
  | |- context [if _ then ?l ++ _ else _] => set (vals := l)
  end.
  assert (Hkeys : map LineVals.key vals = map fst quants)
    by (apply (snapshot_keys E)).
  destruct (Inventory.exhausted inventory); [|now rewrite Hkeys].
  rewrite map_app, Hkeys. apply NoDup_app; [exact Hnd| |].
  - unfold _get_exhausted_inventory_lines_vals. apply grid_keys_NoDup.
    + destruct (is_set (Inventory.product_ids inventory)); [exact Hprod|].
      now apply NoDup_map_filter.
    + destruct (is_set (Inventory.location_ids inventory)); [exact Hloc|].
      apply uniq_NoDup.
    + reflexivity.
  - intros k Hk Hk'. apply in_map_iff in Hk'. destruct Hk' as [v [<- Hv]].
    apply exhausted_vals_In in Hv. destruct Hv as [p [l [-> [Hpair _]]]].
    unfold LineVals.key in Hk. cbn in Hk.
    apply in_map_iff in Hk. destruct Hk as [[k q] [Hkey Hin]].
    cbn [fst] in Hkey. subst k.
    assert (Hmem : pair_mem (Some p, Some l)
                            (map (fun x => (LineVals.product_id x, LineVals.location_id x))
                                 vals) = true).
    { unfold pair_mem. apply existsb_exists. exists (Some p, Some l). split.
      - apply in_map_iff.
        eexists. split; [|apply in_map_iff; exists (Some p, Some l, None, None, None, q);
                          split; [reflexivity | exact Hin]].
        reflexivity.
      - cbn. now rewrite !Z.eqb_refl. }
    congruence.
Qed.

(** X15.  The value dicts that [_get_inventory_lines_values] hands to
    [create] have pairwise distinct keys, the exhausted products
    included, when the products of the catalogue have distinct ids and
    the inventory names no product and no location twice: the lines of a
    starting inventory cannot double each other. *)
Theorem inventory_lines_values_distinct E s inventory :
  catalogue_wf E ->
  NoDup (Inventory.product_ids inventory) ->
  NoDup (Inventory.location_ids inventory) ->
  NoDup (map LineVals.key (_get_inventory_lines_values E s inventory)).
Proof. apply inventory_lines_values_keys. Qed.

Lemma demo_start_catalogue_wf : catalogue_wf DemoStart.E.
Proof. unfold catalogue_wf. cbn. repeat constructor; cbn; intuition discriminate. Qed.

Lemma inventory_lines_values_distinct_witness :
  NoDup (map LineVals.key
             (_get_inventory_lines_values DemoStart.E DemoStart.store
                                          DemoStart.draft_inventory)).
Proof.
  apply (inventory_lines_values_distinct DemoStart.E DemoStart.store
                                        DemoStart.draft_inventory).
  - exact demo_start_catalogue_wf.
  - constructor.
  - cbn. repeat constructor. intros [].
Defined.


(** ** Starting goes through *)

Lemma prepare_values_given E v s :
  is_some (LineVals.theoretical_qty v) = true ->
  prepare_values E v s = (inr (fill_uom E v), s).
Proof.
  intro H. unfold prepare_values, bind, fill_uom.
  destruct (LineVals.theoretical_qty v); [|discriminate]. unfold ret.
  now destruct (is_some (LineVals.product_id v)
                && negb (is_some (LineVals.product_uom_id v))).
Qed.

Lemma map_m_prepare_given E vals s :
  Forall (fun v => is_some (LineVals.theoretical_qty v) = true) vals ->
  map_m (prepare_values E) vals s = (inr (map (fill_uom E) vals), s).
Proof.
  induction 1 as [|v vals Hv _ IH]; [reflexivity|].
  cbn [map_m map]. unfold bind.
  rewrite (prepare_values_given E v s Hv), IH. reflexivity.
Qed.

Lemma map_m_insert_run E pv : forall s,
  forallb has_required pv = true ->
  map_m (orm_insert_line E) pv s
  = (inr (map Line.id (new_lines E (line_seq s) pv)), inserted E s pv).
Proof.
  induction pv as [|v pv IH]; intros s H.
  - cbn. unfold ret, inserted. cbn. now rewrite app_nil_r, Z.add_0_r, db_eta.
  - cbn [forallb] in H. apply andb_true_iff in H. destruct H as [Hv Hpv].
    cbn [map_m]. unfold bind. rewrite orm_insert_line_run, Hv.
    rewrite (IH _ Hpv). unfold ret, inserted.
    cbn [new_lines map line_seq lines inventories moves locations inventory_seq
         move_seq List.length].
    rewrite <- app_assoc. cbn [app].
    replace (line_seq s + 1 + Z.of_nat (List.length pv))
      with (line_seq s + Z.of_nat (S (List.length pv))) by lia.
    reflexivity.
Qed.

(** [create] on value dicts that give their theoretical quantity and,
    once the unit is filled in, every required column. *)
Lemma create_given_run E vals s :
  Forall (fun v => is_some (LineVals.theoretical_qty v) = true) vals ->
  forallb has_required (map (fill_uom E) vals) = true ->
  create E vals s
  = if existsb (not_storable E (inserted E s (map (fill_uom E) vals)))
               (map Line.id (new_lines E (line_seq s) (map (fill_uom E) vals)))
    then (inl (ValidationError "You can only adjust storable products."),
          inserted E s (map (fill_uom E) vals))
    else if existsb (has_duplicate (inserted E s (map (fill_uom E) vals)))
                    (map Line.id (new_lines E (line_seq s) (map (fill_uom E) vals)))
    then (inl (UserError duplicate_line_message), inserted E s (map (fill_uom E) vals))
    else (inr (map Line.id (new_lines E (line_seq s) (map (fill_uom E) vals))),
          inserted E s (map (fill_uom E) vals)).
Proof.
  intros Hgiven Hreq. unfold create. unfold bind at 1.
  rewrite (map_m_prepare_given E vals s Hgiven).
  unfold orm_create_lines, bind. rewrite (map_m_insert_run E _ s Hreq).
  rewrite check_product_id_run.
  destruct (existsb (not_storable E _) _); [reflexivity|].
  unfold ret. rewrite check_no_duplicate_line_run.
  destruct (existsb (has_duplicate _) _); reflexivity.
Qed.

Lemma browse_product_NoDup E x :
  catalogue_wf E -> In x (products E) ->
  browse_product E (Some (Product.id x)) = Some x.
Proof.
  unfold catalogue_wf, browse_product. intros Hnd Hx.
  induction (products E) as [|y ys IH]; [destruct Hx|].
  cbn [map] in Hnd. inversion Hnd as [|? ? Hy Hys]; subst.
  cbn [find]. destruct Hx as [->|Hx]; [now rewrite Z.eqb_refl|].
  destruct (Product.id y =? Product.id x) eqn:Heq; [|now apply IH].
  exfalso. apply Z.eqb_eq in Heq. apply Hy. rewrite Heq. now apply in_map.
Qed.

Lemma read_group_In rows k q :
  In (k, q) (read_group rows) -> exists r, In r rows /\ quant_key r = k.
Proof.
  intro H. destruct (read_group_spec rows) as [_ [_ Hsum]].
  destruct (Hsum k q H) as [Hne _].
  destruct (group_rows k rows) as [|r rest] eqn:Hg; [now destruct Hne|].
  assert (Hr : In r (group_rows k rows)) by (rewrite Hg; now left).
  unfold group_rows in Hr. apply filter_In in Hr. destruct Hr as [Hr Hk].
  exists r. split; [exact Hr | now apply key_eqb_eq].
Qed.

Lemma get_inventory_lines_values_startable E s inventory :
  catalogue_wf E -> ledger_storable E ->
  (forall p, In p (Inventory.product_ids inventory) ->
             product_type E (Some p) = Some ProductType.product) ->
  Forall (startable E inventory) (_get_inventory_lines_values E s inventory).
Proof.
  intros Hcat Hledger Hprods. unfold _get_inventory_lines_values. cbv zeta.
  set (quants := _get_quantities E s inventory).
  match goal with
  | |- context [if _ then ?l ++ _ else _] => set (vals := l)
  end.
  assert (Hsnap : Forall (startable E inventory) vals).
  { apply Forall_forall. intros v Hv. apply in_map_iff in Hv.
    destruct Hv as [[[[[[p l] lot] k] o] q] [<- Hin]].
    unfold quants, _get_quantities in Hin.
    apply read_group_In in Hin. destruct Hin as [r [Hr Hkey]].
    apply filter_In in Hr. destruct Hr as [Hr _].
    unfold quant_key in Hkey. inversion Hkey; subst.
    exists (Quant.product_id r), (Quant.location_id r), q. cbn.
    repeat split; auto. }
  destruct (Inventory.exhausted inventory); [|exact Hsnap].
  apply Forall_app. split; [exact Hsnap|].
  apply Forall_forall. intros v Hv.
  apply exhausted_vals_In in Hv. destruct Hv as [p [l [-> [_ Hp]]]].
  exists p, l, 0%Q. cbn. repeat split; auto.
  destruct (is_set (Inventory.product_ids inventory)); [now apply Hprods|].
  destruct Hp as [x [Hx [<- Htype]]].
  unfold product_type. rewrite (browse_product_NoDup E x Hcat Hx). cbn.
  now rewrite Htype.
Qed.

Lemma startable_filled E inventory v :
  startable E inventory v ->
  is_some (LineVals.theoretical_qty v) = true
  /\ has_required (fill_uom E v) = true
  /\ LineVals.key (fill_uom E v) = LineVals.key v
  /\ LineVals.inventory_id (fill_uom E v) = Some (Inventory.id inventory)
  /\ product_type E (LineVals.product_id (fill_uom E v)) = Some ProductType.product.
Proof.
  intros [p [l [q [Hp [Hl [Hq [Hinv [Htype Huom]]]]]]]].
  assert (Hsome : is_some (product_uom_id E (Some p)) = true).
  { unfold product_type in Htype. unfold product_uom_id.
    now destruct (browse_product E (Some p)). }
  split; [now rewrite Hq|].
  unfold fill_uom, has_required, LineVals.key. rewrite Hp.
  destruct Huom as [Hu|Hu]; rewrite Hu.
  - cbn [is_some negb andb LineVals.set_product_uom_id LineVals.product_id
         LineVals.location_id LineVals.product_uom_id LineVals.inventory_id
         LineVals.prod_lot_id LineVals.package_id LineVals.partner_id].
    rewrite Hp, Hl, Hsome. cbn [is_some andb]. auto.
  - rewrite Hsome. cbn [negb andb is_some]. rewrite Hp, Hl, Hu, Hsome.
    cbn [is_some andb]. auto.
Qed.

Lemma NoDup_map_eq {A B} (f : A -> B) xs a b :
  NoDup (map f xs) -> In a xs -> In b xs -> f a = f b -> a = b.
Proof.
  induction xs as [|x xs IH]; intros Hnd Ha Hb Hf; [destruct Ha|].
  cbn [map] in Hnd. inversion Hnd as [|? ? Hx Hxs]; subst.
  destruct Ha as [<-|Ha], Hb as [<-|Hb]; auto.
  - exfalso. apply Hx. rewrite Hf. now apply in_map.
  - exfalso. apply Hx. rewrite <- Hf. now apply in_map.
Qed.

Lemma new_lines_keys E pv : forall first,
  map Line.key (new_lines E first pv) = map LineVals.key pv.
Proof.
  induction pv as [|v pv IH]; intro first; [reflexivity|].
  cbn [new_lines map]. now rewrite IH.
Qed.

Lemma new_lines_inventory E pv i : forall first l,
  Forall (fun v => LineVals.inventory_id v = Some i) pv ->
  In l (new_lines E first pv) -> Line.inventory_id l = Some i.
Proof.
  intros first l Hall Hl. apply new_lines_In in Hl.
  destruct Hl as [k [v [Hv ->]]]. rewrite Forall_forall in Hall.
  exact (Hall v Hv).
Qed.


(** The [create] of a starting inventory goes through. *)
Lemma create_snapshot_run E s i inventory :
  lines_wf s -> catalogue_wf E -> ledger_storable E ->
  (forall p, In p (Inventory.product_ids inventory) ->
             product_type E (Some p) = Some ProductType.product) ->
  NoDup (Inventory.product_ids inventory) ->
  NoDup (Inventory.location_ids inventory) ->
  Inventory.id inventory = i ->
  line_ids s i = [] ->
  create E (_get_inventory_lines_values E s inventory) s
  = (inr (map Line.id
              (new_lines E (line_seq s)
                         (map (fill_uom E) (_get_inventory_lines_values E s inventory)))),
     inserted E s (map (fill_uom E) (_get_inventory_lines_values E s inventory))).
Proof.
  intros Hwf Hcat Hledger Hprods Hndp Hndl Hid Hnone.
  pose proof (get_inventory_lines_values_startable E s inventory Hcat Hledger Hprods)
    as Hstart.
  pose proof (inventory_lines_values_keys E s inventory Hcat Hndp Hndl) as Hkeys.
  set (vals := _get_inventory_lines_values E s inventory) in *.
  set (pv := map (fill_uom E) vals).
  assert (Hfilled : forall v', In v' pv ->
                               has_required v' = true
                               /\ LineVals.inventory_id v' = Some i
                               /\ product_type E (LineVals.product_id v')
                                  = Some ProductType.product).
  { intros v' Hv'. apply in_map_iff in Hv'. destruct Hv' as [v [<- Hv]].
    rewrite Forall_forall in Hstart.
    destruct (startable_filled E inventory v (Hstart v Hv)) as [_ [Hr [_ [Hi Ht]]]].
    rewrite Hid in Hi. auto. }
  assert (Hpvkeys : map LineVals.key pv = map LineVals.key vals).
  { unfold pv. rewrite map_map. apply map_ext_in. intros v Hv.
    rewrite Forall_forall in Hstart.
    now destruct (startable_filled E inventory v (Hstart v Hv)) as [_ [_ [Hk _]]]. }
  rewrite create_given_run.
  2:{ apply Forall_forall. intros v Hv. rewrite Forall_forall in Hstart.
      now destruct (startable_filled E inventory v (Hstart v Hv)). }
  2:{ apply forallb_forall. intros v' Hv'. now destruct (Hfilled v' Hv'). }
  fold vals. fold pv.
  destruct (inserted_wf E s pv Hwf) as [Hnd _].
  assert (Hrow : forall id, In id (map Line.id (new_lines E (line_seq s) pv)) ->
                            exists l, In l (new_lines E (line_seq s) pv)
                                      /\ Line.id l = id
                                      /\ browse_line (inserted E s pv) id = Some l).
  { intros id Hin. apply in_map_iff in Hin. destruct Hin as [l [<- Hl]].
    exists l. split; [exact Hl|]. split; [reflexivity|].
    apply browse_line_NoDup; [exact Hnd|].
    cbn [inserted lines]. apply in_or_app. now right. }
  assert (Hstor : existsb (not_storable E (inserted E s pv))
                          (map Line.id (new_lines E (line_seq s) pv)) = false).
  { apply existsb_false. intros id Hin.
    destruct (Hrow id Hin) as [l [Hl [_ Hb]]].
    unfold not_storable. rewrite Hb.
    apply new_lines_In in Hl. destruct Hl as [k [v' [Hv' ->]]].
    cbn [line_of_values Line.product_id].
    now destruct (Hfilled v' Hv') as [_ [_ ->]]. }
  assert (Hdup : existsb (has_duplicate (inserted E s pv))
                         (map Line.id (new_lines E (line_seq s) pv)) = false).
  { apply existsb_false. intros id Hin.
    destruct (Hrow id Hin) as [l [Hl [_ Hb]]].
    unfold has_duplicate. rewrite Hb. apply existsb_false. intros other Hother.
    destruct (duplicate_of l other) eqn:Hd; [|reflexivity]. exfalso.
    apply duplicate_of_spec in Hd. destruct Hd as [Hne [Hkey Hinv]].
    assert (Hli : Line.inventory_id l = Some i).
    { apply (new_lines_inventory E pv i (line_seq s) l); [|exact Hl].
      apply Forall_forall. intros v' Hv'. now destruct (Hfilled v' Hv'). }
    cbn [inserted lines] in Hother. apply in_app_or in Hother.
    destruct Hother as [Hold|Hnew].
    - pose proof (line_ids_empty s i other Hnone Hold) as Hno.
      rewrite Hinv, Hli in Hno. cbn in Hno. rewrite Z.eqb_refl in Hno. discriminate.
    - apply Hne. f_equal.
      apply (NoDup_map_eq Line.key (new_lines E (line_seq s) pv)); auto.
      now rewrite new_lines_keys, Hpvkeys. }
  now rewrite Hstor, Hdup.
Qed.

Lemma action_start_ok E s i inventory :
  lines_wf s -> catalogue_wf E -> ledger_storable E ->
  (forall p, In p (Inventory.product_ids inventory) ->
             product_type E (Some p) = Some ProductType.product) ->
  NoDup (Inventory.product_ids inventory) ->
  NoDup (Inventory.location_ids inventory) ->
  browse_inventory s (Some i) = Some inventory ->
  Inventory.state inventory = State.draft ->
  line_ids s i = [] ->
  exists s1,
    _action_start E [i] s = (inr tt, s1)
    /\ browse_inventory s1 (Some i)
       = Some (Inventory.set_state_date State.confirm (now E) inventory)
    /\ (Inventory.start_empty inventory = false ->
        map Line.key (line_ids s1 i)
        = map LineVals.key (_get_inventory_lines_values E s inventory))
    /\ (Inventory.start_empty inventory = true -> lines s1 = lines s).
Proof.
  intros Hwf Hcat Hledger Hprods Hndp Hndl Hb Hst Hnone.
  pose proof (browse_inventory_id _ _ _ Hb) as Hid.
  rewrite (action_start_draft_run E s i inventory Hb Hst), Hnone.
  cbn [is_set negb andb].
  destruct (Inventory.start_empty inventory) eqn:Hempty; cbn [negb].
  - exists (started E i s). split; [reflexivity|].
    split; [now apply started_browse|]. split; [discriminate | reflexivity].
  - rewrite (create_snapshot_run E s i inventory Hwf Hcat Hledger Hprods Hndp Hndl Hid
                                 Hnone).
    eexists. split; [reflexivity|]. split; [now apply started_browse|].
    split; [|discriminate]. intros _.
    pose proof (get_inventory_lines_values_startable E s inventory Hcat Hledger Hprods)
      as Hstart.
    set (vals := _get_inventory_lines_values E s inventory) in *.
    set (pv := map (fill_uom E) vals).
    unfold line_ids. cbn [started lines set_inventories inserted].
    rewrite filter_app.
    change (filter (fun l => many2one_eqb (Line.inventory_id l) (Some i)) (lines s))
      with (line_ids s i).
    rewrite Hnone. cbn [app].
    rewrite filter_all.
    + rewrite new_lines_keys. unfold pv. rewrite map_map. apply map_ext_in.
      intros v Hv. rewrite Forall_forall in Hstart.
      now destruct (startable_filled E inventory v (Hstart v Hv)) as [_ [_ [Hk _]]].
    + intros l Hl.
      assert (Hli : Line.inventory_id l = Some i).
      { apply (new_lines_inventory E pv i (line_seq s) l); [|exact Hl].
        apply Forall_forall. intros v' Hv'. unfold pv in Hv'.
        apply in_map_iff in Hv'. destruct Hv' as [v [<- Hv]].
        rewrite Forall_forall in Hstart.
        destruct (startable_filled E inventory v (Hstart v Hv)) as [_ [_ [_ [Hi _]]]].
        now rewrite Hid in Hi. }
      rewrite Hli. cbn. apply Z.eqb_refl.
Qed.

(** X16.  Starting goes through on a sound catalogue.  When the products
    of the catalogue have distinct ids, the ledger holds storable products
    only, and the products that the inventory names are storable and
    named once, as its locations are, then [_action_start] on a draft
    inventory without lines raises nothing: the inventory is confirmed and
    dated, and it has one line for each key of
    [_get_inventory_lines_values], in order, or, when it starts empty, the
    lines of the store are untouched. *)
Theorem action_start_succeeds E s i inventory :
  lines_wf s -> catalogue_wf E -> ledger_storable E ->
  (forall p, In p (Inventory.product_ids inventory) ->
             product_type E (Some p) = Some ProductType.product) ->
  NoDup (Inventory.product_ids inventory) ->
  NoDup (Inventory.location_ids inventory) ->
  browse_inventory s (Some i) = Some inventory ->
  Inventory.state inventory = State.draft ->
  line_ids s i = [] ->
  exists s1,
    _action_start E [i] s = (inr tt, s1)
    /\ browse_inventory s1 (Some i)
       = Some (Inventory.set_state_date State.confirm (now E) inventory)
    /\ (Inventory.start_empty inventory = false ->
        map Line.key (line_ids s1 i)
        = map LineVals.key (_get_inventory_lines_values E s inventory))
    /\ (Inventory.start_empty inventory = true -> lines s1 = lines s).
Proof. apply action_start_ok. Qed.

Lemma demo_start_ledger_storable : ledger_storable DemoStart.E.
Proof.
  intros q Hq. cbn in Hq.
  repeat match goal with
         | H : _ \/ _ |- _ => destruct H as [H|H]
         | H : False |- _ => destruct H
         end; subst; reflexivity.
Qed.

Lemma demo_start_lines_wf : lines_wf DemoStart.store.
Proof. split; cbn; constructor. Qed.

Lemma action_start_succeeds_witness :
  exists s1,
    _action_start DemoStart.E [1] DemoStart.store = (inr tt, s1)
    /\ browse_inventory s1 (Some 1)
       = Some (Inventory.set_state_date State.confirm (now DemoStart.E)
                                        DemoStart.draft_inventory)
    /\ (Inventory.start_empty DemoStart.draft_inventory = false ->
        map Line.key (line_ids s1 1)
        = map LineVals.key
              (_get_inventory_lines_values DemoStart.E DemoStart.store
                                           DemoStart.draft_inventory))
    /\ (Inventory.start_empty DemoStart.draft_inventory = true ->
        lines s1 = lines DemoStart.store).
Proof.
  apply (action_start_succeeds DemoStart.E DemoStart.store 1 DemoStart.draft_inventory).
  - exact demo_start_lines_wf.
  - exact demo_start_catalogue_wf.
  - exact demo_start_ledger_storable.
  - intros p [].
  - constructor.
  - cbn. repeat constructor. intros [].
  - reflexivity.
  - reflexivity.
  - reflexivity.
Defined.


(** ** The conflict inventories *)

Lemma insert_ordered_In x y l : In y (insert_ordered x l) <-> y = x \/ In y l.
Proof.
  induction l as [|z l IH]; cbn [insert_ordered].
  - cbn. intuition.
  - destruct (inventory_before x z); cbn [In]; [intuition|].
    rewrite IH. intuition.
Qed.

Lemma search_order_In l y : In y (search_order l) <-> In y l.
Proof.
  unfold search_order. induction l as [|x l IH]; cbn [fold_right]; [reflexivity|].
  rewrite insert_ordered_In, IH. cbn. intuition.
Qed.

Lemma existing_conflict_invs_spec s company_id x :
  NoDup (map Inventory.id (inventories s)) -> In x (inventories s) ->
  mem (Inventory.id x) (existing_conflict_invs s company_id) = true
  <-> (Inventory.state x = State.draft \/ Inventory.state x = State.confirm)
      /\ Inventory.is_conflict_inventory x = true
      /\ company_domain company_id (Some (Inventory.company_id x)) = true.
Proof.
  intros Hnd Hx. unfold existing_conflict_invs.
  rewrite mem_In, in_map_iff.
  assert (Hcond : forall y,
             (match Inventory.state y with
              | State.draft | State.confirm => true
              | _ => false
              end
              && Inventory.is_conflict_inventory y
              && company_domain company_id (Some (Inventory.company_id y))) = true
             <-> (Inventory.state y = State.draft \/ Inventory.state y = State.confirm)
                 /\ Inventory.is_conflict_inventory y = true
                 /\ company_domain company_id (Some (Inventory.company_id y)) = true).
  { intro y. rewrite !andb_true_iff. destruct (Inventory.state y); intuition discriminate. }
  split.
  - intros [y [Hid Hy]]. apply search_order_In, filter_In in Hy.
    destruct Hy as [Hy Hc].
    assert (y = x) by (now apply (same_id_same_inventory (inventories s))).
    subst y. now apply Hcond.
  - intro Hc. exists x. split; [reflexivity|].
    apply search_order_In, filter_In. split; [exact Hx | now apply Hcond].
Qed.

Lemma edited_refl x : edited x x.
Proof. unfold edited. now destruct x. Qed.

Lemma edited_trans x y z : edited x y -> edited y z -> edited x z.
Proof. unfold edited. intros -> ->. reflexivity. Qed.

Lemma edited_fields x x' :
  edited x x' ->
  Inventory.id x' = Inventory.id x
  /\ Inventory.state x' = Inventory.state x
  /\ Inventory.is_conflict_inventory x' = Inventory.is_conflict_inventory x
  /\ Inventory.company_id x' = Inventory.company_id x
  /\ Inventory.location_ids x' = Inventory.location_ids x.
Proof. unfold edited. intros ->. cbn. auto. Qed.

Lemma conflict_edits_refl company_id s : conflict_edits company_id s s.
Proof.
  repeat split. induction (inventories s) as [|x xs IH]; constructor; [|exact IH].
  split; [apply edited_refl|]. split; [reflexivity | now left].
Qed.

Lemma conflict_edits_ids company_id s s' :
  conflict_edits company_id s s' ->
  map Inventory.id (inventories s') = map Inventory.id (inventories s).
Proof.
  intros [_ [_ [_ [_ H]]]].
  induction H as [|x x' xs xs' [Hed _] _ IH]; [reflexivity|].
  cbn [map]. rewrite IH. f_equal. now apply edited_fields.
Qed.

Lemma Forall2_map_r_In {A B C} (R : A -> B -> Prop) (R' : A -> C -> Prop)
      (h : B -> C) xs ys :
  Forall2 R xs ys ->
  (forall x y, In x xs -> In y ys -> R x y -> R' x (h y)) ->
  Forall2 R' xs (map h ys).
Proof.
  induction 1 as [|x y xs ys Hxy _ IH]; intro H; cbn [map]; constructor.
  - apply H; auto; now left.
  - apply IH. intros a b Ha Hb. apply H; now right.
Qed.

Lemma browse_inventories_In s self y :
  In y (browse_inventories s self) -> In y (inventories s) /\ In (Inventory.id y) self.
Proof.
  unfold browse_inventories. intro H. apply filter_map_In in H.
  destruct H as [j [Hj Hb]]. pose proof (browse_inventory_id _ _ _ Hb) as Hid.
  cbn [browse_inventory] in Hb. apply find_some in Hb. destruct Hb as [Hin _].
  split; [exact Hin | now rewrite Hid].
Qed.

Lemma browse_inventories_complete s self y :
  NoDup (map Inventory.id (inventories s)) ->
  In y (inventories s) -> In (Inventory.id y) self ->
  In y (browse_inventories s self).
Proof.
  intros Hnd Hy Hid. unfold browse_inventories. apply filter_map_In.
  exists (Inventory.id y). split; [exact Hid|]. now apply browse_inventory_NoDup.
Qed.

(** The records of the search, read in a store that the loops have
    worked on. *)
Lemma browse_existing company_id s0 s x' :
  NoDup (map Inventory.id (inventories s0)) ->
  conflict_edits company_id s0 s ->
  In x' (browse_inventories s (existing_conflict_invs s0 company_id)) ->
  In x' (inventories s)
  /\ exists x, In x (inventories s0) /\ edited x x'
               /\ Inventory.is_conflict_inventory x = true
               /\ company_domain company_id (Some (Inventory.company_id x)) = true.
Proof.
  intros Hnd Hed Hx'. unfold browse_inventories in Hx'.
  apply filter_map_In in Hx'. destruct Hx' as [j [Hj Hb]].
  pose proof (browse_inventory_id _ _ _ Hb) as Hid.
  cbn [browse_inventory] in Hb. apply find_some in Hb. destruct Hb as [Hin _].
  split; [exact Hin|].
  destruct Hed as [_ [_ [_ [_ HF]]]].
  destruct (Forall2_In_r _ _ _ _ HF Hin) as [x [Hx [Hedit _]]].
  exists x. split; [exact Hx|]. split; [exact Hedit|].
  destruct (edited_fields _ _ Hedit) as [Hi _].
  assert (Hmem : mem (Inventory.id x) (existing_conflict_invs s0 company_id) = true).
  { apply mem_In. now rewrite <- Hi, Hid. }
  apply (existing_conflict_invs_spec s0 company_id x Hnd Hx) in Hmem. tauto.
Qed.

(** Writing products and lots on draft records of the search. *)
Lemma write_existing_drafts company_id s0 s targets g :
  NoDup (map Inventory.id (inventories s0)) ->
  conflict_edits company_id s0 s ->
  (forall t, In t targets ->
             In t (browse_inventories s (existing_conflict_invs s0 company_id))
             /\ Inventory.state t = State.draft
             /\ is_set (Inventory.lot_ids (g t)) = is_set (Inventory.lot_ids t)) ->
  (forall x, edited x (g x)) ->
  conflict_edits company_id s0
                 (snd (inventory_write (map Inventory.id targets) g s))
  /\ forall j, In j (map Inventory.id targets) ->
               exists x, In x (inventories s0) /\ Inventory.id x = j
                         /\ conflict_draft company_id x.
Proof.
  intros Hnd Hed Htargets Hg.
  assert (Hdraft : forall t, In t targets ->
                     exists x, In x (inventories s0) /\ Inventory.id x = Inventory.id t
                               /\ conflict_draft company_id x).
  { intros t Ht. destruct (Htargets t Ht) as [Hb [Hst _]].
    destruct (browse_existing company_id s0 s t Hnd Hed Hb) as [_ [x [Hx [Hedit [Hc Hd]]]]].
    destruct (edited_fields _ _ Hedit) as [Hi [Hs _]].
    exists x. split; [exact Hx|]. split; [now rewrite Hi|].
    unfold conflict_draft. rewrite <- Hs. auto. }
  split.
  - pose proof (conflict_edits_ids _ _ _ Hed) as Hids.
    destruct Hed as [Hl [Hm [Hloc [Hseq HF]]]].
    cbn [inventory_write modify snd].
    split; [exact Hl|]. split; [exact Hm|]. split; [exact Hloc|]. split; [exact Hseq|].
    cbn [inventories set_inventories].
    apply (Forall2_map_r_In _ _ _ _ _ HF).
    intros x y Hx Hy [Hedit [Hlots Hsame]].
    destruct (mem (Inventory.id y) (map Inventory.id targets)) eqn:Hmem;
      [|split; [assumption|split; assumption]].
    apply mem_In, in_map_iff in Hmem. destruct Hmem as [t [Hid Ht]].
    assert (t = y).
    { destruct (Htargets t Ht) as [Hb _]. apply browse_inventories_In in Hb.
      destruct Hb as [Hb _].
      apply (same_id_same_inventory (inventories s)); auto.
      rewrite Hids. exact Hnd. }
    subst t.
    split; [exact (edited_trans _ _ _ Hedit (Hg y))|].
    split; [destruct (Htargets y Ht) as [_ [_ Hg']]; congruence|]. right.
    destruct (Hdraft y Ht) as [x0 [Hx0 [Hid0 Hc]]].
    destruct (edited_fields _ _ Hedit) as [Hi _].
    assert (x0 = x).
    { apply (same_id_same_inventory (inventories s0)); auto. congruence. }
    now subst x0.
  - intros j Hj. apply in_map_iff in Hj. destruct Hj as [t [<- Ht]].
    now apply Hdraft.
Qed.


Lemma State_eqb_eq a b : State.eqb a b = true <-> a = b.
Proof. destruct a, b; cbn; split; intro H; try discriminate; reflexivity. Qed.

Lemma fold_m_invariant {A B} (f : B -> A -> M B) (I : db -> B -> Prop) xs :
  (forall acc x s, In x xs -> I s acc ->
                   exists acc' s', f acc x s = (inr acc', s') /\ I s' acc') ->
  forall acc s, I s acc ->
    exists acc' s', fold_m f xs acc s = (inr acc', s') /\ I s' acc'.
Proof.
  induction xs as [|x xs IH]; intros Hf acc s HI.
  - exists acc, s. split; [reflexivity | exact HI].
  - cbn [fold_m]. unfold bind.
    destruct (Hf acc x s (or_introl eq_refl) HI) as [acc1 [s1 [Hrun HI1]]]. rewrite Hrun.
    apply IH; [|exact HI1]. intros acc0 y s0 Hy. apply Hf. now right.
Qed.

Lemma conflict_acc_updated E company_id s0 vals updated more :
  conflict_acc E company_id s0 (vals, updated) ->
  (forall j, In j more ->
             exists x, In x (inventories s0) /\ Inventory.id x = j
                       /\ conflict_draft company_id x) ->
  conflict_acc E company_id s0 (vals, updated ++ more).
Proof.
  intros [Hv Hu] Hmore. split; [exact Hv|]. cbn [snd]. intros j Hj.
  apply in_app_or in Hj. destruct Hj as [Hj|Hj]; [now apply Hu | now apply Hmore].
Qed.

Lemma conflict_acc_vals E company_id s0 vals updated v :
  conflict_acc E company_id s0 (vals, updated) ->
  InventoryVals.is_conflict_inventory v = true ->
  collision_free E company_id s0 v ->
  conflict_acc E company_id s0 (vals ++ [v], updated).
Proof.
  intros [Hv Hu] Hc Hfree. split; [|exact Hu]. cbn [fst].
  apply Forall_app. split; [exact Hv|]. constructor; [now split | constructor].
Qed.

Lemma In_removelast {A} (a : A) l : In a (removelast l) -> In a l.
Proof.
  induction l as [|x l IH]; [intros []|].
  cbn [removelast]. destruct l as [|y l]; [intros []|].
  intros [<-|H]; [now left | right; now apply IH].
Qed.

Lemma filter_filter_and {A} (P Q : A -> bool) xs :
  filter Q (filter P xs) = filter (fun x => P x && Q x) xs.
Proof.
  induction xs as [|x xs IH]; [reflexivity|].
  cbn [filter]. destruct (P x); cbn [andb filter]; [|exact IH].
  destruct (Q x); [f_equal|]; exact IH.
Qed.

(** The locations of a warehouse of the run are those below its view
    location. *)
Lemma warehouse_to_locations_below s warehouse_ids w :
  In w warehouse_ids -> warehouse_to_locations s warehouse_ids w = below_view s w.
Proof.
  intro Hw. unfold warehouse_to_locations, below_view. f_equal.
  rewrite filter_filter_and. apply filter_ext. intro l.
  destruct (existsb (fun location_id => location_id =? Warehouse.view_location_id w)
                    (ancestor_ids l)) eqn:Hanc; [|now rewrite !andb_false_r].
  rewrite !andb_true_r.
  assert (Hchild : child_of (map Warehouse.view_location_id warehouse_ids) l = true).
  { unfold child_of. apply existsb_exists in Hanc. destruct Hanc as [a [Ha Heq]].
    apply Z.eqb_eq in Heq. subst a. apply existsb_exists.
    exists (Warehouse.view_location_id w). split.
    - unfold ancestor_ids in Ha. now apply In_removelast.
    - apply mem_In. now apply in_map. }
  now rewrite Hchild, andb_true_r.
Qed.

(** An inventory of the search, as the loops find it in the store they
    work on. *)
Lemma existing_now company_id s0 s y :
  NoDup (map Inventory.id (inventories s0)) ->
  conflict_edits company_id s0 s ->
  In y (inventories s0) -> in_progress_conflict company_id y ->
  exists y',
    In y' (browse_inventories s (existing_conflict_invs s0 company_id))
    /\ Inventory.state y' = Inventory.state y
    /\ Inventory.company_id y' = Inventory.company_id y
    /\ Inventory.location_ids y' = Inventory.location_ids y
    /\ is_set (Inventory.lot_ids y') = is_set (Inventory.lot_ids y).
Proof.
  intros Hnd Hed Hy Hprog. pose proof (conflict_edits_ids _ _ _ Hed) as Hids.
  destruct Hed as [_ [_ [_ [_ HF]]]].
  destruct (Forall2_In_l _ _ _ _ HF Hy) as [y' [Hy' [Hedit [Hlots _]]]].
  destruct (edited_fields _ _ Hedit) as [Hi [Hs [_ [Hc Hl]]]].
  exists y'. split; [|auto].
  apply browse_inventories_complete; [now rewrite Hids | exact Hy' |].
  rewrite Hi. apply mem_In.
  now apply (existing_conflict_invs_spec s0 company_id y Hnd Hy).
Qed.

Lemma negative_quantity_step_inv E warehouse_name company_id s0 neg_quants
      warehouse_ids acc cw s :
  NoDup (map Inventory.id (inventories s0)) ->
  In (snd cw) warehouse_ids ->
  (forall w, In w warehouse_ids -> In w (warehouses E)) ->
  Warehouse.company_id (snd cw) = fst cw ->
  conflict_edits company_id s0 s /\ conflict_acc E company_id s0 acc ->
  exists acc' s',
    negative_quantity_step warehouse_name (existing_conflict_invs s0 company_id)
                           neg_quants (warehouse_to_locations s0 warehouse_ids)
                           acc cw s = (inr acc', s')
    /\ conflict_edits company_id s0 s' /\ conflict_acc E company_id s0 acc'.
Proof.
  intros Hnd Hw Hwhs Hcompany [Hed Hacc].
  destruct cw as [company warehouse]. destruct acc as [vals updated].
  cbn [fst snd] in Hw, Hcompany.
  unfold negative_quantity_step, bind, get.
  rewrite (warehouse_to_locations_below s0 warehouse_ids warehouse Hw).
  destruct (filter (fun i => State.eqb (Inventory.state i) State.confirm
                             && (Inventory.company_id i =? company)
                             && touches (below_view s0 warehouse) i)
                   (browse_inventories s (existing_conflict_invs s0 company_id)))
    as [|c cs] eqn:Hconfirm; cbn [is_set];
    [|exists (vals, updated), s; auto].
  destruct (is_set (filter _ neg_quants)); [|exists (vals, updated), s; auto].
  destruct (filter (fun i => State.eqb (Inventory.state i) State.draft
                             && (Inventory.company_id i =? company)
                             && touches (below_view s0 warehouse) i)
                   (browse_inventories s (existing_conflict_invs s0 company_id)))
    as [|first rest] eqn:Hdraft.
  - eexists. exists s. split; [reflexivity|]. split; [exact Hed|].
    apply conflict_acc_vals; [exact Hacc | reflexivity|].
    left. exists warehouse. cbn [InventoryVals.company_id InventoryVals.location_ids].
    split; [now apply Hwhs|]. split; [exact Hcompany|]. split.
    { destruct Hed as [_ [_ [Hloc _]]]. unfold child_ids. now rewrite Hloc. }
    intros y Hy Hprog Hcomp.
    destruct (existing_now company_id s0 s y Hnd Hed Hy Hprog)
      as [y' [Hy' [Hst [Hc [Hl _]]]]].
    destruct (touches (below_view s0 warehouse) y) eqn:Htouch; [|reflexivity].
    exfalso.
    assert (Htouch' : touches (below_view s0 warehouse) y' = true)
      by (unfold touches in *; now rewrite Hl).
    assert (Hcomp' : (Inventory.company_id y' =? company) = true)
      by (apply Z.eqb_eq; congruence).
    destruct Hprog as [[Hs|Hs] _].
    + assert (Hin : In y' []).
      { rewrite <- Hdraft. apply filter_In. split; [exact Hy'|].
        rewrite Hst, Hs, Hcomp', Htouch'. reflexivity. }
      destruct Hin.
    + assert (Hin : In y' []).
      { rewrite <- Hconfirm. apply filter_In. split; [exact Hy'|].
        rewrite Hst, Hs, Hcomp', Htouch'. reflexivity. }
      destruct Hin.
  - assert (Hfirst : In first (browse_inventories s (existing_conflict_invs s0 company_id))
                     /\ Inventory.state first = State.draft).
    { assert (Hin : In first (first :: rest)) by now left.
      rewrite <- Hdraft in Hin. apply filter_In in Hin. destruct Hin as [Hin Hc].
      rewrite !andb_true_iff in Hc. destruct Hc as [[Hst _] _].
      split; [exact Hin | now apply State_eqb_eq]. }
    destruct (write_existing_drafts company_id s0 s [first]
                (set_product_ids
                   (uniq (map Quant.product_id
                              (filter (fun q => mem (Quant.location_id q)
                                                    (below_view s0 warehouse))
                                      neg_quants))))
                Hnd Hed) as [Hed' Hids].
    { intros t [<-|[]]. destruct Hfirst. auto. }
    { intro x. unfold edited. now destruct x. }
    cbn [map] in Hed', Hids.
    eexists. eexists. split; [reflexivity|]. split; [exact Hed'|].
    cbn [fst snd]. now apply conflict_acc_updated.
Qed.

Lemma uniq_is_set ids : is_set (uniq ids) = is_set ids.
Proof. now destruct ids. Qed.

Lemma duplicate_sn_step_inv E company_id s0 acc conflicts s :
  NoDup (map Inventory.id (inventories s0)) ->
  fst (snd conflicts) <> [] ->
  conflict_edits company_id s0 s /\ conflict_acc E company_id s0 acc ->
  exists acc' s',
    duplicate_sn_step (existing_conflict_invs s0 company_id) acc conflicts s
    = (inr acc', s')
    /\ conflict_edits company_id s0 s' /\ conflict_acc E company_id s0 acc'.
Proof.
  intros Hnd Hlots [Hed Hacc]. destruct conflicts as [company [lot_ids product_ids]].
  destruct acc as [vals updated]. cbn [fst snd] in Hlots.
  unfold duplicate_sn_step, bind, get.
  destruct (filter (fun i => State.eqb (Inventory.state i) State.confirm
                             && is_set (Inventory.lot_ids i)
                             && (Inventory.company_id i =? company))
                   (browse_inventories s (existing_conflict_invs s0 company_id)))
    as [|c cs] eqn:Hconfirm; cbn [is_set];
    [|exists (vals, updated), s; auto].
  set (draft_inv := filter (fun i => State.eqb (Inventory.state i) State.draft
                                     && is_set (Inventory.lot_ids i)
                                     && (Inventory.company_id i =? company))
                           (browse_inventories s (existing_conflict_invs s0 company_id))).
  destruct draft_inv as [|d ds] eqn:Hdraft; cbn [is_set].
  - eexists. exists s. split; [reflexivity|]. split; [exact Hed|].
    apply conflict_acc_vals; [exact Hacc | reflexivity|].
    right. cbn [InventoryVals.company_id InventoryVals.location_ids].
    split; [reflexivity|].
    intros y Hy Hprog Hcomp.
    destruct (existing_now company_id s0 s y Hnd Hed Hy Hprog)
      as [y' [Hy' [Hst [Hc [_ Hl]]]]].
    destruct (Inventory.lot_ids y) as [|lot lots] eqn:Hylots; [reflexivity|].
    exfalso. cbn [is_set] in Hl.
    assert (Hcomp' : (Inventory.company_id y' =? company) = true)
      by (apply Z.eqb_eq; congruence).
    destruct Hprog as [[Hs|Hs] _].
    + assert (Hin : In y' []).
      { rewrite <- Hdraft. unfold draft_inv. apply filter_In. split; [exact Hy'|].
        rewrite Hst, Hs, Hl, Hcomp'. reflexivity. }
      destruct Hin.
    + assert (Hin : In y' []).
      { rewrite <- Hconfirm. apply filter_In. split; [exact Hy'|].
        rewrite Hst, Hs, Hl, Hcomp'. reflexivity. }
      destruct Hin.
  - destruct (write_existing_drafts company_id s0 s (d :: ds)
                (fun i => set_product_ids (uniq product_ids) (set_lot_ids (uniq lot_ids) i))
                Hnd Hed) as [Hed' Hids].
    { intros t Ht. rewrite <- Hdraft in Ht. unfold draft_inv in Ht.
      apply filter_In in Ht. destruct Ht as [Hin Hc].
      rewrite !andb_true_iff in Hc. destruct Hc as [[Hst Hl] _].
      split; [exact Hin|]. split; [now apply State_eqb_eq|].
      cbn [set_product_ids set_lot_ids Inventory.lot_ids].
      rewrite uniq_is_set, Hl. now destruct lot_ids. }
    { intro x. unfold edited. now destruct x. }
    eexists. eexists. split; [reflexivity|]. split; [exact Hed'|].
    cbn [fst snd]. now apply conflict_acc_updated.
Qed.

Lemma add_sn_conflict_lots company lot product d :
  Forall (fun e : rec_id * (list rec_id * list rec_id) => fst (snd e) <> []) d ->
  Forall (fun e : rec_id * (list rec_id * list rec_id) => fst (snd e) <> [])
         (add_sn_conflict company lot product d).
Proof.
  induction 1 as [|[c [lots products]] d He Hd IH]; cbn [add_sn_conflict].
  - constructor; [discriminate | constructor].
  - destruct (c =? company); constructor; auto.
    cbn. intro H. apply app_eq_nil in H. destruct H as [_ H]. discriminate.
Qed.

Lemma company_to_sn_conflicts_lots groups conflicts :
  In conflicts (company_to_sn_conflicts groups) -> fst (snd conflicts) <> [].
Proof.
  unfold company_to_sn_conflicts.
  assert (H : forall d,
             Forall (fun e : rec_id * (list rec_id * list rec_id) => fst (snd e) <> []) d ->
             Forall (fun e : rec_id * (list rec_id * list rec_id) => fst (snd e) <> [])
                    (fold_left (fun d '((lot, company, product), count) =>
                                  if 1 <? count
                                  then add_sn_conflict company lot product d else d)
                               groups d)).
  { induction groups as [|[[[lot company] product] count] groups IH]; intros d Hd;
      [exact Hd|].
    cbn [fold_left]. apply IH. destruct (1 <? count); [|exact Hd].
    now apply add_sn_conflict_lots. }
  intro Hin. specialize (H [] (Forall_nil _)). rewrite Forall_forall in H.
  exact (H conflicts Hin).
Qed.


Lemma new_inventories_In E vals : forall first x,
  In x (new_inventories E first vals) ->
  first <= Inventory.id x < first + Z.of_nat (List.length vals)
  /\ Inventory.state x = State.draft
  /\ exists v, In v vals
               /\ Inventory.is_conflict_inventory x = InventoryVals.is_conflict_inventory v.
Proof.
  induction vals as [|v vals IH]; intros first x H; [destruct H|].
  cbn [new_inventories List.length] in *. destruct H as [<-|H].
  - cbn. split; [lia|]. split; [reflexivity|]. exists v. split; [now left | reflexivity].
  - destruct (IH _ _ H) as [Hb [Hst [w [Hw Hc]]]].
    split; [lia|]. split; [exact Hst|]. exists w. split; [now right | exact Hc].
Qed.

Lemma new_inventories_NoDup E vals : forall first,
  NoDup (map Inventory.id (new_inventories E first vals)).
Proof.
  induction vals as [|v vals IH]; intro first; cbn; constructor; [|apply IH].
  intro Hin. apply in_map_iff in Hin. destruct Hin as [x [Hid Hx]].
  apply new_inventories_In in Hx. lia.
Qed.

Lemma unlink_ok self s :
  (forall x, In x (browse_inventories s self) ->
             draft_or_cancel (Inventory.state x) = true) ->
  unlink self s = (inr true, snd (inventory_unlink (browse_inventories s self) s)).
Proof.
  intro H. unfold unlink, bind. rewrite unlink_if_draft_or_cancel_run.
  assert (Hok : existsb (fun inventory => negb (draft_or_cancel (Inventory.state inventory)))
                        (browse_inventories s self) = false).
  { apply existsb_false. intros x Hx. now rewrite (H x Hx). }
  rewrite Hok. reflexivity.
Qed.

(** The store after the loops and the creation has distinct ids. *)
Lemma conflict_created_wf E company_id s0 s1 vals :
  inventories_wf s0 -> conflict_edits company_id s0 s1 ->
  NoDup (map Inventory.id (inventories (snd (inventory_create E vals s1)))).
Proof.
  intros [Hnd Hbelow] Hed. pose proof (conflict_edits_ids _ _ _ Hed) as Hids.
  destruct Hed as [_ [_ [_ [Hseq _]]]].
  cbn [inventory_create modify snd inventories].
  rewrite map_app, Hids. apply NoDup_app; [exact Hnd | apply new_inventories_NoDup |].
  intros j Hj Hj'. apply in_map_iff in Hj. destruct Hj as [x [<- Hx]].
  apply in_map_iff in Hj'. destruct Hj' as [y [Hid Hy]].
  apply new_inventories_In in Hy. destruct Hy as [Hy _].
  rewrite Forall_forall in Hbelow. specialize (Hbelow x Hx). lia.
Qed.

(** The end of the conflict pass: creation, then deletion, which the
    ondelete guard lets through. *)
Lemma conflict_tail_run E company_id s0 s1 vals updated :
  inventories_wf s0 -> conflict_edits company_id s0 s1 ->
  bind (inventory_create E vals)
       (fun _ => bind get (fun s =>
        bind (unlink (filter (fun i => negb (mem i updated))
                             (map Inventory.id
                                  (filter (fun i => State.eqb (Inventory.state i) State.draft)
                                          (browse_inventories
                                             s (existing_conflict_invs s0 company_id))))))
             (fun _ => ret tt))) s1
  = (inr tt, conflict_final E company_id s0 s1 vals updated).
Proof.
  intros Hwf Hed. pose proof (conflict_created_wf E company_id s0 s1 vals Hwf Hed) as Hnd2.
  unfold bind at 1. cbn [inventory_create modify]. unfold bind at 1. unfold get at 1.
  unfold bind. rewrite unlink_ok; [reflexivity|].
  intros y Hy. apply browse_inventories_In in Hy. destruct Hy as [Hy Hid].
  apply filter_In in Hid. destruct Hid as [Hid _].
  apply in_map_iff in Hid. destruct Hid as [t [Hidt Ht]].
  apply filter_In in Ht. destruct Ht as [Ht Hst].
  apply browse_inventories_In in Ht. destruct Ht as [Ht _].
  assert (t = y).
  { apply (same_id_same_inventory _ t y Hnd2 Ht Hy Hidt). }
  subst t. apply State_eqb_eq in Hst. now rewrite Hst.
Qed.

(** The conflict pass never raises; it ends in the store described by
    [conflict_final]. *)
Lemma conflict_run E warehouse_name company_id s0 :
  inventories_wf s0 ->
  exists s1 vals updated,
    conflict_edits company_id s0 s1
    /\ conflict_acc E company_id s0 (vals, updated)
    /\ _run_conflict_inventory_tasks E warehouse_name company_id s0
       = (inr tt, conflict_final E company_id s0 s1 vals updated).
Proof.
  intro Hwf. pose proof Hwf as [Hnd _].
  unfold _run_conflict_inventory_tasks. unfold bind at 1. unfold get at 1.
  set (I := fun s acc => conflict_edits company_id s0 s
                         /\ conflict_acc E company_id s0 acc).
  assert (HI0 : I s0 ([], [])).
  { split; [apply conflict_edits_refl|]. split; [constructor | intros j []]. }
  unfold bind at 1.
  set (company_ids := uniq (map Quant.company_id (neg_quants E s0 company_id))).
  set (warehouse_ids := filter (fun w => mem (Warehouse.company_id w) company_ids)
                               (warehouses E)).
  match goal with
  | |- context [fold_m ?f ?xs ([], []) s0] =>
      destruct (fold_m_invariant f I xs) with (acc := ([] : list InventoryVals.t,
                                                       [] : list rec_id)) (s := s0)
        as [acc1 [s1 [Hrun1 HI1]]]; [|exact HI0|]
  end.
  { intros acc [company warehouse] s Hin HI.
    apply in_flat_map in Hin. destruct Hin as [c [_ Hin]].
    apply in_map_iff in Hin. destruct Hin as [w [Heq Hw]]. inversion Heq; subst c w.
    apply filter_In in Hw. destruct Hw as [Hw Hc]. apply Z.eqb_eq in Hc.
    apply (negative_quantity_step_inv E warehouse_name company_id s0 _ warehouse_ids
                                      acc (company, warehouse) s Hnd); auto.
    intros w Hw'. unfold warehouse_ids in Hw'. apply filter_In in Hw'. tauto. }
  rewrite Hrun1. unfold bind at 1.
  match goal with
  | |- context [fold_m ?f ?xs acc1 s1] =>
      destruct (fold_m_invariant f I xs) with (acc := acc1) (s := s1)
        as [[vals updated] [s2 [Hrun2 [Hed2 Hacc2]]]]; [|exact HI1|]
  end.
  { intros acc conflicts s Hin HI.
    apply (duplicate_sn_step_inv E company_id s0 acc conflicts s Hnd); [|exact HI].
    now apply company_to_sn_conflicts_lots in Hin. }
  rewrite Hrun2.
  exists s2, vals, updated. split; [exact Hed2|]. split; [exact Hacc2|].
  now apply conflict_tail_run.
Qed.


(** What the creation and the deletion that close the conflict pass
    leave. *)
Lemma conflict_final_spec E company_id s0 s1 vals updated :
  inventories_wf s0 -> conflict_edits company_id s0 s1 ->
  conflict_acc E company_id s0 (vals, updated) ->
  moves (conflict_final E company_id s0 s1 vals updated) = moves s0
  /\ locations (conflict_final E company_id s0 s1 vals updated) = locations s0
  /\ (forall l, In l (lines (conflict_final E company_id s0 s1 vals updated)) ->
                In l (lines s0))
  /\ (forall x', In x' (inventories (conflict_final E company_id s0 s1 vals updated)) ->
                 In x' (inventories s1)
                 \/ (In x' (new_inventories E (inventory_seq s0) vals)))
  /\ (forall x, In x (inventories s1) ->
                Inventory.state x <> State.draft
                \/ ~ In (Inventory.id x) (existing_conflict_invs s0 company_id)
                \/ In (Inventory.id x) updated ->
                In x (inventories (conflict_final E company_id s0 s1 vals updated))
                /\ line_ids (conflict_final E company_id s0 s1 vals updated)
                            (Inventory.id x)
                   = line_ids s0 (Inventory.id x))
  /\ (forall x, In x (new_inventories E (inventory_seq s0) vals) ->
                In x (inventories (conflict_final E company_id s0 s1 vals updated)))
  /\ (forall x, In x (inventories s1) ->
                In x (inventories (conflict_final E company_id s0 s1 vals updated)) ->
                Inventory.state x = State.draft ->
                In (Inventory.id x) (existing_conflict_invs s0 company_id) ->
                In (Inventory.id x) updated).
Proof.
  intros Hwf Hed Hacc.
  pose proof (conflict_created_wf E company_id s0 s1 vals Hwf Hed) as Hnd2.
  pose proof Hed as [Hl [Hm [Hloc [Hseq _]]]].
  unfold conflict_final.
  set (s2 := snd (inventory_create E vals s1)) in *.
  set (doomed := filter (fun i => negb (mem i updated))
                        (map Inventory.id
                             (filter (fun i => State.eqb (Inventory.state i) State.draft)
                                     (browse_inventories
                                        s2 (existing_conflict_invs s0 company_id))))).
  assert (Hinv2 : inventories s2
                  = inventories s1 ++ new_inventories E (inventory_seq s0) vals)
    by (unfold s2; cbn [inventory_create modify snd inventories]; now rewrite Hseq).
  assert (Hlines2 : lines s2 = lines s0) by (unfold s2; cbn; exact Hl).
  assert (Hdoomed : forall x, In x (inventories s2) ->
                      (mem (Inventory.id x) (map Inventory.id (browse_inventories s2 doomed))
                       = true
                       <-> Inventory.state x = State.draft
                           /\ In (Inventory.id x) (existing_conflict_invs s0 company_id)
                           /\ ~ In (Inventory.id x) updated)).
  { intros x Hx. rewrite mem_In, in_map_iff. split.
    - intros [y [Hid Hy]]. apply browse_inventories_In in Hy. destruct Hy as [Hy Hd].
      assert (y = x) by (now apply (same_id_same_inventory (inventories s2))).
      subst y. unfold doomed in Hd. apply filter_In in Hd. destruct Hd as [Hd Hnot].
      apply in_map_iff in Hd. destruct Hd as [t [Hidt Ht]].
      apply filter_In in Ht. destruct Ht as [Ht Hst].
      apply browse_inventories_In in Ht. destruct Ht as [Ht Hex].
      assert (t = x) by (now apply (same_id_same_inventory (inventories s2))).
      subst t. split; [now apply State_eqb_eq|]. split; [exact Hex|].
      apply negb_true_iff in Hnot. intro Hup. apply mem_In in Hup. congruence.
    - intros [Hst [Hex Hnot]]. exists x. split; [reflexivity|].
      apply browse_inventories_complete; [exact Hnd2 | exact Hx|].
      unfold doomed. apply filter_In. split.
      + apply in_map. apply filter_In. split.
        * now apply browse_inventories_complete.
        * now apply State_eqb_eq.
      + apply negb_true_iff. destruct (mem (Inventory.id x) updated) eqn:Hup;
          [|reflexivity]. apply mem_In in Hup. contradiction. }
  cbn [inventory_unlink modify snd moves locations lines inventories
       set_lines set_inventories].
  split; [unfold s2; cbn; exact Hm|]. split; [unfold s2; cbn; exact Hloc|].
  split; [|split; [|split; [|split]]].
  - intros l Hin. apply filter_In in Hin. destruct Hin as [Hin _]. now rewrite <- Hlines2.
  - intros x' Hx'. apply filter_In in Hx'. destruct Hx' as [Hx' _].
    rewrite Hinv2 in Hx'. now apply in_app_or in Hx'.
  - intros x Hx Hkeep.
    assert (Hx2 : In x (inventories s2)) by (rewrite Hinv2; apply in_or_app; now left).
    assert (Hnot : mem (Inventory.id x)
                       (map Inventory.id (browse_inventories s2 doomed)) = false).
    { destruct (mem (Inventory.id x) _) eqn:Hd; [|reflexivity].
      apply (Hdoomed x Hx2) in Hd. destruct Hd as [Hst [Hex Hup]]. tauto. }
    split.
    + apply filter_In. split; [exact Hx2 | now rewrite Hnot].
    + unfold line_ids. cbn [lines]. rewrite Hlines2. apply filter_filter_keep.
      intros l _ Hinv. apply many2one_eqb_eq in Hinv. now rewrite Hinv, Hnot.
  - intros x Hx.
    assert (Hx2 : In x (inventories s2)) by (rewrite Hinv2; apply in_or_app; now right).
    apply filter_In. split; [exact Hx2|]. apply negb_true_iff.
    destruct (mem (Inventory.id x) _) eqn:Hd; [|reflexivity].
    apply (Hdoomed x Hx2) in Hd. destruct Hd as [_ [Hex _]].
    exfalso. unfold existing_conflict_invs in Hex. apply in_map_iff in Hex.
    destruct Hex as [y [Hid Hy]]. apply search_order_In, filter_In in Hy.
    destruct Hy as [Hy _]. destruct Hwf as [_ Hbelow].
    rewrite Forall_forall in Hbelow. specialize (Hbelow y Hy).
    apply new_inventories_In in Hx. lia.
  - intros x Hx Hleft Hst Hex.
    assert (Hx2 : In x (inventories s2)) by (rewrite Hinv2; apply in_or_app; now left).
    apply filter_In in Hleft. destruct Hleft as [_ Hleft].
    apply negb_true_iff in Hleft.
    destruct (mem (Inventory.id x) updated) eqn:Hup; [now apply mem_In|].
    assert (Hd : mem (Inventory.id x)
                     (map Inventory.id (browse_inventories s2 doomed)) = true).
    { apply (Hdoomed x Hx2). split; [exact Hst|]. split; [exact Hex|].
      intro Hin. apply mem_In in Hin. congruence. }
    congruence.
Qed.

Lemma conflict_run_kept E warehouse_name company_id s :
  inventories_wf s ->
  exists s',
    _run_conflict_inventory_tasks E warehouse_name company_id s = (inr tt, s')
    /\ moves s' = moves s
    /\ locations s' = locations s
    /\ (forall l, In l (lines s') -> In l (lines s))
    /\ (forall x, In x (inventories s) -> ~ conflict_draft company_id x ->
                  In x (inventories s')
                  /\ line_ids s' (Inventory.id x) = line_ids s (Inventory.id x))
    /\ (forall x', In x' (inventories s') ->
                   (exists x, In x (inventories s) /\ edited x x'
                              /\ (x' = x \/ conflict_draft company_id x))
                   \/ (inventory_seq s <= Inventory.id x'
                       /\ Inventory.state x' = State.draft
                       /\ Inventory.is_conflict_inventory x' = true)).
Proof.
  intro Hwf. pose proof Hwf as [Hnd _].
  destruct (conflict_run E warehouse_name company_id s Hwf)
    as [s1 [vals [updated [Hed [Hacc Hrun]]]]].
  destruct (conflict_final_spec E company_id s s1 vals updated Hwf Hed Hacc)
    as [Hm [Hloc [Hlines [Hfrom [Hkept _]]]]].
  exists (conflict_final E company_id s s1 vals updated).
  split; [exact Hrun|]. split; [exact Hm|]. split; [exact Hloc|].
  split; [exact Hlines|].
  pose proof Hed as [_ [_ [_ [_ HF]]]].
  split.
  - intros x Hx Hnot.
    destruct (Forall2_In_l _ _ _ _ HF Hx) as [x' [Hx' [Hedit [_ [->|Hc]]]]];
      [|contradiction].
    apply (Hkept x Hx').
    destruct (State.eqb (Inventory.state x) State.draft) eqn:Hst.
    + right. left. intro Hin. apply mem_In in Hin.
      apply (existing_conflict_invs_spec s company_id x Hnd Hx) in Hin.
      apply Hnot. apply State_eqb_eq in Hst. unfold conflict_draft. tauto.
    + left. intro Heq. apply State_eqb_eq in Heq. congruence.
  - intros x' Hx'. destruct (Hfrom x' Hx') as [Hold|Hnew].
    + left. destruct (Forall2_In_r _ _ _ _ HF Hold) as [x [Hx [Hedit [_ Hc]]]].
      exists x. auto.
    + right. apply new_inventories_In in Hnew.
      destruct Hnew as [Hb [Hst [v [Hv Hc]]]].
      split; [lia|]. split; [exact Hst|].
      destruct Hacc as [Hvals _]. cbn [fst] in Hvals.
      rewrite Forall_forall in Hvals. destruct (Hvals v Hv) as [Hflag _].
      now rewrite Hc, Hflag.
Qed.

(** X17.  The conflict pass never raises, and it touches nothing but
    draft conflict inventories of the companies it runs for.  An inventory
    that is not one of those (another state, another company, not a
    conflict inventory) is left as it is, with its lines; an inventory
    that the pass leaves is a new draft conflict inventory, or an
    inventory of the store of which at most the products and the lots
    have changed, and then it was a draft conflict inventory; no line is
    added, and moves and locations are untouched. *)
Theorem conflict_run_frame E warehouse_name company_id s :
  inventories_wf s ->
  exists s',
    _run_conflict_inventory_tasks E warehouse_name company_id s = (inr tt, s')
    /\ moves s' = moves s
    /\ locations s' = locations s
    /\ (forall l, In l (lines s') -> In l (lines s))
    /\ (forall x, In x (inventories s) -> ~ conflict_draft company_id x ->
                  In x (inventories s')
                  /\ line_ids s' (Inventory.id x) = line_ids s (Inventory.id x))
    /\ (forall x', In x' (inventories s') ->
                   (exists x, In x (inventories s) /\ edited x x'
                              /\ (x' = x \/ conflict_draft company_id x))
                   \/ (inventory_seq s <= Inventory.id x'
                       /\ Inventory.state x' = State.draft
                       /\ Inventory.is_conflict_inventory x' = true)).
Proof. apply conflict_run_kept. Qed.


Lemma demo_conflict_inventories_wf : inventories_wf DemoConflict.store.
Proof. split; cbn; repeat constructor; cbn; intuition lia. Qed.

Lemma conflict_run_frame_witness :
  exists s',
    _run_conflict_inventory_tasks DemoCancel.E DemoConflict.warehouse_name None
                                  DemoConflict.store = (inr tt, s')
    /\ moves s' = moves DemoConflict.store
    /\ locations s' = locations DemoConflict.store
    /\ (forall l, In l (lines s') -> In l (lines DemoConflict.store))
    /\ (forall x, In x (inventories DemoConflict.store) -> ~ conflict_draft None x ->
                  In x (inventories s')
                  /\ line_ids s' (Inventory.id x)
                     = line_ids DemoConflict.store (Inventory.id x))
    /\ (forall x', In x' (inventories s') ->
                   (exists x, In x (inventories DemoConflict.store) /\ edited x x'
                              /\ (x' = x \/ conflict_draft None x))
                   \/ (inventory_seq DemoConflict.store <= Inventory.id x'
                       /\ Inventory.state x' = State.draft
                       /\ Inventory.is_conflict_inventory x' = true)).
Proof.
  apply (conflict_run_frame DemoCancel.E DemoConflict.warehouse_name None
                            DemoConflict.store).
  exact demo_conflict_inventories_wf.
Defined.

(** With the negative bolts of the stock, the stale draft is taken over:
    its products become the bolts; over a ledger without anomaly
    ([Demo.E]) it is deleted with its line.  The inventory in progress
    stays in both runs. *)
Example run_conflict_inventory_tasks_demo :
  map (fun x => (Inventory.id x, Inventory.state x, Inventory.product_ids x))
      (inventories (snd (_run_conflict_inventory_tasks
                           DemoCancel.E DemoConflict.warehouse_name None
                           DemoConflict.store)))
  = [(1, State.confirm, []); (2, State.draft, [10])]
  /\ map Inventory.id
         (inventories (snd (_run_conflict_inventory_tasks
                              Demo.E DemoConflict.warehouse_name None
                              DemoConflict.store)))
     = [1]
  /\ map Line.id
         (lines (snd (_run_conflict_inventory_tasks
                        Demo.E DemoConflict.warehouse_name None DemoConflict.store)))
     = [1; 2; 3]
  /\ map (fun x => (Inventory.id x, Inventory.name x, Inventory.location_ids x,
                    Inventory.product_ids x))
         (inventories (snd (_run_conflict_inventory_tasks
                              DemoCancel.E DemoConflict.warehouse_name None Demo.store)))
     = [(1, "Yearly count", [21], []);
        (2, "Negative Quantity Inventory: Main", [21], [10])].
Proof. repeat split; reflexivity. Qed.

(** X18.  Cleanup.  When the ledger shows no negative quantity in stock
    and no serial number held by two quants, for the companies of the
    run, the conflict pass creates nothing and deletes every draft
    conflict inventory of these companies: the inventories it leaves are
    those of the store that are not such drafts. *)
Theorem conflict_run_cleanup E warehouse_name company_id s :
  inventories_wf s ->
  neg_quants E s company_id = [] ->
  company_to_sn_conflicts (sn_groups (sn_quants E s company_id)) = [] ->
  exists s',
    _run_conflict_inventory_tasks E warehouse_name company_id s = (inr tt, s')
    /\ forall x, In x (inventories s')
                 <-> In x (inventories s) /\ ~ conflict_draft company_id x.
Proof.
  intros Hwf Hneg Hsn. pose proof Hwf as [Hnd Hbelow].
  assert (Hacc : conflict_acc E company_id s ([], []))
    by (split; [constructor | intros j []]).
  pose proof (conflict_edits_refl company_id s) as Hed.
  exists (conflict_final E company_id s s [] []). split.
  - unfold _run_conflict_inventory_tasks. unfold bind at 1. unfold get at 1.
    rewrite Hneg, Hsn. cbn [map uniq flat_map fold_m]. unfold bind at 1. unfold ret at 1.
    unfold bind at 1. unfold ret at 1.
    now apply conflict_tail_run.
  - destruct (conflict_final_spec E company_id s s [] [] Hwf Hed Hacc)
      as [_ [_ [_ [Hfrom [Hkept [_ Hupd]]]]]].
    intro x. split.
    + intro Hx. destruct (Hfrom x Hx) as [Hold|[]].
      split; [exact Hold|]. intros [Hst [Hc Hd]].
      apply (Hupd x Hold Hx Hst). apply mem_In.
      apply (existing_conflict_invs_spec s company_id x Hnd Hold). auto.
    + intros [Hx Hnot]. apply (Hkept x Hx).
      destruct (State.eqb (Inventory.state x) State.draft) eqn:Hst.
      * right. left. intro Hin. apply mem_In in Hin.
        apply (existing_conflict_invs_spec s company_id x Hnd Hx) in Hin.
        apply Hnot. apply State_eqb_eq in Hst. unfold conflict_draft. tauto.
      * left. intro Heq. apply State_eqb_eq in Heq. congruence.
Qed.

Lemma conflict_run_cleanup_witness :
  exists s',
    _run_conflict_inventory_tasks Demo.E DemoConflict.warehouse_name None
                                  DemoConflict.store = (inr tt, s')
    /\ forall x, In x (inventories s')
                 <-> In x (inventories DemoConflict.store) /\ ~ conflict_draft None x.
Proof.
  apply (conflict_run_cleanup Demo.E DemoConflict.warehouse_name None DemoConflict.store).
  - exact demo_conflict_inventories_wf.
  - reflexivity.
  - reflexivity.
Defined.


Lemma new_inventories_values E vals : forall first x,
  In x (new_inventories E first vals) ->
  exists k v, In v vals /\ x = inventory_of_values E k v.
Proof.
  induction vals as [|v vals IH]; intros first x H; [destruct H|].
  cbn [new_inventories] in H. destruct H as [<-|H].
  - exists first, v. split; [now left | reflexivity].
  - destruct (IH _ _ H) as [k [w [Hw ->]]]. exists k, w. split; [now right | reflexivity].
Qed.

(** X19.  The conflict pass avoids collisions.  An inventory that it
    creates is for the locations under the view location of a warehouse,
    and then no conflict inventory in progress (draft or confirmed) of
    that company touches a location of the warehouse; or it is for
    duplicated serial numbers and names no location, and then no conflict
    inventory in progress of that company holds lots. *)
Theorem conflict_run_avoids_collisions E warehouse_name company_id s :
  inventories_wf s ->
  exists s',
    _run_conflict_inventory_tasks E warehouse_name company_id s = (inr tt, s')
    /\ forall x', In x' (inventories s') -> inventory_seq s <= Inventory.id x' ->
         (exists w,
             In w (warehouses E)
             /\ Warehouse.company_id w = Inventory.company_id x'
             /\ Inventory.location_ids x'
                = uniq (child_ids s (Warehouse.view_location_id w))
             /\ forall y, In y (inventories s) -> in_progress_conflict company_id y ->
                          Inventory.company_id y = Inventory.company_id x' ->
                          touches (below_view s w) y = false)
         \/ (Inventory.location_ids x' = []
             /\ forall y, In y (inventories s) -> in_progress_conflict company_id y ->
                          Inventory.company_id y = Inventory.company_id x' ->
                          Inventory.lot_ids y = []).
Proof.
  intro Hwf. pose proof Hwf as [Hnd Hbelow].
  destruct (conflict_run E warehouse_name company_id s Hwf)
    as [s1 [vals [updated [Hed [Hacc Hrun]]]]].
  destruct (conflict_final_spec E company_id s s1 vals updated Hwf Hed Hacc)
    as [_ [_ [_ [Hfrom _]]]].
  exists (conflict_final E company_id s s1 vals updated).
  split; [exact Hrun|]. intros x' Hx' Hnew.
  destruct (Hfrom x' Hx') as [Hold|Hfresh].
  - exfalso. destruct Hed as [_ [_ [_ [_ HF]]]].
    destruct (Forall2_In_r _ _ _ _ HF Hold) as [x [Hx [Hedit _]]].
    destruct (edited_fields _ _ Hedit) as [Hi _].
    rewrite Forall_forall in Hbelow. specialize (Hbelow x Hx). lia.
  - apply new_inventories_values in Hfresh. destruct Hfresh as [k [v [Hv ->]]].
    destruct Hacc as [Hvals _]. cbn [fst] in Hvals.
    rewrite Forall_forall in Hvals. destruct (Hvals v Hv) as [_ Hfree].
    cbn [inventory_of_values Inventory.company_id Inventory.location_ids].
    destruct Hfree as [[w [Hw [Hc [Hl Hy]]]]|[Hl Hy]].
    + left. exists w. rewrite Hl. auto.
    + right. rewrite Hl. auto.
Qed.

Lemma conflict_run_avoids_collisions_witness :
  exists s',
    _run_conflict_inventory_tasks DemoCancel.E DemoConflict.warehouse_name None Demo.store
    = (inr tt, s')
    /\ forall x', In x' (inventories s') -> inventory_seq Demo.store <= Inventory.id x' ->
         (exists w,
             In w (warehouses DemoCancel.E)
             /\ Warehouse.company_id w = Inventory.company_id x'
             /\ Inventory.location_ids x'
                = uniq (child_ids Demo.store (Warehouse.view_location_id w))
             /\ forall y, In y (inventories Demo.store) -> in_progress_conflict None y ->
                          Inventory.company_id y = Inventory.company_id x' ->
                          touches (below_view Demo.store w) y = false)
         \/ (Inventory.location_ids x' = []
             /\ forall y, In y (inventories Demo.store) -> in_progress_conflict None y ->
                          Inventory.company_id y = Inventory.company_id x' ->
                          Inventory.lot_ids y = []).
Proof.
  apply (conflict_run_avoids_collisions DemoCancel.E DemoConflict.warehouse_name None
                                        Demo.store).
  split; cbn; repeat constructor; cbn; intuition lia.
Defined.


(** ** The scheduled task as a whole *)

(** X20.  The scheduled task as a whole, the cyclic counts followed by
    the conflict pass, never raises, and it is safe for the work in
    progress: every inventory that is not a draft (confirmed, validated
    or cancelled) is left as it is, with its lines; no line is added, and
    moves and locations are untouched. *)
Theorem run_inventory_tasks_safe E warehouse_name company_id s :
  inventories_wf s ->
  exists s',
    _run_inventory_tasks E (_run_conflict_inventory_tasks E warehouse_name) company_id s
    = (inr tt, s')
    /\ moves s' = moves s
    /\ locations s' = locations s
    /\ (forall l, In l (lines s') -> In l (lines s))
    /\ (forall x, In x (inventories s) -> Inventory.state x <> State.draft ->
                  In x (inventories s')
                  /\ line_ids s' (Inventory.id x) = line_ids s (Inventory.id x)).
Proof.
  intro Hwf. pose proof Hwf as [Hnd _].
  destruct (cyclic_run E (_run_conflict_inventory_tasks E warehouse_name) s company_id)
    as [s1 [news [Hrun [Hinv [Hlines [Hmoves [Hlocs [_ [_ Hwf1]]]]]]]]].
  specialize (Hwf1 Hwf).
  destruct (conflict_run_kept E warehouse_name company_id s1 Hwf1)
    as [s' [Hpass [Hm [Hloc [Hsub [Hkept _]]]]]].
  exists s'. split; [now rewrite Hrun|].
  split; [congruence|]. split; [congruence|]. split.
  - intros l Hl. apply Hsub in Hl. rewrite Hlines in Hl. apply filter_In in Hl. tauto.
  - intros x Hx Hst.
    assert (Hdel : mem (Inventory.id x)
                       (map Inventory.id (cyclic_deleted E s company_id)) = false).
    { destruct (mem (Inventory.id x) _) eqn:Hdel; [|reflexivity]. exfalso.
      apply (cyclic_deleted_mem E s company_id x Hnd Hx) in Hdel.
      apply cyclic_deleted_spec in Hdel. tauto. }
    assert (Hx1 : In x (inventories s1)).
    { rewrite Hinv. apply in_or_app. left. apply filter_In.
      split; [exact Hx | now rewrite Hdel]. }
    assert (Hnot : ~ conflict_draft company_id x) by (intros [Hd _]; contradiction).
    destruct (Hkept x Hx1 Hnot) as [Hin Hl]. split; [exact Hin|].
    rewrite Hl. unfold line_ids. rewrite Hlines. apply filter_filter_keep.
    intros l _ Hinv'. apply many2one_eqb_eq in Hinv'. now rewrite Hinv', Hdel.
Qed.

Lemma run_inventory_tasks_safe_witness :
  exists s',
    _run_inventory_tasks DemoCancel.E
                         (_run_conflict_inventory_tasks DemoCancel.E
                                                        DemoConflict.warehouse_name)
                         None DemoConflict.store
    = (inr tt, s')
    /\ moves s' = moves DemoConflict.store
    /\ locations s' = locations DemoConflict.store
    /\ (forall l, In l (lines s') -> In l (lines DemoConflict.store))
    /\ (forall x, In x (inventories DemoConflict.store) ->
                  Inventory.state x <> State.draft ->
                  In x (inventories s')
                  /\ line_ids s' (Inventory.id x)
                     = line_ids DemoConflict.store (Inventory.id x)).
Proof.
  apply (run_inventory_tasks_safe DemoCancel.E DemoConflict.warehouse_name None
                                  DemoConflict.store).
  exact demo_conflict_inventories_wf.
Defined.


(** ** Searching on the outdated flag *)

Lemma compute_outdated_flags E s ls flags :
  _compute_outdated E s ls = inr flags ->
  Forall2 (fun l f => line_outdated E s l = inr f) ls flags.
Proof.
  revert flags. induction ls as [|l ls IH]; intros flags H; cbn [_compute_outdated] in H.
  - inversion H. constructor.
  - destruct (line_outdated E s l) as [e|f] eqn:Hl; [discriminate H|].
    destruct (_compute_outdated E s ls) as [e|fs]; [discriminate H|].
    inversion H; subst. constructor; [exact Hl | now apply IH].
Qed.

Lemma compute_outdated_total E s ls :
  (forall l, In l ls -> browse_inventory s (Line.inventory_id l) <> None) ->
  exists flags, _compute_outdated E s ls = inr flags.
Proof.
  induction ls as [|l ls IH]; intro H; [now exists []|].
  cbn [_compute_outdated].
  assert (Hl : exists f, line_outdated E s l = inr f).
  { unfold line_outdated.
    destruct (browse_inventory s (Line.inventory_id l)) eqn:Hb;
      [|now destruct (H l (or_introl eq_refl))].
    destruct (state_is_done (line_state s l) || (Line.id l =? 0)); [now exists false|].
    destruct (negb _); eexists; reflexivity. }
  destruct Hl as [f Hf]. rewrite Hf.
  destruct IH as [fs Hfs]; [intros l' Hl'; apply H; now right|].
  rewrite Hfs. now exists (f :: fs).
Qed.

Lemma Forall2_combine_In {A B} (R : A -> B -> Prop) xs ys x y :
  Forall2 R xs ys -> In (x, y) (combine xs ys) -> In x xs /\ R x y.
Proof.
  induction 1 as [|x0 y0 xs ys Hxy _ IH]; cbn [combine]; intro Hin; [destruct Hin|].
  destruct Hin as [Heq|Hin].
  - inversion Heq; subst. split; [now left | exact Hxy].
  - destruct (IH Hin) as [Hx HR]. split; [now right | exact HR].
Qed.

Lemma Forall2_combine_l {A B} (R : A -> B -> Prop) xs ys x :
  Forall2 R xs ys -> In x xs -> exists y, In (x, y) (combine xs ys).
Proof.
  induction 1 as [|x0 y0 xs ys Hxy _ IH]; cbn [combine]; intro Hin; [destruct Hin|].
  destruct Hin as [<-|Hin].
  - exists y0. now left.
  - destruct (IH Hin) as [y Hy]. exists y. now right.
Qed.

(** X21.  Searching the lines of an inventory on [outdated = True] and on
    [outdated = False] never fails, and the two answers split the lines of
    the inventory: every line is in one of them, and none is in both; the
    operator [!=] swaps the answers. *)
Theorem search_outdated_splits E s i inventory :
  NoDup (map Line.id (lines s)) ->
  browse_inventory s (Some i) = Some inventory ->
  exists yes no,
    _search_outdated E s (Some i) "=" (PyBool true) = Domain yes
    /\ _search_outdated E s (Some i) "=" (PyBool false) = Domain no
    /\ _search_outdated E s (Some i) "!=" (PyBool false) = Domain yes
    /\ _search_outdated E s (Some i) "!=" (PyBool true) = Domain no
    /\ (forall l, In l (line_ids s i) -> In (Line.id l) yes \/ In (Line.id l) no)
    /\ (forall j, In j yes -> In j no -> False)
    /\ (forall j, In j yes \/ In j no -> In j (map Line.id (line_ids s i))).
Proof.
  intros Hnd Hb. unfold _search_outdated. cbn [String.eqb Ascii.eqb Bool.eqb negb].
  change (filter (fun l => many2one_eqb (Line.inventory_id l) (Some i)) (lines s))
    with (line_ids s i).
  destruct (compute_outdated_total E s (line_ids s i)) as [flags Hflags].
  { intros l Hl. apply filter_In in Hl. destruct Hl as [_ Hl].
    apply many2one_eqb_eq in Hl. rewrite Hl, Hb. discriminate. }
  rewrite Hflags. pose proof (compute_outdated_flags E s _ _ Hflags) as HF.
  eexists. eexists.
  split; [reflexivity|]. split; [reflexivity|]. split; [reflexivity|].
  split; [reflexivity|]. split; [|split].
  - intros l Hl. destruct (Forall2_combine_l _ _ _ l HF Hl) as [[|] Hin].
    + left. apply in_map_iff. exists (l, true). split; [reflexivity|].
      apply filter_In. split; [exact Hin | reflexivity].
    + right. apply in_map_iff. exists (l, false). split; [reflexivity|].
      apply filter_In. split; [exact Hin | reflexivity].
  - intros j Hyes Hno.
    apply in_map_iff in Hyes. destruct Hyes as [[l f] [Hid Hl]].
    apply in_map_iff in Hno. destruct Hno as [[l' f'] [Hid' Hl']].
    apply filter_In in Hl. destruct Hl as [Hl Hf].
    apply filter_In in Hl'. destruct Hl' as [Hl' Hf'].
    cbn [fst snd] in *.
    destruct (Forall2_combine_In _ _ _ _ _ HF Hl) as [Hin Hout].
    destruct (Forall2_combine_In _ _ _ _ _ HF Hl') as [Hin' Hout'].
    assert (l = l').
    { apply (same_id_same_line (lines s)); auto.
      - apply filter_In in Hin. tauto.
      - apply filter_In in Hin'. tauto.
      - congruence. }
    subst l'. rewrite Hout in Hout'. inversion Hout'; subst f'.
    destruct f; discriminate.
  - intros j [Hj|Hj]; apply in_map_iff in Hj; destruct Hj as [[l f] [Hid Hl]];
      apply filter_In in Hl; destruct Hl as [Hl _];
      destruct (Forall2_combine_In _ _ _ _ _ HF Hl) as [Hin _];
      cbn [fst] in Hid; rewrite <- Hid; now apply in_map.
Qed.

Lemma search_outdated_splits_witness :
  exists yes no,
    _search_outdated DemoStart.E Demo.store (Some 1) "=" (PyBool true) = Domain yes
    /\ _search_outdated DemoStart.E Demo.store (Some 1) "=" (PyBool false) = Domain no
    /\ _search_outdated DemoStart.E Demo.store (Some 1) "!=" (PyBool false) = Domain yes
    /\ _search_outdated DemoStart.E Demo.store (Some 1) "!=" (PyBool true) = Domain no
    /\ (forall l, In l (line_ids Demo.store 1) ->
                  In (Line.id l) yes \/ In (Line.id l) no)
    /\ (forall j, In j yes -> In j no -> False)
    /\ (forall j, In j yes \/ In j no -> In j (map Line.id (line_ids Demo.store 1))).
Proof.
  apply (search_outdated_splits DemoStart.E Demo.store 1 Demo.adjustment_inventory).
  - cbn. repeat constructor; cbn; intuition discriminate.
  - reflexivity.
Defined.

(** Over the ledger with 2 packaged bolts on the shelf, the lines 2 and 3
    of the inventory in progress are outdated, the line 1 is not; another
    operator is not implemented, nor is [!=] with a value that is not a
    boolean, while [=] takes 1 for [True]. *)
Example search_outdated_demo :
  _search_outdated DemoStart.E Demo.store (Some 1) "=" (PyBool true) = Domain [2; 3]
  /\ _search_outdated DemoStart.E Demo.store (Some 1) "=" (PyBool false) = Domain [1]
  /\ _search_outdated DemoStart.E Demo.store (Some 1) "=" (PyInt 1) = Domain [2; 3]
  /\ _search_outdated DemoStart.E Demo.store (Some 1) "!=" (PyInt 1) = NotImplementedError
  /\ _search_outdated DemoStart.E Demo.store (Some 1) "in" (PyBool true)
     = NotImplementedError.
Proof. repeat split; reflexivity. Qed.


(** ** Posting twice *)

Lemma post_inventory_run self s : post_inventory self s = (inr true, posted self s).
Proof. reflexivity. Qed.

Lemma posted_done self s m :
  In m (flat_map (move_ids (posted self s)) self) ->
  MoveState.is_done (MoveVals.state (Move.vals m)) = true.
Proof.
  intro Hm. apply in_flat_map in Hm. destruct Hm as [j [Hj Hm]].
  unfold move_ids, posted in Hm. cbn [moves set_moves] in Hm.
  apply filter_In in Hm. destruct Hm as [Hm Hinv].
  apply in_map_iff in Hm. destruct Hm as [m0 [Heq Hm0]].
  match type of Heq with
  | (if mem _ ?ids then _ else _) = _ => destruct (mem (Move.id m0) ids) eqn:Hmem
  end.
  - subst m. unfold post_move. now destruct (Move.vals m0).
  - subst m0.
    destruct (MoveState.is_done (MoveVals.state (Move.vals m))) eqn:Hdone; [reflexivity|].
    exfalso.
    match type of Hmem with
    | mem _ ?ids = false => assert (Hin : mem (Move.id m) ids = true)
    end; [|congruence].
    apply mem_In, in_map. apply filter_In. split; [|now rewrite Hdone].
    apply in_flat_map. exists j. split; [exact Hj|].
    apply filter_In. now split.
Qed.

(** X22.  Posting is idempotent: [post_inventory] never raises, touches
    nothing but the state of moves, and a second call on the same
    inventories finds them all done and changes nothing. *)
Theorem post_inventory_idempotent self s :
  exists s1,
    post_inventory self s = (inr true, s1)
    /\ post_inventory self s1 = (inr true, s1)
    /\ lines s1 = lines s /\ inventories s1 = inventories s /\ locations s1 = locations s
    /\ Forall2 (fun m m' =>
                  m' = m
                  \/ (m' = post_move m
                      /\ MoveState.is_done (MoveVals.state (Move.vals m)) = false))
               (moves s) (moves s1).
Proof.
  exists (posted self s). split; [apply post_inventory_run|]. split.
  - rewrite post_inventory_run. f_equal.
    assert (Hnone : filter (fun move => negb (MoveState.is_done
                                                (MoveVals.state (Move.vals move))))
                           (flat_map (move_ids (posted self s)) self) = []).
    { apply filter_none. intros m Hm. now rewrite (posted_done self s m Hm). }
    unfold posted at 1. rewrite Hnone. cbn [map mem existsb].
    rewrite map_id. now destruct s.
  - split; [reflexivity|]. split; [reflexivity|]. split; [reflexivity|].
    unfold posted. cbn [moves set_moves]. apply Forall2_map_r. intros m _.
    match goal with
    | |- context [mem (Move.id m) ?ids] => destruct (mem (Move.id m) ids) eqn:Hmem
    end; [|now left].
    destruct (MoveState.is_done (MoveVals.state (Move.vals m))) eqn:Hdone; [|now right].
    left. unfold post_move. destruct m as [id vals]. cbn [Move.vals Move.id] in *.
    f_equal. apply set_state_done_id. now destruct (MoveVals.state vals).
Qed.

(** ** From the start to the validation *)

Lemma counted_line_equal E k v v' :
  counted_as_expected E v -> prepared_from E v v' ->
  Line.product_qty (line_of_values E k v') = Line.theoretical_qty (line_of_values E k v').
Proof.
  intros [q [Hth [Hqty _]]] [_ [_ [Hpq [Hth' _]]]].
  cbn [line_of_values Line.product_qty Line.theoretical_qty].
  now rewrite Hpq, Hqty, (Hth' q Hth).
Qed.

Lemma Qeq_bool_same q : Qeq_bool q q = true.
Proof. apply Qeq_bool_iff. reflexivity. Qed.

Lemma map_vals_nil (ms : list Move.t) : map Move.vals ms = [] -> ms = [].
Proof. now destruct ms. Qed.

(** A draft inventory without lines, started with the default prefill
    and closed right away: both steps go through, and closing makes no
    move. *)
Lemma start_then_done E s i inventory :
  lines_wf s -> catalogue_wf E -> ledger_storable E -> positive_roundings E ->
  (forall p, In p (Inventory.product_ids inventory) ->
             product_type E (Some p) = Some ProductType.product) ->
  NoDup (Inventory.product_ids inventory) ->
  NoDup (Inventory.location_ids inventory) ->
  browse_inventory s (Some i) = Some inventory ->
  Inventory.state inventory = State.draft ->
  Inventory.prefill_counted_quantity inventory = Prefill.counted ->
  Inventory.start_empty inventory = false ->
  line_ids s i = [] ->
  exists s1 s2,
    _action_start E [i] s = (inr tt, s1)
    /\ _action_done E [i] s1 = (inr true, s2)
    /\ browse_inventory s1 (Some i)
       = Some (Inventory.set_state_date State.confirm (now E) inventory)
    /\ asks_confirmation E s1 i = false
    /\ browse_inventory s2 (Some i)
       = Some (Inventory.set_state_date State.done (now E) inventory)
    /\ lines s2 = lines s1
    /\ move_ids s2 i = [].
Proof.
  intros Hwf Hcat Hledger Hpos Hprods Hndp Hndl Hb Hst Hpre Hfill Hnone.
  pose proof (browse_inventory_id _ _ _ Hb) as Hid.
  pose proof (get_inventory_lines_values_counted E s inventory Hpre) as Hvals.
  pose proof (create_snapshot_run E s i inventory Hwf Hcat Hledger Hprods Hndp Hndl Hid
                                  Hnone) as Hc.
  destruct (create_inv _ _ _ _ _ Hc) as [pv [Hpv [Hreq [_ [Hs0 _]]]]].
  rewrite Hs0 in Hc. clear Hs0.
  set (s1 := started E i (inserted E s pv)).
  assert (Hstart : _action_start E [i] s = (inr tt, s1)).
  { rewrite (action_start_draft_run E s i inventory Hb Hst), Hnone, Hfill.
    cbn [is_set negb andb]. now rewrite Hc. }
  assert (Hb1 : browse_inventory s1 (Some i)
                = Some (Inventory.set_state_date State.confirm (now E) inventory))
    by (now apply started_browse).
  assert (Hlines : forall l, In l (line_ids s1 i) ->
                     Line.product_qty l = Line.theoretical_qty l
                     /\ line_move_values E s1 l = None).
  { intros l Hl. unfold line_ids in Hl. apply filter_In in Hl. destruct Hl as [Hl Hinv].
    cbn [s1 started lines set_inventories inserted] in Hl.
    apply in_app_or in Hl. destruct Hl as [Hold|Hnew].
    { rewrite (line_ids_empty s i l Hnone Hold) in Hinv. discriminate. }
    apply new_lines_In in Hnew. destruct Hnew as [k [v' [Hv' ->]]].
    destruct (Forall2_In_r _ _ _ _ Hpv Hv') as [v [Hv Hprep]].
    rewrite Forall_forall in Hvals. rewrite forallb_forall in Hreq.
    split.
    - now apply (counted_line_equal E k v v'); auto.
    - now apply (line_of_counted_values E _ k v v'); auto. }
  assert (Hregen : regenerated E s1 i = []).
  { unfold regenerated. apply filter_map_nil. intros l Hl. now apply Hlines. }
  assert (Hneg : find negative_line (flat_map (line_ids s1) [i]) = None).
  { destruct (find negative_line (flat_map (line_ids s1) [i])) as [l|] eqn:Hf;
      [exfalso|reflexivity].
    apply find_some in Hf. destruct Hf as [Hl Hn].
    cbn [flat_map] in Hl. rewrite app_nil_r in Hl.
    destruct (Hlines l Hl) as [Heq _]. unfold negative_line in Hn.
    rewrite Heq, Qeq_bool_same, andb_false_r in Hn. discriminate. }
  assert (Hopen : open_ids s1 [i] = [i]).
  { unfold open_ids, browse_inventories. rewrite filter_map_cons, Hb1.
    cbn [filter_map flat_map filter not_done_or_cancel Inventory.state
         Inventory.set_state_date map Inventory.id]. now rewrite Hid. }
  exists s1.
  exists (stamped E [i] (posted [i] (done_written E [i] (checked_all E (open_ids s1 [i]) s1)))).
  split; [exact Hstart|]. split; [|split; [|split; [|split; [|split]]]].
  - exact (action_done_run E [i] s1 Hneg).
  - exact Hb1.
  - assert (Huntracked : filter (untracked_difference E) (line_ids s1 i) = []).
    { apply filter_none. intros l Hl. destruct (Hlines l Hl) as [Heq _].
      unfold untracked_difference. rewrite Heq, Qeq_bool_same. cbn [negb].
      destruct (product_tracking E (Line.product_id l)) as [[ | | ]|];
        try reflexivity; now destruct (Line.prod_lot_id l). }
    unfold asks_confirmation. now rewrite Huntracked.
  - destruct (checked_all_frame E (open_ids s1 [i]) s1) as [_ [Hi _]].
    set (s2 := checked_all E (open_ids s1 [i]) s1) in *.
    assert (Hinv : inventories (stamped E [i] (posted [i] (done_written E [i] s2)))
                   = inventories (done_written E [i] s2)).
    { unfold stamped. now destruct (stamps_locations E _ [i]). }
    unfold browse_inventory at 1. rewrite Hinv.
    change (browse_inventory (done_written E [i] s2) (Some i)
            = Some (Inventory.set_state_date State.done (now E) inventory)).
    rewrite done_written_browse. unfold browse_inventory. rewrite Hi.
    fold (browse_inventory s1 (Some i)). rewrite Hb1. cbn [option_map mem existsb].
    now rewrite Z.eqb_refl.
  - destruct (checked_all_frame E (open_ids s1 [i]) s1) as [Hl _].
    unfold stamped. now destruct (stamps_locations E _ [i]).
  - rewrite Hopen. cbn [checked_all fold_left].
    assert (Hmoves : forall X, move_ids (stamped E [i] X) i = move_ids X i).
    { intro X. unfold stamped. now destruct (stamps_locations E X [i]). }
    rewrite Hmoves. apply map_vals_nil.
    rewrite (posted_move_ids [i] _ i (or_introl eq_refl)).
    change (move_ids (done_written E [i] (checked E s1 i)) i)
      with (move_ids (checked E s1 i) i).
    now rewrite checked_move_ids, Hregen.
Qed.

(** Past the guards and the prompt, [action_validate] is [_action_done]
    followed by the two company checks. *)
Lemma action_validate_passes E check s i inventory closed :
  browse_inventory s (Some i) = Some inventory ->
  group_stock_manager E = true ->
  Inventory.state inventory = State.confirm ->
  asks_confirmation E s i = false ->
  _action_done E [i] s = (inr true, closed) ->
  check Model.stock_inventory_line (map Line.id (line_ids closed i)) closed
  = (inr tt, closed) ->
  check Model.stock_inventory [i] closed = (inr tt, closed) ->
  action_validate E check i s = (inr Validated, closed).
Proof.
  intros Hb Hmanager Hconfirm Hask Hdone Hc1 Hc2.
  unfold action_validate, bind, get.
  rewrite Hb, Hmanager, Hconfirm. cbn [negb State.eqb].
  unfold asks_confirmation in Hask.
  destruct (filter (untracked_difference E) (line_ids s i)) as [|x xs].
  - now rewrite Hdone, Hc1, Hc2.
  - destruct (filter (serial_above_one E) (line_ids s i)) as [|y ys];
      [discriminate Hask|].
    now rewrite Hdone, Hc1, Hc2.
Qed.

(** X23.  Counting nothing changes nothing.  On a sound catalogue, a
    draft inventory without lines that is started with the default
    prefill and validated right away by a stock manager goes through
    both steps without error, provided the company checks that close the
    validation accept the closed inventory and its lines: it ends
    validated and dated, with the lines that the start gave it, and
    without a single move. *)
Theorem start_then_validate E check s i inventory :
  lines_wf s -> catalogue_wf E -> ledger_storable E -> positive_roundings E ->
  group_stock_manager E = true ->
  (forall p, In p (Inventory.product_ids inventory) ->
             product_type E (Some p) = Some ProductType.product) ->
  NoDup (Inventory.product_ids inventory) ->
  NoDup (Inventory.location_ids inventory) ->
  browse_inventory s (Some i) = Some inventory ->
  Inventory.state inventory = State.draft ->
  Inventory.prefill_counted_quantity inventory = Prefill.counted ->
  Inventory.start_empty inventory = false ->
  line_ids s i = [] ->
  let s1 := snd (_action_start E [i] s) in
  let s2 := snd (_action_done E [i] s1) in
  check Model.stock_inventory_line (map Line.id (line_ids s2 i)) s2 = (inr tt, s2) ->
  check Model.stock_inventory [i] s2 = (inr tt, s2) ->
  _action_start E [i] s = (inr tt, s1)
  /\ action_validate E check i s1 = (inr Validated, s2)
  /\ browse_inventory s2 (Some i)
     = Some (Inventory.set_state_date State.done (now E) inventory)
  /\ lines s2 = lines s1
  /\ move_ids s2 i = [].
Proof.
  intros Hwf Hcat Hledger Hpos Hmanager Hprods Hndp Hndl Hb Hst Hpre Hfill Hnone.
  cbv zeta.
  destruct (start_then_done E s i inventory Hwf Hcat Hledger Hpos Hprods Hndp Hndl
                            Hb Hst Hpre Hfill Hnone)
    as [s1 [s2 [Hstart [Hdone [Hb1 [Hask [Hb2 [Hlines Hmoves]]]]]]]].
  rewrite Hstart. cbn [snd]. rewrite Hdone. cbn [snd]. intros Hc1 Hc2.
  split; [reflexivity|]. split; [|now split].
  now apply (action_validate_passes
               E check s1 i
               (Inventory.set_state_date State.confirm (now E) inventory) s2).
Qed.

Lemma demo_start_manager : group_stock_manager DemoStart.E = true.
Proof. reflexivity. Qed.

Lemma start_then_validate_witness :
  let check := DemoCompany._check_company DemoStart.E in
  let s1 := snd (_action_start DemoStart.E [1] DemoStart.store) in
  let s2 := snd (_action_done DemoStart.E [1] s1) in
  _action_start DemoStart.E [1] DemoStart.store = (inr tt, s1)
  /\ action_validate DemoStart.E check 1 s1 = (inr Validated, s2)
  /\ browse_inventory s2 (Some 1)
     = Some (Inventory.set_state_date State.done (now DemoStart.E)
                                      DemoStart.draft_inventory)
  /\ lines s2 = lines s1
  /\ move_ids s2 1 = [].
Proof.
  intro check.
  apply (start_then_validate DemoStart.E check DemoStart.store 1
                             DemoStart.draft_inventory).
  - exact demo_start_lines_wf.
  - exact demo_start_catalogue_wf.
  - exact demo_start_ledger_storable.
  - exact demo_start_positive_roundings.
  - reflexivity.
  - intros p [].
  - constructor.
  - cbn. repeat constructor. intros [].
  - reflexivity.
  - reflexivity.
  - reflexivity.
  - reflexivity.
  - reflexivity.
  - reflexivity.
  - reflexivity.
Defined.


(** ** A second cyclic run *)

Lemma superseded_locations E s s' locs x :
  locations s' = locations s -> superseded E s' locs x = superseded E s locs x.
Proof. intro H. unfold superseded, browse_location. now rewrite H. Qed.

Lemma due_locations_locations E s s' company_id :
  locations s' = locations s ->
  due_locations E s' company_id = due_locations E s company_id.
Proof. intro H. unfold due_locations. now rewrite H. Qed.

Lemma browse_location_NoDup s l :
  locations_wf s -> In l (locations s) -> browse_location s (Location.id l) = Some l.
Proof.
  unfold locations_wf, browse_location. intros Hnd Hl.
  induction (locations s) as [|y ys IH]; [destruct Hl|].
  cbn [map] in Hnd. inversion Hnd as [|? ? Hy Hys]; subst.
  cbn [find]. destruct Hl as [->|Hl]; [now rewrite Z.eqb_refl|].
  destruct (Location.id y =? Location.id l) eqn:Heq; [|now apply IH].
  exfalso. apply Z.eqb_eq in Heq. apply Hy. rewrite Heq. now apply in_map.
Qed.

Lemma has_ancestor_in_subset ids ids' l :
  (forall a, In a ids -> In a ids') ->
  has_ancestor_in ids' l = false -> has_ancestor_in ids l = false.
Proof.
  intros Hsub H. destruct (has_ancestor_in ids l) eqn:Hup; [|reflexivity].
  apply has_ancestor_in_spec in Hup. destruct Hup as [a [Ha Hin]].
  assert (Hup' : has_ancestor_in ids' l = true)
    by (apply has_ancestor_in_spec; exists a; auto).
  congruence.
Qed.

(** A fresh inventory of a run is not superseded on the day it is made. *)
Lemma fresh_not_superseded E s company_id l x :
  locations_wf s -> today_midnight E <= now E ->
  In l (locations_to_inventory E s company_id) ->
  in_progress_for (Location.id l) x -> Inventory.create_date x = now E ->
  superseded E s (without_descendants (due_locations E s company_id)) x = false.
Proof.
  intros Hlwf Hclock Hl [Hloc _] Hdate.
  unfold locations_to_inventory in Hl. apply filter_In in Hl. destruct Hl as [Htop _].
  pose proof Htop as Htop'. unfold without_descendants in Htop'.
  apply filter_In in Htop'. destruct Htop' as [Hdue Hnoanc].
  assert (Hstored : In l (locations s))
    by (unfold due_locations in Hdue; apply filter_In in Hdue; tauto).
  assert (Hsub : forall a,
             In a (map Location.id (without_descendants (due_locations E s company_id))) ->
             In a (map Location.id (due_locations E s company_id))).
  { intros a Ha. apply in_map_iff in Ha. destruct Ha as [y [<- Hy]]. apply in_map.
    unfold without_descendants in Hy. apply filter_In in Hy. tauto. }
  apply negb_true_iff in Hnoanc.
  unfold superseded. rewrite Hloc, (browse_location_NoDup s l Hlwf Hstored).
  rewrite (has_ancestor_in_subset _ _ l Hsub Hnoanc), Hdate. cbn [orb].
  assert (Hlate : (now E <? today_midnight E) = false) by (apply Z.ltb_ge; lia).
  rewrite Hlate. now rewrite !andb_false_r.
Qed.

Lemma existing_loc_invs_In s x :
  In x (existing_loc_invs s)
  <-> In x (inventories s)
      /\ (match Inventory.state x with
          | State.draft | State.confirm => true
          | _ => false
          end
          && negb (is_set (Inventory.product_ids x))
          && is_set (Inventory.location_ids x)) = true.
Proof. unfold existing_loc_invs. apply filter_In. Qed.

(** After a cyclic run, on the same day, nothing is superseded and no
    location is left to inventory. *)
Lemma cyclic_stable E s company_id s1 news :
  inventories_wf s -> locations_wf s -> today_midnight E <= now E ->
  inventories s1
  = filter (fun i => negb (mem (Inventory.id i)
                               (map Inventory.id (cyclic_deleted E s company_id))))
           (inventories s) ++ news ->
  locations s1 = locations s ->
  Forall2 (fun l x => in_progress_for (Location.id l) x
                      /\ Inventory.state x = State.draft
                      /\ Some (Inventory.company_id x) = Location.company_id l
                      /\ Inventory.create_date x = now E)
          (locations_to_inventory E s company_id) news ->
  cyclic_deleted E s1 company_id = []
  /\ locations_to_inventory E s1 company_id = [].
Proof.
  intros [Hnd _] Hlwf Hclock Hinv Hloc Hnew.
  set (locs := without_descendants (due_locations E s company_id)).
  assert (Hfresh : forall x, In x news -> superseded E s locs x = false).
  { intros x Hx. destruct (Forall2_In_r _ _ _ _ Hnew Hx) as [l [Hl [Hprog [_ [_ Hdate]]]]].
    now apply (fresh_not_superseded E s company_id l x). }
  assert (Hkept : forall x, In x (inventories s1) -> In x (existing_loc_invs s1) ->
                            superseded E s locs x = false).
  { intros x Hx Hex. rewrite Hinv in Hx. apply in_app_or in Hx.
    destruct Hx as [Hx|Hx]; [|now apply Hfresh].
    apply filter_In in Hx. destruct Hx as [Hx Hnot]. apply negb_true_iff in Hnot.
    destruct (superseded E s locs x) eqn:Hsup; [|reflexivity]. exfalso.
    assert (Hdel : mem (Inventory.id x)
                       (map Inventory.id (cyclic_deleted E s company_id)) = true).
    { apply mem_In, in_map. unfold cyclic_deleted. apply filter_In. split; [|exact Hsup].
      apply existing_loc_invs_In. apply existing_loc_invs_In in Hex. tauto. }
    congruence. }
  assert (Hdel1 : cyclic_deleted E s1 company_id = []).
  { unfold cyclic_deleted. rewrite (due_locations_locations E s s1 company_id Hloc).
    fold locs. apply filter_none. intros x Hx.
    rewrite (superseded_locations E s s1 locs x Hloc).
    apply Hkept; [|exact Hx]. apply existing_loc_invs_In in Hx. tauto. }
  split; [exact Hdel1|].
  unfold locations_to_inventory. rewrite (due_locations_locations E s s1 company_id Hloc).
  fold locs. apply filter_none. intros l Hl. apply negb_false_iff.
  assert (Hmem : mem (Location.id l) (map Location.id locs) = true)
    by (apply mem_In; now apply in_map).
  assert (Hcover : forall x, In x (inventories s1) -> in_progress_for (Location.id l) x ->
                     mem (Location.id l)
                         (flat_map Inventory.location_ids
                                   (filter (still_cyclic E s1 locs) (existing_loc_invs s1)))
                     = true).
  { intros x Hx [Hxl [Hxp Hxs]].
    assert (Hex : In x (existing_loc_invs s1)).
    { apply existing_loc_invs_In. split; [exact Hx|].
      rewrite Hxp, Hxl. destruct Hxs as [-> | ->]; reflexivity. }
    apply mem_In, in_flat_map. exists x. split.
    - apply filter_In. split; [exact Hex|].
      unfold still_cyclic. rewrite Hxl, Hmem, andb_true_r.
      rewrite (superseded_locations E s s1 locs x Hloc).
      now rewrite (Hkept x Hx Hex).
    - rewrite Hxl. now left. }
  destruct (mem (Location.id l)
                (flat_map Inventory.location_ids
                          (filter (still_cyclic E s locs) (existing_loc_invs s))))
    eqn:Hcov.
  - apply mem_In, in_flat_map in Hcov. destruct Hcov as [x [Hx Hxl]].
    apply filter_In in Hx. destruct Hx as [Hex Hcyc].
    pose proof Hex as Hex'. apply existing_loc_invs_spec in Hex'.
    destruct Hex' as [Hin [Hst [Hprod _]]].
    unfold still_cyclic in Hcyc.
    destruct (Inventory.location_ids x) as [|loc [|loc' rest]] eqn:Hlocs;
      try discriminate Hcyc.
    destruct Hxl as [->|[]].
    apply andb_true_iff in Hcyc. destruct Hcyc as [Hnot _].
    apply negb_true_iff in Hnot.
    apply (Hcover x).
    + rewrite Hinv. apply in_or_app. left. apply filter_In. split; [exact Hin|].
      apply negb_true_iff.
      destruct (mem (Inventory.id x) (map Inventory.id (cyclic_deleted E s company_id)))
        eqn:Hdel; [|reflexivity].
      apply (cyclic_deleted_mem E s company_id x Hnd Hin) in Hdel.
      unfold cyclic_deleted in Hdel. apply filter_In in Hdel. destruct Hdel as [_ Hsup].
      fold locs in Hsup. congruence.
    + unfold in_progress_for. auto.
  - assert (Hsel : In l (locations_to_inventory E s company_id)).
    { unfold locations_to_inventory. fold locs. apply filter_In. split; [exact Hl|].
      now rewrite Hcov. }
    destruct (Forall2_In_l _ _ _ _ Hnew Hsel) as [x [Hx [Hprog _]]].
    apply (Hcover x); [|exact Hprog].
    rewrite Hinv. apply in_or_app. now right.
Qed.

(** X24.  The cyclic counts are idempotent within a day.  Run a second
    time on the store that a first run has left, with the clock past the
    midnight of the day, the cyclic part of the task deletes nothing and
    creates nothing. *)
Theorem cyclic_run_idempotent E s company_id :
  inventories_wf s -> locations_wf s -> today_midnight E <= now E ->
  exists s1 s2,
    _run_inventory_tasks E (fun _ => ret tt) company_id s = (inr tt, s1)
    /\ _run_inventory_tasks E (fun _ => ret tt) company_id s1 = (inr tt, s2)
    /\ inventories s2 = inventories s1
    /\ lines s2 = lines s1
    /\ moves s2 = moves s1
    /\ locations s2 = locations s1.
Proof.
  intros Hwf Hlwf Hclock.
  destruct (cyclic_run E (fun _ => ret tt) s company_id)
    as [s1 [news [Hrun [Hinv [Hlines [Hmoves [Hlocs [_ [Hnew _]]]]]]]]].
  destruct (cyclic_stable E s company_id s1 news Hwf Hlwf Hclock Hinv Hlocs Hnew)
    as [Hdel Hsel].
  destruct (cyclic_run E (fun _ => ret tt) s1 company_id)
    as [s2 [news2 [Hrun2 [Hinv2 [Hlines2 [Hmoves2 [Hlocs2 [_ [Hnew2 _]]]]]]]]].
  exists s1, s2. split; [exact Hrun|]. split; [exact Hrun2|].
  rewrite Hdel in Hinv2, Hlines2. rewrite Hsel in Hnew2. inversion Hnew2; subst.
  cbn [map mem existsb negb] in Hinv2, Hlines2.
  split; [|split; [|split; assumption]].
  - rewrite Hinv2, app_nil_r. now apply filter_all.
  - rewrite Hlines2. apply filter_all. intros l _. now destruct (Line.inventory_id l).
Qed.

Lemma cyclic_run_idempotent_witness :
  exists s1 s2,
    _run_inventory_tasks Demo.E (fun _ => ret tt) None DemoCyclic.store = (inr tt, s1)
    /\ _run_inventory_tasks Demo.E (fun _ => ret tt) None s1 = (inr tt, s2)
    /\ inventories s2 = inventories s1
    /\ lines s2 = lines s1
    /\ moves s2 = moves s1
    /\ locations s2 = locations s1.
Proof.
  apply (cyclic_run_idempotent Demo.E DemoCyclic.store None).
  - exact demo_cyclic_inventories_wf.
  - unfold locations_wf. cbn. repeat constructor; cbn; intuition discriminate.
  - cbn. lia.
Defined.

(** The first run of the demonstration creates the inventories of the
    stock and of the dock; the second run leaves the two of them. *)
Example cyclic_run_twice_demo :
  let s1 := snd (_run_inventory_tasks Demo.E (fun _ => ret tt) None DemoCyclic.store) in
  let s2 := snd (_run_inventory_tasks Demo.E (fun _ => ret tt) None s1) in
  map Inventory.location_ids (inventories s1) = [[21]; [23]]
  /\ inventories s2 = inventories s1.
Proof. split; reflexivity. Qed.


(** ** Refreshing goes through *)

Lemma distinct_no_duplicate s i :
  distinct_keys s -> has_duplicate s i = false.
Proof.
  intro Hdist. unfold has_duplicate.
  destruct (browse_line s i) as [line|] eqn:Hb; [|reflexivity].
  apply browse_line_In in Hb. destruct Hb as [Hline _].
  apply existsb_false. intros other Hother.
  destruct (duplicate_of line other) eqn:Hd; [|reflexivity]. exfalso.
  apply duplicate_of_spec in Hd. destruct Hd as [Hne [Hkey Hinv]].
  exact (Hdist other line Hother Hline Hne Hinv Hkey).
Qed.

Lemma refreshing_distinct ids s s' :
  refreshing_of ids s s' -> distinct_keys s -> distinct_keys s'.
Proof.
  intros [_ [_ [_ [f [Hf Hf']]]]] Hdist l1' l2' H1 H2 Hid Hinv Hkey.
  rewrite Hf in H1, H2. apply in_map_iff in H1, H2.
  destruct H1 as [l1 [<- H1]]. destruct H2 as [l2 [<- H2]].
  destruct (Hf' l1) as [R1 _]. destruct (Hf' l2) as [R2 _].
  unfold refreshed in R1, R2.
  apply (Hdist l1 l2 H1 H2).
  - rewrite R1, R2 in Hid. exact Hid.
  - rewrite R1, R2 in Hinv. exact Hinv.
  - rewrite R1, R2 in Hkey. exact Hkey.
Qed.

Lemma refreshing_browse_line ids s s' j l' :
  refreshing_of ids s s' -> browse_line s' j = Some l' ->
  exists l, browse_line s j = Some l /\ refreshed l l'.
Proof.
  intros [_ [_ [_ [f [Hf Hf']]]]]. unfold browse_line. rewrite Hf. clear Hf.
  induction (lines s) as [|x xs IH]; cbn [map find]; [discriminate|].
  destruct (Hf' x) as [Rx _]. rewrite (refreshed_id _ _ Rx).
  destruct (Line.id x =? j).
  - intro H. inversion H; subst. now exists x.
  - exact IH.
Qed.

Lemma write_refresh_ok E i vals s :
  LineWrite.is_editable vals = None -> LineWrite.inventory_id vals = None ->
  LineWrite.partner_id vals = None -> LineWrite.product_id vals = None ->
  LineWrite.product_uom_id vals = None -> LineWrite.product_qty vals = None ->
  LineWrite.location_id vals = None -> LineWrite.package_id vals = None ->
  LineWrite.prod_lot_id vals = None ->
  distinct_keys s ->
  write E [i] vals s = (inr true, updated [i] vals s)
  /\ refreshing_of [i] s (updated [i] vals s)
  /\ distinct_keys (updated [i] vals s).
Proof.
  intros He Hi Hpa Hp Hu Hq Hl Hk Hlot Hdist.
  destruct (refreshing_updated E i vals s He Hi Hpa Hp Hu Hq Hl Hk Hlot) as [r [_ Hfr]].
  pose proof (refreshing_distinct _ _ _ Hfr Hdist) as Hdist'.
  split; [|split; assumption].
  rewrite write_run. unfold required_emptied. rewrite Hp, Hu, Hl.
  cbn [writes_null orb is_some andb]. rewrite andb_false_r.
  cbn [existsb]. now rewrite (distinct_no_duplicate _ i Hdist').
Qed.

Lemma refresh_line_ok E gather i s :
  distinct_keys s ->
  (forall line, browse_line s i = Some line ->
                browse_inventory s (Line.inventory_id line) <> None) ->
  fst (refresh_line E gather i s) = inr tt
  /\ distinct_keys (snd (refresh_line E gather i s)).
Proof.
  intros Hdist Hinv. unfold refresh_line, bind, get.
  destruct (browse_line s i) as [line|] eqn:Hb; [|now split].
  specialize (Hinv line eq_refl).
  assert (Hout : exists b, line_outdated E s line = inr b).
  { unfold line_outdated.
    destruct (browse_inventory s (Line.inventory_id line)); [|now destruct Hinv].
    destruct (state_is_done (line_state s line) || (Line.id line =? 0)); [now exists false|].
    destruct (negb _); eexists; reflexivity. }
  destruct Hout as [[|] Hout]; rewrite Hout; [|now split].
  set (quants := gather _ _ _ _ _).
  destruct (write_refresh_ok E i (theoretical_qty_vals (sum_quantities quants)) s)
    as [Hw1 [_ Hd1]]; try reflexivity; [exact Hdist|].
  destruct (write_refresh_ok E i (theoretical_qty_vals 0%Q) s)
    as [Hw0 [_ Hd0]]; try reflexivity; [exact Hdist|].
  destruct (is_set quants).
  - unfold when_.
    destruct (negb (Qeq_bool (Line.theoretical_qty line) (sum_quantities quants))).
    + unfold bind. rewrite Hw1. cbn [ret].
      destruct (write_refresh_ok E i (inventory_date_vals (now E))
                  (updated [i] (theoretical_qty_vals (sum_quantities quants)) s))
        as [Hw2 [_ Hd2]]; try reflexivity; [exact Hd1|].
      rewrite Hw2. now split.
    + cbn [ret].
      destruct (write_refresh_ok E i (inventory_date_vals (now E)) s)
        as [Hw2 [_ Hd2]]; try reflexivity; [exact Hdist|].
      rewrite Hw2. now split.
  - unfold bind. rewrite Hw0. cbn [ret].
    destruct (write_refresh_ok E i (inventory_date_vals (now E))
                (updated [i] (theoretical_qty_vals 0%Q) s))
      as [Hw2 [_ Hd2]]; try reflexivity; [exact Hd0|].
    rewrite Hw2. now split.
Qed.

Lemma refresh_loop_ok E gather todo : forall s,
  distinct_keys s ->
  (forall i line, In i todo -> browse_line s i = Some line ->
                  browse_inventory s (Line.inventory_id line) <> None) ->
  fst (for_each todo (refresh_line E gather) s) = inr tt
  /\ distinct_keys (snd (for_each todo (refresh_line E gather) s)).
Proof.
  induction todo as [|i todo IH]; intros s Hdist Hinv; [now split|].
  cbn [for_each]. unfold bind.
  destruct (refresh_line_ok E gather i s Hdist) as [Hok Hdist1];
    [intros line; apply Hinv; now left|].
  pose proof (refresh_line_frame E gather i s) as Hframe.
  destruct (refresh_line E gather i s) as [[e|[]] s1]; cbn [fst snd] in *;
    [discriminate Hok|].
  apply IH; [exact Hdist1|].
  intros j line1 Hj Hb1.
  destruct (refreshing_browse_line _ _ _ _ _ Hframe Hb1) as [line [Hb Href]].
  destruct Hframe as [Hi _].
  unfold refreshed in Href. rewrite Href. cbn [Line.inventory_id].
  unfold browse_inventory. rewrite Hi.
  apply (Hinv j line); [now right | exact Hb].
Qed.

(** X25.  Refreshing goes through on a consistent store.  When no two
    lines of an inventory share their key and every line of the recordset
    belongs to an inventory, [action_refresh_quantity] raises nothing,
    whatever the ledger gathers, and it leaves a store in which no two
    lines of an inventory share their key. *)
Theorem action_refresh_quantity_succeeds E gather self s :
  distinct_keys s ->
  (forall line, In line (browse_lines s self) ->
                browse_inventory s (Line.inventory_id line) <> None) ->
  exists s',
    action_refresh_quantity E gather self s = (inr tt, s')
    /\ distinct_keys s'.
Proof.
  intros Hdist Hinv.
  set (todo := map Line.id
                   (filter (fun l => negb (state_is_done (line_state s l)))
                           (browse_lines s self))).
  change (action_refresh_quantity E gather self s)
    with (for_each todo (refresh_line E gather) s).
  destruct (refresh_loop_ok E gather todo s Hdist) as [Hok Hdist'].
  - intros i line Hi Hb. apply Hinv.
    unfold todo in Hi. apply in_map_iff in Hi. destruct Hi as [l0 [Hid Hl0]].
    apply filter_In in Hl0. destruct Hl0 as [Hl0 _].
    pose proof Hl0 as Hl0'. unfold browse_lines in Hl0'.
    apply filter_map_In in Hl0'. destruct Hl0' as [i0 [_ Hb0]].
    pose proof (browse_line_In _ _ _ Hb0) as [_ Hid0].
    assert (Hsame : Some l0 = Some line) by congruence.
    inversion Hsame; subst. exact Hl0.
  - destruct (for_each todo (refresh_line E gather) s) as [[e|[]] s'];
      cbn [fst snd] in *; [discriminate Hok|].
    now exists s'.
Qed.

Lemma demo_distinct_keys : distinct_keys Demo.store.
Proof.
  intros l l' Hl Hl' Hid Hinv Hk. cbn in Hl, Hl'.
  repeat match goal with
         | H : _ \/ _ |- _ => destruct H as [H|H]
         | H : False |- _ => destruct H
         end; subst; try (now apply Hid); discriminate Hk.
Qed.

Lemma action_refresh_quantity_succeeds_witness :
  exists s',
    action_refresh_quantity DemoStart.E DemoRefresh.gather [1; 2; 3] Demo.store
    = (inr tt, s')
    /\ distinct_keys s'.
Proof.
  apply (action_refresh_quantity_succeeds DemoStart.E DemoRefresh.gather [1; 2; 3]
                                          Demo.store).
  - exact demo_distinct_keys.
  - intros line Hline. cbn in Hline.
    repeat match goal with
           | H : _ \/ _ |- _ => destruct H as [H|H]
           | H : False |- _ => destruct H
           end; subst; discriminate.
Defined.


(** ** Back to draft, and started again *)

Lemma line_unlink_wf self s : lines_wf s -> lines_wf (snd (line_unlink self s)).
Proof.
  intros [Hnd Hlt]. unfold lines_wf. cbn [line_unlink modify snd lines line_seq set_lines].
  split; [now apply NoDup_map_filter|].
  apply Forall_forall. intros l Hl. apply filter_In in Hl. destruct Hl as [Hl _].
  rewrite Forall_forall in Hlt. now apply Hlt.
Qed.

(** X26.  An inventory that is sent back to draft can be started again.
    Whatever its state, when the ledger cancels its moves and touches
    nothing else, [action_cancel_draft] followed by [_action_start] goes
    through on a sound catalogue: the inventory is confirmed and dated
    anew, and its lines are those of the quantity snapshot of that
    moment (none if it starts empty is set). *)
Theorem cancel_draft_then_start E (cancel : list Move.t -> M unit) s i inventory sc :
  lines_wf s -> catalogue_wf E -> ledger_storable E ->
  (forall p, In p (Inventory.product_ids inventory) ->
             product_type E (Some p) = Some ProductType.product) ->
  NoDup (Inventory.product_ids inventory) ->
  NoDup (Inventory.location_ids inventory) ->
  browse_inventory s (Some i) = Some inventory ->
  cancel (flat_map (move_ids s) [i]) s = (inr tt, sc) ->
  lines sc = lines s -> inventories sc = inventories s -> line_seq sc = line_seq s ->
  exists s1 s2,
    action_cancel_draft cancel [i] s = (inr tt, s1)
    /\ line_ids s1 i = []
    /\ _action_start E [i] s1 = (inr tt, s2)
    /\ browse_inventory s2 (Some i)
       = Some (Inventory.set_state_date State.confirm (now E) inventory)
    /\ (Inventory.start_empty inventory = false ->
        map Line.key (line_ids s2 i)
        = map LineVals.key
              (_get_inventory_lines_values
                 E s1 (Inventory.set_state_date State.draft (Inventory.date inventory)
                                                inventory))).
Proof.
  intros Hwf Hcat Hledger Hprods Hndp Hndl Hb Hcancel Hl Hi Hseq.
  assert (Hwfc : lines_wf sc).
  { destruct Hwf as [Hnd Hlt]. split; rewrite Hl; [exact Hnd|]. now rewrite Hseq. }
  set (s0 := snd (line_unlink (flat_map (line_ids sc) [i]) sc)).
  set (s1 := snd (inventory_write_state [i] State.draft s0)).
  assert (Hrun : action_cancel_draft cancel [i] s = (inr tt, s1)).
  { unfold action_cancel_draft, bind, get. now rewrite Hcancel. }
  assert (Hwf1 : lines_wf s1) by (apply (line_unlink_wf _ sc Hwfc)).
  assert (Hnone : line_ids s1 i = []).
  { change (line_ids s1 i) with (line_ids s0 i). unfold s0.
    rewrite line_unlink_ids; [|now destruct Hwfc].
    cbn [mem existsb]. now rewrite Z.eqb_refl. }
  assert (Hb1 : browse_inventory s1 (Some i)
                = Some (Inventory.set_state_date State.draft (Inventory.date inventory)
                                                 inventory)).
  { unfold s1. rewrite inventory_write_state_browse.
    change (browse_inventory s0 (Some i)) with (browse_inventory sc (Some i)).
    unfold browse_inventory. rewrite Hi. fold (browse_inventory s (Some i)).
    rewrite Hb. cbn [option_map mem existsb]. now rewrite Z.eqb_refl. }
  destruct (action_start_ok
              E s1 i
              (Inventory.set_state_date State.draft (Inventory.date inventory) inventory)
              Hwf1 Hcat Hledger Hprods Hndp Hndl Hb1 eq_refl Hnone)
    as [s2 [Hstart [Hb2 [Hkeys _]]]].
  exists s1, s2. split; [exact Hrun|]. split; [exact Hnone|].
  split; [exact Hstart|]. split; [exact Hb2 | exact Hkeys].
Qed.

Lemma cancel_draft_then_start_witness :
  exists s1 s2,
    action_cancel_draft DemoLedger.cancel_moves [1] Demo.store = (inr tt, s1)
    /\ line_ids s1 1 = []
    /\ _action_start DemoStart.E [1] s1 = (inr tt, s2)
    /\ browse_inventory s2 (Some 1)
       = Some (Inventory.set_state_date State.confirm (now DemoStart.E)
                                        Demo.adjustment_inventory)
    /\ (Inventory.start_empty Demo.adjustment_inventory = false ->
        map Line.key (line_ids s2 1)
        = map LineVals.key
              (_get_inventory_lines_values
                 DemoStart.E s1
                 (Inventory.set_state_date State.draft
                                           (Inventory.date Demo.adjustment_inventory)
                                           Demo.adjustment_inventory))).
Proof.
  apply (cancel_draft_then_start DemoStart.E DemoLedger.cancel_moves Demo.store 1
                                 Demo.adjustment_inventory
                                 (snd (DemoLedger.cancel_moves
                                         (flat_map (move_ids Demo.store) [1]) Demo.store))).
  - exact demo_lines_wf.
  - exact demo_start_catalogue_wf.
  - exact demo_start_ledger_storable.
  - intros p [].
  - constructor.
  - cbn. repeat constructor. intros [].
  - reflexivity.
  - reflexivity.
  - reflexivity.
  - reflexivity.
  - reflexivity.
Defined.

(** ** Opening the menu of the inventories *)

(** X27.  Opening the menu of the inventories runs the conflict pass for
    every company; it never raises, hands the window action, and leaves
    every inventory that is not a draft as it is, with its lines. *)
Theorem action_open_inventory_view_safe E warehouse_name s :
  inventories_wf s ->
  exists s',
    action_open_inventory_view E warehouse_name s
    = (inr "stock.action_inventory_form", s')
    /\ moves s' = moves s
    /\ locations s' = locations s
    /\ (forall x, In x (inventories s) -> Inventory.state x <> State.draft ->
                  In x (inventories s')
                  /\ line_ids s' (Inventory.id x) = line_ids s (Inventory.id x)).
Proof.
  intro Hwf.
  destruct (conflict_run_kept E warehouse_name None s Hwf)
    as [s' [Hpass [Hm [Hloc [_ [Hkept _]]]]]].
  exists s'. split; [|split; [exact Hm|split; [exact Hloc|]]].
  - unfold action_open_inventory_view, bind. now rewrite Hpass.
  - intros x Hx Hst. apply (Hkept x Hx). intros [Hd _]. contradiction.
Qed.

Lemma action_open_inventory_view_safe_witness :
  exists s',
    action_open_inventory_view DemoCancel.E DemoConflict.warehouse_name DemoConflict.store
    = (inr "stock.action_inventory_form", s')
    /\ moves s' = moves DemoConflict.store
    /\ locations s' = locations DemoConflict.store
    /\ (forall x, In x (inventories DemoConflict.store) ->
                  Inventory.state x <> State.draft ->
                  In x (inventories s')
                  /\ line_ids s' (Inventory.id x)
                     = line_ids DemoConflict.store (Inventory.id x)).
Proof.
  apply (action_open_inventory_view_safe DemoCancel.E DemoConflict.warehouse_name
                                         DemoConflict.store).
  exact demo_conflict_inventories_wf.
Defined.
